(* ===== verification/_CoqProject ===== *)
-Q . S2P
Prelude.v
Crypto.v
GoTime.v
Codec.v
Program.v
Monotonic.v
Vtxo.v
BoardRows.v
Ledger.v
SignCount.v
Recovery.v
VtxoLedger.v
Allowance.v
VaultBoard.v
Tenant.v
Enrollment.v
Cbor.v
P256.v
Der.v
Json.v
WebAuthn.v
Cosigner.v
Effects.v
Apperr.v
SpendSelect.v
Psbt.v
SpendVerify.v
KeyProvider.v
Trees.v
Savings.v
SavingsFamily.v
Service.v
SpendService.v
SpendSafety.v
SpendRuns.v
SpendDemo.v
Deployment.v
Register.v
Session.v
Transition.v
RecoverySafety.v
EnrollService.v
AppRuns.v
RecoveryDemo.v
EnrollSafety.v
EnrollDemo.v
