(* ===== verification/Prelude.v ===== *)
(** * Arkade Vault server: verification library

    The program ([src/], Go) holds one of the keys of a Bitcoin vault.  It
    enrolls vaults by invite and passkey, co-signs spends of Arkade outputs
    under a rolling 24 hour allowance, journals the boarding of on-chain coins,
    and co-signs recovery transitions.  All durable decisions go through one
    SQLite policy store whose rows carry MACs, next to an external sequence file
    that exposes a restored database.

    ** Parts and files

    - Base: [Prelude] (results, errors, [require], folds, strings, automation),
      [Effects] (the state, error and fuel monad of the handlers with its
      triples and the [keeps] tactic), [Crypto] (SHA-256, HMAC, hex, integers),
      [GoTime] (RFC 3339), [P256], [Json] (encoding/json, base64), all models
      of what the source uses of the Go library.
    - Pinned data: [Program] is [internal/program].
    - Policy store, [internal/policy]: [Codec] (field framing, the class
      [Sealed] of authenticated records), [Monotonic] (monotonic.go), [Vtxo]
      (vtxo.go), [BoardRows] and [VaultBoard] (vault_board.go), [Ledger]
      (ledger.go and the schema's constraints), [SignCount] (signcount.go),
      [Recovery] (session.go), [VtxoLedger] (vtxo_ledger.go), [Tenant]
      (tenant.go, envelope.go, vaultmap.go), [Enrollment] (invite.go,
      pending.go, enrollment_session.go, vault_create.go), [Cosigner]
      (cosigner.go).
    - Passkeys, [internal/webauthn]: [Cbor], [Der], [WebAuthn].
    - Application, [internal/application]: [Apperr] (apperr.go and the error
      half of http.go), [SpendSelect] (coin and fee selection of vtxo.go),
      [Psbt] (psbtguard.go, vault/prevout.go, vault/schnorr.go), [SpendVerify]
      (vtxo_verify.go, vtxo_pending_proof.go), [KeyProvider] (key_provider.go,
      signer.go), [Trees] (vtxo_tree.go, policy/vtxo_script.go), [Service] (the
      checks of service.go the handlers share), [SpendService] (the six handlers
      of vtxo.go and vtxo_abort.go).
    - Savings vaults, [internal/vault/savings]: [Savings] (keys, scripts, trees,
      transitions, the family and its descriptor), [SavingsFamily] (what the
      scripts of an accepted family are).
    - Enrollment and recovery handlers: [Deployment] ([internal/deployment]),
      [Register] (register requests, credentials and descriptors of service.go
      and enroll_*.go), [Session] (session.go, map.go), [Transition]
      (transition.go), [EnrollService] (enroll.go, status.go, start-up), on one
      shared [AppWorld]; [RecoverySafety], [EnrollSafety] (their theorems),
      [AppRuns] (all of these requests interleaved: what they do to the tenant
      tables), [RecoveryDemo], [EnrollDemo] (a concrete vault they are applied
      to).
    - Composition: [Allowance] (the abstract accumulator and the ledger system
      that refines it),
      [SpendSafety] (a rely-guarantee logic for the handlers and its rule for
      each request), [SpendRuns] (runs of requests), [SpendDemo] (a concrete
      service that the theorems are applied to).

    A definition has the name of the Go function it translates; a record's
    fields have the Go names with a prefix.  The map of the manifest gives file
    and lines.  Store operations are functions on the tables (finite maps under
    their primary keys, with the schema's checks); a transaction takes the
    outcome of the file write and of COMMIT as arguments, a handler takes its
    clock readings.  The handlers of [SpendService] are sequences of atomic
    accesses to a shared [World]; between two accesses [others] may change it.
    The recovery handlers run the same way on [AppWorld], which adds the
    challenge table and the rate table that the service keeps in memory.

    ** What the theorems show

    - The allowance: every ledger step, and so every interleaving of handlers,
      restarts, failed writes and clock advances, refines the accumulator of
      [Allowance.Spec]; no vault exceeds its cap, a vault has one live spend, a
      coin one holder, settled rows are final, an unresolved spend fences its
      vault, a snapshot older than a reservation does not start.
    - Store rows: two rows that verify under one MAC are one record, or their two
      canonical payloads collide; digests bind what they cover in the same sense;
      reads return what was committed; the signed row and the strictly advanced
      authenticator counter commit together.
    - Boarding: the journal is append-only and chained, delete and finalize
      exclude each other, rotation is safe, matured paths are refused.
    - Enrollment and recovery: a vault exists exactly for one consumed invite;
      creation is atomic; nobody enrolls without the invite, the authenticator
      and the approved descriptor; what a creation published is what a restart
      rebuilds; one destination per recovered outpoint, for canonical txids (the
      handlers pass the txid of a parsed packet).  A stolen role
      key opens only the delayed leaf of its own claim; the descriptor hash a
      user approves binds every field; a co-signed transition follows the trees
      of the stored credential, ten a minute at most.
    - Sessions: a passkey session consumes its challenge; what was installed is
      what a fresh device recovers, whatever other requests run meanwhile; a deployment is one the release pins.
    - Passkeys: the assertion and registration validators accept exactly what
      their specification says; CBOR decoding is canonical and terminates.
    - Spending: what is signed conserves the reserved value, a pending proof
      moves nothing, signers are exactly the required ones, a selection is
      sound, optimal for a steady Operator and ends within its budget; a key
      capability signs only the inputs, with the key, of its request; wiping
      is final; a vault's tree has exactly its three leaves.
    - The service: every request, interleaved with others that follow the same
      steps, refines the accumulator, so from a fresh store every vault stays
      within the allowance of its verified record; a released signature passed
      every check, each on the store as its request saw it, and is the stored
      one; an abort has the phone's signature over the operation it names and
      takes a still reserved, unsigned row of that vault; a spend reported
      finalized is finalized in the store.

    ** Environment, fuel and bounds

    Third-party code is a class of parameters: [Btc] (btcd: packets, hashes,
    Schnorr), [Ark] and [ArkLib] (arkade scripts, trees, addresses), [Arkade]
    (the script machine), [SavingsLib] (script opcodes, taproot outputs, the
    emulator packet), [CheckpointLib] (the fields of a CSV closure), [MapNumbers]
    (printing and range of JSON numbers), [FeeEnv] (the Operator's fee programs, which may
    answer differently at every evaluation), the curve in [Cosigner].  Their
    facts are hypotheses of the theorems that use them, met by toy instances in
    the witnesses.  Randomised signatures are arguments.

    Fuel: the CBOR decoder takes one more than the input's length, the JSON
    parser one more than twice the length (every value and every element takes
    a byte), the scalar derivation the 256 values of its counter byte, the fee
    search [selection_fuel] = budget + dust limit + 3 rounds; each bound is
    proved sufficient.  Integers are [Z] with the range of their Go type as a
    stated invariant and explicit conversions where the source converts.

    [strings.ToLower] and [strings.TrimSpace] are the ASCII ones; a nil and an
    empty byte slice are one value; error texts are kept where the source
    compares or returns them.

    ** Not modelled

    Opening the database and checking the schema of a file (SQLite
    introspection); the boarding request handlers above the
    store; the HTTP clients of the indexer and of the public Emulator, whose
    answers are parameters; readiness, HTTP routing and request decoding;
    process assembly, profiles and fixtures. *)

From Stdlib Require Import Strings.Byte Strings.Ascii Strings.String.
From stdpp Require Import base decidable list strings gmap countable option.
From Stdlib Require Import ZArith Lia.

#[global] Set Default Proof Using "Type".
Open Scope Z_scope.

(** ** Errors and results

    Go functions return [(value, error)]; a nil error is [Ok], anything else is
    [Err].  [Errorf] is [fmt.Errorf] without wrapping, [Wrapf] is the [%w]
    wrapping, [AppErr] is an application error [&apperr.Error{code, msg}], the
    other constructors are the sentinel errors that callers compare against. *)

Inductive error :=
  | Errorf (msg : string)
  | Wrapf (ctx : string) (e : error)
  | ErrNoRows
  | ErrConstraint (what : string)
  | ErrCommit
  | ErrPeriodAllowanceExceeded
  | ErrVtxoOperationActive
  | ErrRecoveryBusy
  | ErrVerificationBusy
  | AppErr (code msg : string).

#[export] Instance error_eq_dec : EqDecision error.
Proof. solve_decision. Defined.

Inductive result (A : Type) :=
  | Ok (a : A)
  | Err (e : error).
Arguments Ok {A} a.
Arguments Err {A} e.

#[export] Instance result_eq_dec {A} `{EqDecision A} : EqDecision (result A).
Proof. solve_decision. Defined.

#[export] Instance result_ret : MRet result := fun _ a => Ok a.
#[export] Instance result_bind : MBind result := fun _ _ k m =>
  match m with Ok a => k a | Err e => Err e end.

(** An early return: [if !b { return err }]. *)
Definition require (b : bool) (e : error) : result unit :=
  if b then Ok tt else Err e.

(** [fmt.Errorf("ctx: %w", err)] around a call. *)
Definition wrap {A} (ctx : string) (m : result A) : result A :=
  match m with Ok a => Ok a | Err e => Err (Wrapf ctx e) end.

(** [mapM] in list order with the first error returned (a [for] loop). *)
Fixpoint mapR {A B} (f : A -> result B) (l : list A) : result (list B) :=
  match l with
  | [] => Ok []
  | a :: l => b ← f a; bs ← mapR f l; Ok (b :: bs)
  end.

Fixpoint foldR {A S} (f : S -> A -> result S) (s : S) (l : list A) : result S :=
  match l with
  | [] => Ok s
  | a :: l => s' ← f s a; foldR f s' l
  end.

Lemma mapR_cons {A B} (f : A -> result B) a l :
  mapR f (a :: l) = (b ← f a; bs ← mapR f l; Ok (b :: bs)).
Proof. done. Qed.

Lemma foldR_cons {A S} (f : S -> A -> result S) s a l :
  foldR f s (a :: l) = (s' ← f s a; foldR f s' l).
Proof. done. Qed.

Section result_lemmas.
Context {A B : Type}.

Lemma bind_Ok (m : result A) (k : A -> result B) (b : B) :
  (m ≫= k) = Ok b <-> exists a, m = Ok a /\ k a = Ok b.
Proof. destruct m; simpl; naive_solver. Qed.

Lemma Ok_inj (a1 a2 : A) : Ok a1 = Ok a2 -> a1 = a2.
Proof. by intros [= ->]. Qed.

Lemma require_Ok (b : bool) e u : require b e = Ok u <-> b = true.
Proof. destruct b, u; simpl; naive_solver. Qed.

Lemma wrap_Ok ctx (m : result A) a : wrap ctx m = Ok a <-> m = Ok a.
Proof. destruct m; simpl; naive_solver. Qed.

Lemma mapR_Ok (f : A -> result B) l bs :
  mapR f l = Ok bs <-> Forall2 (fun a b => f a = Ok b) l bs.
Proof.
  revert bs. induction l as [|a l IH]; intros bs; simpl.
  - split; [intros [= <-]; constructor | inversion 1; done].
  - destruct (f a) as [b|e] eqn:Ea; simpl.
    + destruct (mapR f l) as [bs'|e] eqn:El; simpl.
      * split; [intros [= <-]; constructor; [done|]; by apply IH|].
        inversion 1 as [|????? Hbs]; subst. apply IH in Hbs. congruence.
      * split; [done|]. inversion 1 as [|????? Hbs]; subst. apply IH in Hbs. congruence.
    + split; [done|]. inversion 1; congruence.
Qed.
End result_lemmas.

Lemma foldR_app {A S} (f : S -> A -> result S) s l1 l2 :
  foldR f s (l1 ++ l2) = (s' ← foldR f s l1; foldR f s' l2).
Proof. revert s; induction l1 as [|a l1 IH]; intros s; simpl; [done|]. destruct (f s a); simpl; auto. Qed.

(** A loop that stays inside an invariant: the induction principle of [foldR]. *)
Lemma foldR_ind {A S} (f : S -> A -> result S) (P : S -> Prop) l s s' :
  P s -> (forall a t t', a ∈ l -> P t -> f t a = Ok t' -> P t') ->
  foldR f s l = Ok s' -> P s'.
Proof.
  revert s. induction l as [|a l IH]; intros s Hs Hstep; simpl; [naive_solver|].
  destruct (f s a) as [t|] eqn:E; simpl; [|done]. apply IH.
  - eapply Hstep; [constructor| |]; done.
  - intros; eapply Hstep; [by constructor| |]; done.
Qed.

(** ** Computations that never return a given error *)

Definition never {A} (e : error) (m : result A) : Prop := m <> Err e.

Lemma never_Ok {A} e (a : A) : never e (Ok a).
Proof. done. Qed.
Lemma never_Err {A} e e' : e' <> e -> never (A := A) e (Err e').
Proof. intros Hne [= ->]. done. Qed.
Lemma never_require b e e' : e' <> e -> never e (require b e').
Proof. intros Hne. destruct b; [done|]. by apply never_Err. Qed.
Lemma never_wrap {A} e ctx (m : result A) : (forall e', Wrapf ctx e' <> e) -> never e (wrap ctx m).
Proof. intros Hne. destruct m; [done|]. by apply never_Err. Qed.
Lemma never_bind {A B} e (m : result A) (k : A -> result B) :
  never e m -> (forall a, never e (k a)) -> never e (m ≫= k).
Proof. intros Hm Hk. destruct m as [a|e']; simpl; [apply Hk|]. intros [= ->]. by apply Hm. Qed.
Lemma never_foldR {A S} e (f : S -> A -> result S) s l : (forall t a, never e (f t a)) -> never e (foldR f s l).
Proof. intros Hf. revert s. induction l; intros s; simpl; [done|]. apply never_bind; auto. Qed.
Lemma never_if {A} e (b : bool) (m1 m2 : result A) : never e m1 -> never e m2 -> never e (if b then m1 else m2).
Proof. by destruct b. Qed.

Create HintDb never.
#[export] Hint Resolve never_Ok never_Err never_require never_wrap never_bind never_foldR never_if : never.
#[export] Hint Extern 2 (_ <> _) => discriminate : never.

(** Inverts every [_ = Ok _] hypothesis built from binds and guards. *)
Ltac inv_ok :=
  repeat match goal with
  | H : (_ ≫= _) = Ok _ |- _ =>
      apply bind_Ok in H; let x := fresh "x" in let Hx := fresh "H" in
      destruct H as (x & Hx & H); cbv beta in H
  | H : require _ _ = Ok _ |- _ => apply require_Ok in H
  | H : wrap _ _ = Ok _ |- _ => apply wrap_Ok in H
  | H : Ok ?a = Ok ?b |- _ => apply Ok_inj in H; first [subst b | subst a | idtac]
  | H : Err _ = Ok _ |- _ => discriminate H
  | H : (let '(_, _) := ?p in _) = Ok _ |- _ => destruct p eqn:?
  | x : unit |- _ => destruct x
  end.

(** Boolean guards to propositions. *)
Ltac bool_prop :=
  repeat match goal with
  | H : _ && _ = true |- _ => apply andb_true_iff in H; destruct H
  | H : _ || _ = false |- _ => apply orb_false_iff in H; destruct H
  | H : negb _ = true |- _ => apply negb_true_iff in H
  | H : negb _ = false |- _ => apply negb_false_iff in H
  | H : bool_decide _ = true |- _ => apply bool_decide_eq_true in H
  | H : bool_decide _ = false |- _ => apply bool_decide_eq_false in H
  | H : (_ <? _) = true |- _ => apply Z.ltb_lt in H
  | H : (_ <? _) = false |- _ => apply Z.ltb_ge in H
  | H : (_ <=? _) = true |- _ => apply Z.leb_le in H
  | H : (_ <=? _) = false |- _ => apply Z.leb_gt in H
  | H : (_ =? _) = true |- _ => apply Z.eqb_eq in H
  | H : (_ =? _) = false |- _ => apply Z.eqb_neq in H
  end.

(** ** Recursion with fuel

    [None] is "out of fuel"; [Some r] is the answer [r] of the code. *)

Definition fbind {A B} (m : option (result A)) (k : A -> option (result B)) : option (result B) :=
  match m with
  | Some (Ok a) => k a
  | Some (Err e) => Some (Err e)
  | None => None
  end.

Lemma fbind_Ok {A B} (m : option (result A)) (k : A -> option (result B)) b :
  fbind m k = Some (Ok b) <-> exists a, m = Some (Ok a) /\ k a = Some (Ok b).
Proof. unfold fbind. destruct m as [[a|e]|]; naive_solver. Qed.

Lemma fbind_total {A B} (m : option (result A)) (k : A -> option (result B)) :
  m <> None -> (forall a, m = Some (Ok a) -> k a <> None) -> fbind m k <> None.
Proof. unfold fbind. destruct m as [[a|e]|]; naive_solver. Qed.

(** More fuel gives the same answer. *)
Lemma fbind_le {A B} (m1 m2 : option (result A)) (k1 k2 : A -> option (result B)) r :
  (forall a, m1 = Some a -> m2 = Some a) -> (forall a, m1 = Some (Ok a) -> k1 a = Some r -> k2 a = Some r) ->
  fbind m1 k1 = Some r -> fbind m2 k2 = Some r.
Proof. unfold fbind. intros Hm Hk. destruct m1 as [[a|e]|]; [|by rewrite (Hm _ eq_refl)|done]. rewrite (Hm _ eq_refl). by apply Hk. Qed.

(** ** Bytes, strings and machine integers

    A Go [[]byte] is a [list byte]; a Go [string] is a [String.string] and
    [[]byte(s)] is [bytes_of s]. *)

Abbreviation bytes := (list byte).

#[export] Instance byte_eq_dec : EqDecision byte := Byte.byte_eq_dec.
#[export] Instance byte_countable : Countable byte.
Proof. exact (inj_countable Byte.to_N Byte.of_N Byte.of_to_N). Defined.

Definition bytes_of (s : string) : bytes := list_byte_of_string s.

Lemma bytes_of_inj s1 s2 : bytes_of s1 = bytes_of s2 -> s1 = s2.
Proof.
  unfold bytes_of. intros H.
  by rewrite <-(string_of_list_byte_of_string s1), <-(string_of_list_byte_of_string s2), H.
Qed.

Definition zlen {A} (l : list A) : Z := Z.of_nat (length l).
Lemma bytes_of_app a b : bytes_of (String.append a b) = bytes_of a ++ bytes_of b.
Proof.
  induction a as [|x a IH]; [done|]. change (String.append (String x a) b) with (String x (String.append a b)).
  unfold bytes_of in *. cbn [list_byte_of_string list_ascii_of_string map]. cbn [app]. f_equal. exact IH.
Qed.

Definition slen (s : string) : Z := zlen (bytes_of s).

Lemma zlen_nonneg {A} (l : list A) : 0 <= zlen l.
Proof. unfold zlen. lia. Qed.

Lemma zlen_app {A} (l1 l2 : list A) : zlen (l1 ++ l2) = zlen l1 + zlen l2.
Proof. unfold zlen. rewrite length_app. lia. Qed.

Lemma zlen_nil_inv {A} (l : list A) : zlen l = 0 -> l = [].
Proof. destruct l; unfold zlen; simpl; [done|lia]. Qed.

Definition seqb (a b : string) : bool := bool_decide (a = b).
Definition beqb (a b : bytes) : bool := bool_decide (a = b).

Lemma seqb_refl s : seqb s s = true.
Proof. by apply bool_decide_eq_true. Qed.
Lemma seqb_neq s1 s2 : s1 <> s2 -> seqb s1 s2 = false.
Proof. apply bool_decide_eq_false_2. Qed.
Lemma seqb_true a b : seqb a b = true <-> a = b.
Proof. apply bool_decide_eq_true. Qed.
Lemma seqb_false a b : seqb a b = false <-> a <> b.
Proof. apply bool_decide_eq_false. Qed.
Lemma beqb_true a b : beqb a b = true <-> a = b.
Proof. apply bool_decide_eq_true. Qed.

Definition int64_max : Z := 2 ^ 63 - 1.
Definition uint32_max : Z := 2 ^ 32 - 1.
Definition uint64_max : Z := 2 ^ 64 - 1.
Definition in_int64 (z : Z) : bool := (- 2 ^ 63 <=? z) && (z <=? int64_max).
Definition in_uint32 (z : Z) : bool := (0 <=? z) && (z <=? uint32_max).
Definition in_uint64 (z : Z) : bool := (0 <=? z) && (z <=? uint64_max).

Definition byte_of_Z (z : Z) : byte :=
  match Byte.of_N (Z.to_N (z mod 256)) with Some b => b | None => x00 end.
Definition Z_of_byte (b : byte) : Z := Z.of_N (Byte.to_N b).

Lemma Z_of_byte_range b : 0 <= Z_of_byte b < 256.
Proof. unfold Z_of_byte. pose proof (Byte.to_N_bounded b). lia. Qed.

Lemma Z_of_byte_of_Z z : Z_of_byte (byte_of_Z z) = z mod 256.
Proof.
  unfold Z_of_byte, byte_of_Z. pose proof (Z.mod_pos_bound z 256 eq_refl) as P.
  destruct (Byte.of_N _) as [b|] eqn:E.
  - apply Byte.to_of_N in E. rewrite E. lia.
  - apply Byte.of_N_None_iff in E. lia.
Qed.

Lemma Z_of_byte_inj b1 b2 : Z_of_byte b1 = Z_of_byte b2 -> b1 = b2.
Proof.
  unfold Z_of_byte. intros H%N2Z.inj.
  pose proof (Byte.of_to_N b1) as E1. rewrite H, Byte.of_to_N in E1. congruence.
Qed.

Lemma byte_of_Z_of_byte b : byte_of_Z (Z_of_byte b) = b.
Proof. apply Z_of_byte_inj. rewrite Z_of_byte_of_Z. apply Z.mod_small, Z_of_byte_range. Qed.

(** ** Decimal printing: [%d] / [strconv.Itoa] and the digits they are made of *)

Definition digit_char (d : Z) : ascii := ascii_of_N (Z.to_N (48 + d)).

Definition digit_val (c : ascii) : option Z :=
  let n := Z.of_N (N_of_ascii c) in
  if (48 <=? n) && (n <=? 57) then Some (n - 48) else None.

Lemma digit_val_char d : 0 <= d < 10 -> digit_val (digit_char d) = Some d.
Proof.
  intros Hd. unfold digit_val, digit_char. rewrite N_ascii_embedding by lia.
  rewrite Z2N.id by lia. rewrite (proj2 (andb_true_iff _ _)); [f_equal; lia|].
  split; apply Z.leb_le; lia.
Qed.

(** Least significant digit first, on [fuel] digits. *)
Fixpoint dec_digits (fuel : nat) (n : Z) : list Z :=
  match fuel with
  | O => []
  | S f => if n <? 10 then [n] else (n mod 10) :: dec_digits f (n / 10)
  end.

Definition dec_fuel (n : Z) : nat := S (Z.to_nat (Z.log2 n)).

Definition string_of_digits (ds : list Z) : string :=
  fold_right (fun d s => String (digit_char d) s) EmptyString ds.

(** [fmt.Sprintf("%d", n)] for a non-negative [n] and for any integer. *)
Definition fmt_uint (n : Z) : string := string_of_digits (rev (dec_digits (dec_fuel n) n)).
Definition fmt_int (n : Z) : string :=
  if n <? 0 then String "-" (fmt_uint (- n)) else fmt_uint n.

Fixpoint digits_of_string (s : string) : option (list Z) :=
  match s with
  | EmptyString => Some []
  | String c s => d ← digit_val c; ds ← digits_of_string s; Some (d :: ds)
  end.

Definition digits_val (ds : list Z) : Z := fold_left (fun acc d => acc * 10 + d) ds 0.

Lemma digits_of_string_of_digits ds :
  Forall (fun d => 0 <= d < 10) ds -> digits_of_string (string_of_digits ds) = Some ds.
Proof.
  induction 1 as [|d ds Hd _ IH]; simpl; [done|]. by rewrite digit_val_char, IH.
Qed.

Lemma dec_digits_range fuel n : 0 <= n -> Forall (fun d => 0 <= d < 10) (dec_digits fuel n).
Proof.
  revert n. induction fuel as [|f IH]; intros n Hn; simpl; [constructor|].
  destruct (Z.ltb_spec n 10); [repeat constructor; lia|].
  constructor; [apply Z.mod_pos_bound; lia|]. apply IH. apply Z.div_pos; lia.
Qed.

Lemma dec_digits_val fuel n :
  0 <= n -> n < 2 ^ Z.of_nat fuel -> fold_right (fun d acc => acc * 10 + d) 0 (dec_digits fuel n) = n.
Proof.
  revert n. induction fuel as [|f IH]; intros n Hn Hlt; simpl.
  - simpl in Hlt. lia.
  - destruct (Z.ltb_spec n 10); simpl; [lia|].
    rewrite IH.
    + pose proof (Z.div_mod n 10). lia.
    + apply Z.div_pos; lia.
    + rewrite Nat2Z.inj_succ, Z.pow_succ_r in Hlt by lia.
      apply Z.div_lt_upper_bound; lia.
Qed.

Lemma dec_fuel_enough n : 0 <= n -> n < 2 ^ Z.of_nat (dec_fuel n).
Proof.
  intros Hn. unfold dec_fuel. rewrite Nat2Z.inj_succ.
  destruct (Z.eq_dec n 0) as [->|]; [done|].
  rewrite Z2Nat.id by apply Z.log2_nonneg. apply Z.log2_spec. lia.
Qed.

(** Printing then reading the digits gives the number back. *)
Lemma digits_fmt_uint n : 0 <= n ->
  exists ds, digits_of_string (fmt_uint n) = Some ds /\ ds <> [] /\ digits_val ds = n.
Proof.
  intros Hn. exists (rev (dec_digits (dec_fuel n) n)). split; [|split].
  - apply digits_of_string_of_digits, Forall_rev, dec_digits_range, Hn.
  - unfold dec_fuel. simpl. destruct (n <? 10); simpl; [done|]. by destruct (rev _).
  - unfold digits_val. rewrite <-fold_left_rev_right, rev_involutive.
    apply dec_digits_val; [done|]. by apply dec_fuel_enough.
Qed.

Lemma fmt_uint_inj n m : 0 <= n -> 0 <= m -> fmt_uint n = fmt_uint m -> n = m.
Proof.
  intros Hn Hm H. destruct (digits_fmt_uint n Hn) as (d1 & E1 & _ & <-).
  destruct (digits_fmt_uint m Hm) as (d2 & E2 & _ & <-). congruence.
Qed.

(** ** Sums over tables *)

Definition zsum {A} (f : A -> Z) (l : list A) : Z := fold_right (fun a acc => f a + acc) 0 l.

Lemma zsum_app {A} (f : A -> Z) l1 l2 : zsum f (l1 ++ l2) = zsum f l1 + zsum f l2.
Proof. induction l1; simpl; lia. Qed.

Lemma zsum_perm {A} (f : A -> Z) l1 l2 : l1 ≡ₚ l2 -> zsum f l1 = zsum f l2.
Proof. induction 1; simpl; lia. Qed.

Lemma zsum_le {A} (f g : A -> Z) l :
  (forall a, a ∈ l -> f a <= g a) -> zsum f l <= zsum g l.
Proof.
  induction l as [|a l IH]; simpl; [lia|]. intros H.
  assert (f a <= g a) by (apply H; constructor).
  assert (zsum f l <= zsum g l) by (apply IH; intros; apply H; by constructor). lia.
Qed.

Lemma zsum_nonneg {A} (f : A -> Z) l : (forall a, a ∈ l -> 0 <= f a) -> 0 <= zsum f l.
Proof.
  induction l as [|a l IH]; simpl; [lia|]. intros H.
  assert (0 <= f a) by (apply H; constructor).
  assert (0 <= zsum f l) by (apply IH; intros; apply H; by constructor). lia.
Qed.

#[export] Instance zsum_proper {A} (f : A -> Z) : Proper ((≡ₚ) ==> eq) (zsum f).
Proof. intros l1 l2. apply zsum_perm. Qed.

Section map_sums.
Context {K V : Type} `{Countable K}.

(** The sum of [f] over the rows of a table. *)
Definition msum (f : V -> Z) (m : gmap K V) : Z := zsum (fun kv => f kv.2) (map_to_list m).

Lemma msum_empty f : msum f ∅ = 0.
Proof. unfold msum. by rewrite map_to_list_empty. Qed.

Lemma msum_insert_new f m k v : m !! k = None -> msum f (<[k:=v]> m) = f v + msum f m.
Proof. intros Hk. unfold msum. by rewrite map_to_list_insert. Qed.

Lemma msum_delete f m k v : m !! k = Some v -> msum f m = f v + msum f (delete k m).
Proof. intros Hk. unfold msum. by rewrite <-(map_to_list_delete m k v Hk). Qed.

Lemma msum_update f m k v v' :
  m !! k = Some v -> msum f (<[k:=v']> m) = f v' - f v + msum f m.
Proof.
  intros Hk. rewrite <-(insert_delete_eq m k v').
  rewrite msum_insert_new by apply lookup_delete_eq.
  rewrite (msum_delete f m k v Hk). lia.
Qed.

Lemma msum_le f g m :
  (forall k v, m !! k = Some v -> f v <= g v) -> msum f m <= msum g m.
Proof.
  intros Hle. apply zsum_le. intros [k v] Hin. apply (Hle k).
  by apply elem_of_map_to_list.
Qed.

Lemma msum_nonneg f m : (forall k v, m !! k = Some v -> 0 <= f v) -> 0 <= msum f m.
Proof.
  intros Hle. apply zsum_nonneg. intros [k v] Hin. apply (Hle k).
  by apply elem_of_map_to_list.
Qed.

Lemma msum_union_le f m1 m2 : m2 ##ₘ m1 -> (forall k v, m2 !! k = Some v -> 0 <= f v) ->
  msum f m1 <= msum f (m1 ∪ m2).
Proof.
  induction m2 as [|k v m2 Hk IH] using map_ind; [rewrite map_union_empty; lia|].
  intros [Hk' Hdis]%map_disjoint_insert_l Hf. rewrite <-insert_union_r by done.
  rewrite msum_insert_new by (by apply lookup_union_None).
  assert (0 <= f v) by (apply (Hf k); by rewrite lookup_insert_eq).
  assert (msum f m1 <= msum f (m1 ∪ m2)); [|lia]. apply IH; [done|].
  intros k' v' Hk2. apply (Hf k'). rewrite lookup_insert_ne; [done|]. intros <-. congruence.
Qed.

Lemma msum_subseteq f m1 m2 : m1 ⊆ m2 -> (forall k v, m2 !! k = Some v -> 0 <= f v) -> msum f m1 <= msum f m2.
Proof.
  intros Hsub Hf. rewrite <-(map_difference_union m1 m2 Hsub). apply msum_union_le.
  - by apply map_disjoint_difference_l1.
  - intros k v [Hk _]%lookup_difference_Some. by apply (Hf k).
Qed.

Lemma msum_ext f g m : (forall k v, m !! k = Some v -> f v = g v) -> msum f m = msum g m.
Proof. intros Hfg. apply Z.le_antisymm; apply msum_le; intros k v Hk; rewrite (Hfg k v Hk); lia. Qed.
End map_sums.

(** Summing over the rows a partial view keeps. *)
Lemma msum_omap {K V W} `{Countable K} (f : W -> Z) (g : V -> option W) (m : gmap K V) :
  msum f (omap g m) = msum (fun v => match g v with Some w => f w | None => 0 end) m.
Proof.
  induction m as [|k v m Hk IH] using map_ind; [done|].
  rewrite (msum_insert_new _ m) by done. rewrite <-IH. destruct (g v) as [w|] eqn:E.
  - rewrite (omap_insert_Some _ _ _ _ w) by done. rewrite msum_insert_new; [done|]. by rewrite lookup_omap, Hk.
  - rewrite omap_insert_None by done. rewrite delete_id; [lia|]. by rewrite lookup_omap, Hk.
Qed.

(** ** Hint databases of the development *)

Create HintDb vault.
Create Rewrite HintDb vault.
#[export] Hint Resolve zlen_nonneg : vault.
#[export] Hint Rewrite @zlen_app : vault.
