(* ===== verification/Crypto.v ===== *)
(** * Go's [crypto/sha256], [crypto/hmac], [encoding/hex], [encoding/binary]

    The standard-library functions every sealed record, digest and derived key
    of the service is built from, as executable definitions.  SHA-256 is FIPS
    180-4, HMAC is RFC 2104; both are tied to published vectors by evaluation.
    The development never relies on a cryptographic assumption: what it needs
    of SHA-256 is the length of its output, and tamper theorems are stated up
    to an explicit collision. *)

From S2P Require Import Prelude.
From Stdlib Require Import Strings.Byte Strings.Ascii Strings.String.
From stdpp Require Import base decidable list strings gmap countable option.
From Stdlib Require Import ZArith Lia.
Open Scope Z_scope.

(** ** Fixed-width integers as bytes: [binary.LittleEndian] / [binary.BigEndian] *)

Fixpoint le_bytes (n : nat) (z : Z) : bytes :=
  match n with
  | O => []
  | S n => byte_of_Z z :: le_bytes n (z / 256)
  end.

Definition be_bytes (n : nat) (z : Z) : bytes := rev (le_bytes n z).

Fixpoint le_val (bs : bytes) : Z :=
  match bs with
  | [] => 0
  | b :: bs => Z_of_byte b + 256 * le_val bs
  end.

Definition be_val (bs : bytes) : Z := le_val (rev bs).

Lemma length_le_bytes n z : length (le_bytes n z) = n.
Proof. revert z. induction n; intros; simpl; auto. Qed.

Lemma length_be_bytes n z : length (be_bytes n z) = n.
Proof. unfold be_bytes. by rewrite length_rev, length_le_bytes. Qed.

Lemma le_val_bytes n z : le_val (le_bytes n z) = z mod 256 ^ Z.of_nat n.
Proof.
  revert z. induction n as [|n IH]; intros z; cbn [le_bytes le_val].
  - by rewrite Z.mod_1_r.
  - rewrite IH, Z_of_byte_of_Z, Nat2Z.inj_succ, Z.pow_succ_r by lia.
    rewrite Z.rem_mul_r by lia. lia.
Qed.

Lemma le_bytes_inj n z1 z2 :
  0 <= z1 < 256 ^ Z.of_nat n -> 0 <= z2 < 256 ^ Z.of_nat n ->
  le_bytes n z1 = le_bytes n z2 -> z1 = z2.
Proof.
  intros H1 H2 H. apply (f_equal le_val) in H.
  rewrite !le_val_bytes, !Z.mod_small in H by lia. done.
Qed.

Lemma byte_of_Z_mod x b : x mod 256 = Z_of_byte b -> byte_of_Z x = b.
Proof. intros H. apply Z_of_byte_inj. by rewrite Z_of_byte_of_Z. Qed.

Lemma le_bytes_val l : le_bytes (length l) (le_val l) = l.
Proof.
  induction l as [|b l IH]; [done|]. simpl. pose proof (Z_of_byte_range b). f_equal.
  - apply byte_of_Z_mod. Z.to_euclidean_division_equations; lia.
  - etransitivity; [|exact IH]. f_equal. Z.to_euclidean_division_equations; lia.
Qed.

Lemma be_bytes_val n l : length l = n -> be_bytes n (be_val l) = l.
Proof. intros <-. unfold be_bytes, be_val. rewrite <-length_rev, le_bytes_val. apply rev_involutive. Qed.

Lemma be_val_range l : 0 <= be_val l < 256 ^ zlen l.
Proof.
  unfold be_val, zlen. rewrite <-length_rev. generalize (rev l). clear l. induction l as [|b l IH]; simpl; [lia|].
  pose proof (Z_of_byte_range b). rewrite Nat2Z.inj_succ, Z.pow_succ_r by lia. lia.
Qed.

Lemma be_val_be_bytes n z : be_val (be_bytes n z) = z mod 256 ^ Z.of_nat n.
Proof. unfold be_val, be_bytes. by rewrite rev_involutive, le_val_bytes. Qed.

Lemma be_val_be_bytes_small n z : 0 <= z < 256 ^ Z.of_nat n -> be_val (be_bytes n z) = z.
Proof. intros Hz. by rewrite be_val_be_bytes, Z.mod_small. Qed.

Definition put32 (z : Z) : bytes := le_bytes 4 z.
Definition put64 (z : Z) : bytes := le_bytes 8 z.

(** [uint64(x)] of an [int64], as the encoders write it. *)
Lemma put64_inj z1 z2 :
  0 <= z1 <= uint64_max -> 0 <= z2 <= uint64_max -> put64 z1 = put64 z2 -> z1 = z2.
Proof. unfold uint64_max, put64. intros. apply (le_bytes_inj 8); [change (256 ^ Z.of_nat 8) with (2 ^ 64); lia..|done]. Qed.

Lemma put32_inj z1 z2 :
  0 <= z1 <= uint32_max -> 0 <= z2 <= uint32_max -> put32 z1 = put32 z2 -> z1 = z2.
Proof. unfold uint32_max, put32. intros. apply (le_bytes_inj 4); [change (256 ^ Z.of_nat 4) with (2 ^ 32); lia..|done]. Qed.

(** ** SHA-256 *)

(** [uint32(z)]: the low 32 bits. *)
Definition mask32 : Z := 0xffffffff.
Definition w32 (z : Z) : Z := Z.land z mask32.
Definition rotr (x n : Z) : Z := Z.lor (Z.shiftr x n) (w32 (Z.shiftl x (32 - n))).
Definition sha_ch (x y z : Z) : Z := Z.lxor (Z.land x y) (Z.land (Z.lxor x mask32) z).
Definition sha_maj (x y z : Z) : Z := Z.lxor (Z.lxor (Z.land x y) (Z.land x z)) (Z.land y z).
Definition bsig0 (x : Z) : Z := Z.lxor (Z.lxor (rotr x 2) (rotr x 13)) (rotr x 22).
Definition bsig1 (x : Z) : Z := Z.lxor (Z.lxor (rotr x 6) (rotr x 11)) (rotr x 25).
Definition ssig0 (x : Z) : Z := Z.lxor (Z.lxor (rotr x 7) (rotr x 18)) (Z.shiftr x 3).
Definition ssig1 (x : Z) : Z := Z.lxor (Z.lxor (rotr x 17) (rotr x 19)) (Z.shiftr x 10).

Definition sha_k : list Z :=
  [1116352408; 1899447441; 3049323471; 3921009573; 961987163; 1508970993; 2453635748; 2870763221;
   3624381080; 310598401; 607225278; 1426881987; 1925078388; 2162078206; 2614888103; 3248222580;
   3835390401; 4022224774; 264347078; 604807628; 770255983; 1249150122; 1555081692; 1996064986;
   2554220882; 2821834349; 2952996808; 3210313671; 3336571891; 3584528711; 113926993; 338241895;
   666307205; 773529912; 1294757372; 1396182291; 1695183700; 1986661051; 2177026350; 2456956037;
   2730485921; 2820302411; 3259730800; 3345764771; 3516065817; 3600352804; 4094571909; 275423344;
   430227734; 506948616; 659060556; 883997877; 958139571; 1322822218; 1537002063; 1747873779;
   1955562222; 2024104815; 2227730452; 2361852424; 2428436474; 2756734187; 3204031479; 3329325298].

(** The eight working words. *)
Record sha_state := ShaState { sa : Z; sb : Z; sc : Z; sd : Z; se : Z; sf : Z; sg : Z; sh : Z }.

Definition sha_init : sha_state :=
  ShaState 1779033703 3144134277 1013904242 2773480762 1359893119 2600822924 528734635 1541459225.

(** The message schedule keeps the last sixteen words, most recent first. *)
Definition sched_next (ws : list Z) : Z :=
  w32 (ssig1 (nth 1 ws 0) + nth 6 ws 0 + ssig0 (nth 14 ws 0) + nth 15 ws 0).

Fixpoint schedule (n : nat) (recent : list Z) : list Z :=
  match n with
  | O => []
  | S n => let w := sched_next recent in w :: schedule n (w :: take 15 recent)
  end.

Definition sha_round (s : sha_state) (kw : Z * Z) : sha_state :=
  let '(k, w) := kw in
  let t1 := sh s + bsig1 (se s) + sha_ch (se s) (sf s) (sg s) + k + w in
  let t2 := bsig0 (sa s) + sha_maj (sa s) (sb s) (sc s) in
  ShaState (w32 (t1 + t2)) (sa s) (sb s) (sc s) (w32 (sd s + t1)) (se s) (sf s) (sg s).

Fixpoint words (n : nat) (bs : bytes) : list Z :=
  match n with
  | O => []
  | S n => be_val (take 4 bs) :: words n (drop 4 bs)
  end.

Definition sha_block (s : sha_state) (blk : bytes) : sha_state :=
  let w16 := words 16 blk in
  let ws := w16 ++ schedule 48 (rev w16) in
  let t := fold_left sha_round (combine sha_k ws) s in
  ShaState (w32 (sa s + sa t)) (w32 (sb s + sb t)) (w32 (sc s + sc t)) (w32 (sd s + sd t))
           (w32 (se s + se t)) (w32 (sf s + sf t)) (w32 (sg s + sg t)) (w32 (sh s + sh t)).

Fixpoint sha_blocks (n : nat) (s : sha_state) (bs : bytes) : sha_state :=
  match n with
  | O => s
  | S n => sha_blocks n (sha_block s (take 64 bs)) (drop 64 bs)
  end.

Definition sha_pad (m : bytes) : bytes :=
  let zeros := Z.to_nat ((55 - zlen m) mod 64) in
  m ++ [x80] ++ replicate zeros x00 ++ be_bytes 8 (8 * zlen m).

Definition sha256 (m : bytes) : bytes :=
  let p := sha_pad m in
  let s := sha_blocks (length p / 64) sha_init p in
  concat (map (be_bytes 4) [sa s; sb s; sc s; sd s; se s; sf s; sg s; sh s]).

Lemma length_sha256 m : length (sha256 m) = 32%nat.
Proof.
  unfold sha256. generalize (sha_blocks (length (sha_pad m) / 64) sha_init (sha_pad m)). intros s.
  cbn [map concat]. rewrite !length_app, !length_be_bytes. done.
Qed.

(** ** HMAC-SHA256 (keys in this program are at most one block long or hashed) *)

Definition hmac_key (key : bytes) : bytes :=
  let k := if (64 <? zlen key) then sha256 key else key in
  k ++ replicate (64 - length k) x00.

Definition xor_pad (p : Z) (k : bytes) : bytes :=
  map (fun b => byte_of_Z (Z.lxor (Z_of_byte b) p)) k.

Definition hmac_sha256 (key msg : bytes) : bytes :=
  let k := hmac_key key in
  sha256 (xor_pad 92 k ++ sha256 (xor_pad 54 k ++ msg)).

Lemma length_hmac key msg : length (hmac_sha256 key msg) = 32%nat.
Proof. apply length_sha256. Qed.

Lemma zlen_hmac key msg : zlen (hmac_sha256 key msg) = 32.
Proof. unfold zlen. by rewrite length_hmac. Qed.

Lemma zlen_sha256 m : zlen (sha256 m) = 32.
Proof. unfold zlen. by rewrite length_sha256. Qed.

Definition sha256_size : Z := 32.

(** ** [encoding/hex] *)

Definition hex_digit (n : Z) : ascii :=
  ascii_of_N (Z.to_N (if n <? 10 then 48 + n else 87 + n)).

(** [hex.EncodeToString]: lowercase. *)
Fixpoint hex_encode (bs : bytes) : string :=
  match bs with
  | [] => EmptyString
  | b :: bs => String (hex_digit (Z_of_byte b / 16)) (String (hex_digit (Z_of_byte b mod 16)) (hex_encode bs))
  end.

(** The reverse hex table of [hex.DecodeString]: both cases are accepted. *)
Definition from_hex_char (c : ascii) : option Z :=
  let n := Z.of_N (N_of_ascii c) in
  if (48 <=? n) && (n <=? 57) then Some (n - 48)
  else if (97 <=? n) && (n <=? 102) then Some (n - 87)
  else if (65 <=? n) && (n <=? 70) then Some (n - 55)
  else None.

Fixpoint hex_decode (s : string) : option bytes :=
  match s with
  | EmptyString => Some []
  | String a (String b s) =>
      x ← from_hex_char a; y ← from_hex_char b; bs ← hex_decode s;
      Some (byte_of_Z (16 * x + y) :: bs)
  | String _ EmptyString => None
  end.

(** [strings.ToLower] on ASCII. *)
Definition lower_ascii (c : ascii) : ascii :=
  let n := N_of_ascii c in
  if (65 <=? n)%N && (n <=? 90)%N then ascii_of_N (n + 32) else c.

Fixpoint to_lower (s : string) : string :=
  match s with
  | EmptyString => EmptyString
  | String c s => String (lower_ascii c) (to_lower s)
  end.

Lemma from_hex_digit n : 0 <= n < 16 -> from_hex_char (hex_digit n) = Some n.
Proof.
  intros Hn. unfold from_hex_char, hex_digit. destruct (Z.ltb_spec n 10).
  - rewrite N_ascii_embedding by lia. rewrite Z2N.id by lia.
    rewrite (proj2 (andb_true_iff _ _)) by (split; apply Z.leb_le; lia). f_equal; lia.
  - rewrite N_ascii_embedding by lia. rewrite Z2N.id by lia.
    rewrite (proj2 (andb_false_iff _ _)) by (right; apply Z.leb_gt; lia).
    rewrite (proj2 (andb_true_iff _ _)) by (split; apply Z.leb_le; lia). f_equal; lia.
Qed.

(** The two nibbles of a byte are hex digits. *)
Lemma nibble_hi b : 0 <= Z_of_byte b / 16 < 16.
Proof.
  pose proof (Z_of_byte_range b).
  split; [apply Z.div_pos; lia | apply Z.div_lt_upper_bound; lia].
Qed.

Lemma nibble_lo b : 0 <= Z_of_byte b mod 16 < 16.
Proof. apply Z.mod_pos_bound. lia. Qed.

Lemma hex_decode_encode bs : hex_decode (hex_encode bs) = Some bs.
Proof.
  induction bs as [|b bs IH]; [done|]. cbn [hex_encode hex_decode].
  pose proof (Z.div_mod (Z_of_byte b) 16) as Hd.
  rewrite !from_hex_digit by (apply nibble_hi || apply nibble_lo).
  cbn. rewrite IH. cbn. f_equal. f_equal.
  rewrite <-(byte_of_Z_of_byte b) at 3. f_equal. lia.
Qed.

Lemma hex_encode_inj a b : hex_encode a = hex_encode b -> a = b.
Proof. intros H%(f_equal hex_decode). rewrite !hex_decode_encode in H. congruence. Qed.

Lemma slen_cons c s : slen (String c s) = 1 + slen s.
Proof. unfold slen, zlen, bytes_of, list_byte_of_string. simpl length. lia. Qed.

Lemma slen_hex_encode bs : slen (hex_encode bs) = 2 * zlen bs.
Proof.
  induction bs as [|b bs IH]; [done|]. cbn [hex_encode]. rewrite !slen_cons, IH.
  unfold zlen. simpl length. lia.
Qed.

Lemma to_lower_hex_encode bs : to_lower (hex_encode bs) = hex_encode bs.
Proof.
  assert (Hd : forall n, 0 <= n < 16 -> lower_ascii (hex_digit n) = hex_digit n).
  { intros n Hn. rewrite <-(Z2Nat.id n) by lia.
    assert (Hk : (Z.to_nat n < 16)%nat) by lia. revert Hk. generalize (Z.to_nat n). intros k Hk.
    do 16 (destruct k as [|k]; [reflexivity|]). lia. }
  induction bs as [|b bs IH]; [done|]. cbn [hex_encode to_lower].
  by rewrite IH, !Hd by (apply nibble_hi || apply nibble_lo).
Qed.

(** Decoding accepts either case; encoding what it gives is the lowercase text. *)
Lemma hex_digit_of_char c x : from_hex_char c = Some x -> 0 <= x < 16 /\ hex_digit x = lower_ascii c.
Proof.
  destruct c as [b0 b1 b2 b3 b4 b5 b6 b7].
  destruct b0, b1, b2, b3, b4, b5, b6, b7; vm_compute; intros [= <-]; split; first [done|reflexivity].
Qed.

Lemma hex_encode_decode s bs : hex_decode s = Some bs -> hex_encode bs = to_lower s.
Proof.
  revert bs. induction s as [s IH] using (induction_ltof1 _ String.length).
  unfold ltof in IH. destruct s as [|a [|b s]]; intros bs; cbn [hex_decode]; [by intros [= <-]|done|].
  destruct (from_hex_char a) as [x|] eqn:Ea; [|done]. destruct (from_hex_char b) as [y|] eqn:Eb; [|done]. cbn.
  destruct (hex_decode s) as [r|] eqn:Er; [|done]. cbn. intros [= <-].
  apply hex_digit_of_char in Ea as [? Ea], Eb as [? Eb]. cbn [hex_encode to_lower].
  rewrite (IH s) by (simpl; done || lia). rewrite Z_of_byte_of_Z, (Z.mod_small (16 * x + y)) by lia.
  rewrite <-Ea, <-Eb. f_equal; [f_equal; symmetry; apply Z.div_unique with y; lia|].
  f_equal. f_equal. symmetry. apply Z.mod_unique with x; lia.
Qed.

(** [taggedSHA256] (BIP-340 style): src/internal/policy/vtxo.go. *)
Definition taggedSHA256 (tag : string) (msg : bytes) : bytes :=
  let th := sha256 (bytes_of tag) in sha256 (th ++ th ++ msg).

Lemma zlen_taggedSHA256 tag msg : zlen (taggedSHA256 tag msg) = 32.
Proof. apply zlen_sha256. Qed.

(** The two messages [m1] and [m2] are a SHA-256 collision. *)
Definition sha_collision (m1 m2 : bytes) : Prop := m1 <> m2 /\ sha256 m1 = sha256 m2.

(** What [taggedSHA256] hashes. *)
Definition tagged (tag : string) (msg : bytes) : bytes := sha256 (bytes_of tag) ++ sha256 (bytes_of tag) ++ msg.

Lemma tagged_collision tag p1 p2 :
  taggedSHA256 tag p1 = taggedSHA256 tag p2 -> p1 = p2 \/ sha_collision (tagged tag p1) (tagged tag p2).
Proof.
  intros H. destruct (decide (p1 = p2)) as [|Hne]; [by left|right]. split; [|exact H].
  intros E. apply app_inv_head in E. by apply app_inv_head in E.
Qed.

#[export] Hint Rewrite zlen_hmac zlen_sha256 zlen_taggedSHA256 : vault.

Arguments sha256 : simpl never.
Arguments hmac_sha256 : simpl never.
Arguments taggedSHA256 : simpl never.
#[global] Opaque sha256 hmac_sha256.

(** FIPS 180-4 and RFC 4231 vectors. *)
Example sha256_abc :
  hex_encode (sha256 (bytes_of "abc"))
  = "ba7816bf8f01cfea414140de5dae2223b00361a396177a9cb410ff61f20015ad"%string.
Proof. vm_compute. reflexivity. Qed.

Example hmac_rfc4231_2 :
  hex_encode (hmac_sha256 (bytes_of "Jefe") (bytes_of "what do ya want for nothing?"))
  = "5bdcc146bf60754e6a042426089575c75a003f089d2739839dec58b964ec3843"%string.
Proof. vm_compute. reflexivity. Qed.
