(* ===== verification/GoTime.v ===== *)
(** * Go's [time] package, as far as the policy store uses it

    Instants are nanoseconds since the Unix epoch ([Z]); every instant the
    service formats is in UTC.  The ledger stores RFC 3339 strings and compares
    them as strings, in SQL ([expires_at <= ?]) and in Go
    ([inv.ExpiresAt >= now.Format(...)]); [fmt_compare] is what makes those
    comparisons comparisons of instants, and [parse_format] is what makes
    [time.Parse] recover the second that was stored. *)

From S2P Require Import Prelude.
From Stdlib Require Import Strings.Ascii Strings.String.
From stdpp Require Import base decidable list option.
From Stdlib Require Import ZArith Lia.
Open Scope Z_scope.

(** [lia] with division and remainder by literals. *)
Ltac zdm := Z.div_mod_to_equations; lia.

Definition second : Z := 1000000000.
Definition minute : Z := 60 * second.
Definition hour : Z := 60 * minute.

(** [t.Unix()]: the whole seconds, rounded towards the past. *)
Definition unix (t : Z) : Z := t / second.

(** ** The proleptic Gregorian calendar *)

Record date := Date { year : Z; month : Z; day : Z }.

Definition is_leap (y : Z) : bool :=
  (y mod 4 =? 0) && (negb (y mod 100 =? 0) || (y mod 400 =? 0)).

(** [daysIn(m, year)] *)
Definition days_in (leap : bool) (m : Z) : Z :=
  if m =? 2 then (if leap then 29 else 28)
  else if (m =? 4) || (m =? 6) || (m =? 9) || (m =? 11) then 30 else 31.

(** [daysBefore] and the leap-day correction: days of the year before month [m]. *)
Definition days_before (leap : bool) (m : Z) : Z :=
  nth (Z.to_nat (m - 1)) [0; 31; 59; 90; 120; 151; 181; 212; 243; 273; 304; 334] 365
  + (if leap && (2 <? m) then 1 else 0).

Definition year_len (leap : bool) : Z := if leap then 366 else 365.

(** The month that contains a day of the year: Go walks the same table. *)
Definition month_of (leap : bool) (yday : Z) : Z :=
  zlen (filter (fun m => days_before leap m <= yday) [1; 2; 3; 4; 5; 6; 7; 8; 9; 10; 11; 12]).

(** Days from 0001-01-01 to the first of January of year [y]. *)
Definition days_to_year (y : Z) : Z :=
  let n := y - 1 in 365 * n + n / 4 - n / 100 + n / 400.

(** [absDate]: cut the day count into 400-, 100-, 4- and 1-year cycles. *)
Definition year_yday (days : Z) : Z * Z :=
  let z := days + 719162 in
  let n400 := z / 146097 in
  let d400 := z mod 146097 in
  let n100 := Z.min 3 (d400 / 36524) in
  let d100 := d400 - 36524 * n100 in
  let n4 := d100 / 1461 in
  let d4 := d100 mod 1461 in
  let n1 := Z.min 3 (d4 / 365) in
  (1 + 400 * n400 + 100 * n100 + 4 * n4 + n1, d4 - 365 * n1).

Definition civil_from_days (days : Z) : date :=
  let '(y, yday) := year_yday days in
  let m := month_of (is_leap y) yday in
  Date y m (yday - days_before (is_leap y) m + 1).

(** [Date(year, month, day, ...)] as a day number relative to 1970-01-01. *)
Definition days_from_civil (dt : date) : Z :=
  days_to_year (year dt) + days_before (is_leap (year dt)) (month dt) + day dt - 1 - 719162.

Lemma year_cases (z : Z) :
  exists a b c d e,
    year_yday z = (1 + 400 * a + 100 * b + 4 * c + d, e) /\
    z + 719162 = 146097 * a + 36524 * b + 1461 * c + 365 * d + e /\
    0 <= b <= 3 /\ 0 <= c <= 24 /\ 0 <= d <= 3 /\ 0 <= e <= 365 /\
    (e = 365 -> d = 3 /\ (c <> 24 \/ b = 3)).
Proof.
  unfold year_yday. eexists _, _, _, _, _. split; [reflexivity|].
  set (w := z + 719162).
  pose proof (Z.div_mod w 146097 ltac:(lia)). pose proof (Z.mod_pos_bound w 146097 ltac:(lia)).
  set (d400 := w mod 146097) in *.
  pose proof (Z.div_mod d400 36524 ltac:(lia)). pose proof (Z.mod_pos_bound d400 36524 ltac:(lia)).
  set (n100 := Z.min 3 (d400 / 36524)) in *.
  assert (0 <= n100 <= 3) by lia.
  set (d100 := d400 - 36524 * n100) in *.
  assert (0 <= d100 <= 36524 /\ (d100 = 36524 -> n100 = 3)) as [? ?] by lia.
  pose proof (Z.div_mod d100 1461 ltac:(lia)). pose proof (Z.mod_pos_bound d100 1461 ltac:(lia)).
  set (d4 := d100 mod 1461) in *.
  pose proof (Z.div_mod d4 365 ltac:(lia)). pose proof (Z.mod_pos_bound d4 365 ltac:(lia)).
  set (n1 := Z.min 3 (d4 / 365)) in *. lia.
Qed.

Section calendar.
Context (a b c d : Z).
Context (Hb : 0 <= b <= 3) (Hc : 0 <= c <= 24) (Hd : 0 <= d <= 3).
Let y := 1 + 400 * a + 100 * b + 4 * c + d.

Lemma days_to_year_cycles : days_to_year y = 146097 * a + 36524 * b + 1461 * c + 365 * d.
Proof using Hb Hc Hd.
  unfold days_to_year, y.
  replace ((1 + 400 * a + 100 * b + 4 * c + d - 1) / 4) with (100 * a + 25 * b + c) by zdm.
  replace ((1 + 400 * a + 100 * b + 4 * c + d - 1) / 100) with (4 * a + b) by zdm.
  replace ((1 + 400 * a + 100 * b + 4 * c + d - 1) / 400) with a by zdm. lia.
Qed.

Lemma is_leap_cycles : is_leap y = (d =? 3) && (negb (c =? 24) || (b =? 3)).
Proof using Hb Hc Hd.
  unfold is_leap, y.
  replace ((1 + 400 * a + 100 * b + 4 * c + d) mod 4 =? 0) with (d =? 3) by zdm.
  destruct (Z.eqb_spec d 3) as [->|]; [|done]. simpl.
  replace ((1 + 400 * a + 100 * b + 4 * c + 3) mod 100 =? 0) with (c =? 24) by zdm.
  destruct (Z.eqb_spec c 24) as [->|]; [|done]. simpl. zdm.
Qed.
End calendar.

(** Every day of every kind of year falls inside its month: by evaluation. *)
Definition yday_ok (leap : bool) (e : Z) : bool :=
  let m := month_of leap e in
  (1 <=? m) && (m <=? 12) && (days_before leap m <=? e)
  && (e <? days_before leap m + days_in leap m).

Lemma yday_ok_all leap e : 0 <= e < year_len leap -> yday_ok leap e = true.
Proof.
  intros He.
  assert (Hall : forallb (fun k => yday_ok leap (Z.of_nat k)) (seq 0 (Z.to_nat (year_len leap))) = true)
    by (destruct leap; vm_compute; reflexivity).
  rewrite forallb_forall in Hall. specialize (Hall (Z.to_nat e)).
  rewrite Z2Nat.id in Hall by lia. apply Hall, in_seq. lia.
Qed.

(** Months are consecutive and fill the year. *)
Definition month_ok (leap : bool) (m1 m2 : Z) : bool :=
  (days_before leap m1 + days_in leap m1 <=? year_len leap) && (0 <=? days_before leap m1)
  && (if m1 <? m2 then days_before leap m1 + days_in leap m1 <=? days_before leap m2 else true).

Lemma month_ok_all leap m1 m2 : 1 <= m1 <= 12 -> 1 <= m2 <= 12 -> month_ok leap m1 m2 = true.
Proof.
  intros H1 H2.
  assert (Hall : forallb (fun j => forallb (fun k => month_ok leap (Z.of_nat j) (Z.of_nat k)) (seq 1 12)) (seq 1 12) = true)
    by (destruct leap; vm_compute; reflexivity).
  rewrite forallb_forall in Hall. specialize (Hall (Z.to_nat m1) ltac:(apply in_seq; lia)).
  rewrite forallb_forall in Hall. specialize (Hall (Z.to_nat m2) ltac:(apply in_seq; lia)).
  by rewrite !Z2Nat.id in Hall by lia.
Qed.

Definition date_valid (dt : date) : Prop :=
  1 <= month dt <= 12 /\ 1 <= day dt <= days_in (is_leap (year dt)) (month dt).

Lemma days_in_le leap m : days_in leap m <= 31.
Proof. unfold days_in. repeat case_match; lia. Qed.

Lemma civil_spec z : date_valid (civil_from_days z) /\ days_from_civil (civil_from_days z) = z.
Proof.
  destruct (year_cases z) as (a & b & c & d & e & E & Hz & Hb & Hc & Hd & He & Hl).
  unfold civil_from_days. rewrite E. unfold date_valid, days_from_civil. cbn [year month day].
  pose proof (is_leap_cycles a b c d Hb Hc Hd) as Hleap.
  pose proof (days_to_year_cycles a b c d Hb Hc Hd) as Hdays.
  assert (Hlen : 0 <= e < year_len (is_leap (1 + 400 * a + 100 * b + 4 * c + d))).
  { rewrite Hleap. unfold year_len. destruct (Z.eqb_spec d 3), (Z.eqb_spec c 24), (Z.eqb_spec b 3); simpl; lia. }
  pose proof (yday_ok_all _ _ Hlen) as Hy. unfold yday_ok in Hy. bool_prop. lia.
Qed.

Lemma civil_round_trip z : days_from_civil (civil_from_days z) = z.
Proof. apply civil_spec. Qed.

Lemma civil_ranges z :
  let dt := civil_from_days z in 1 <= month dt <= 12 /\ 1 <= day dt <= 31.
Proof.
  destruct (civil_spec z) as [[? ?] _]. cbv zeta.
  pose proof (days_in_le (is_leap (year (civil_from_days z))) (month (civil_from_days z))). lia.
Qed.

Lemma days_to_year_mono y1 y2 : y1 < y2 ->
  days_to_year y1 + year_len (is_leap y1) <= days_to_year y2.
Proof.
  intros H. transitivity (days_to_year (y1 + 1)).
  - unfold days_to_year, year_len, is_leap.
    destruct (Z.eqb_spec (y1 mod 4) 0), (Z.eqb_spec (y1 mod 100) 0), (Z.eqb_spec (y1 mod 400) 0); simpl; zdm.
  - unfold days_to_year. zdm.
Qed.

(** The calendar order of valid dates is the order of their day numbers. *)
Definition date_compare (d1 d2 : date) : comparison :=
  match year d1 ?= year d2 with
  | Eq => match month d1 ?= month d2 with Eq => day d1 ?= day d2 | c => c end
  | c => c
  end.

Lemma date_lt d1 d2 : date_valid d1 -> date_valid d2 ->
  date_compare d1 d2 = Lt -> days_from_civil d1 < days_from_civil d2.
Proof.
  intros [Hm1 Hd1] [Hm2 Hd2] Hc. unfold date_compare in Hc. unfold days_from_civil.
  pose proof (month_ok_all (is_leap (year d1)) _ _ Hm1 Hm2) as M.
  pose proof (month_ok_all (is_leap (year d2)) _ _ Hm2 Hm1) as M'.
  unfold month_ok in M, M'. bool_prop.
  destruct (Z.compare_spec (year d1) (year d2)) as [Ey|Ey|]; [|pose proof (days_to_year_mono _ _ Ey); lia|done].
  rewrite <-Ey in *. destruct (Z.compare_spec (month d1) (month d2)) as [Em|Em|]; [| |done].
  - rewrite <-Em. destruct (Z.compare_spec (day d1) (day d2)); [done|lia|done].
  - apply Z.ltb_lt in Em. rewrite Em in *. bool_prop. lia.
Qed.

Lemma date_compare_antisym d1 d2 : date_compare d2 d1 = CompOpp (date_compare d1 d2).
Proof.
  unfold date_compare. rewrite (Z.compare_antisym (year d1)), (Z.compare_antisym (month d1)), (Z.compare_antisym (day d1)).
  by repeat case_match; simplify_eq/=.
Qed.

(** ** Formatting *)

(** [n] on exactly [w] decimal digits, for [0 <= n < 10^w]. *)
Fixpoint pad (w : nat) (n : Z) (tl : string) : string :=
  match w with
  | O => tl
  | S w => String (digit_char (n / 10 ^ Z.of_nat w)) (pad w (n mod 10 ^ Z.of_nat w) tl)
  end.

(** The broken-down UTC time of an instant. *)
Definition sec_of_day (t : Z) : Z := unix t mod 86400.
Definition date_of (t : Z) : date := civil_from_days (unix t / 86400).

Definition clock_part (sod : Z) (tl : string) : string :=
  String "T" (pad 2 (sod / 3600) (String ":" (pad 2 (sod mod 3600 / 60)
    (String ":" (pad 2 (sod mod 60) tl))))).

Definition date_time (t : Z) (tl : string) : string :=
  let dt := date_of t in
  pad 4 (year dt) (String "-" (pad 2 (month dt) (String "-" (pad 2 (day dt)
    (clock_part (sec_of_day t) tl))))).

(** [t.UTC().Format(time.RFC3339)] for years 0..9999. *)
Definition formatRFC3339 (t : Z) : string := date_time t "Z".

(** The fraction [.999999999]: digits up to the last non-zero one. *)
Fixpoint trim_zeros (ds : list Z) : list Z :=
  match ds with
  | [] => []
  | d :: ds' => if d =? 0 then trim_zeros ds' else ds
  end.

Fixpoint digits_le (w : nat) (n : Z) : list Z :=
  match w with
  | O => []
  | S w => n mod 10 :: digits_le w (n / 10)
  end.

Definition frac_part (ns : Z) (tl : string) : string :=
  match rev (trim_zeros (digits_le 9 ns)) with
  | [] => tl
  | ds => String "." (fold_right (fun d s => String (digit_char d) s) tl ds)
  end.

(** [t.UTC().Format(time.RFC3339Nano)] *)
Definition formatRFC3339Nano (t : Z) : string := date_time t (frac_part (t mod second) "Z").

(** Years 0 to 9999, the range in which the layout has a four-digit year. *)
Definition time_ok (t : Z) : Prop := 0 <= year (date_of t) <= 9999.

#[export] Instance time_ok_dec t : Decision (time_ok t).
Proof. unfold time_ok. apply _. Defined.

(** ** String order of formatted instants *)

Lemma compare_cons c1 s1 c2 s2 :
  String.compare (String c1 s1) (String c2 s2)
  = match (N_of_ascii c1 ?= N_of_ascii c2)%N with Eq => String.compare s1 s2 | c => c end.
Proof. simpl. unfold Ascii.compare. by destruct (N_of_ascii c1 ?= N_of_ascii c2)%N. Qed.

Lemma compare_digit a b : 0 <= a < 10 -> 0 <= b < 10 ->
  (N_of_ascii (digit_char a) ?= N_of_ascii (digit_char b))%N = (a ?= b).
Proof.
  intros Ha Hb. unfold digit_char. rewrite !N_ascii_embedding by lia.
  rewrite <-N2Z.inj_compare, !Z2N.id by lia.
  destruct (Z.compare_spec a b); destruct (Z.compare_spec (48 + a) (48 + b)); try done; lia.
Qed.

Lemma compare_same c s1 s2 : String.compare (String c s1) (String c s2) = String.compare s1 s2.
Proof. rewrite compare_cons. by rewrite N.compare_refl. Qed.

Lemma compare_pad w a b s1 s2 :
  0 <= a < 10 ^ Z.of_nat w -> 0 <= b < 10 ^ Z.of_nat w ->
  String.compare (pad w a s1) (pad w b s2)
  = match a ?= b with Eq => String.compare s1 s2 | c => c end.
Proof.
  revert a b. induction w as [|w IH]; intros a b Ha Hb.
  - assert (a = 0) as -> by (simpl in *; lia). assert (b = 0) as -> by (simpl in *; lia). done.
  - cbn [pad]. rewrite Nat2Z.inj_succ, Z.pow_succ_r in Ha, Hb by lia.
    set (p := 10 ^ Z.of_nat w) in *.
    assert (Hp : 0 < p) by (apply Z.pow_pos_nonneg; lia).
    pose proof (Z.mod_pos_bound a p Hp). pose proof (Z.mod_pos_bound b p Hp).
    pose proof (Z.div_mod a p). pose proof (Z.div_mod b p).
    rewrite compare_cons, compare_digit.
    2,3: split; [apply Z.div_pos; lia | apply Z.div_lt_upper_bound; lia].
    rewrite IH by lia.
    destruct (Z.compare_spec (a / p) (b / p)); destruct (Z.compare_spec a b);
      destruct (Z.compare_spec (a mod p) (b mod p)); try done; subst; nia.
Qed.

(** Hours, minutes and seconds of a second of the day. *)
Lemma hms s : 0 <= s < 86400 ->
  exists h m x, s / 3600 = h /\ s mod 3600 / 60 = m /\ s mod 60 = x /\
    s = 3600 * h + 60 * m + x /\ 0 <= h < 24 /\ 0 <= m < 60 /\ 0 <= x < 60.
Proof. intros Hs. eexists _, _, _. split_and!; [reflexivity..| |zdm|zdm|zdm|zdm|zdm|zdm]. zdm. Qed.

Lemma compare_clock s1 s2 t1 t2 : 0 <= s1 < 86400 -> 0 <= s2 < 86400 ->
  String.compare (clock_part s1 t1) (clock_part s2 t2)
  = match s1 ?= s2 with Eq => String.compare t1 t2 | c => c end.
Proof.
  intros (h1 & m1 & x1 & E1 & E1' & E1'' & ? & ? & ? & ?)%hms (h2 & m2 & x2 & E2 & E2' & E2'' & ? & ? & ? & ?)%hms.
  unfold clock_part. rewrite compare_same, E1, E1', E1'', E2, E2', E2''.
  rewrite compare_pad by (change (10 ^ Z.of_nat 2) with 100; lia).
  rewrite compare_same, compare_pad by (change (10 ^ Z.of_nat 2) with 100; lia).
  rewrite compare_same, compare_pad by (change (10 ^ Z.of_nat 2) with 100; lia).
  destruct (Z.compare_spec h1 h2), (Z.compare_spec m1 m2), (Z.compare_spec x1 x2),
    (Z.compare_spec s1 s2); try done; lia.
Qed.

Lemma date_compare_eq d1 d2 : date_compare d1 d2 = Eq -> d1 = d2.
Proof.
  unfold date_compare. destruct d1 as [y1 m1 x1], d2 as [y2 m2 x2]. simpl.
  destruct (Z.compare_spec y1 y2), (Z.compare_spec m1 m2), (Z.compare_spec x1 x2); try done. congruence.
Qed.

Lemma compare_dates z1 z2 : date_compare (civil_from_days z1) (civil_from_days z2) = (z1 ?= z2).
Proof.
  destruct (civil_spec z1) as [V1 E1]. destruct (civil_spec z2) as [V2 E2].
  destruct (date_compare _ _) eqn:E; symmetry.
  - apply date_compare_eq in E. apply Z.compare_eq_iff. congruence.
  - apply Z.compare_lt_iff. pose proof (date_lt _ _ V1 V2 E). lia.
  - apply Z.compare_gt_iff. pose proof (date_lt _ _ V2 V1) as H.
    rewrite date_compare_antisym, E in H. specialize (H eq_refl). lia.
Qed.

(** RFC 3339 strings of UTC instants are ordered like the instants' seconds. *)
Lemma fmt_compare t1 t2 : time_ok t1 -> time_ok t2 ->
  String.compare (formatRFC3339 t1) (formatRFC3339 t2) = (unix t1 ?= unix t2).
Proof.
  unfold time_ok, formatRFC3339, date_time, date_of. intros H1 H2.
  pose proof (civil_ranges (unix t1 / 86400)) as R1. pose proof (civil_ranges (unix t2 / 86400)) as R2.
  pose proof (compare_dates (unix t1 / 86400) (unix t2 / 86400)) as Hd. unfold date_compare in Hd. cbv zeta in *.
  rewrite compare_pad by (change (10 ^ Z.of_nat 4) with 10000; lia).
  rewrite !compare_same, !compare_pad by (change (10 ^ Z.of_nat 2) with 100; lia).
  rewrite !compare_same, !compare_pad by (change (10 ^ Z.of_nat 2) with 100; lia).
  unfold sec_of_day.
  pose proof (Z.mod_pos_bound (unix t1) 86400). pose proof (Z.mod_pos_bound (unix t2) 86400).
  pose proof (Z.div_mod (unix t1) 86400). pose proof (Z.div_mod (unix t2) 86400).
  rewrite compare_clock by lia.
  assert (Hs : (unix t1 ?= unix t2) =
    match unix t1 / 86400 ?= unix t2 / 86400 with
    | Eq => unix t1 mod 86400 ?= unix t2 mod 86400 | c => c end).
  { destruct (Z.compare_spec (unix t1 / 86400) (unix t2 / 86400)),
      (Z.compare_spec (unix t1 mod 86400) (unix t2 mod 86400)),
      (Z.compare_spec (unix t1) (unix t2)); try done; lia. }
  rewrite Hs, <-Hd. repeat case_match; done.
Qed.

(** Go's [a < b] and SQLite's BINARY collation on text. *)
Definition str_lt (a b : string) : bool := match String.compare a b with Lt => true | _ => false end.
Definition str_le (a b : string) : bool := match String.compare a b with Gt => false | _ => true end.

Lemma fmt_lt t1 t2 : time_ok t1 -> time_ok t2 ->
  str_lt (formatRFC3339 t1) (formatRFC3339 t2) = (unix t1 <? unix t2).
Proof.
  intros. unfold str_lt. rewrite fmt_compare by done.
  by destruct (Z.compare_spec (unix t1) (unix t2)), (Z.ltb_spec (unix t1) (unix t2)); try done; lia.
Qed.

Lemma fmt_le t1 t2 : time_ok t1 -> time_ok t2 ->
  str_le (formatRFC3339 t1) (formatRFC3339 t2) = (unix t1 <=? unix t2).
Proof.
  intros. unfold str_le. rewrite fmt_compare by done.
  by destruct (Z.compare_spec (unix t1) (unix t2)), (Z.leb_spec (unix t1) (unix t2)); try done; lia.
Qed.

(** ** Parsing: [time.Parse(time.RFC3339, s)]

    The layout's own grammar, [YYYY-MM-DDThh:mm:ss(.f+)?(Z|(+|-)hh:mm)], with
    the range checks of Go's parser.  (Go also tolerates, outside the grammar,
    a one-digit hour and a comma before the fraction; no writer of this store
    produces either, and a string outside the grammar is refused here.) *)

(** [parseUint(s[..], min, max)] over the first [w] characters. *)
Fixpoint take_digits (w : nat) (acc : Z) (s : string) : option (Z * string) :=
  match w with
  | O => Some (acc, s)
  | S w => match s with
           | EmptyString => None
           | String c s => d ← digit_val c; take_digits w (acc * 10 + d) s
           end
  end.

Definition field (w : nat) (lo hi : Z) (s : string) : option (Z * string) :=
  '(n, s) ← take_digits w 0 s;
  if (lo <=? n) && (n <=? hi) then Some (n, s) else None.

Definition lit (c : ascii) (s : string) : option string :=
  match s with
  | String c' s => if Ascii.eqb c c' then Some s else None
  | EmptyString => None
  end.

(** Fraction digits: all are consumed, the first nine count. *)
Fixpoint frac_digits (w : nat) (s : string) : Z * string :=
  match s with
  | String c s' =>
      match digit_val c with
      | Some d => match w with
                  | O => frac_digits O s'
                  | S w => let '(n, r) := frac_digits w s' in (d * 10 ^ Z.of_nat w + n, r)
                  end
      | None => (0, s)
      end
  | EmptyString => (0, EmptyString)
  end.

Definition fraction (s : string) : Z * string :=
  match s with
  | String "." (String c s' as s1) =>
      match digit_val c with Some _ => frac_digits 9 s1 | None => (0, s) end
  | _ => (0, s)
  end.

(** The zone: the offset in seconds east of UTC. *)
Definition zone (s : string) : option Z :=
  match s with
  | String "Z" EmptyString => Some 0
  | String c s =>
      sg ← (if Ascii.eqb c "+" then Some 1 else if Ascii.eqb c "-" then Some (-1) else None);
      '(h, s) ← field 2 0 23 s; s ← lit ":" s; '(m, s) ← field 2 0 59 s;
      match s with EmptyString => Some (sg * ((h * 60 + m) * 60)) | _ => None end
  | EmptyString => None
  end.

Definition parseRFC3339 (s : string) : option Z :=
  '(y, s) ← field 4 0 9999 s; s ← lit "-" s;
  '(mo, s) ← field 2 1 12 s; s ← lit "-" s;
  '(d, s) ← field 2 1 (days_in (is_leap y) mo) s; s ← lit "T" s;
  '(h, s) ← field 2 0 23 s; s ← lit ":" s;
  '(mi, s) ← field 2 0 59 s; s ← lit ":" s;
  '(x, s) ← field 2 0 59 s;
  let '(ns, s) := fraction s in
  off ← zone s;
  Some ((days_from_civil (Date y mo d) * 86400 + h * 3600 + mi * 60 + x - off) * second + ns).

Lemma take_digits_pad w n acc tl : 0 <= n < 10 ^ Z.of_nat w ->
  take_digits w acc (pad w n tl) = Some (acc * 10 ^ Z.of_nat w + n, tl).
Proof.
  revert n acc. induction w as [|w IH]; intros n acc Hn.
  - simpl in *. f_equal. f_equal. lia.
  - cbn [pad take_digits]. rewrite Nat2Z.inj_succ, Z.pow_succ_r in * by lia.
    set (p := 10 ^ Z.of_nat w) in *.
    assert (Hp : 0 < p) by (apply Z.pow_pos_nonneg; lia).
    rewrite digit_val_char by (split; [apply Z.div_pos; lia | apply Z.div_lt_upper_bound; lia]).
    simpl. pose proof (Z.div_mod n p). pose proof (Z.mod_pos_bound n p Hp).
    rewrite IH by done. f_equal. f_equal. nia.
Qed.

Lemma field_pad w lo hi n tl : lo <= n <= hi -> 0 <= n < 10 ^ Z.of_nat w ->
  field w lo hi (pad w n tl) = Some (n, tl).
Proof.
  intros Hr Hn. unfold field. rewrite take_digits_pad by done. simpl.
  rewrite (proj2 (andb_true_iff _ _)); [done|]. split; apply Z.leb_le; lia.
Qed.

Lemma lit_cons c s : lit c (String c s) = Some s.
Proof. simpl. by rewrite Ascii.eqb_refl. Qed.

(** What [time.Parse] makes of a date-time followed by [tl]. *)
Lemma parse_date_time t tl : time_ok t ->
  parseRFC3339 (date_time t tl)
  = let '(ns, s) := fraction tl in off ← zone s; Some ((unix t - off) * second + ns).
Proof.
  intros Ht. unfold parseRFC3339, date_time, time_ok, date_of in *.
  destruct (civil_spec (unix t / 86400)) as [[Hm Hd] Hz].
  pose proof (days_in_le (is_leap (year (civil_from_days (unix t / 86400)))) (month (civil_from_days (unix t / 86400)))).
  rewrite field_pad by (change (10 ^ Z.of_nat 4) with 10000; lia). cbn [mbind option_bind].
  rewrite lit_cons. cbn [mbind option_bind].
  rewrite field_pad by (change (10 ^ Z.of_nat 2) with 100; lia). cbn [mbind option_bind].
  rewrite lit_cons. cbn [mbind option_bind].
  rewrite field_pad by (change (10 ^ Z.of_nat 2) with 100; lia). cbn [mbind option_bind].
  unfold clock_part. rewrite lit_cons. cbn [mbind option_bind].
  assert (Hs : 0 <= sec_of_day t < 86400) by (apply Z.mod_pos_bound; lia).
  destruct (hms _ Hs) as (h & m & x & Eh & Em & Ex & Hsum & ? & ? & ?). rewrite Eh, Em, Ex.
  rewrite field_pad by (change (10 ^ Z.of_nat 2) with 100; lia). cbn [mbind option_bind].
  rewrite lit_cons. cbn [mbind option_bind].
  rewrite field_pad by (change (10 ^ Z.of_nat 2) with 100; lia). cbn [mbind option_bind].
  rewrite lit_cons. cbn [mbind option_bind].
  rewrite field_pad by (change (10 ^ Z.of_nat 2) with 100; lia). cbn [mbind option_bind].
  assert (Hdt : forall dt, Date (year dt) (month dt) (day dt) = dt) by (by intros []). rewrite Hdt, Hz.
  destruct (fraction tl) as [ns s]. destruct (zone s) as [off|]; cbn [mbind option_bind]; [|done].
  f_equal. f_equal. f_equal. unfold sec_of_day in Hsum. zdm.
Qed.

(** Storing an instant and parsing it back keeps its whole seconds. *)
Lemma parse_format t : time_ok t -> parseRFC3339 (formatRFC3339 t) = Some (unix t * second).
Proof. intros Ht. unfold formatRFC3339. rewrite parse_date_time by done. cbn. f_equal. lia. Qed.

Lemma unix_seconds n : unix (n * second) = n.
Proof. unfold unix, second. by rewrite Z.div_mul. Qed.

Lemma pad_not_empty w n tl : (0 < w)%nat -> pad w n tl <> EmptyString.
Proof. destruct w; [lia|done]. Qed.

Lemma format_not_empty t : formatRFC3339 t <> EmptyString.
Proof. by apply pad_not_empty; lia. Qed.

Lemma format_nano_not_empty t : formatRFC3339Nano t <> EmptyString.
Proof. by apply pad_not_empty; lia. Qed.

#[export] Hint Resolve format_not_empty format_nano_not_empty : vault.

Example format_2026 : formatRFC3339 (1782907200 * second) = "2026-07-01T12:00:00Z"%string.
Proof. vm_compute. reflexivity. Qed.

Example format_nano : formatRFC3339Nano (1782907200 * second + 120300000) = "2026-07-01T12:00:00.1203Z"%string.
Proof. vm_compute. reflexivity. Qed.

Example parse_offset :
  parseRFC3339 "2026-07-01T12:00:00.5-02:30" = Some ((1782907200 + 9000) * second + 500000000).
Proof. vm_compute. reflexivity. Qed.

Example parse_rejects_feb30 : parseRFC3339 "2026-02-30T00:00:00Z" = None.
Proof. vm_compute. reflexivity. Qed.
