(* ===== verification/Codec.v ===== *)
(** * Canonical encodings and authenticated records

    Every row of the policy store is authenticated by an HMAC over a canonical
    payload built from length-prefixed fields ([appendCredentialField]) and
    fixed-width little-endian integers.  This file models the encoder, proves
    that framed payloads can be cut in one way only, and states what a record
    type has to provide to be sealed ([Sealed]); sealing, verification and the
    tamper theorem are proved once, against that interface. *)

From S2P Require Import Prelude Crypto.
From Stdlib Require Import Strings.Byte Strings.String.
From stdpp Require Import base decidable list strings countable option.
From Stdlib Require Import ZArith Lia.
Open Scope Z_scope.

(** ** The field encoder *)

(** [appendCredentialField]: the length as a little-endian uint32, the bytes. *)
Definition appendCredentialField (dst fld : bytes) : result bytes :=
  if uint32_max <? zlen fld then Err (Errorf "policy field too large")
  else Ok (dst ++ put32 (zlen fld) ++ fld).

(** [for _, field := range fields { out, err = appendCredentialField(out, field) }] *)
Definition appendFields (dst : bytes) (flds : list bytes) : result bytes :=
  foldR appendCredentialField dst flds.

Arguments put32 : simpl never.
Arguments put64 : simpl never.

Definition frame (fld : bytes) : bytes := put32 (zlen fld) ++ fld.
Definition frames (flds : list bytes) : bytes := concat (map frame flds).

(** [append(payload, 0)] or [append(payload, 1)] and the uint32. *)
Definition optVout (v : option Z) : bytes :=
  match v with None => [x00] | Some n => x01 :: put32 n end.

Definition short (fld : bytes) : Prop := zlen fld <= uint32_max.

Lemma appendFields_Ok dst flds out :
  appendFields dst flds = Ok out <-> Forall short flds /\ out = dst ++ frames flds.
Proof.
  unfold appendFields, frames. revert dst. induction flds as [|f flds IH]; intros dst; simpl.
  - rewrite app_nil_r. split; [intros [= <-]; done|intros [_ ->]; done].
  - unfold appendCredentialField, frame. destruct (Z.ltb_spec uint32_max (zlen f)); simpl.
    + split; [done|]. intros [Hs _]. inversion Hs; subst. unfold short in *. lia.
    + rewrite IH. rewrite Forall_cons_iff. unfold short. rewrite <-!app_assoc. intuition.
Qed.

Lemma app_inj_len {A} (a1 a2 r1 r2 : list A) :
  length a1 = length a2 -> a1 ++ r1 = a2 ++ r2 -> a1 = a2 /\ r1 = r2.
Proof. intros. by apply app_inj_1. Qed.

Lemma put32_app_inj a b r1 r2 : 0 <= a <= uint32_max -> 0 <= b <= uint32_max ->
  put32 a ++ r1 = put32 b ++ r2 -> a = b /\ r1 = r2.
Proof.
  intros Ha Hb H. apply app_inj_len in H as [H ->]; [|by unfold put32; rewrite !length_le_bytes].
  split; [by apply put32_inj|done].
Qed.

Lemma put64_app_inj a b r1 r2 : 0 <= a <= uint64_max -> 0 <= b <= uint64_max ->
  put64 a ++ r1 = put64 b ++ r2 -> a = b /\ r1 = r2.
Proof.
  intros Ha Hb H. apply app_inj_len in H as [H ->]; [|by unfold put64; rewrite !length_le_bytes].
  split; [by apply put64_inj|done].
Qed.

Lemma frame_app_inj f1 f2 r1 r2 : short f1 -> short f2 ->
  frame f1 ++ r1 = frame f2 ++ r2 -> f1 = f2 /\ r1 = r2.
Proof.
  unfold frame, short. rewrite <-!app_assoc. intros H1 H2 H.
  pose proof (zlen_nonneg f1). pose proof (zlen_nonneg f2).
  apply put32_app_inj in H as [Hl H]; [|lia..].
  apply app_inj_len in H as [-> ->]; [done|]. unfold zlen in Hl. lia.
Qed.

(** Framing is unambiguous: a payload determines its fields and what follows. *)
Lemma frames_app_inj fs1 fs2 r1 r2 :
  length fs1 = length fs2 -> Forall short fs1 -> Forall short fs2 ->
  frames fs1 ++ r1 = frames fs2 ++ r2 -> fs1 = fs2 /\ r1 = r2.
Proof.
  unfold frames. revert fs2. induction fs1 as [|f1 fs1 IH]; intros [|f2 fs2] Hlen H1 H2 H; try done.
  simpl in *. rewrite <-!app_assoc in H. inversion H1; subst. inversion H2; subst.
  apply frame_app_inj in H as [-> H]; [|done..]. apply IH in H as [-> ->]; [done|lia|done..].
Qed.

Lemma frames_inj fs1 fs2 :
  length fs1 = length fs2 -> Forall short fs1 -> Forall short fs2 ->
  frames fs1 = frames fs2 -> fs1 = fs2.
Proof.
  intros ??? H. apply (frames_app_inj fs1 fs2 [] []); rewrite ?app_nil_r; done.
Qed.

Lemma optVout_app_inj v1 v2 r1 r2 :
  (forall n, v1 = Some n -> 0 <= n <= uint32_max) -> (forall n, v2 = Some n -> 0 <= n <= uint32_max) ->
  optVout v1 ++ r1 = optVout v2 ++ r2 -> v1 = v2 /\ r1 = r2.
Proof.
  intros H1 H2. destruct v1 as [n1|], v2 as [n2|]; cbn [optVout app]; intros H; try discriminate.
  - apply (f_equal (@tl byte)) in H. cbn [tl] in H. apply put32_app_inj in H as [-> ->]; [done|by apply H1|by apply H2].
  - by injection H as ->.
Qed.

(** [uint64(x)] of an [int64]: the two's complement bits. *)
Definition uint64_of (z : Z) : Z := z mod 2 ^ 64.

Lemma uint64_of_range z : 0 <= uint64_of z <= uint64_max.
Proof. unfold uint64_of, uint64_max. pose proof (Z.mod_pos_bound z (2 ^ 64) eq_refl). lia. Qed.

Definition int64_range (z : Z) : Prop := - 2 ^ 63 <= z <= int64_max.
Definition uint32_range (z : Z) : Prop := 0 <= z <= uint32_max.

Lemma uint64_of_inj a b : int64_range a -> int64_range b -> uint64_of a = uint64_of b -> a = b.
Proof.
  unfold int64_range, int64_max, uint64_of. intros Ha Hb H.
  pose proof (Z.div_mod a (2 ^ 64) ltac:(lia)). pose proof (Z.div_mod b (2 ^ 64) ltac:(lia)).
  pose proof (Z.mod_pos_bound a (2 ^ 64) ltac:(lia)). nia.
Qed.

Lemma put64_int_app_inj a b r1 r2 : int64_range a -> int64_range b ->
  put64 (uint64_of a) ++ r1 = put64 (uint64_of b) ++ r2 -> a = b /\ r1 = r2.
Proof.
  intros Ha Hb H. apply put64_app_inj in H as [H ->]; [|apply uint64_of_range..].
  split; [by apply uint64_of_inj|done].
Qed.

(** Peels the equality of two payloads chunk by chunk. *)
Ltac peel_payload :=
  repeat match goal with
  | H : frames _ ++ _ = frames _ ++ _ |- _ => apply frames_app_inj in H as [? H]; [|by (simpl; lia)|by eauto|by eauto]
  | H : put32 _ ++ _ = put32 _ ++ _ |- _ => apply put32_app_inj in H as [? H]; [|by eauto|by eauto]
  | H : put64 (uint64_of _) ++ _ = put64 (uint64_of _) ++ _ |- _ => apply put64_int_app_inj in H as [? H]; [|by eauto|by eauto]
  end.

(** ** Authenticated records

    [canonical] is the record type's payload builder (its validation included),
    [mac_of]/[with_mac] read and replace the [IntegrityMAC] field, and [well_typed]
    says that the integer fields are in the range of their Go types.  The laws
    say that the MAC is not part of the payload and that the payload determines
    every other field. *)

Class Sealed (T : Type) := {
  canonical : T -> result bytes;
  mac_of : T -> bytes;
  with_mac : bytes -> T -> T;
  well_typed : T -> Prop;
  err_key : error;
  err_missing : error;
  err_mismatch : error;
  mac_of_with m r : mac_of (with_mac m r) = m;
  with_mac_twice m1 m2 r : with_mac m1 (with_mac m2 r) = with_mac m1 r;
  with_mac_id r : with_mac (mac_of r) r = r;
  canonical_with m r : canonical (with_mac m r) = canonical r;
  canonical_inj r1 r2 p :
    well_typed r1 -> well_typed r2 -> canonical r1 = Ok p -> canonical r2 = Ok p ->
    with_mac [] r1 = with_mac [] r2
}.

(** The two messages [p1] and [p2] are an HMAC-SHA256 collision under [key]. *)
Definition hmac_collision (key p1 p2 : bytes) : Prop :=
  p1 <> p2 /\ hmac_sha256 key p1 = hmac_sha256 key p2.

Section sealed.
Context {T : Type} `{Sealed T}.

Definition recordMAC (rec : T) (key : bytes) : result bytes :=
  require (zlen key =? sha256_size) err_key;;
  payload ← canonical rec;
  Ok (hmac_sha256 key payload).

Definition Seal (rec : T) (key : bytes) : result T :=
  mac ← recordMAC rec key; Ok (with_mac mac rec).

Definition Verify (rec : T) (key : bytes) : result unit :=
  require (zlen (mac_of rec) =? sha256_size) err_missing;;
  want ← recordMAC rec key;
  require (beqb (mac_of rec) want) err_mismatch.

Lemma Seal_Ok rec key rec' :
  Seal rec key = Ok rec' <->
  zlen key = 32 /\ exists p, canonical rec = Ok p /\ rec' = with_mac (hmac_sha256 key p) rec.
Proof.
  unfold Seal, recordMAC. split.
  - intros Hs. inv_ok. bool_prop. split; [done|]. eauto.
  - intros (Hk & p & Hp & ->). by rewrite Hk, Hp.
Qed.

Lemma Verify_Ok rec key u :
  Verify rec key = Ok u <->
  zlen key = 32 /\ exists p, canonical rec = Ok p /\ mac_of rec = hmac_sha256 key p.
Proof.
  destruct u. unfold Verify, recordMAC. split.
  - intros Hs. inv_ok. bool_prop. split; [done|]. apply beqb_true in Hs. eauto.
  - intros (Hk & p & Hp & Hm). rewrite Hm, zlen_hmac, Hk, Hp. simpl.
    by rewrite (proj2 (beqb_true _ _)).
Qed.

(** What was sealed verifies. *)
Lemma seal_verify rec key rec' : Seal rec key = Ok rec' -> Verify rec' key = Ok tt.
Proof.
  rewrite Seal_Ok, Verify_Ok. intros (Hk & p & Hp & ->). split; [done|].
  exists p. by rewrite canonical_with, mac_of_with.
Qed.

(** Sealing changes the MAC and nothing else. *)
Lemma seal_core rec key rec' m : Seal rec key = Ok rec' -> with_mac m rec' = with_mac m rec.
Proof. rewrite Seal_Ok. intros (_ & p & _ & ->). apply with_mac_twice. Qed.

Lemma seal_canonical rec key rec' : Seal rec key = Ok rec' -> canonical rec' = canonical rec.
Proof. rewrite Seal_Ok. intros (_ & p & _ & ->). apply canonical_with. Qed.

(** A seal is deterministic and idempotent. *)
Lemma seal_idem rec key rec' : Seal rec key = Ok rec' -> Seal rec' key = Ok rec'.
Proof.
  intros Hs. pose proof Hs as (Hk & p & Hp & ->)%Seal_Ok. apply Seal_Ok. split; [done|].
  exists p. by rewrite canonical_with, with_mac_twice.
Qed.

(** A verified row is exactly what a seal produces. *)
Lemma verify_seal rec key : Verify rec key = Ok tt -> Seal rec key = Ok rec.
Proof.
  intros (Hk & p & Hp & Hm)%Verify_Ok. apply Seal_Ok. split; [done|]. exists p.
  split; [done|]. by rewrite <-Hm, with_mac_id.
Qed.

(** The two rows' own payloads are an HMAC collision under [key]. *)
Definition rows_collide (key : bytes) (r1 r2 : T) : Prop :=
  exists p1 p2, canonical r1 = Ok p1 /\ canonical r2 = Ok p2 /\ hmac_collision key p1 p2.

(** Two rows that verify under the same MAC are the same row, unless their two
    payloads are an HMAC collision. *)
Lemma verify_authentic key r1 r2 :
  well_typed r1 -> well_typed r2 -> Verify r1 key = Ok tt -> Verify r2 key = Ok tt ->
  mac_of r1 = mac_of r2 -> r1 = r2 \/ rows_collide key r1 r2.
Proof.
  intros W1 W2 (_ & p1 & Hp1 & Hm1)%Verify_Ok (_ & p2 & Hp2 & Hm2)%Verify_Ok Hm.
  destruct (decide (p1 = p2)) as [->|Hne].
  - left. rewrite <-(with_mac_id r1), <-(with_mac_id r2), Hm.
    rewrite <-(with_mac_twice (mac_of r2) [] r1), <-(with_mac_twice (mac_of r2) [] r2).
    f_equal. by eapply canonical_inj.
  - right. exists p1, p2. split_and!; [done..|]. split; [done|]. congruence.
Qed.
End sealed.

#[export] Hint Resolve seal_verify : vault.
