(* ===== verification/Program.v ===== *)
(** * The pinned program data: [src/internal/program]

    Network pins, protection tiers and the user-selected spending policy with
    its canonical JSON and digest.  Everything here is a release constant or a
    validation of caller data against release constants. *)

From S2P Require Import Prelude Crypto.
From Stdlib Require Import Strings.Byte Strings.Ascii Strings.String.
From stdpp Require Import base decidable list strings countable option.
From Stdlib Require Import ZArith Lia.
Open Scope string_scope.
Open Scope Z_scope.

(** ** Release constants: [program.go], [pins.go] *)

Definition TxRecipientCapSats : Z := 50000.
Definition PeriodAllowanceSats : Z := 100000.
Definition AbsoluteFeeCeiling : Z := 5000.
Definition FeerateCeilingSatPerV : Z := 10.
Definition DustSats : Z := 330.

Definition PolicyVersion := "vault-spending-policy-v1".
Definition NetworkMainnet := "mainnet".
Definition NetworkMutinynet := "mutinynet".
Definition VaultPolicyV1 := "vault-policy-v1".
Definition VaultBoardV1 := "vault-board-v1".

Definition VaultPolicyV1ExitDelay : Z := 4608.
Definition VaultPolicyV1ExitDelayUnit := "seconds".
Definition VaultPolicyV1ArkdMinExitDelay : Z := 2048.
Definition VaultPolicyV1BIP68SecondsMod : Z := 512.
Definition VaultBoardV1ExitDelay : Z := 604672.
Definition VaultBoardV1ExitDelayUnit := "seconds".
Definition VaultPolicyV1PinnedDelegate := "032903b15efe236d9609da10e536fb32cdf1d144778797bbf32a9b94e86601be6a".
Definition VaultPolicyV1DelegateOrigin := "https://delegator.mutinynet.arkade.sh".

Definition MainnetVaultPolicyV1ExitDelay : Z := 605184.
Definition MainnetVaultPolicyV1ArkdMinDelay : Z := 605184.
Definition MainnetVaultBoardV1ExitDelay : Z := 7776256.
Definition MainnetVaultPolicyV1PinnedDelegate := "026d7d45360014bce9a8ad30a10c28dd1571a22a2e90c9682268404d37b5b114a6".
Definition MainnetVaultPolicyV1DelegateOrigin := "https://delegate.arkade.money".
Definition MainnetAbsoluteFeeCeiling : Z := 20000.
Definition MainnetFeerateCeilingSatPerV : Z := 25.

Record NetworkPins := MkPins {
  pin_Network : string;
  pin_PolicyExitDelay : Z;
  pin_BoardExitDelay : Z;
  pin_ArkdMinExitDelay : Z;
  pin_DelegatePub : string;
  pin_DelegateOrigin : string;
  pin_AbsoluteFeeCeiling : Z;
  pin_FeerateCeilingSatPerV : Z
}.

Definition PinsFor (network : string) : result NetworkPins :=
  if seqb network NetworkMutinynet then
    Ok (MkPins NetworkMutinynet VaultPolicyV1ExitDelay VaultBoardV1ExitDelay
          VaultPolicyV1ArkdMinExitDelay VaultPolicyV1PinnedDelegate VaultPolicyV1DelegateOrigin
          AbsoluteFeeCeiling FeerateCeilingSatPerV)
  else if seqb network NetworkMainnet then
    Ok (MkPins NetworkMainnet MainnetVaultPolicyV1ExitDelay MainnetVaultBoardV1ExitDelay
          MainnetVaultPolicyV1ArkdMinDelay MainnetVaultPolicyV1PinnedDelegate
          MainnetVaultPolicyV1DelegateOrigin MainnetAbsoluteFeeCeiling MainnetFeerateCeilingSatPerV)
  else Err (Errorf ("unsupported network " ++ network)).

Definition ValidateVaultPolicyV1ExitDelayFor (network : string) (delay : Z) (unit_ : string) : result unit :=
  pins ← PinsFor network;
  require (seqb unit_ VaultPolicyV1ExitDelayUnit) (Errorf "vault-policy-v1 exit delay unit must be seconds");;
  require (delay mod VaultPolicyV1BIP68SecondsMod =? 0)
    (Errorf "vault-policy-v1 exit delay must be a BIP68 seconds multiple of 512");;
  require (negb (delay <? pin_ArkdMinExitDelay pins)) (Errorf "vault-policy-v1 exit delay is below arkd minimum");;
  require (delay =? pin_PolicyExitDelay pins) (Errorf "vault-policy-v1 exit delay is frozen").

Definition ValidateVaultBoardV1ExitDelayFor (network : string) (delay : Z) (unit_ : string) : result unit :=
  pins ← PinsFor network;
  require (seqb unit_ VaultBoardV1ExitDelayUnit) (Errorf "vault-board-v1 exit delay unit must be seconds");;
  require (delay mod VaultPolicyV1BIP68SecondsMod =? 0)
    (Errorf "vault-board-v1 exit delay must be a BIP68 seconds multiple of 512");;
  require (delay =? pin_BoardExitDelay pins) (Errorf "vault-board-v1 exit delay is frozen").

(** The Mutinynet-only validators kept beside the network-aware ones. *)
Definition ValidateVaultBoardV1ExitDelay (delay : Z) (unit_ : string) : result unit :=
  require (seqb unit_ VaultBoardV1ExitDelayUnit) (Errorf "vault-board-v1 exit delay unit must be seconds");;
  require (delay mod VaultPolicyV1BIP68SecondsMod =? 0)
    (Errorf "vault-board-v1 exit delay must be a BIP68 seconds multiple of 512");;
  require (delay =? VaultBoardV1ExitDelay) (Errorf "vault-board-v1 exit delay is frozen").

Definition ValidateVaultPolicyV1ExitDelay (delay : Z) (unit_ : string) : result unit :=
  require (seqb unit_ VaultPolicyV1ExitDelayUnit) (Errorf "vault-policy-v1 exit delay unit must be seconds");;
  require (delay mod VaultPolicyV1BIP68SecondsMod =? 0)
    (Errorf "vault-policy-v1 exit delay must be a BIP68 seconds multiple of 512");;
  require (negb (delay <? VaultPolicyV1ArkdMinExitDelay)) (Errorf "vault-policy-v1 exit delay is below arkd minimum");;
  require (delay =? VaultPolicyV1ExitDelay) (Errorf "vault-policy-v1 exit delay is frozen").

(** ** Protection tiers: [protection_tier.go] *)

Definition ProtectionTierStandard := "standard".
Definition ProtectionTierAdvanced := "advanced".

Definition ValidateProtectionTier (tier : string) : result unit :=
  require (seqb tier ProtectionTierStandard || seqb tier ProtectionTierAdvanced)
    (Errorf ("unsupported protection tier " ++ tier)).

Definition ValidateProtectionTierRecovery (tier : string) (hasRecovery : bool) : result unit :=
  ValidateProtectionTier tier;;
  if seqb tier ProtectionTierStandard && hasRecovery
  then Err (Errorf "standard protection must not include a recovery key")
  else if seqb tier ProtectionTierAdvanced && negb hasRecovery
  then Err (Errorf "advanced protection requires a recovery key")
  else Ok tt.

(** ** The spending policy: [spending_policy.go] *)

Definition SpendingPolicyProgram := VaultPolicyV1.
Definition SpendingPolicyPeriod := "rolling-24h".
Definition MinTxRecipientCapSats : Z := DustSats.
Definition MaxTxRecipientCapSats : Z := 100000000.
Definition MinPeriodAllowanceSats : Z := DustSats.
Definition MaxPeriodAllowanceSats : Z := 1000000000.
Definition MinAbsoluteFeeCapSats : Z := 0.
Definition MaxAbsoluteFeeCapSats : Z := 100000.
Definition MinFeerateCapSatPerV : Z := 1.
Definition MaxFeerateCapSatPerV : Z := 100.

Record SpendingPolicy := MkPolicy {
  sp_Program : string;
  sp_Schema : string;
  sp_Period : string;
  sp_PeriodAllowanceSats : Z;
  sp_TxRecipientCapSats : Z;
  sp_AbsoluteFeeCapSats : Z;
  sp_FeerateCapSatPerV : Z
}.

#[export] Instance SpendingPolicy_eq_dec : EqDecision SpendingPolicy.
Proof. solve_decision. Defined.

Definition DefaultSpendingPolicyFor (network : string) : result SpendingPolicy :=
  pins ← PinsFor network;
  Ok (MkPolicy SpendingPolicyProgram PolicyVersion SpendingPolicyPeriod PeriodAllowanceSats
        TxRecipientCapSats (pin_AbsoluteFeeCeiling pins) (pin_FeerateCeilingSatPerV pins)).

(** [DefaultSpendingPolicy] panics on an error that cannot happen; [default_total] below. *)
Definition DefaultSpendingPolicy : SpendingPolicy :=
  MkPolicy SpendingPolicyProgram PolicyVersion SpendingPolicyPeriod PeriodAllowanceSats
    TxRecipientCapSats AbsoluteFeeCeiling FeerateCeilingSatPerV.

Definition validatePolicyBound (name : string) (value min max : Z) : result unit :=
  require (negb ((value <? min) || (max <? value))) (Errorf (name ++ " out of bounds")).

Definition ValidateSpendingPolicyFor (network : string) (p : SpendingPolicy) : result unit :=
  pins ← PinsFor network;
  require (seqb (sp_Program p) SpendingPolicyProgram) (Errorf "spending policy program must be vault-policy-v1");;
  require (seqb (sp_Schema p) PolicyVersion) (Errorf "spending policy schema must be vault-spending-policy-v1");;
  require (seqb (sp_Period p) SpendingPolicyPeriod) (Errorf "spending policy period must be rolling-24h");;
  validatePolicyBound "tx recipient cap" (sp_TxRecipientCapSats p) MinTxRecipientCapSats MaxTxRecipientCapSats;;
  validatePolicyBound "period allowance" (sp_PeriodAllowanceSats p) MinPeriodAllowanceSats MaxPeriodAllowanceSats;;
  require (negb (sp_PeriodAllowanceSats p <? sp_TxRecipientCapSats p))
    (Errorf "period allowance must be at least the transaction recipient cap");;
  validatePolicyBound "absolute fee cap" (sp_AbsoluteFeeCapSats p) MinAbsoluteFeeCapSats MaxAbsoluteFeeCapSats;;
  require (sp_AbsoluteFeeCapSats p =? pin_AbsoluteFeeCeiling pins) (Errorf "absolute fee cap must match the release value");;
  validatePolicyBound "feerate cap" (sp_FeerateCapSatPerV p) MinFeerateCapSatPerV MaxFeerateCapSatPerV;;
  require (sp_FeerateCapSatPerV p =? pin_FeerateCeilingSatPerV pins) (Errorf "feerate cap must match the release value").

Definition ValidateSpendingPolicy (p : SpendingPolicy) : result unit :=
  ValidateSpendingPolicyFor NetworkMutinynet p.

(** [json.Marshal] of the struct: compact, in field order.  The three strings
    are release constants by then and need no escaping. *)
Definition dq : string := String "034" EmptyString.
Definition json_str (s : string) : string := dq ++ s ++ dq.
Definition json_field (k v : string) : string := json_str k ++ ":" ++ v.

Definition marshalPolicy (p : SpendingPolicy) : string :=
  "{" ++ json_field "program" (json_str (sp_Program p))
  ++ "," ++ json_field "schema" (json_str (sp_Schema p))
  ++ "," ++ json_field "period" (json_str (sp_Period p))
  ++ "," ++ json_field "periodAllowanceSats" (fmt_int (sp_PeriodAllowanceSats p))
  ++ "," ++ json_field "txRecipientCapSats" (fmt_int (sp_TxRecipientCapSats p))
  ++ "," ++ json_field "absoluteFeeCapSats" (fmt_int (sp_AbsoluteFeeCapSats p))
  ++ "," ++ json_field "feerateCapSatPerV" (fmt_int (sp_FeerateCapSatPerV p)) ++ "}".

Definition CanonicalSpendingPolicyJSONFor (network : string) (p : SpendingPolicy) : result bytes :=
  ValidateSpendingPolicyFor network p;; Ok (bytes_of (marshalPolicy p)).

Definition SpendingPolicyDigestFor (network : string) (p : SpendingPolicy) : result bytes :=
  raw ← CanonicalSpendingPolicyJSONFor network p; Ok (sha256 raw).

Definition SpendingPolicyDigestHexFor (network : string) (p : SpendingPolicy) : result string :=
  digest ← SpendingPolicyDigestFor network p; Ok (hex_encode digest).

Definition SpendingPolicyFromValues (txCap allowance feeCap feerate : Z) : SpendingPolicy :=
  let p := DefaultSpendingPolicy in
  MkPolicy (sp_Program p) (sp_Schema p) (sp_Period p) allowance txCap feeCap feerate.

Record SpendingPolicyBounds := MkBounds { b_Min : Z; b_Max : Z }.
Record SpendingPolicyPreset := MkPreset { pr_ID : string; pr_Label : string; pr_Policy : SpendingPolicy }.
Record SpendingPolicyCapabilities := MkCaps {
  cap_Program : string;
  cap_Schema : string;
  cap_Period : string;
  cap_PeriodAllowanceSats : SpendingPolicyBounds;
  cap_TxRecipientCapSats : SpendingPolicyBounds;
  cap_AbsoluteFeeCapSats : SpendingPolicyBounds;
  cap_FeerateCapSatPerV : SpendingPolicyBounds;
  cap_Presets : list SpendingPolicyPreset
}.

Definition CurrentSpendingPolicyCapabilitiesFor (network : string) : result SpendingPolicyCapabilities :=
  pins ← PinsFor network;
  everyday ← DefaultSpendingPolicyFor network;
  Ok (MkCaps SpendingPolicyProgram PolicyVersion SpendingPolicyPeriod
        (MkBounds MinPeriodAllowanceSats MaxPeriodAllowanceSats)
        (MkBounds MinTxRecipientCapSats MaxTxRecipientCapSats)
        (MkBounds (pin_AbsoluteFeeCeiling pins) (pin_AbsoluteFeeCeiling pins))
        (MkBounds (pin_FeerateCeilingSatPerV pins) (pin_FeerateCeilingSatPerV pins))
        [MkPreset "lower-exposure" "Lower exposure"
           (SpendingPolicyFromValues 25000 50000 (pin_AbsoluteFeeCeiling pins) (pin_FeerateCeilingSatPerV pins));
         MkPreset "everyday" "Everyday" everyday]).

(** ** Lemmas *)

Lemma PinsFor_networks network pins :
  PinsFor network = Ok pins -> network = NetworkMutinynet \/ network = NetworkMainnet.
Proof.
  unfold PinsFor. destruct (seqb network NetworkMutinynet) eqn:E1; [apply seqb_true in E1; auto|].
  destruct (seqb network NetworkMainnet) eqn:E2; [apply seqb_true in E2; auto|done].
Qed.

Lemma PinsFor_Ok network pins :
  PinsFor network = Ok pins ->
  pin_Network pins = network /\
  pin_PolicyExitDelay pins mod VaultPolicyV1BIP68SecondsMod = 0 /\
  pin_ArkdMinExitDelay pins <= pin_PolicyExitDelay pins /\
  pin_BoardExitDelay pins mod VaultPolicyV1BIP68SecondsMod = 0 /\
  pin_PolicyExitDelay pins < pin_BoardExitDelay pins <= uint32_max /\
  MinAbsoluteFeeCapSats <= pin_AbsoluteFeeCeiling pins <= MaxAbsoluteFeeCapSats /\
  MinFeerateCapSatPerV <= pin_FeerateCeilingSatPerV pins <= MaxFeerateCapSatPerV.
Proof.
  intros H. destruct (PinsFor_networks _ _ H) as [-> | ->];
    vm_compute in H; injection H as <-; vm_compute; intuition congruence.
Qed.

Lemma default_total : DefaultSpendingPolicyFor NetworkMutinynet = Ok DefaultSpendingPolicy.
Proof. reflexivity. Qed.

Lemma validatePolicyBound_Ok name v lo hi u :
  validatePolicyBound name v lo hi = Ok u <-> lo <= v <= hi.
Proof.
  unfold validatePolicyBound. rewrite require_Ok.
  destruct (Z.ltb_spec v lo), (Z.ltb_spec hi v); simpl; split; try done; lia.
Qed.

(** The policies a network admits. *)
Definition policy_ok (pins : NetworkPins) (p : SpendingPolicy) : Prop :=
  sp_Program p = SpendingPolicyProgram /\ sp_Schema p = PolicyVersion /\ sp_Period p = SpendingPolicyPeriod /\
  DustSats <= sp_TxRecipientCapSats p <= MaxTxRecipientCapSats /\
  sp_TxRecipientCapSats p <= sp_PeriodAllowanceSats p <= MaxPeriodAllowanceSats /\
  sp_AbsoluteFeeCapSats p = pin_AbsoluteFeeCeiling pins /\
  sp_FeerateCapSatPerV p = pin_FeerateCeilingSatPerV pins.

Lemma ValidateSpendingPolicyFor_Ok network p :
  ValidateSpendingPolicyFor network p = Ok tt <->
  exists pins, PinsFor network = Ok pins /\ policy_ok pins p.
Proof.
  unfold ValidateSpendingPolicyFor, policy_ok. split.
  - intros H. inv_ok.
    repeat match goal with
    | H : validatePolicyBound _ _ _ _ = Ok _ |- _ => apply validatePolicyBound_Ok in H
    | H : seqb _ _ = true |- _ => apply seqb_true in H
    end. bool_prop. unfold MinTxRecipientCapSats in *. eexists. split; [done|]. split_and!; done || lia.
  - intros (pins & Hp & H1 & H2 & H3 & ? & ? & H6 & H7). rewrite Hp. simpl.
    destruct (PinsFor_Ok _ _ Hp) as (_ & _ & _ & _ & _ & Hf & Hr).
    rewrite !(proj2 (seqb_true _ _)) by done. simpl.
    rewrite !(proj2 (validatePolicyBound_Ok _ _ _ _ tt))
      by (unfold MinTxRecipientCapSats, MinPeriodAllowanceSats, DustSats in *; lia). simpl.
    rewrite (proj2 (Z.ltb_ge _ _)) by lia. simpl.
    rewrite !(proj2 (Z.eqb_eq _ _)) by done. done.
Qed.

Lemma str_cons_app c (s t : string) : String c s ++ t = String c (s ++ t).
Proof. done. Qed.

Lemma str_app_assoc (a b c : string) : (a ++ b) ++ c = a ++ (b ++ c).
Proof. induction a as [|x a IH]; [done|]. by rewrite !str_cons_app, IH. Qed.

Lemma str_app_inj_l (a b c : string) : a ++ b = a ++ c -> b = c.
Proof. induction a as [|x a IH]; [done|]. rewrite !str_cons_app. intros [= H]. auto. Qed.

(** Digits end at the first character that is not a digit. *)
Lemma digits_prefix_inj ds1 ds2 c1 c2 (r1 r2 : string) :
  Forall (fun d => 0 <= d < 10) ds1 -> Forall (fun d => 0 <= d < 10) ds2 ->
  digit_val c1 = None -> digit_val c2 = None ->
  string_of_digits ds1 ++ String c1 r1 = string_of_digits ds2 ++ String c2 r2 ->
  ds1 = ds2 /\ String c1 r1 = String c2 r2.
Proof.
  intros H1 H2 E1 E2. revert ds2 H2. induction H1 as [|d1 ds1 Hd1 _ IH]; intros ds2 H2.
  - destruct H2 as [|d2 ds2 Hd2 _]; cbn [string_of_digits fold_right]; rewrite ?str_cons_app; intros H; [done|].
    injection H as Hc _. by rewrite Hc, digit_val_char in E1.
  - destruct H2 as [|d2 ds2 Hd2 Hds2]; cbn [string_of_digits fold_right]; rewrite ?str_cons_app; intros H.
    + injection H as Hc _. rewrite <-Hc, digit_val_char in E2; done.
    + injection H as Hc H. apply (f_equal digit_val) in Hc. rewrite !digit_val_char in Hc by done.
      injection Hc as ->. by destruct (IH _ Hds2 H) as [-> ->].
Qed.

Lemma fmt_uint_app_inj n m c1 c2 (r1 r2 : string) :
  0 <= n -> 0 <= m -> digit_val c1 = None -> digit_val c2 = None ->
  fmt_uint n ++ String c1 r1 = fmt_uint m ++ String c2 r2 -> n = m /\ String c1 r1 = String c2 r2.
Proof.
  unfold fmt_uint. intros Hn Hm E1 E2 H.
  apply digits_prefix_inj in H as [H ->]; [|by apply Forall_rev, dec_digits_range..|done|done].
  split; [|done]. apply fmt_uint_inj; [done..|]. unfold fmt_uint. by rewrite H.
Qed.

(** The JSON of two policies determines both limits and the text after them. *)
Lemma marshal_fields q1 q2 p1 p2 :
  policy_ok q1 p1 -> policy_ok q2 p2 -> marshalPolicy p1 = marshalPolicy p2 ->
  sp_PeriodAllowanceSats p1 = sp_PeriodAllowanceSats p2 /\
  sp_TxRecipientCapSats p1 = sp_TxRecipientCapSats p2 /\
  fmt_int (pin_AbsoluteFeeCeiling q1) ++ "," ++ json_field "feerateCapSatPerV" (fmt_int (pin_FeerateCeilingSatPerV q1)) ++ "}"
  = fmt_int (pin_AbsoluteFeeCeiling q2) ++ "," ++ json_field "feerateCapSatPerV" (fmt_int (pin_FeerateCeilingSatPerV q2)) ++ "}".
Proof.
  destruct p1 as [g1 s1 e1 a1 t1 f1 r1], p2 as [g2 s2 e2 a2 t2 f2 r2].
  unfold policy_ok, marshalPolicy, DustSats. simpl sp_Program. simpl sp_Schema. simpl sp_Period.
  simpl sp_PeriodAllowanceSats. simpl sp_TxRecipientCapSats. simpl sp_AbsoluteFeeCapSats. simpl sp_FeerateCapSatPerV.
  intros (-> & -> & -> & ? & ? & -> & ->) (-> & -> & -> & ? & ? & -> & ->).
  generalize (fmt_int (pin_AbsoluteFeeCeiling q1)) (fmt_int (pin_AbsoluteFeeCeiling q2))
    (fmt_int (pin_FeerateCeilingSatPerV q1)) (fmt_int (pin_FeerateCeilingSatPerV q2)). intros f1 f2 r1 r2.
  unfold json_field, fmt_int. rewrite (proj2 (Z.ltb_ge a1 0)), (proj2 (Z.ltb_ge a2 0)), (proj2 (Z.ltb_ge t1 0)), (proj2 (Z.ltb_ge t2 0)) by lia.
  rewrite !str_app_assoc. intros E.
  repeat apply str_app_inj_l in E. rewrite !str_cons_app in E.
  apply fmt_uint_app_inj in E as [-> E2]; [|lia|lia|reflexivity|reflexivity]. rewrite <-!str_cons_app in E2.
  repeat apply str_app_inj_l in E2. rewrite !str_cons_app in E2.
  apply fmt_uint_app_inj in E2 as [-> E3]; [|lia|lia|reflexivity|reflexivity]. rewrite <-!str_cons_app in E3.
  repeat apply str_app_inj_l in E3. done.
Qed.

Lemma policy_ok_ext q p1 p2 : policy_ok q p1 -> policy_ok q p2 ->
  sp_PeriodAllowanceSats p1 = sp_PeriodAllowanceSats p2 ->
  sp_TxRecipientCapSats p1 = sp_TxRecipientCapSats p2 -> p1 = p2.
Proof. destruct p1, p2. unfold policy_ok. simpl. naive_solver. Qed.

(** The JSON of accepted policies also tells the network. *)
Lemma marshal_networks n1 n2 p1 p2 :
  ValidateSpendingPolicyFor n1 p1 = Ok tt -> ValidateSpendingPolicyFor n2 p2 = Ok tt ->
  marshalPolicy p1 = marshalPolicy p2 -> n1 = n2 /\ p1 = p2.
Proof.
  intros (q1 & P1 & V1)%ValidateSpendingPolicyFor_Ok (q2 & P2 & V2)%ValidateSpendingPolicyFor_Ok E.
  destruct (marshal_fields q1 q2 p1 p2 V1 V2 E) as (Ha & Ht & Hf).
  assert (q1 = q2) as <-.
  { destruct (PinsFor_networks _ _ P1) as [-> | ->], (PinsFor_networks _ _ P2) as [-> | ->];
      vm_compute in P1, P2; injection P1 as <-; injection P2 as <-; try done; vm_compute in Hf; discriminate Hf. }
  split; [|by eapply policy_ok_ext].
  destruct (PinsFor_Ok _ _ P1) as [<- _]. by destruct (PinsFor_Ok _ _ P2) as [<- _].
Qed.

(** ** Properties *)

(** A spending policy is accepted for a network exactly when the network is
    known, the three identifiers are the release identifiers, the recipient cap
    lies between dust and its maximum, the allowance lies between the cap and
    its maximum, and both fee ceilings equal the network's release values. *)
Theorem validate_policy_exact network p :
  ValidateSpendingPolicyFor network p = Ok tt <->
  exists pins, PinsFor network = Ok pins /\ policy_ok pins p.
Proof. apply ValidateSpendingPolicyFor_Ok. Qed.

(** The digest that enrollment freezes identifies the policy: two policies
    accepted for a network with the same digest are equal, unless their two canonical
    encodings are a SHA-256 collision; and no policy is accepted on both networks. *)
Theorem policy_digest_binds n1 n2 p1 p2 d :
  SpendingPolicyDigestFor n1 p1 = Ok d -> SpendingPolicyDigestFor n2 p2 = Ok d ->
  (n1 = n2 /\ p1 = p2) \/ sha_collision (bytes_of (marshalPolicy p1)) (bytes_of (marshalPolicy p2)).
Proof.
  unfold SpendingPolicyDigestFor.
  intros (r1 & C1 & [= D1])%bind_Ok (r2 & C2 & [= D2])%bind_Ok.
  apply bind_Ok in C1 as ([] & V1 & [= <-]). apply bind_Ok in C2 as ([] & V2 & [= <-]).
  destruct (decide (bytes_of (marshalPolicy p1) = bytes_of (marshalPolicy p2))) as [E|Hne]; [left|right; split; [done|congruence]].
  eapply marshal_networks; [exact V1|exact V2|]. by apply bytes_of_inj.
Qed.

Lemma policy_digest_binds_witness :
  exists d, SpendingPolicyDigestFor "mutinynet" DefaultSpendingPolicy = Ok d /\
  hex_encode d = "d14d82444da7d49db0eb43d2307aaab0409da2481b5a845a8be5a44b70f9f912" /\
  (("mutinynet" = "mutinynet" /\ DefaultSpendingPolicy = DefaultSpendingPolicy) \/
   sha_collision (bytes_of (marshalPolicy DefaultSpendingPolicy)) (bytes_of (marshalPolicy DefaultSpendingPolicy))).
Proof.
  eexists. split; [reflexivity|]. split; [vm_compute; reflexivity|].
  eapply policy_digest_binds; reflexivity.
Defined.

(** The advertised capabilities are honest: every preset is accepted on the
    network it is advertised for, and any pair of limits inside the advertised
    bounds with the cap not above the allowance gives an accepted policy. *)
Theorem capabilities_sound network caps :
  CurrentSpendingPolicyCapabilitiesFor network = Ok caps ->
  Forall (fun pr => ValidateSpendingPolicyFor network (pr_Policy pr) = Ok tt) (cap_Presets caps) /\
  forall tx allowance fee rate,
    b_Min (cap_TxRecipientCapSats caps) <= tx <= b_Max (cap_TxRecipientCapSats caps) ->
    b_Min (cap_PeriodAllowanceSats caps) <= allowance <= b_Max (cap_PeriodAllowanceSats caps) ->
    b_Min (cap_AbsoluteFeeCapSats caps) <= fee <= b_Max (cap_AbsoluteFeeCapSats caps) ->
    b_Min (cap_FeerateCapSatPerV caps) <= rate <= b_Max (cap_FeerateCapSatPerV caps) ->
    tx <= allowance ->
    ValidateSpendingPolicyFor network (SpendingPolicyFromValues tx allowance fee rate) = Ok tt.
Proof.
  unfold CurrentSpendingPolicyCapabilitiesFor, DefaultSpendingPolicyFor.
  intros (pins & Hp & H)%bind_Ok. rewrite Hp in H. inv_ok. simpl.
  assert (Hv : forall tx al, DustSats <= tx <= MaxTxRecipientCapSats -> tx <= al <= MaxPeriodAllowanceSats ->
    ValidateSpendingPolicyFor network (SpendingPolicyFromValues tx al (pin_AbsoluteFeeCeiling pins) (pin_FeerateCeilingSatPerV pins)) = Ok tt).
  { intros. apply ValidateSpendingPolicyFor_Ok. exists pins. split; [done|]. unfold policy_ok. simpl. split_and!; done || lia. }
  unfold MinTxRecipientCapSats, MinPeriodAllowanceSats in *. split.
  - constructor; [|constructor; [|constructor]]; apply Hv; vm_compute; intuition congruence.
  - intros tx al fee rate ? ? ? ? ?. replace fee with (pin_AbsoluteFeeCeiling pins) by lia.
    replace rate with (pin_FeerateCeilingSatPerV pins) by lia. apply Hv; lia.
Qed.

Lemma capabilities_sound_witness :
  exists caps, CurrentSpendingPolicyCapabilitiesFor "mainnet" = Ok caps /\
  Forall (fun pr => ValidateSpendingPolicyFor "mainnet" (pr_Policy pr) = Ok tt) (cap_Presets caps).
Proof.
  eexists. split; [reflexivity|].
  apply (proj1 (capabilities_sound "mainnet" _ eq_refl)).
Defined.

(** Exit delays are frozen: each validator accepts exactly the network's
    pinned delay in seconds, and the Mutinynet-only validators agree with the
    network-aware ones on acceptance. *)
Theorem exit_delays_frozen network delay u :
  (ValidateVaultPolicyV1ExitDelayFor network delay u = Ok tt <->
     exists pins, PinsFor network = Ok pins /\ delay = pin_PolicyExitDelay pins /\ u = "seconds") /\
  (ValidateVaultBoardV1ExitDelayFor network delay u = Ok tt <->
     exists pins, PinsFor network = Ok pins /\ delay = pin_BoardExitDelay pins /\ u = "seconds") /\
  ValidateVaultPolicyV1ExitDelay delay u = ValidateVaultPolicyV1ExitDelayFor NetworkMutinynet delay u /\
  ValidateVaultBoardV1ExitDelay delay u = ValidateVaultBoardV1ExitDelayFor NetworkMutinynet delay u.
Proof.
  split_and!; [| |reflexivity|reflexivity].
  - unfold ValidateVaultPolicyV1ExitDelayFor. split.
    + intros H. inv_ok. bool_prop. eexists. split_and!; [done|done|by apply seqb_true].
    + intros (pins & Hp & -> & ->). rewrite Hp. destruct (PinsFor_Ok _ _ Hp) as (_ & Hm & Hle & _). simpl.
      rewrite Hm. simpl. by rewrite (proj2 (Z.ltb_ge _ _) Hle), Z.eqb_refl.
  - unfold ValidateVaultBoardV1ExitDelayFor. split.
    + intros H. inv_ok. bool_prop. eexists. split_and!; [done|done|by apply seqb_true].
    + intros (pins & Hp & -> & ->). rewrite Hp. destruct (PinsFor_Ok _ _ Hp) as (_ & _ & _ & Hm & _). simpl.
      rewrite Hm. simpl. by rewrite Z.eqb_refl.
Qed.

(** The protection tier determines the recovery key: [standard] is accepted
    exactly without one, [advanced] exactly with one, and nothing else is a tier. *)
Theorem tier_recovery_exact tier hasRecovery :
  ValidateProtectionTierRecovery tier hasRecovery = Ok tt <->
  (tier = "standard" /\ hasRecovery = false) \/ (tier = "advanced" /\ hasRecovery = true).
Proof.
  unfold ValidateProtectionTierRecovery, ValidateProtectionTier.
  destruct (seqb tier ProtectionTierStandard) eqn:E1; [apply seqb_true in E1 as ->|apply seqb_false in E1].
  - destruct hasRecovery; simpl; split; try done; [|by left]. intros [[_ ?]|[? _]]; done.
  - destruct (seqb tier ProtectionTierAdvanced) eqn:E2; [apply seqb_true in E2 as ->|apply seqb_false in E2].
    + destruct hasRecovery; simpl; split; try done; [by right|]. intros [[? _]|[_ ?]]; done.
    + simpl. split; [done|]. intros [[-> _]|[-> _]]; [by destruct E1|by destruct E2].
Qed.
