(* ===== verification/Monotonic.v ===== *)
(** * The external policy sequence: [src/internal/policy/monotonic.go]

    A MAC-authenticated counter in a file outside SQLite.  Its state is the
    content of that file ([None] when the file does not exist).  Writing goes
    through a temporary file and a rename, so a failed write either leaves the
    old content or, after the rename, the new content together with an error;
    [write_outcome] is that choice of the operating system, with a failed read. *)

From S2P Require Import Prelude Crypto Codec.
From Stdlib Require Import Strings.Byte Strings.Ascii Strings.String.
From stdpp Require Import base decidable list strings countable option.
From Stdlib Require Import ZArith Lia.
Open Scope string_scope.
Open Scope Z_scope.

Definition monotonicFileVersion := "arkade-vault-policy-sequence/v2".
Definition monotonicMACDomain := "arkade-vault/policy-sequence/v2".

(** [Monotonic]: the key (the path is the file the state models). *)
Record Monotonic := MkMonotonic { mono_key : bytes }.

Definition OpenMonotonic (path : string) (integrityKey : bytes) : result Monotonic :=
  require (negb (seqb path "")) (Errorf "monotonic path required");;
  require (zlen integrityKey =? sha256_size) (Errorf "integrity key required");;
  Ok (MkMonotonic integrityKey).

Definition nl : ascii := "010".

(** [strings.Split(s, "\n")] *)
Fixpoint split_lines (s : string) : list string :=
  match s with
  | EmptyString => [EmptyString]
  | String c s =>
      let ls := split_lines s in
      if Ascii.eqb c nl then EmptyString :: ls
      else match ls with
           | l :: ls => String c l :: ls
           | [] => [String c EmptyString]
           end
  end.

(** [strings.HasPrefix] with [strings.TrimPrefix]: the rest after the prefix. *)
Fixpoint after_prefix (p s : string) : option string :=
  match p, s with
  | EmptyString, _ => Some s
  | String a p, String b s => if Ascii.eqb a b then after_prefix p s else None
  | String _ _, EmptyString => None
  end.

(** [strconv.ParseUint(s, 10, 64)] *)
Definition ParseUint (s : string) : option Z :=
  ds ← digits_of_string s;
  if bool_decide (ds = []) then None
  else if digits_val ds <=? uint64_max then Some (digits_val ds) else None.

(** [unhex]: lowercase only; -1 is [None]. *)
Definition unhex (c : ascii) : option Z :=
  let n := Z.of_N (N_of_ascii c) in
  if (48 <=? n) && (n <=? 57) then Some (n - 48)
  else if (97 <=? n) && (n <=? 102) then Some (n - 97 + 10)
  else None.

Fixpoint unhex_pairs (s : string) : option bytes :=
  match s with
  | String a (String b s) =>
      x ← unhex a; y ← unhex b; bs ← unhex_pairs s;
      Some (byte_of_Z (Z.lor (Z.shiftl x 4) y) :: bs)
  | EmptyString => Some []
  | String _ EmptyString => None
  end.

Definition parseHexMAC (s : string) : result bytes :=
  if slen s =? 64 then
    match unhex_pairs s with Some b => Ok b | None => Err (Errorf "monotonic counter MAC") end
  else Err (Errorf "monotonic counter MAC").

(** One line of the file: a later [count=] or [mac=] line overrides. *)
Definition monotonicLine (st : Z * bytes) (line : string) : result (Z * bytes) :=
  count ← match after_prefix "count=" line with
          | Some rest => match ParseUint rest with
                         | Some n => Ok n
                         | None => Err (Errorf "monotonic counter")
                         end
          | None => Ok st.1
          end;
  mac ← match after_prefix "mac=" line with
        | Some rest => parseHexMAC rest
        | None => Ok st.2
        end;
  Ok (count, mac).

Definition parseMonotonic (raw : string) : result (Z * bytes) :=
  let lines := split_lines raw in
  match lines with
  | first :: rest =>
      require (negb (zlen lines <? 3) && seqb first monotonicFileVersion) (Errorf "monotonic counter version");;
      '(count, mac) ← foldR monotonicLine (0, []) rest;
      require (zlen mac =? sha256_size) (Errorf "monotonic counter MAC missing");;
      Ok (count, mac)
  | [] => Err (Errorf "monotonic counter version")
  end.

Definition monoMAC (m : Monotonic) (count : Z) : bytes :=
  hmac_sha256 (mono_key m) (bytes_of monotonicMACDomain ++ be_bytes 8 count)%list.

(** The bytes [write] puts in the file. *)
Definition monotonicPayload (m : Monotonic) (count : Z) : string :=
  monotonicFileVersion ++ String nl ("count=" ++ fmt_uint count ++ String nl
    ("mac=" ++ hex_encode (monoMAC m count) ++ String nl "")).

(** What the operating system makes of one read and write of the file. *)
Inductive write_outcome := WriteOk | FailBeforeRename | FailAfterRename | FailRead.

(** [None] is a missing file, [os.IsNotExist]; any other error of [os.ReadFile] is
    [FailRead]. *)
Definition monoRead (m : Monotonic) (io : write_outcome) (file : option string) : result (Z * bool) :=
  match io, file with
  | FailRead, _ => Err (Errorf "read")
  | _, None => Ok (0, false)
  | _, Some raw =>
      '(count, mac) ← parseMonotonic raw;
      require (beqb mac (monoMAC m count)) (Errorf "monotonic counter MAC mismatch");;
      Ok (count, true)
  end.

Definition monoWrite (m : Monotonic) (io : write_outcome) (file : option string) (count : Z)
  : option string * result unit :=
  match io with
  | WriteOk => (Some (monotonicPayload m count), Ok tt)
  | FailBeforeRename | FailRead => (file, Err (Errorf "write"))
  | FailAfterRename => (Some (monotonicPayload m count), Err (Errorf "sync"))
  end.

Definition Observe (m : Monotonic) (io : write_outcome) (file : option string) (dbCount : Z)
  : option string * result unit :=
  match monoRead m io file with
  | Err e => (file, Err e)
  | Ok (fileCount, exists_) =>
      if negb exists_ then
        if negb (dbCount =? 0) then
          (file, Err (Errorf "policy sequence is missing for a non-empty policy ledger"))
        else monoWrite m io file 0
      else if dbCount <? fileCount then
        (file, Err (Errorf "policy ledger is behind the external sequence"))
      else if dbCount =? fileCount then (file, Ok tt)
      else monoWrite m io file dbCount
  end.

(** ** Lemmas *)

Lemma split_lines_app l s : (forall i, String.get i l <> Some nl) ->
  split_lines (l ++ String nl s) = l :: split_lines s.
Proof.
  induction l as [|c l IH]; intros Hn; [done|].
  change (String c l ++ String nl s) with (String c (l ++ String nl s)). cbn [split_lines].
  rewrite IH by (intros i; apply (Hn (S i))).
  destruct (Ascii.eqb_spec c nl) as [->|]; [|done]. by destruct (Hn O).
Qed.

Lemma after_prefix_app p s : after_prefix p (p ++ s) = Some s.
Proof.
  induction p as [|c p IH]; [done|]. change (String c p ++ s) with (String c (p ++ s)).
  cbn [after_prefix]. by rewrite Ascii.eqb_refl.
Qed.

(** A string all of whose characters satisfy [P]. *)
Fixpoint all_chars (P : ascii -> bool) (s : string) : bool :=
  match s with EmptyString => true | String c s => P c && all_chars P s end.

Lemma all_chars_get P s c i : all_chars P s = true -> String.get i s = Some c -> P c = true.
Proof.
  revert i. induction s as [|a s IH]; intros i Hs; [done|]. simpl in Hs. bool_prop.
  destruct i; simpl; [by intros [= ->]|]. by apply IH.
Qed.

Lemma all_chars_app P a b : all_chars P (a ++ b) = all_chars P a && all_chars P b.
Proof.
  induction a as [|c a IH]; [done|]. change (String c a ++ b) with (String c (a ++ b)).
  cbn [all_chars]. by rewrite IH, andb_assoc.
Qed.

Definition not_nl (c : ascii) : bool := negb (Ascii.eqb c nl).

Lemma no_nl s i : all_chars not_nl s = true -> String.get i s <> Some nl.
Proof. intros Hs Hi. by pose proof (all_chars_get _ _ _ _ Hs Hi). Qed.

Lemma digit_not_nl d : 0 <= d < 10 -> not_nl (digit_char d) = true.
Proof.
  intros Hd. unfold not_nl. destruct (Ascii.eqb_spec (digit_char d) nl) as [E|]; [|done].
  apply (f_equal digit_val) in E. rewrite digit_val_char in E by done. done.
Qed.

Lemma fmt_uint_no_nl n : 0 <= n -> all_chars not_nl (fmt_uint n) = true.
Proof.
  intros Hn. unfold fmt_uint.
  pose proof (Forall_rev (dec_digits_range (dec_fuel n) n Hn)) as Hf. revert Hf.
  generalize (rev (dec_digits (dec_fuel n) n)). intros ds. induction 1 as [|d ds Hd _ IH]; [done|].
  simpl. by rewrite digit_not_nl, IH.
Qed.

Lemma unhex_digit n : 0 <= n < 16 -> unhex (hex_digit n) = Some n.
Proof.
  intros Hn. rewrite <-(Z2Nat.id n) by lia. assert (Hk : (Z.to_nat n < 16)%nat) by lia.
  revert Hk. generalize (Z.to_nat n). intros k Hk.
  do 16 (destruct k as [|k]; [reflexivity|]). lia.
Qed.

Lemma hex_encode_no_nl bs : all_chars not_nl (hex_encode bs) = true.
Proof.
  assert (Hd : forall n, 0 <= n < 16 -> not_nl (hex_digit n) = true).
  { intros n Hn. unfold not_nl. destruct (Ascii.eqb_spec (hex_digit n) nl) as [E|]; [|done].
    apply (f_equal unhex) in E. by rewrite unhex_digit in E. }
  induction bs as [|b bs IH]; [done|]. simpl. by rewrite !Hd, IH by (apply nibble_hi || apply nibble_lo).
Qed.

(** [byte(a<<4 | b)] of two nibbles. *)
Lemma nibbles x y : 0 <= x < 16 -> 0 <= y < 16 -> Z.lor (Z.shiftl x 4) y = 16 * x + y.
Proof.
  intros Hx Hy.
  assert (Hall : forallb (fun i => forallb (fun j =>
    Z.lor (Z.shiftl (Z.of_nat i) 4) (Z.of_nat j) =? 16 * Z.of_nat i + Z.of_nat j) (seq 0 16)) (seq 0 16) = true)
    by (vm_compute; reflexivity).
  rewrite forallb_forall in Hall. specialize (Hall (Z.to_nat x) ltac:(apply in_seq; lia)).
  rewrite forallb_forall in Hall. specialize (Hall (Z.to_nat y) ltac:(apply in_seq; lia)).
  rewrite !Z2Nat.id in Hall by lia. by apply Z.eqb_eq.
Qed.

Lemma unhex_pairs_encode bs : unhex_pairs (hex_encode bs) = Some bs.
Proof.
  induction bs as [|b bs IH]; [done|]. cbn [hex_encode unhex_pairs].
  rewrite !unhex_digit by (apply nibble_hi || apply nibble_lo). cbn [mbind option_bind].
  rewrite IH, nibbles by (apply nibble_hi || apply nibble_lo). cbn. f_equal. f_equal.
  pose proof (Z.div_mod (Z_of_byte b) 16).
  rewrite <-(byte_of_Z_of_byte b) at 3. f_equal. lia.
Qed.

Lemma ParseUint_fmt n : 0 <= n <= uint64_max -> ParseUint (fmt_uint n) = Some n.
Proof.
  intros Hn. destruct (digits_fmt_uint n) as (ds & E & Hne & Hv); [lia|].
  unfold ParseUint. rewrite E. cbn. rewrite bool_decide_eq_false_2 by done.
  by rewrite Hv, (proj2 (Z.leb_le _ _)) by lia.
Qed.

Lemma parseHexMAC_encode bs : zlen bs = 32 -> parseHexMAC (hex_encode bs) = Ok bs.
Proof. intros H. unfold parseHexMAC. by rewrite slen_hex_encode, H, unhex_pairs_encode. Qed.

Lemma line_count st n : 0 <= n <= uint64_max -> monotonicLine st ("count=" ++ fmt_uint n) = Ok (n, st.2).
Proof. intros Hn. unfold monotonicLine. by rewrite after_prefix_app, ParseUint_fmt. Qed.

Lemma line_mac st bs : zlen bs = 32 -> monotonicLine st ("mac=" ++ hex_encode bs) = Ok (st.1, bs).
Proof.
  intros Hb. unfold monotonicLine.
  change (after_prefix "count=" ("mac=" ++ hex_encode bs)) with (@None string). cbn [mbind result_bind].
  by rewrite after_prefix_app, parseHexMAC_encode.
Qed.

Lemma parse_payload m n : 0 <= n <= uint64_max ->
  parseMonotonic (monotonicPayload m n) = Ok (n, monoMAC m n).
Proof.
  intros Hn. unfold parseMonotonic, monotonicPayload.
  rewrite split_lines_app by (intros i; by apply no_nl).
  replace ("count=" ++ fmt_uint n ++ String nl ("mac=" ++ hex_encode (monoMAC m n) ++ String nl ""))
    with (("count=" ++ fmt_uint n) ++ String nl (("mac=" ++ hex_encode (monoMAC m n)) ++ String nl ""))
    by reflexivity.
  rewrite split_lines_app by (intros i; apply no_nl; rewrite all_chars_app; apply fmt_uint_no_nl; lia).
  rewrite split_lines_app by (intros i; apply no_nl; rewrite all_chars_app; apply hex_encode_no_nl).
  cbn [split_lines].
  assert (Hl : forall a b c d : string, (zlen [a; b; c; d] <? 3) = false) by done. rewrite Hl.
  cbn [negb]. rewrite (proj2 (seqb_true _ _)) by done. cbn [andb require mbind result_bind].
  cbn [foldR]. rewrite line_count by done. cbn [mbind result_bind snd].
  rewrite line_mac by apply zlen_hmac. cbn [mbind result_bind fst].
  change (monotonicLine (n, monoMAC m n) "") with (Ok (n, monoMAC m n)). cbn [mbind result_bind].
  rewrite (zlen_hmac _ _ : zlen (monoMAC m n) = 32). reflexivity.
Qed.

Lemma read_payload m n : 0 <= n <= uint64_max -> monoRead m WriteOk (Some (monotonicPayload m n)) = Ok (n, true).
Proof.
  intros Hn. unfold monoRead. rewrite parse_payload by done. cbn.
  by rewrite (proj2 (beqb_true _ _)).
Qed.

(** The authenticated count a file holds. *)
Definition sequence_count (m : Monotonic) (file : option string) : option Z :=
  match monoRead m WriteOk file with Ok (n, true) => Some n | _ => None end.

Lemma sequence_payload m n : 0 <= n <= uint64_max -> sequence_count m (Some (monotonicPayload m n)) = Some n.
Proof. intros. unfold sequence_count. by rewrite read_payload. Qed.

Lemma read_or_fail m io file : monoRead m io file = Err (Errorf "read") \/ monoRead m io file = monoRead m WriteOk file.
Proof. destruct io; auto. Qed.

Lemma Observe_cases m io file n file' r :
  0 <= n <= uint64_max -> Observe m io file n = (file', r) ->
  (file' = file \/ (file' = Some (monotonicPayload m n) /\ (file = None -> n = 0) /\
     forall f, sequence_count m file = Some f -> f < n)) /\
  (r = Ok tt -> sequence_count m file' = Some n).
Proof.
  intros Hn. unfold Observe. destruct (read_or_fail m io file) as [-> | ->]; [intros [= <- <-]; split; [by left|done]|].
  destruct (monoRead m WriteOk file) as [[f ex]|e] eqn:E.
  2: { intros [= <- <-]. split; [by left|done]. }
  destruct ex; simpl.
  - assert (sequence_count m file = Some f) as Hs by (unfold sequence_count; by rewrite E).
    assert (Hf : file <> None) by (by intros ->).
    destruct (Z.ltb_spec n f); [intros [= <- <-]; split; [by left|done]|].
    destruct (Z.eqb_spec n f) as [->|]; [intros [= <- <-]; split; [by left|done]|].
    destruct io; simpl; intros [= <- <-]; (split; [|intros; try done; by apply sequence_payload]).
    1,3: right; split_and!; [done|done|]; rewrite Hs; intros ? [= <-]; lia.
    all: by left.
  - assert (Hs : sequence_count m file = None) by (unfold sequence_count; by rewrite E).
    destruct (Z.eqb_spec n 0) as [->|]; simpl; [|intros [= <- <-]; split; [by left|done]].
    destruct io; simpl; intros [= <- <-]; (split; [|intros; try done; by apply sequence_payload]).
    1,3: right; rewrite Hs; done.
    all: by left.
Qed.

Lemma Observe_behind m io file n f : sequence_count m file = Some f -> n < f ->
  exists e, Observe m io file n = (file, Err e).
Proof.
  unfold sequence_count, Observe. intros Hf Hlt.
  destruct (read_or_fail m io file) as [-> | ->]; [eauto|]. destruct (monoRead m WriteOk file) as [[g []]|]; simplify_eq/=. rewrite (proj2 (Z.ltb_lt _ _)) by done. eauto.
Qed.

(** ** Properties *)

(** The sequence file round-trips: what [write] stores is read back as the
    same authenticated count, for every uint64. *)
Theorem sequence_round_trip m io file n file' :
  0 <= n <= uint64_max -> monoWrite m io file n = (file', Ok tt) ->
  monoRead m WriteOk file' = Ok (n, true).
Proof. intros Hn. destruct io; simpl; intros [= <-]. by apply read_payload. Qed.

Lemma sequence_round_trip_witness :
  let m := MkMonotonic (replicate 32 x07) in
  0 <= 42 <= uint64_max /\ monoRead m WriteOk (Some (monotonicPayload m 42)) = Ok (42, true).
Proof.
  intros m. split; [vm_compute; intuition congruence|].
  apply (sequence_round_trip m WriteOk None 42); [vm_compute; intuition congruence|reflexivity].
Defined.

(** The sequence never goes back: whatever the database count and whatever
    the file system does, an observation leaves an authenticated count that is at
    least the previous one, and a successful observation leaves exactly the
    database count. *)
Theorem observe_monotone m io file n file' r f :
  0 <= n <= uint64_max -> sequence_count m file = Some f -> Observe m io file n = (file', r) ->
  exists f', sequence_count m file' = Some f' /\ f <= f' /\ (r = Ok tt -> f' = n).
Proof.
  intros Hn Hf Ho. destruct (Observe_cases _ _ _ _ _ _ Hn Ho) as [[->|(-> & _ & Hlt)] Hok].
  - exists f. split_and!; [done|lia|]. intros Hr. specialize (Hok Hr). congruence.
  - exists n. rewrite sequence_payload by done. split_and!; [done| |done]. specialize (Hlt _ Hf). lia.
Qed.

Lemma observe_monotone_witness :
  let m := MkMonotonic (replicate 32 x07) in
  exists f', sequence_count m (Some (monotonicPayload m 9)) = Some f' /\ 3 <= f' /\
    (@Err unit (Errorf "sync") = Ok tt -> f' = 9).
Proof.
  intros m.
  apply (observe_monotone m FailAfterRename (Some (monotonicPayload m 3)) 9 _ (Err (Errorf "sync")) 3);
    [lia || (vm_compute; intuition congruence) | vm_compute; reflexivity | vm_compute; reflexivity].
Defined.

(** A rolled-back ledger is refused: with an authenticated sequence ahead of
    the database, or with no sequence for a non-empty database, the observation
    fails and leaves the file as it is. *)
Theorem observe_refuses_rollback m io file n :
  (exists f, sequence_count m file = Some f /\ n < f) \/ (file = None /\ n <> 0) ->
  exists e, Observe m io file n = (file, Err e).
Proof.
  intros [(f & Hf & Hlt)|[-> Hn]]; [by eapply Observe_behind|]. unfold Observe.
  destruct (read_or_fail m io None) as [-> | ->]; simpl; [eauto|]. rewrite (proj2 (Z.eqb_neq _ _)) by done. simpl. eauto.
Qed.

Lemma observe_refuses_rollback_witness :
  let m := MkMonotonic (replicate 32 x07) in
  exists e, Observe m WriteOk (Some (monotonicPayload m 3)) 2 = (Some (monotonicPayload m 3), Err e).
Proof.
  intros m. apply observe_refuses_rollback. left. exists 3. split; [vm_compute; reflexivity|lia].
Defined.
