(* ===== verification/Vtxo.v ===== *)
(** * Spend operations and their digests: [src/internal/policy/vtxo.go]

    The authenticated rows of one Spending lifecycle, their canonical payloads
    and MACs, the server-computed bundle, reserve and abort digests, and the
    state predicates the ledger uses. *)

From S2P Require Import Prelude Crypto Codec Program.
From Stdlib Require Import Strings.Byte Strings.Ascii Strings.String.
From stdpp Require Import base decidable list strings gmap countable option sorting.
From Stdlib Require Import ZArith Lia.
Open Scope string_scope.
Open Scope list_scope.
Open Scope Z_scope.

Definition vtxoPurposeSpend := "spend".
Definition vtxoStateReserved := "reserved".
Definition vtxoStateSigned := "signed".
Definition vtxoStateSubmitted := "submitted".
Definition vtxoStateFinalized := "finalized".
Definition vtxoStateAborted := "aborted".
Definition vtxoStateUnresolved := "unresolved".
Definition VtxoFeePolicyDigestTag := "arkade-vault/arkade-intent-fee-policy/v1".
Definition MaxVtxoOperationInputs : Z := 50.
Definition vtxoOperationCanonicalVer : Z := 2.
Definition vtxoOperationInputKind := "input".
Definition vtxoOperationMACDomain := "arkade-2fa-vault/vtxo-operation/v1".
Definition vtxoBundleDigestTag := "arkade-2fa-vault/vtxo-bundle/v1".
Definition vtxoReserveDigestTag := "arkade-vault/vtxo-reserve/v1".
Definition vtxoAbortDigestTag := "arkade-vault/vtxo-abort/v1".

(** ** State predicates *)

Definition requireVtxoState (state : string) : result unit :=
  require (bool_decide (state ∈ [vtxoStateReserved; vtxoStateSigned; vtxoStateSubmitted;
                                 vtxoStateFinalized; vtxoStateAborted; vtxoStateUnresolved]))
    (Errorf "unknown vtxo operation state").

Definition vtxoStateCountsTowardAllowance (state : string) : bool :=
  bool_decide (state ∈ [vtxoStateReserved; vtxoStateSigned; vtxoStateSubmitted;
                        vtxoStateFinalized; vtxoStateUnresolved]).

Definition vtxoStateAwaitingSettlement (state : string) : bool :=
  seqb state vtxoStateSigned || seqb state vtxoStateSubmitted.

Definition vtxoStateBlocksNewOperation (state : string) : bool :=
  bool_decide (state ∈ [vtxoStateReserved; vtxoStateSigned; vtxoStateSubmitted; vtxoStateUnresolved]).

Definition vtxoStateLocksInputs (state : string) : bool :=
  bool_decide (state ∈ [vtxoStateReserved; vtxoStateSigned; vtxoStateSubmitted; vtxoStateFinalized]).

(** ** Rows *)

Record VtxoOperation := MkVtxoOperation {
  op_OperationID : string;
  op_VaultID : string;
  op_Purpose : string;
  op_BundleDigest : bytes;
  op_State : string;
  op_AmountSats : Z;
  op_FeeSats : Z;
  op_FeePolicyDigest : bytes;
  op_DestScript : bytes;
  op_ChangeScript : bytes;
  op_ChangeSats : Z;
  op_ChangeVout : option Z;
  op_UnsignedPSBT : string;
  op_AuthorizedPSBT : string;
  op_PendingProofDigest : bytes;
  op_AuthorizedPendingProof : string;
  op_CheckpointPSBTs : string;
  op_CheckpointRequestPSBTs : string;
  op_CheckpointTapscript : bytes;
  op_ArkTxid : string;
  op_ExpiresAt : string;
  op_CreatedAt : string;
  op_LastDestScript : bytes;
  op_IntegrityMAC : bytes
}.

Record VtxoOperationInput := MkVtxoOperationInput {
  in_OperationID : string;
  in_Txid : bytes;
  in_Vout : Z;
  in_ValueSats : Z;
  in_Script : bytes;
  in_IntegrityMAC : bytes
}.

Record VtxoBundleInput := MkBundleInput {
  bi_Txid : bytes;
  bi_Vout : Z;
  bi_ValueSats : Z
}.

#[export] Instance VtxoOperation_eq_dec : EqDecision VtxoOperation.
Proof. solve_decision. Defined.
#[export] Instance VtxoOperationInput_eq_dec : EqDecision VtxoOperationInput.
Proof. solve_decision. Defined.
#[export] Instance VtxoBundleInput_eq_dec : EqDecision VtxoBundleInput.
Proof. solve_decision. Defined.

(** [rec.State = state] *)
Definition op_set_State (state : string) (r : VtxoOperation) : VtxoOperation :=
  MkVtxoOperation (op_OperationID r) (op_VaultID r) (op_Purpose r) (op_BundleDigest r) state
    (op_AmountSats r) (op_FeeSats r) (op_FeePolicyDigest r) (op_DestScript r) (op_ChangeScript r)
    (op_ChangeSats r) (op_ChangeVout r) (op_UnsignedPSBT r) (op_AuthorizedPSBT r)
    (op_PendingProofDigest r) (op_AuthorizedPendingProof r) (op_CheckpointPSBTs r)
    (op_CheckpointRequestPSBTs r) (op_CheckpointTapscript r) (op_ArkTxid r) (op_ExpiresAt r)
    (op_CreatedAt r) (op_LastDestScript r) (op_IntegrityMAC r).

(** [rec.IntegrityMAC = mac] *)
Definition op_set_MAC (mac : bytes) (r : VtxoOperation) : VtxoOperation :=
  MkVtxoOperation (op_OperationID r) (op_VaultID r) (op_Purpose r) (op_BundleDigest r) (op_State r)
    (op_AmountSats r) (op_FeeSats r) (op_FeePolicyDigest r) (op_DestScript r) (op_ChangeScript r)
    (op_ChangeSats r) (op_ChangeVout r) (op_UnsignedPSBT r) (op_AuthorizedPSBT r)
    (op_PendingProofDigest r) (op_AuthorizedPendingProof r) (op_CheckpointPSBTs r)
    (op_CheckpointRequestPSBTs r) (op_CheckpointTapscript r) (op_ArkTxid r) (op_ExpiresAt r)
    (op_CreatedAt r) (op_LastDestScript r) mac.

Definition in_set_MAC (mac : bytes) (r : VtxoOperationInput) : VtxoOperationInput :=
  MkVtxoOperationInput (in_OperationID r) (in_Txid r) (in_Vout r) (in_ValueSats r) (in_Script r) mac.

(** [in.OperationID = id] *)
Definition in_set_OperationID (id : string) (r : VtxoOperationInput) : VtxoOperationInput :=
  MkVtxoOperationInput id (in_Txid r) (in_Vout r) (in_ValueSats r) (in_Script r) (in_IntegrityMAC r).

(** The change output is absent with amount zero, or is output 1 above dust. *)
Definition changeShape (changeSats : Z) (changeVout : option Z) (changeScript : bytes) : result unit :=
  if changeSats =? 0 then
    require (bool_decide (changeVout = None) && (zlen changeScript =? 0)) (Errorf "invalid no-change shape")
  else
    require (negb (changeSats <? DustSats) && bool_decide (changeVout = Some 1) && negb (zlen changeScript =? 0))
      (Errorf "invalid change shape").

(** ** Canonical payloads *)

Definition vtxoOperationFields (r : VtxoOperation) : list bytes :=
  [bytes_of (op_OperationID r); bytes_of (op_VaultID r); bytes_of (op_Purpose r);
   op_BundleDigest r; bytes_of (op_State r); op_FeePolicyDigest r; op_DestScript r; op_ChangeScript r;
   bytes_of (op_UnsignedPSBT r); bytes_of (op_AuthorizedPSBT r);
   op_PendingProofDigest r; bytes_of (op_AuthorizedPendingProof r);
   bytes_of (op_CheckpointPSBTs r); bytes_of (op_CheckpointRequestPSBTs r); op_CheckpointTapscript r;
   bytes_of (op_ArkTxid r); bytes_of (op_ExpiresAt r); bytes_of (op_CreatedAt r); op_LastDestScript r].

Definition canonicalVtxoOperation (r : VtxoOperation) : result bytes :=
  require (negb (seqb (op_OperationID r) "" || seqb (op_VaultID r) "")) (Errorf "vtxo operation identity required");;
  require (seqb (op_Purpose r) vtxoPurposeSpend) (Errorf "vtxo purpose must be spend");;
  requireVtxoState (op_State r);;
  require (zlen (op_BundleDigest r) =? 32) (Errorf "bundle digest must be 32 bytes");;
  require (negb ((op_AmountSats r <? 0) || (op_FeeSats r <? 0) || (op_ChangeSats r <? 0))) (Errorf "negative vtxo outflow");;
  require (zlen (op_FeePolicyDigest r) =? sha256_size) (Errorf "fee policy digest must be 32 bytes");;
  require (Bool.eqb (zlen (op_PendingProofDigest r) =? 0) (seqb (op_AuthorizedPendingProof r) ""))
    (Errorf "pending proof persistence must be all-or-nothing");;
  require ((zlen (op_PendingProofDigest r) =? 0) || (zlen (op_PendingProofDigest r) =? sha256_size))
    (Errorf "pending proof digest must be 32 bytes");;
  changeShape (op_ChangeSats r) (op_ChangeVout r) (op_ChangeScript r);;
  out ← appendFields [] [bytes_of vtxoOperationMACDomain];
  out ← appendFields (out ++ put32 vtxoOperationCanonicalVer) (vtxoOperationFields r);
  Ok (out ++ put64 (uint64_of (op_AmountSats r)) ++ put64 (uint64_of (op_FeeSats r))
        ++ put64 (uint64_of (op_ChangeSats r)) ++ optVout (op_ChangeVout r)).

Definition canonicalVtxoOperationInput (r : VtxoOperationInput) : result bytes :=
  require (negb (seqb (in_OperationID r) "")) (Errorf "vtxo operation id required");;
  require (zlen (in_Txid r) =? 32) (Errorf "vtxo input txid must be 32 bytes");;
  require (negb (in_Vout r <? 0)) (Errorf "vtxo input vout");;
  require (negb (in_ValueSats r <? 0)) (Errorf "negative vtxo input value");;
  out ← appendFields [] [bytes_of vtxoOperationMACDomain];
  out ← appendFields (out ++ put32 vtxoOperationCanonicalVer)
          [bytes_of vtxoOperationInputKind; bytes_of (in_OperationID r); in_Txid r];
  appendFields (out ++ put32 (in_Vout r) ++ put64 (uint64_of (in_ValueSats r))) [in_Script r].

(** The integer fields hold values of their Go types; [ChangeVout] is a uint32. *)
Definition op_well_typed (r : VtxoOperation) : Prop :=
  int64_range (op_AmountSats r) /\ int64_range (op_FeeSats r) /\ int64_range (op_ChangeSats r) /\
  (forall n, op_ChangeVout r = Some n -> uint32_range n).

(** [Vout] is a Go [int]; only an output index is a uint32. *)
Definition in_well_typed (r : VtxoOperationInput) : Prop :=
  uint32_range (in_Vout r) /\ int64_range (in_ValueSats r).

(** All fields but the MAC. *)
Lemma op_ext r1 r2 :
  vtxoOperationFields r1 = vtxoOperationFields r2 -> op_AmountSats r1 = op_AmountSats r2 ->
  op_FeeSats r1 = op_FeeSats r2 -> op_ChangeSats r1 = op_ChangeSats r2 ->
  op_ChangeVout r1 = op_ChangeVout r2 -> op_set_MAC [] r1 = op_set_MAC [] r2.
Proof.
  destruct r1, r2. unfold vtxoOperationFields, op_set_MAC; simpl. intros E -> -> -> ->.
  injection E as E1 E2 E3 ? E4 ? ? ? E5 E6 ? E7 E8 E9 ? E10 E11 E12 ?.
  repeat match goal with H : bytes_of _ = bytes_of _ |- _ => apply bytes_of_inj in H end. by subst.
Qed.

Lemma canonicalVtxoOperation_payload r p :
  canonicalVtxoOperation r = Ok p ->
  Forall short (vtxoOperationFields r) /\
  p = frames [bytes_of vtxoOperationMACDomain] ++ put32 vtxoOperationCanonicalVer
      ++ frames (vtxoOperationFields r) ++ put64 (uint64_of (op_AmountSats r))
      ++ put64 (uint64_of (op_FeeSats r)) ++ put64 (uint64_of (op_ChangeSats r)) ++ optVout (op_ChangeVout r).
Proof.
  unfold canonicalVtxoOperation. intros H. inv_ok.
  repeat match goal with H : appendFields _ _ = Ok _ |- _ => apply appendFields_Ok in H as [? ->] end.
  split; [done|]. by rewrite app_nil_l, <-!app_assoc.
Qed.

Lemma canonicalVtxoOperation_inj r1 r2 p :
  op_well_typed r1 -> op_well_typed r2 ->
  canonicalVtxoOperation r1 = Ok p -> canonicalVtxoOperation r2 = Ok p ->
  op_set_MAC [] r1 = op_set_MAC [] r2.
Proof.
  intros (A1 & F1 & C1 & V1) (A2 & F2 & C2 & V2)
    (S1 & ->)%canonicalVtxoOperation_payload (S2 & E)%canonicalVtxoOperation_payload.
  apply app_inv_head in E. apply app_inv_head in E. peel_payload.
  apply (optVout_app_inj (op_ChangeVout r1) (op_ChangeVout r2) [] []) in V1 as [? _];
    rewrite ?app_nil_r; [by apply op_ext|done|done].
Qed.

Lemma canonicalVtxoOperationInput_payload r p :
  canonicalVtxoOperationInput r = Ok p ->
  let fs := [bytes_of vtxoOperationInputKind; bytes_of (in_OperationID r); in_Txid r] in
  Forall short fs /\ Forall short [in_Script r] /\
  p = frames [bytes_of vtxoOperationMACDomain] ++ put32 vtxoOperationCanonicalVer
      ++ frames fs ++ put32 (in_Vout r) ++ put64 (uint64_of (in_ValueSats r)) ++ frames [in_Script r].
Proof.
  unfold canonicalVtxoOperationInput. intros H. inv_ok.
  repeat match goal with H : appendFields _ _ = Ok _ |- _ => apply appendFields_Ok in H as [? ->] end.
  cbv zeta. split_and!; [done..|]. by rewrite app_nil_l, <-!app_assoc.
Qed.

Lemma canonicalVtxoOperationInput_inj r1 r2 p :
  in_well_typed r1 -> in_well_typed r2 ->
  canonicalVtxoOperationInput r1 = Ok p -> canonicalVtxoOperationInput r2 = Ok p ->
  in_set_MAC [] r1 = in_set_MAC [] r2.
Proof.
  intros (V1 & A1) (V2 & A2)
    (S1 & T1 & ->)%canonicalVtxoOperationInput_payload (S2 & T2 & E)%canonicalVtxoOperationInput_payload.
  apply app_inv_head in E. apply app_inv_head in E. peel_payload.
  apply frames_inj in E; [|done..]. destruct r1, r2; unfold in_set_MAC; simpl in *.
  repeat match goal with H : _ :: _ = _ :: _ |- _ => injection H as H; subst end.
  repeat match goal with H : bytes_of _ = bytes_of _ |- _ => apply bytes_of_inj in H end. by subst.
Qed.

#[export] Program Instance VtxoOperation_sealed : Sealed VtxoOperation := {|
  canonical := canonicalVtxoOperation;
  mac_of := op_IntegrityMAC;
  with_mac := op_set_MAC;
  well_typed := op_well_typed;
  err_key := Errorf "vtxo operation integrity key must be 32 bytes";
  err_missing := Errorf "vtxo operation integrity MAC missing or malformed";
  err_mismatch := Errorf "vtxo operation integrity MAC mismatch"
|}.
Next Obligation. done. Qed.
Next Obligation. done. Qed.
Next Obligation. by intros []. Qed.
Next Obligation. done. Qed.
Next Obligation. intros r1 r2 p W1 W2 H1 H2. by eapply canonicalVtxoOperation_inj. Qed.

#[export] Program Instance VtxoOperationInput_sealed : Sealed VtxoOperationInput := {|
  canonical := canonicalVtxoOperationInput;
  mac_of := in_IntegrityMAC;
  with_mac := in_set_MAC;
  well_typed := in_well_typed;
  err_key := Errorf "vtxo operation integrity key must be 32 bytes";
  err_missing := Errorf "vtxo operation input integrity MAC missing or malformed";
  err_mismatch := Errorf "vtxo operation input integrity MAC mismatch"
|}.
Next Obligation. done. Qed.
Next Obligation. done. Qed.
Next Obligation. by intros []. Qed.
Next Obligation. done. Qed.
Next Obligation. intros r1 r2 p W1 W2 H1 H2. by eapply canonicalVtxoOperationInput_inj. Qed.

Definition SealVtxoOperation (rec : VtxoOperation) (integrityKey : bytes) : result VtxoOperation :=
  Seal rec integrityKey.
Definition VerifyVtxoOperation (rec : VtxoOperation) (integrityKey : bytes) : result unit :=
  Verify rec integrityKey.
Definition SealVtxoOperationInput (rec : VtxoOperationInput) (integrityKey : bytes) : result VtxoOperationInput :=
  Seal rec integrityKey.
Definition VerifyVtxoOperationInput (rec : VtxoOperationInput) (integrityKey : bytes) : result unit :=
  Verify rec integrityKey.

Lemma seal_op_typed r key r' : SealVtxoOperation r key = Ok r' -> op_well_typed r -> op_well_typed r'.
Proof. by intros (_ & p & _ & ->)%Seal_Ok. Qed.

(** ** Outpoint order and the bundle digest *)

Definition canonicalVtxoTxid (txid : bytes) : result (string * bytes) :=
  if zlen txid =? 32 then Ok (hex_encode txid, txid)
  else if zlen txid =? 64 then
    match hex_decode (to_lower (string_of_list_byte txid)) with
    | Some decoded =>
        if zlen decoded =? 32 then Ok (hex_encode decoded, decoded)
        else Err (Errorf "vtxo input txid must be 32 bytes or 64 hex chars")
    | None => Err (Errorf "vtxo input txid must be 32 bytes or 64 hex chars")
    end
  else Err (Errorf "vtxo input txid must be 32 bytes or 64 hex chars").

Definition outpoint_key (canon : string) (vout : Z) : string := (canon ++ ":" ++ fmt_int vout)%string.

(** The first loop: normalize each txid, reject a repeated outpoint. *)
Definition bundleStep (st : gset string * list (VtxoBundleInput * string)) (i : VtxoBundleInput)
  : result (gset string * list (VtxoBundleInput * string)) :=
  '(canon, raw) ← canonicalVtxoTxid (bi_Txid i);
  let key := outpoint_key canon (bi_Vout i) in
  require (negb (bool_decide (key ∈ st.1))) (Errorf "duplicate vtxo outpoint");;
  Ok ({[key]} ∪ st.1, st.2 ++ [(MkBundleInput raw (bi_Vout i) (bi_ValueSats i), canon)]).

(** The comparator of [sort.SliceStable]. *)
Definition bundleLess (a b : VtxoBundleInput * string) : bool :=
  match String.compare a.2 b.2 with
  | Lt => true
  | Gt => false
  | Eq => bi_Vout a.1 <? bi_Vout b.1
  end.

(** A stable sort: an element goes before the later elements not less than it. *)
Fixpoint bundleInsert (x : VtxoBundleInput * string) (l : list (VtxoBundleInput * string)) :=
  match l with
  | [] => [x]
  | y :: l' => if bundleLess y x then y :: bundleInsert x l' else x :: l
  end.

Definition bundleSort (l : list (VtxoBundleInput * string)) : list (VtxoBundleInput * string) :=
  foldr bundleInsert [] l.

Definition CanonicalVtxoBundleInputs (inputs : list VtxoBundleInput) : result (list VtxoBundleInput) :=
  require (negb (65535 <? zlen inputs)) (Errorf "too many vtxo inputs");;
  '(_, ordered) ← foldR bundleStep (∅, []) inputs;
  Ok (map fst (bundleSort ordered)).

Definition encodeBundleInput (i : VtxoBundleInput) : bytes :=
  bi_Txid i ++ put32 (bi_Vout i) ++ put64 (bi_ValueSats i).

Definition ComputeVtxoBundleDigest (purpose vaultID : string) (destScript changeScript : bytes)
    (amountSats feeSats changeSats : Z) (changeVout : option Z) (feePolicyDigest : bytes)
    (inputs : list VtxoBundleInput) (createdAt : string) : result bytes :=
  require (seqb purpose vtxoPurposeSpend) (Errorf "vtxo purpose must be spend");;
  require (negb (seqb vaultID "")) (Errorf "vault id required");;
  require (zlen feePolicyDigest =? sha256_size) (Errorf "fee policy digest must be 32 bytes");;
  changeShape changeSats changeVout changeScript;;
  ordered ← CanonicalVtxoBundleInputs inputs;
  require (negb ((zlen ordered =? 0) || (MaxVtxoOperationInputs <? zlen ordered))) (Errorf "vtxo input count must be 1..50");;
  payload ← appendFields [] [bytes_of purpose; bytes_of vaultID; destScript];
  payload ← appendFields (payload ++ put64 amountSats) [changeScript];
  payload ← appendFields (payload ++ put64 feeSats ++ put64 changeSats ++ optVout changeVout) [feePolicyDigest];
  payload ← appendFields (payload ++ le_bytes 2 (zlen ordered) ++ concat (map encodeBundleInput ordered)) [bytes_of createdAt];
  Ok (taggedSHA256 vtxoBundleDigestTag payload).

Definition ComputeIntentFeePolicyDigest (offchainInput offchainOutput onchainInput onchainOutput : string) : bytes :=
  taggedSHA256 VtxoFeePolicyDigestTag
    (frames (map bytes_of [offchainInput; offchainOutput; onchainInput; onchainOutput])).

(** The operation id is 16 bytes in lowercase hex. *)
Definition operationRaw (operationID : string) : result bytes :=
  match hex_decode operationID with
  | Some raw =>
      if (zlen raw =? 16) && seqb operationID (to_lower operationID) then Ok raw
      else Err (Errorf "operation id must be 16 bytes encoded as lowercase hex")
  | None => Err (Errorf "operation id must be 16 bytes encoded as lowercase hex")
  end.

Definition ComputeVtxoReserveDigest (operationID vaultID purpose : string) (destScript : bytes) (amountSats : Z) : result bytes :=
  raw ← operationRaw operationID;
  require (negb (seqb vaultID "")) (Errorf "vault id required");;
  require (seqb purpose vtxoPurposeSpend) (Errorf "vtxo purpose must be spend");;
  require (negb (zlen destScript =? 0)) (Errorf "destination script required");;
  require (negb (amountSats =? 0)) (Errorf "amount required");;
  payload ← appendFields (put32 1) [raw; bytes_of vaultID; bytes_of purpose; destScript];
  Ok (taggedSHA256 vtxoReserveDigestTag (payload ++ put64 amountSats)).

Definition ComputeVtxoAbortDigest (operationID vaultID purpose : string) : result bytes :=
  raw ← operationRaw operationID;
  require (negb (seqb vaultID "")) (Errorf "vault id required");;
  require (seqb purpose vtxoPurposeSpend) (Errorf "vtxo purpose must be spend");;
  payload ← appendFields (put32 1) [raw; bytes_of vaultID; bytes_of purpose];
  Ok (taggedSHA256 vtxoAbortDigestTag payload).

(** ** Sorting lemmas *)

Lemma bundleInsert_perm x l : bundleInsert x l ≡ₚ x :: l.
Proof.
  induction l as [|y l IH]; simpl; [done|]. destruct (bundleLess y x); [|done].
  rewrite IH. apply Permutation_swap.
Qed.

Lemma bundleSort_perm l : bundleSort l ≡ₚ l.
Proof. induction l as [|x l IH]; simpl; [done|]. by rewrite bundleInsert_perm, IH. Qed.

Lemma compare_eq_iff_l a b : String.compare a b = Eq <-> a = b.
Proof.
  split; [apply String.compare_eq_iff|]. intros ->. induction b as [|c b IH]; [done|].
  simpl. unfold Ascii.compare. by rewrite N.compare_refl.
Qed.

Lemma str_compare_refl s : String.compare s s = Eq.
Proof. by apply compare_eq_iff_l. Qed.

Lemma bundleLess_irrefl x : bundleLess x x = false.
Proof. unfold bundleLess. rewrite str_compare_refl. apply Z.ltb_irrefl. Qed.

Lemma str_compare_trans a b c :
  String.compare a b = Lt -> String.compare b c = Lt -> String.compare a c = Lt.
Proof.
  revert b c. induction a as [|x a IH]; intros [|y b] [|z c]; simpl; try done.
  unfold Ascii.compare.
  destruct (N.compare_spec (N_of_ascii x) (N_of_ascii y)) as [E|E|E],
    (N.compare_spec (N_of_ascii y) (N_of_ascii z)) as [F|F|F], (N.compare_spec (N_of_ascii x) (N_of_ascii z)) as [G|G|G];
    try done; try lia. apply IH.
Qed.

Lemma bundleLess_trans a b c : bundleLess a b = true -> bundleLess b c = true -> bundleLess a c = true.
Proof.
  unfold bundleLess.
  destruct (String.compare a.2 b.2) eqn:E1; [|  |done];
    destruct (String.compare b.2 c.2) eqn:E2; try done.
  - apply compare_eq_iff_l in E1, E2. rewrite E1, E2, str_compare_refl.
    intros ?%Z.ltb_lt ?%Z.ltb_lt. apply Z.ltb_lt. lia.
  - apply compare_eq_iff_l in E1. by rewrite E1, E2.
  - apply compare_eq_iff_l in E2. by rewrite <-E2, E1.
  - by rewrite (str_compare_trans _ _ _ E1 E2).
Qed.

Lemma bundleLess_total a b :
  bundleLess a b = false -> bundleLess b a = false -> a.2 = b.2 /\ bi_Vout a.1 = bi_Vout b.1.
Proof.
  unfold bundleLess. rewrite (String.compare_antisym b.2 a.2).
  destruct (String.compare a.2 b.2) eqn:E; simpl; try done.
  apply compare_eq_iff_l in E. intros ?%Z.ltb_ge ?%Z.ltb_ge. split; [done|lia].
Qed.

(** Strictly increasing lists. *)
Definition bsorted := StronglySorted (fun a b => bundleLess a b = true).

(** Distinct keys: no two elements at the same canonical outpoint. *)
Definition distinct_keys (l : list (VtxoBundleInput * string)) : Prop :=
  NoDup (map (fun x => (x.2, bi_Vout x.1)) l).

Lemma distinct_keys_perm l1 l2 : l1 ≡ₚ l2 -> distinct_keys l1 -> distinct_keys l2.
Proof. unfold distinct_keys. intros Hp. by rewrite Hp. Qed.

Lemma bundleInsert_sorted x l :
  bsorted l -> distinct_keys (x :: l) -> bsorted (bundleInsert x l).
Proof.
  intros Hs. induction Hs as [|y l Hs IH Hy]; intros Hd; simpl.
  - repeat constructor.
  - destruct (bundleLess y x) eqn:E.
    + constructor; [apply IH|].
      * eapply distinct_keys_perm in Hd; [|apply Permutation_swap]. by inversion Hd.
      * rewrite bundleInsert_perm. by constructor.
    + assert (Hxy : bundleLess x y = true).
      { destruct (bundleLess x y) eqn:F; [done|]. destruct (bundleLess_total _ _ E F) as [E1 E2].
        unfold distinct_keys in Hd. simpl in Hd. inversion Hd as [|?? Hn _]; subst.
        destruct Hn. rewrite E1, E2. left. }
      constructor; [by constructor|]. constructor; [done|].
      eapply Forall_impl; [exact Hy|]. intros z Hz. by eapply bundleLess_trans.
Qed.

Lemma bundleSort_sorted l : distinct_keys l -> bsorted (bundleSort l).
Proof.
  induction l as [|x l IH]; intros Hd; simpl; [constructor|].
  apply bundleInsert_sorted; [apply IH; by inversion Hd|].
  eapply distinct_keys_perm; [|exact Hd]. by rewrite bundleSort_perm.
Qed.

(** A strictly sorted list is determined by its elements. *)
Lemma bsorted_unique l1 l2 : bsorted l1 -> bsorted l2 -> l1 ≡ₚ l2 -> l1 = l2.
Proof.
  intros H1. revert l2. induction H1 as [|x l1 H1 IH Hx]; intros l2 H2 Hp.
  - apply Permutation_nil_l in Hp. by subst.
  - destruct H2 as [|y l2 H2 Hy]; [by apply Permutation_nil_r in Hp|].
    assert (x = y) as ->.
    { destruct (decide (x = y)) as [|Hne]; [done|]. exfalso.
      assert (Hin : x ∈ y :: l2) by (rewrite <-Hp; left).
      assert (Hin' : y ∈ x :: l1) by (rewrite Hp; left).
      apply elem_of_cons in Hin as [|Hin]; [done|]. apply elem_of_cons in Hin' as [|Hin']; [done|].
      rewrite Forall_forall in Hx, Hy. pose proof (bundleLess_trans _ _ _ (Hx _ Hin') (Hy _ Hin)) as Hc.
      by rewrite bundleLess_irrefl in Hc. }
    f_equal. apply IH; [done|]. by apply Permutation_cons_inv in Hp.
Qed.

(** ** The normalization loop *)

Definition normBundleInput (i : VtxoBundleInput) : result (VtxoBundleInput * string) :=
  '(canon, raw) ← canonicalVtxoTxid (bi_Txid i);
  Ok (MkBundleInput raw (bi_Vout i) (bi_ValueSats i), canon).

Definition bundle_key (x : VtxoBundleInput * string) : string := outpoint_key x.2 (bi_Vout x.1).

Lemma canonicalVtxoTxid_Ok txid canon raw :
  canonicalVtxoTxid txid = Ok (canon, raw) -> zlen raw = 32 /\ canon = hex_encode raw.
Proof.
  unfold canonicalVtxoTxid. destruct (Z.eqb_spec (zlen txid) 32); [by intros [= <- <-]|].
  destruct (zlen txid =? 64); [|done]. destruct (hex_decode _) as [d|]; [|done].
  destruct (Z.eqb_spec (zlen d) 32); [|done]. by intros [= <- <-].
Qed.

Lemma normBundleInput_Ok i x :
  normBundleInput i = Ok x ->
  zlen (bi_Txid x.1) = 32 /\ x.2 = hex_encode (bi_Txid x.1) /\
  bi_Vout x.1 = bi_Vout i /\ bi_ValueSats x.1 = bi_ValueSats i.
Proof.
  unfold normBundleInput. intros ([canon raw] & Hc & [= <-])%bind_Ok. simpl.
  apply canonicalVtxoTxid_Ok in Hc as [? ?]. done.
Qed.

Lemma norm_all l ns : mapR normBundleInput l = Ok ns ->
  Forall (fun x => zlen (bi_Txid x.1) = 32 /\ x.2 = hex_encode (bi_Txid x.1)) ns.
Proof.
  intros H%mapR_Ok. induction H as [|i x l ns Hix _ IH]; constructor; [|done].
  by apply normBundleInput_Ok in Hix as (? & ? & _).
Qed.

Lemma bundleStep_cases seen acc i :
  bundleStep (seen, acc) i
  = (x ← normBundleInput i;
     if bool_decide (bundle_key x ∈ seen) then Err (Errorf "duplicate vtxo outpoint")
     else Ok ({[bundle_key x]} ∪ seen, acc ++ [x])).
Proof.
  unfold bundleStep, normBundleInput. destruct (canonicalVtxoTxid (bi_Txid i)) as [[canon raw]|e]; [|done].
  simpl. unfold bundle_key. simpl. by case_bool_decide.
Qed.

(** What the loop accepts: normalizable inputs with pairwise different keys,
    none of them seen before. *)
Definition loop_ok (seen : gset string) (ns : list (VtxoBundleInput * string)) : Prop :=
  NoDup (map bundle_key ns) /\ Forall (fun x => bundle_key x ∉ seen) ns.

Lemma loop_ok_cons seen x ns :
  loop_ok seen (x :: ns) <-> bundle_key x ∉ seen /\ loop_ok ({[bundle_key x]} ∪ seen) ns.
Proof.
  unfold loop_ok. simpl. rewrite NoDup_cons, Forall_cons_iff, !Forall_forall. setoid_rewrite not_elem_of_union.
  split.
  - intros ((Hx & Hn) & Hs & Hf). split_and!; [done..|]. intros y Hy. split; [|by apply Hf].
    intros E%elem_of_singleton. destruct Hx. rewrite <-E. by apply list_elem_of_fmap_2.
  - intros (Hs & Hn & Hf). split_and!; [|done..|].
    + intros (y & E & Hy)%list_elem_of_fmap_1. destruct (Hf y Hy) as [[] _]. by apply elem_of_singleton.
    + intros y Hy. by apply (Hf y Hy).
Qed.

Lemma bundle_loop l seen acc seen' acc' :
  foldR bundleStep (seen, acc) l = Ok (seen', acc') ->
  exists ns, mapR normBundleInput l = Ok ns /\ acc' = acc ++ ns /\ loop_ok seen ns.
Proof.
  revert seen acc. induction l as [|i l IH]; intros seen acc.
  - intros [= <- <-]. exists []. rewrite app_nil_r. repeat constructor.
  - rewrite foldR_cons, mapR_cons, bundleStep_cases.
    destruct (normBundleInput i) as [x|]; [|done]. cbn [mbind result_bind].
    case_bool_decide as Hin; [done|]. intros (ns & -> & -> & Hok)%IH.
    exists (x :: ns). cbn [mbind result_bind]. rewrite <-app_assoc. split_and!; [done..|]. by apply loop_ok_cons.
Qed.

Lemma bundle_loop_total l seen acc ns :
  mapR normBundleInput l = Ok ns -> loop_ok seen ns ->
  exists seen', foldR bundleStep (seen, acc) l = Ok (seen', acc ++ ns).
Proof.
  revert seen acc ns. induction l as [|i l IH]; intros seen acc ns.
  - intros [= <-] _. rewrite app_nil_r. by eexists.
  - rewrite foldR_cons, mapR_cons, bundleStep_cases.
    intros (x & -> & (ns' & Hns & [= <-])%bind_Ok)%bind_Ok [Hx Hok]%loop_ok_cons. cbn [mbind result_bind].
    rewrite bool_decide_eq_false_2 by done. cbn [mbind result_bind].
    destruct (IH _ (acc ++ [x]) _ Hns Hok) as [seen' E]. exists seen'. by rewrite E, <-app_assoc.
Qed.

Lemma mapR_perm {A B} (f : A -> result B) l1 l2 r1 :
  l1 ≡ₚ l2 -> mapR f l1 = Ok r1 -> exists r2, mapR f l2 = Ok r2 /\ r1 ≡ₚ r2.
Proof.
  intros Hp. revert r1. induction Hp as [|x l1 l2 Hp IH|x y l|l1 l2 l3 Hp1 IH1 Hp2 IH2]; intros r1; simpl.
  - eauto.
  - intros (b & Hb & (bs & Hbs & [= <-])%bind_Ok)%bind_Ok. destruct (IH _ Hbs) as (r2 & E & ?).
    rewrite Hb. simpl. rewrite E. simpl. eauto using Permutation_skip.
  - intros (b & Hb & (bs & (c & Hc & (cs & Hcs & [= <-])%bind_Ok)%bind_Ok & [= <-])%bind_Ok)%bind_Ok.
    rewrite Hb, Hc. simpl. rewrite Hcs. simpl. eauto using Permutation_swap.
  - intros H. destruct (IH1 _ H) as (r2 & H2 & ?). destruct (IH2 _ H2) as (r3 & H3 & ?).
    exists r3. split; [done|]. by etrans.
Qed.

Lemma CanonicalVtxoBundleInputs_Ok l r :
  CanonicalVtxoBundleInputs l = Ok r <->
  zlen l <= 65535 /\
  exists ns, mapR normBundleInput l = Ok ns /\ NoDup (map bundle_key ns) /\ r = map fst (bundleSort ns).
Proof.
  unfold CanonicalVtxoBundleInputs. split.
  - intros ([] & Hl%require_Ok & ([s o] & (ns & Hns & -> & Hn & _)%bundle_loop & [= <-])%bind_Ok)%bind_Ok.
    bool_prop. split; [done|]. exists ns. done.
  - intros (Hl & ns & Hns & Hn & ->). rewrite (proj2 (Z.ltb_ge _ _)) by done. cbn [negb require mbind result_bind].
    destruct (bundle_loop_total l ∅ [] ns Hns) as [s ->]; [|done].
    split; [done|]. apply Forall_forall. set_solver.
Qed.

Lemma keys_distinct ns : NoDup (map bundle_key ns) -> distinct_keys ns.
Proof.
  unfold distinct_keys. intros H. eapply (NoDup_fmap_1 (fun p => outpoint_key p.1 p.2)).
  by rewrite <-list_fmap_compose.
Qed.

Lemma bundle_perm l1 l2 r :
  l1 ≡ₚ l2 -> CanonicalVtxoBundleInputs l1 = Ok r -> CanonicalVtxoBundleInputs l2 = Ok r.
Proof.
  intros Hp (Hl & ns & Hns & Hn & ->)%CanonicalVtxoBundleInputs_Ok.
  destruct (mapR_perm _ _ _ _ Hp Hns) as (ns2 & Hns2 & Hp2).
  apply CanonicalVtxoBundleInputs_Ok. split; [unfold zlen in *; by rewrite <-Hp|].
  exists ns2. split_and!; [done| |].
  - by rewrite <-Hp2.
  - f_equal. apply bsorted_unique.
    + by apply bundleSort_sorted, keys_distinct.
    + apply bundleSort_sorted, keys_distinct. by rewrite <-Hp2.
    + by rewrite !bundleSort_perm.
Qed.

(** Values of their Go types: uint32 outputs, uint64 amounts. *)
Definition bi_typed (i : VtxoBundleInput) : Prop :=
  uint32_range (bi_Vout i) /\ 0 <= bi_ValueSats i <= uint64_max.

Lemma bundle_typed l r : Forall bi_typed l -> CanonicalVtxoBundleInputs l = Ok r ->
  Forall (fun i => zlen (bi_Txid i) = 32 /\ bi_typed i) r.
Proof.
  intros Ht (_ & ns & Hns & _ & ->)%CanonicalVtxoBundleInputs_Ok.
  apply mapR_Ok in Hns. apply Forall_fmap. rewrite bundleSort_perm.
  revert Ht. induction Hns as [|i x l ns Hix _ IH]; intros Ht; constructor.
  - apply normBundleInput_Ok in Hix as (? & _ & Hv & Hs). inversion Ht as [|?? Hi]; subst.
    unfold bi_typed in *. simpl. by rewrite Hv, Hs.
  - apply IH. by inversion Ht.
Qed.

Lemma encode_inputs_inj l1 l2 r1 r2 : length l1 = length l2 ->
  Forall (fun i => zlen (bi_Txid i) = 32 /\ bi_typed i) l1 ->
  Forall (fun i => zlen (bi_Txid i) = 32 /\ bi_typed i) l2 ->
  concat (map encodeBundleInput l1) ++ r1 = concat (map encodeBundleInput l2) ++ r2 -> l1 = l2 /\ r1 = r2.
Proof.
  revert l2. induction l1 as [|[t1 v1 s1] l1 IH]; intros [|[t2 v2 s2] l2] Hl H1 H2 E; try done.
  inversion H1 as [|?? (L1 & V1 & S1) H1']; subst. inversion H2 as [|?? (L2 & V2 & S2) H2']; subst.
  simpl in *. unfold encodeBundleInput in E at 1 3. simpl in E. rewrite <-!app_assoc in E.
  apply app_inj_len in E as [-> E]; [|unfold zlen in *; lia].
  apply put32_app_inj in E as [-> E]; [|done..]. apply put64_app_inj in E as [-> E]; [|done..].
  apply IH in E as [-> ->]; [done|lia|done..].
Qed.

(** ** The digest payload *)

Definition bundlePayload (purpose vaultID : string) (dest change : bytes) (amount fee changeSats : Z)
    (cv : option Z) (fp : bytes) (o : list VtxoBundleInput) (created : string) : bytes :=
  frames [bytes_of purpose; bytes_of vaultID; dest] ++ put64 amount ++ frames [change] ++ put64 fee
  ++ put64 changeSats ++ optVout cv ++ frames [fp] ++ le_bytes 2 (zlen o)
  ++ concat (map encodeBundleInput o) ++ frames [bytes_of created].

Definition bundle_short (purpose vaultID : string) (dest change fp : bytes) (created : string) : Prop :=
  Forall short [bytes_of purpose; bytes_of vaultID; dest] /\ Forall short [change] /\
  Forall short [fp] /\ Forall short [bytes_of created].

Lemma changeShape_vout cs cv ch u : changeShape cs cv ch = Ok u -> forall n, cv = Some n -> uint32_range n.
Proof.
  unfold changeShape, uint32_range, uint32_max. destruct (cs =? 0); intros H n ->; inv_ok; bool_prop; [done|].
  simplify_eq. lia.
Qed.

Lemma bundle_payload purpose vaultID dest change amount fee cs cv fp inputs created d :
  Forall bi_typed inputs ->
  ComputeVtxoBundleDigest purpose vaultID dest change amount fee cs cv fp inputs created = Ok d ->
  exists o, CanonicalVtxoBundleInputs inputs = Ok o /\
    Forall (fun i => zlen (bi_Txid i) = 32 /\ bi_typed i) o /\
    bundle_short purpose vaultID dest change fp created /\
    (forall n, cv = Some n -> uint32_range n) /\ zlen o <= 50 /\
    d = taggedSHA256 vtxoBundleDigestTag (bundlePayload purpose vaultID dest change amount fee cs cv fp o created).
Proof.
  intros Ht H. unfold ComputeVtxoBundleDigest in H. inv_ok.
  repeat match goal with H : appendFields _ _ = Ok _ |- _ => apply appendFields_Ok in H as [? ->] end.
  bool_prop. eexists. split_and!; [done|by eapply bundle_typed|done|by eapply changeShape_vout|done|].
  unfold bundlePayload. by rewrite app_nil_l, <-!app_assoc.
Qed.

Lemma bundle_payload_inj pu1 va1 de1 ch1 am1 fe1 cs1 cv1 fp1 o1 cr1 pu2 va2 de2 ch2 am2 fe2 cs2 cv2 fp2 o2 cr2 :
  0 <= am1 <= uint64_max -> 0 <= am2 <= uint64_max -> 0 <= fe1 <= uint64_max -> 0 <= fe2 <= uint64_max ->
  0 <= cs1 <= uint64_max -> 0 <= cs2 <= uint64_max ->
  Forall (fun i => zlen (bi_Txid i) = 32 /\ bi_typed i) o1 -> Forall (fun i => zlen (bi_Txid i) = 32 /\ bi_typed i) o2 ->
  bundle_short pu1 va1 de1 ch1 fp1 cr1 -> bundle_short pu2 va2 de2 ch2 fp2 cr2 ->
  (forall n, cv1 = Some n -> uint32_range n) -> (forall n, cv2 = Some n -> uint32_range n) ->
  zlen o1 <= 50 -> zlen o2 <= 50 ->
  bundlePayload pu1 va1 de1 ch1 am1 fe1 cs1 cv1 fp1 o1 cr1 = bundlePayload pu2 va2 de2 ch2 am2 fe2 cs2 cv2 fp2 o2 cr2 ->
  pu1 = pu2 /\ va1 = va2 /\ de1 = de2 /\ ch1 = ch2 /\ am1 = am2 /\ fe1 = fe2 /\ cs1 = cs2 /\
  cv1 = cv2 /\ fp1 = fp2 /\ cr1 = cr2 /\ Ok o1 = Ok o2.
Proof.
  intros ?????? T1 T2 (A1 & B1 & C1 & D1) (A2 & B2 & C2 & D2) V1 V2 N1 N2 E. unfold bundlePayload in E.
  apply frames_app_inj in E as [F1 E]; [|done..]. apply put64_app_inj in E as [-> E]; [|done..].
  apply frames_app_inj in E as [F2 E]; [|done..]. apply put64_app_inj in E as [-> E]; [|done..].
  apply put64_app_inj in E as [-> E]; [|done..]. apply optVout_app_inj in E as [-> E]; [|done..].
  apply frames_app_inj in E as [F3 E]; [|done..].
  apply app_inj_len in E as [L E]; [|by rewrite !length_le_bytes].
  apply le_bytes_inj in L; [|change (256 ^ Z.of_nat 2) with 65536; pose proof (zlen_nonneg o1); pose proof (zlen_nonneg o2); lia..].
  apply encode_inputs_inj in E as [-> E]; [|unfold zlen in L; lia|done|done].
  apply frames_inj in E; [|done..].
  injection F1 as ?%bytes_of_inj ?%bytes_of_inj ->. injection F2 as ->. injection F3 as ->. injection E as ?%bytes_of_inj.
  by subst.
Qed.

(** ** Published vectors (src/internal/policy/vtxo_test.go) *)

Example fee_policy_vector :
  hex_encode (ComputeIntentFeePolicyDigest "5.0" "amount * 0.001" "7.0" "amount * 0.002")
  = "0315f524ae0610202998492284c074829ab156bea680b8313adfa25bdb782fb4".
Proof. vm_compute. reflexivity. Qed.

Example reserve_digest_vector :
  (d ← ComputeVtxoReserveDigest "000102030405060708090a0b0c0d0e0f" "vault-vector-1" "spend"
         (x51 :: x20 :: replicate 32 x11) 123456789; Ok (hex_encode d))
  = Ok "48de90168b40f88d8e705228c56f9ed83b969d319b0b8dbc3aedfe45da0c1981".
Proof. vm_compute. reflexivity. Qed.

(** ** Properties *)

(** [C18] An operation row is authenticated in full: two rows that both verify
    under the store's key and carry the same MAC agree on every field, or else
    their two canonical payloads differ and have one HMAC-SHA256 under that key. *)
Theorem operation_row_authentic key r1 r2 :
  op_well_typed r1 -> op_well_typed r2 ->
  VerifyVtxoOperation r1 key = Ok tt -> VerifyVtxoOperation r2 key = Ok tt ->
  op_IntegrityMAC r1 = op_IntegrityMAC r2 ->
  r1 = r2 \/
  exists p1 p2, canonicalVtxoOperation r1 = Ok p1 /\ canonicalVtxoOperation r2 = Ok p2 /\
    p1 <> p2 /\ hmac_sha256 key p1 = hmac_sha256 key p2.
Proof.
  intros W1 W2 V1 V2 E. exact (verify_authentic (T := VtxoOperation) key r1 r2 W1 W2 V1 V2 E).
Qed.

(** A row as [ReserveVtxo] builds it. *)
Definition example_op : VtxoOperation :=
  MkVtxoOperation "000102030405060708090a0b0c0d0e0f" "vault-a" "spend" (replicate 32 x01) "reserved"
    10000 100 (replicate 32 x02) [x51] [] 0 None "" "" [] "" "" "" [x52] ""
    "2026-07-01T12:05:00Z" "2026-07-01T12:00:00Z" [x51] [].

Definition example_key : bytes := replicate 32 x2a.

Definition example_sealed : VtxoOperation :=
  match SealVtxoOperation example_op example_key with Ok r => r | Err _ => example_op end.

Lemma example_sealed_ok : SealVtxoOperation example_op example_key = Ok example_sealed.
Proof. vm_compute. reflexivity. Qed.

Lemma example_sealed_typed : op_well_typed example_sealed.
Proof.
  eapply (seal_op_typed _ _ _ example_sealed_ok). unfold op_well_typed, int64_range, int64_max; simpl.
  split_and!; try lia; done.
Qed.

Lemma example_sealed_verifies : VerifyVtxoOperation example_sealed example_key = Ok tt.
Proof. exact (seal_verify _ _ _ example_sealed_ok). Qed.

Lemma operation_row_authentic_witness :
  VerifyVtxoOperation example_sealed example_key = Ok tt /\
  (example_sealed = example_sealed \/
   exists p1 p2, canonicalVtxoOperation example_sealed = Ok p1 /\ canonicalVtxoOperation example_sealed = Ok p2 /\
     p1 <> p2 /\ hmac_sha256 example_key p1 = hmac_sha256 example_key p2).
Proof.
  split; [exact example_sealed_verifies|].
  exact (operation_row_authentic example_key example_sealed example_sealed example_sealed_typed
           example_sealed_typed example_sealed_verifies example_sealed_verifies eq_refl).
Defined.

(** The bundle's input order is the server's: the accepted inputs come out
    as 32-byte outpoints in strictly increasing (hex txid, vout) order, and any
    other order of the same inputs gives the same list. *)
Theorem bundle_inputs_canonical inputs out :
  CanonicalVtxoBundleInputs inputs = Ok out ->
  StronglySorted (fun a b => bundleLess (a, hex_encode (bi_Txid a)) (b, hex_encode (bi_Txid b)) = true) out /\
  Forall (fun i => zlen (bi_Txid i) = 32) out /\
  map bi_ValueSats out ≡ₚ map bi_ValueSats inputs /\
  forall inputs', inputs ≡ₚ inputs' -> CanonicalVtxoBundleInputs inputs' = Ok out.
Proof.
  intros H. split_and!.
  4: { intros l' Hp. by eapply bundle_perm. }
  all: apply CanonicalVtxoBundleInputs_Ok in H as (_ & ns & Hns & Hn & ->).
  all: assert (Hall : Forall (fun x => zlen (bi_Txid x.1) = 32 /\ x.2 = hex_encode (bi_Txid x.1)) (bundleSort ns))
    by (rewrite bundleSort_perm; by eapply norm_all).
  - pose proof (bundleSort_sorted _ (keys_distinct _ Hn)) as Hs. unfold bsorted in Hs.
    induction Hs as [|x l _ IH Hx]; simpl; [constructor|].
    inversion Hall as [|?? [_ Ex] Hl]; subst. constructor; [auto|]. apply Forall_fmap.
    rewrite Forall_forall in *. intros y Hy. simpl. destruct (Hl y Hy) as [_ Ey].
    rewrite <-Ex, <-Ey. rewrite <-!surjective_pairing. by apply Hx.
  - apply Forall_fmap. eapply Forall_impl; [exact Hall|]. by intros x [? _].
  - rewrite bundleSort_perm. apply mapR_Ok in Hns. clear Hn Hall.
    induction Hns as [|i x l ns Hix _ IH]; simpl; [done|].
    apply normBundleInput_Ok in Hix as (_ & _ & _ & ->). by rewrite IH.
Qed.

Lemma bundle_inputs_canonical_witness :
  let a := MkBundleInput (replicate 32 x02) 1 7 in let b := MkBundleInput (replicate 32 x02) 0 5 in
  CanonicalVtxoBundleInputs [a; b] = Ok [b; a] /\ CanonicalVtxoBundleInputs [b; a] = Ok [b; a].
Proof.
  cbv zeta. split; [vm_compute; reflexivity|].
  apply (bundle_inputs_canonical [MkBundleInput (replicate 32 x02) 1 7; MkBundleInput (replicate 32 x02) 0 5]);
    [vm_compute; reflexivity|]. apply Permutation_swap.
Defined.

(** The bundle digest commits to the whole spend: equal digests mean the same
    vault, scripts, amounts, change, fee policy, creation time and the same set of
    inputs, unless the two hashed payloads are a SHA-256 collision. *)
Theorem bundle_digest_binds
    pu1 va1 de1 ch1 am1 fe1 cs1 cv1 fp1 in1 cr1 pu2 va2 de2 ch2 am2 fe2 cs2 cv2 fp2 in2 cr2 d :
  Forall (fun z => 0 <= z <= uint64_max) [am1; fe1; cs1; am2; fe2; cs2] ->
  Forall bi_typed in1 -> Forall bi_typed in2 ->
  ComputeVtxoBundleDigest pu1 va1 de1 ch1 am1 fe1 cs1 cv1 fp1 in1 cr1 = Ok d ->
  ComputeVtxoBundleDigest pu2 va2 de2 ch2 am2 fe2 cs2 cv2 fp2 in2 cr2 = Ok d ->
  (pu1 = pu2 /\ va1 = va2 /\ de1 = de2 /\ ch1 = ch2 /\ am1 = am2 /\ fe1 = fe2 /\ cs1 = cs2 /\
   cv1 = cv2 /\ fp1 = fp2 /\ cr1 = cr2 /\
   CanonicalVtxoBundleInputs in1 = CanonicalVtxoBundleInputs in2) \/
  exists o1 o2, CanonicalVtxoBundleInputs in1 = Ok o1 /\ CanonicalVtxoBundleInputs in2 = Ok o2 /\
    sha_collision (tagged vtxoBundleDigestTag (bundlePayload pu1 va1 de1 ch1 am1 fe1 cs1 cv1 fp1 o1 cr1))
      (tagged vtxoBundleDigestTag (bundlePayload pu2 va2 de2 ch2 am2 fe2 cs2 cv2 fp2 o2 cr2)).
Proof.
  intros Hr T1 T2 H1 H2. decompose_Forall_hyps.
  destruct (bundle_payload _ _ _ _ _ _ _ _ _ _ _ _ T1 H1) as (o1 & O1 & P1 & S1 & V1 & N1 & ->).
  destruct (bundle_payload _ _ _ _ _ _ _ _ _ _ _ _ T2 H2) as (o2 & O2 & P2 & S2 & V2 & N2 & E).
  apply tagged_collision in E as [E|]; [left|right; by exists o1, o2].
  rewrite O1, O2. by eapply bundle_payload_inj.
Qed.

Lemma bundle_digest_binds_witness :
  let i := MkBundleInput (replicate 32 x02) 1 10100 in let j := MkBundleInput (replicate 32 x02) 0 400 in
  let dig l := ComputeVtxoBundleDigest "spend" "vault-a" [x51] [x52] 10000 100 400 (Some 1)
                 (replicate 32 x01) l "2026-07-01T12:00:00Z" in
  (exists d, dig [i; j] = Ok d) /\
  CanonicalVtxoBundleInputs [i; j] = CanonicalVtxoBundleInputs [j; i].
Proof.
  intros i j dig. assert (E : exists d, dig [i; j] = Ok d) by (vm_compute; eexists; reflexivity).
  split; [exact E|]. destruct E as [d E].
  assert (E' : dig [j; i] = Ok d) by (rewrite <-E; vm_compute; reflexivity).
  assert (R : Forall (fun z => 0 <= z <= uint64_max) [10000; 100; 400; 10000; 100; 400])
    by (unfold uint64_max; repeat constructor; lia).
  assert (T : bi_typed i /\ bi_typed j) by (unfold bi_typed, i, j, uint32_range, uint32_max, uint64_max; simpl; lia).
  destruct (bundle_digest_binds _ _ _ _ _ _ _ _ _ [i; j] _ _ _ _ _ _ _ _ _ _ [j; i] _ d R
              ltac:(repeat constructor; apply T) ltac:(repeat constructor; apply T) E E')
    as [(_ & _ & _ & _ & _ & _ & _ & _ & _ & _ & H)|(o1 & o2 & O1 & O2 & Hne & _)]; [exact H|].
  exfalso. apply Hne. vm_compute in O1, O2. injection O1 as <-. by injection O2 as <-.
Defined.
