(* ===== verification/BoardRows.v ===== *)
(** * Boarding rows: [src/internal/policy/vault_board.go], lines 17-410

    The five append-only record types of the boarding journal, their canonical
    payloads and their sealing.  Each record type instantiates [Sealed]. *)

From S2P Require Import Prelude Crypto Codec GoTime Program Vtxo.
From Stdlib Require Import Strings.Byte Strings.Ascii Strings.String.
From stdpp Require Import base decidable list strings gmap countable option sorting.
From Stdlib Require Import ZArith Lia.
Open Scope string_scope.
Open Scope list_scope.
Open Scope Z_scope.

Definition VaultBoardPhaseRegister := "register".
Definition VaultBoardPhaseDelete := "delete".
Definition VaultBoardPhaseFinalize := "finalize".
Definition VaultBoardAuthSubmitted := "submitted".
Definition VaultBoardAuthReleased := "released".
Definition VaultBoardAuthRejected := "rejected".
Definition vaultBoardEnrollmentMACDomain := "arkade-vault/vault-board-v1-enrollment/v1".
Definition vaultBoardOperationMACDomain := "arkade-vault/vault-board-v1-operation/v1".
Definition vaultBoardAuthorizationDomain := "arkade-vault/vault-board-v1-authorization/v1".
Definition vaultBoardDispatchMACDomain := "arkade-vault/vault-board-v1-dispatch/v1".
Definition vaultBoardSubmissionMACDomain := "arkade-vault/vault-board-v1-submission/v1".
Definition vaultBoardOperationIDDomain := "arkade-vault/vault-board-v1-operation-id/v1".
Definition vaultBoardCanonicalVersion : Z := 1.
Definition MaxVaultBoardOperatorRefBytes : Z := 256.
(** [30 * time.Second] in seconds. *)
Definition vaultBoardRegisterQuarantineSeconds : Z := 30.

(** [now] is an instant in nanoseconds; [Unix()] truncates towards minus infinity. *)
Definition VaultBoardRegisterCanSupersede (expireAt now : Z) : bool :=
  let nowUnix := now / 1000000000 in
  (0 <? expireAt) && (vaultBoardRegisterQuarantineSeconds <=? nowUnix) &&
  (expireAt <=? nowUnix - vaultBoardRegisterQuarantineSeconds).

(** ** Records *)

Record VaultBoardEnrollment := MkBoardEnrollment {
  be_VaultID : string; be_Program : string; be_BoardingPub : bytes; be_CosignerPub : bytes;
  be_OperatorPub : bytes; be_ExitDelay : Z; be_ExitDelayUnit : string; be_PkScript : bytes;
  be_Address : string; be_IntegrityMAC : bytes }.

Record VaultBoardOperation := MkBoardOperation {
  bo_OperationID : string; bo_VaultID : string; bo_Txid : bytes; bo_Vout : Z; bo_ValueSats : Z;
  bo_BoardingScript : bytes; bo_ReceiverScript : bytes; bo_SequenceAnchorMTP : Z;
  bo_CreatedAt : string; bo_IntegrityMAC : bytes }.

Record VaultBoardChainState := MkChainState { TipMTP : Z }.

Record VaultBoardAuthorization := MkBoardAuthorization {
  ba_OperationID : string; ba_Attempt : Z; ba_Phase : string; ba_RequestDigest : bytes;
  ba_TreeSessionPub : bytes; ba_ReceiverSats : Z; ba_FeeSats : Z; ba_ExpireAt : Z;
  ba_CommitmentTxid : string; ba_ReceiverTxid : string; ba_ReceiverVout : Z;
  ba_CreatedAt : string; ba_IntegrityMAC : bytes }.

Record VaultBoardSubmission := MkBoardSubmission {
  bs_OperationID : string; bs_Attempt : Z; bs_Phase : string; bs_RequestDigest : bytes;
  bs_Outcome : string; bs_OperatorRef : string; bs_CommitmentTxid : string; bs_ReceiverTxid : string;
  bs_ReceiverVout : Z; bs_CreatedAt : string; bs_IntegrityMAC : bytes }.

Record VaultBoardDispatch := MkBoardDispatch {
  bd_OperationID : string; bd_Attempt : Z; bd_Phase : string; bd_RequestDigest : bytes;
  bd_CreatedAt : string; bd_IntegrityMAC : bytes }.

Record VaultBoardRegisterRequest := MkRegisterRequest {
  rr_RequestDigest : bytes; rr_TreeSessionPub : bytes; rr_ReceiverSats : Z; rr_FeeSats : Z; rr_ExpireAt : Z }.

(** [rec.IntegrityMAC = mac], one per record type. *)
Definition be_set_MAC (m : bytes) (r : VaultBoardEnrollment) :=
  MkBoardEnrollment (be_VaultID r) (be_Program r) (be_BoardingPub r) (be_CosignerPub r) (be_OperatorPub r)
    (be_ExitDelay r) (be_ExitDelayUnit r) (be_PkScript r) (be_Address r) m.
Definition bo_set_MAC (m : bytes) (r : VaultBoardOperation) :=
  MkBoardOperation (bo_OperationID r) (bo_VaultID r) (bo_Txid r) (bo_Vout r) (bo_ValueSats r)
    (bo_BoardingScript r) (bo_ReceiverScript r) (bo_SequenceAnchorMTP r) (bo_CreatedAt r) m.
Definition ba_set_MAC (m : bytes) (r : VaultBoardAuthorization) :=
  MkBoardAuthorization (ba_OperationID r) (ba_Attempt r) (ba_Phase r) (ba_RequestDigest r) (ba_TreeSessionPub r)
    (ba_ReceiverSats r) (ba_FeeSats r) (ba_ExpireAt r) (ba_CommitmentTxid r) (ba_ReceiverTxid r)
    (ba_ReceiverVout r) (ba_CreatedAt r) m.
Definition bs_set_MAC (m : bytes) (r : VaultBoardSubmission) :=
  MkBoardSubmission (bs_OperationID r) (bs_Attempt r) (bs_Phase r) (bs_RequestDigest r) (bs_Outcome r)
    (bs_OperatorRef r) (bs_CommitmentTxid r) (bs_ReceiverTxid r) (bs_ReceiverVout r) (bs_CreatedAt r) m.
Definition bd_set_MAC (m : bytes) (r : VaultBoardDispatch) :=
  MkBoardDispatch (bd_OperationID r) (bd_Attempt r) (bd_Phase r) (bd_RequestDigest r) (bd_CreatedAt r) m.

(** [rec.OperationID = id; rec.CreatedAt = at] *)
Definition bo_set_identity (id at_ : string) (r : VaultBoardOperation) :=
  MkBoardOperation id (bo_VaultID r) (bo_Txid r) (bo_Vout r) (bo_ValueSats r)
    (bo_BoardingScript r) (bo_ReceiverScript r) (bo_SequenceAnchorMTP r) at_ (bo_IntegrityMAC r).
Definition ba_set_CreatedAt (at_ : string) (r : VaultBoardAuthorization) :=
  MkBoardAuthorization (ba_OperationID r) (ba_Attempt r) (ba_Phase r) (ba_RequestDigest r) (ba_TreeSessionPub r)
    (ba_ReceiverSats r) (ba_FeeSats r) (ba_ExpireAt r) (ba_CommitmentTxid r) (ba_ReceiverTxid r)
    (ba_ReceiverVout r) at_ (ba_IntegrityMAC r).
Definition bs_set_CreatedAt (at_ : string) (r : VaultBoardSubmission) :=
  MkBoardSubmission (bs_OperationID r) (bs_Attempt r) (bs_Phase r) (bs_RequestDigest r) (bs_Outcome r)
    (bs_OperatorRef r) (bs_CommitmentTxid r) (bs_ReceiverTxid r) (bs_ReceiverVout r) at_ (bs_IntegrityMAC r).
Definition bd_set_CreatedAt (at_ : string) (r : VaultBoardDispatch) :=
  MkBoardDispatch (bd_OperationID r) (bd_Attempt r) (bd_Phase r) (bd_RequestDigest r) at_ (bd_IntegrityMAC r).

(** ** Canonical payloads *)

Definition boardCanonical (domain : string) (fields : list bytes) : result bytes :=
  out ← appendFields [] [bytes_of domain];
  appendFields (out ++ put32 vaultBoardCanonicalVersion) fields.

Definition canonicalVaultBoardEnrollment (r : VaultBoardEnrollment) : result bytes :=
  require (negb (seqb (be_VaultID r) "" || negb (seqb (be_Program r) "vault-board-v1")
                 || negb (zlen (be_BoardingPub r) =? 33) || negb (zlen (be_CosignerPub r) =? 33)
                 || negb (zlen (be_OperatorPub r) =? 33) || negb (zlen (be_PkScript r) =? 34)
                 || seqb (be_Address r) "" || (be_ExitDelay r =? 0) || seqb (be_ExitDelayUnit r) ""))
    (Errorf "invalid vault-board-v1 enrollment");;
  out ← boardCanonical vaultBoardEnrollmentMACDomain
    [bytes_of (be_VaultID r); bytes_of (be_Program r); be_BoardingPub r; be_CosignerPub r; be_OperatorPub r;
     bytes_of (be_ExitDelayUnit r); be_PkScript r; bytes_of (be_Address r)];
  Ok (out ++ put32 (be_ExitDelay r)).

Definition ComputeVaultBoardOperationID (vaultID : string) (txid : bytes) (vout : Z) : result string :=
  require (negb (seqb vaultID "" || negb (zlen txid =? 32))) (Errorf "vault-board-v1 outpoint required");;
  payload ← boardCanonical vaultBoardOperationIDDomain [bytes_of vaultID; txid];
  Ok (hex_encode (taggedSHA256 vaultBoardOperationIDDomain (payload ++ put32 vout))).

Definition canonicalVaultBoardOperation (r : VaultBoardOperation) : result bytes :=
  require (negb (seqb (bo_OperationID r) "" || seqb (bo_VaultID r) "" || negb (zlen (bo_Txid r) =? 32)
                 || (bo_ValueSats r <=? 0) || negb (zlen (bo_BoardingScript r) =? 34)
                 || (zlen (bo_ReceiverScript r) =? 0) || (bo_SequenceAnchorMTP r <=? 0) || seqb (bo_CreatedAt r) ""))
    (Errorf "invalid vault-board-v1 operation");;
  require (match ComputeVaultBoardOperationID (bo_VaultID r) (bo_Txid r) (bo_Vout r) with
           | Ok wantID => seqb (bo_OperationID r) wantID
           | Err _ => false
           end) (Errorf "vault-board-v1 operation id mismatch");;
  out ← boardCanonical vaultBoardOperationMACDomain
    [bytes_of (bo_OperationID r); bytes_of (bo_VaultID r); bo_Txid r; bo_BoardingScript r; bo_ReceiverScript r;
     bytes_of (bo_CreatedAt r)];
  Ok (out ++ put32 (bo_Vout r) ++ put64 (uint64_of (bo_ValueSats r)) ++ put64 (uint64_of (bo_SequenceAnchorMTP r))).

(** [canonicalVtxoTxid([]byte(s))] succeeds and returns [s] itself. *)
Definition isCanonicalTxid (s : string) : bool :=
  match canonicalVtxoTxid (bytes_of s) with Ok (canon, _) => seqb s canon | Err _ => false end.

Definition noReceiver (commitmentTxid receiverTxid : string) (receiverVout : Z) : bool :=
  seqb commitmentTxid "" && seqb receiverTxid "" && (receiverVout =? 0).

(** The [switch rec.Phase] of [canonicalVaultBoardAuthorization]. *)
Definition authorizationShape (r : VaultBoardAuthorization) : result unit :=
  if seqb (ba_Phase r) VaultBoardPhaseRegister then
    require (negb ((ba_ExpireAt r <=? 0) || negb (zlen (ba_TreeSessionPub r) =? 33) || (ba_ReceiverSats r <=? 0)
                   || (ba_FeeSats r <? 0) || (int64_max - ba_FeeSats r <? ba_ReceiverSats r)
                   || negb (noReceiver (ba_CommitmentTxid r) (ba_ReceiverTxid r) (ba_ReceiverVout r))))
      (Errorf "vault-board-v1 register attempt fields required")
  else if seqb (ba_Phase r) VaultBoardPhaseFinalize then
    require (negb (negb (ba_ExpireAt r =? 0) || negb (zlen (ba_TreeSessionPub r) =? 0) || negb (ba_ReceiverSats r =? 0)
                   || negb (ba_FeeSats r =? 0) || negb (isCanonicalTxid (ba_CommitmentTxid r))
                   || negb (isCanonicalTxid (ba_ReceiverTxid r))))
      (Errorf "vault-board-v1 finalize fields")
  else if seqb (ba_Phase r) VaultBoardPhaseDelete then
    require (negb ((ba_ExpireAt r <=? 0) || negb (zlen (ba_TreeSessionPub r) =? 0) || negb (ba_ReceiverSats r =? 0)
                   || negb (ba_FeeSats r =? 0)
                   || negb (noReceiver (ba_CommitmentTxid r) (ba_ReceiverTxid r) (ba_ReceiverVout r))))
      (Errorf "vault-board-v1 delete fields")
  else Err (Errorf "invalid vault-board-v1 phase").

Definition canonicalVaultBoardAuthorization (r : VaultBoardAuthorization) : result bytes :=
  require (negb (seqb (ba_OperationID r) "" || negb (zlen (ba_RequestDigest r) =? sha256_size) || seqb (ba_CreatedAt r) ""))
    (Errorf "invalid vault-board-v1 authorization");;
  authorizationShape r;;
  out ← boardCanonical vaultBoardAuthorizationDomain
    [bytes_of (ba_OperationID r); bytes_of (ba_Phase r); ba_RequestDigest r; ba_TreeSessionPub r;
     bytes_of (ba_CommitmentTxid r); bytes_of (ba_ReceiverTxid r); bytes_of (ba_CreatedAt r)];
  Ok (out ++ put32 (ba_Attempt r) ++ put64 (uint64_of (ba_ReceiverSats r)) ++ put64 (uint64_of (ba_FeeSats r))
        ++ put64 (uint64_of (ba_ExpireAt r)) ++ put32 (ba_ReceiverVout r)).

(** The [switch rec.Phase] of [canonicalVaultBoardSubmission]. *)
Definition submissionShape (r : VaultBoardSubmission) : result unit :=
  let validSubmitted := seqb (bs_Outcome r) VaultBoardAuthSubmitted && negb (seqb (bs_OperatorRef r) "") in
  let validRejected := seqb (bs_Outcome r) VaultBoardAuthRejected && seqb (bs_OperatorRef r) "" in
  if seqb (bs_Phase r) VaultBoardPhaseRegister then
    require (negb ((negb validSubmitted && negb validRejected)
                   || negb (noReceiver (bs_CommitmentTxid r) (bs_ReceiverTxid r) (bs_ReceiverVout r))))
      (Errorf "vault-board-v1 intent id required")
  else if seqb (bs_Phase r) VaultBoardPhaseDelete then
    require (negb (negb (seqb (bs_Outcome r) VaultBoardAuthReleased) || negb (seqb (bs_OperatorRef r) "")
                   || negb (noReceiver (bs_CommitmentTxid r) (bs_ReceiverTxid r) (bs_ReceiverVout r))))
      (Errorf "vault-board-v1 delete result")
  else if seqb (bs_Phase r) VaultBoardPhaseFinalize then
    require (negb (negb (seqb (bs_Outcome r) VaultBoardAuthSubmitted) || negb (seqb (bs_OperatorRef r) "")
                   || negb (isCanonicalTxid (bs_CommitmentTxid r)) || negb (isCanonicalTxid (bs_ReceiverTxid r))))
      (Errorf "vault-board-v1 finalize result")
  else Err (Errorf "invalid vault-board-v1 phase").

Definition canonicalVaultBoardSubmission (r : VaultBoardSubmission) : result bytes :=
  require (negb (seqb (bs_OperationID r) "" || negb (zlen (bs_RequestDigest r) =? sha256_size) || seqb (bs_CreatedAt r) ""
                 || (MaxVaultBoardOperatorRefBytes <? slen (bs_OperatorRef r))))
    (Errorf "invalid vault-board-v1 submission");;
  submissionShape r;;
  out ← boardCanonical vaultBoardSubmissionMACDomain
    [bytes_of (bs_OperationID r); bytes_of (bs_Phase r); bs_RequestDigest r; bytes_of (bs_Outcome r);
     bytes_of (bs_OperatorRef r); bytes_of (bs_CommitmentTxid r); bytes_of (bs_ReceiverTxid r); bytes_of (bs_CreatedAt r)];
  Ok (out ++ put32 (bs_Attempt r) ++ put32 (bs_ReceiverVout r)).

Definition canonicalVaultBoardDispatch (r : VaultBoardDispatch) : result bytes :=
  require (negb (seqb (bd_OperationID r) "" || negb (zlen (bd_RequestDigest r) =? sha256_size) || seqb (bd_CreatedAt r) ""))
    (Errorf "invalid vault-board-v1 dispatch");;
  require (bool_decide (bd_Phase r ∈ [VaultBoardPhaseRegister; VaultBoardPhaseDelete; VaultBoardPhaseFinalize]))
    (Errorf "invalid vault-board-v1 phase");;
  out ← boardCanonical vaultBoardDispatchMACDomain
    [bytes_of (bd_OperationID r); bytes_of (bd_Phase r); bd_RequestDigest r; bytes_of (bd_CreatedAt r)];
  Ok (out ++ put32 (bd_Attempt r)).

(** ** Sealing *)

Lemma boardCanonical_Ok domain fields out :
  boardCanonical domain fields = Ok out ->
  Forall short fields /\ out = frames [bytes_of domain] ++ put32 vaultBoardCanonicalVersion ++ frames fields.
Proof.
  unfold boardCanonical. intros H. inv_ok.
  repeat match goal with H : appendFields _ _ = Ok _ |- _ => apply appendFields_Ok in H as [? ->] end.
  split; [done|]. by rewrite app_nil_l, <-!app_assoc.
Qed.

(** The payload of one domain determines its fields and what follows them. *)
Lemma board_payload_inj domain fs1 fs2 o1 o2 t1 t2 :
  boardCanonical domain fs1 = Ok o1 -> boardCanonical domain fs2 = Ok o2 -> length fs1 = length fs2 ->
  o1 ++ t1 = o2 ++ t2 -> fs1 = fs2 /\ t1 = t2.
Proof.
  intros (S1 & ->)%boardCanonical_Ok (S2 & ->)%boardCanonical_Ok Hl E. rewrite <-!app_assoc in E.
  apply app_inv_head in E. apply app_inv_head in E. by apply frames_app_inj in E.
Qed.

(** Splits an equality of field lists into equalities of the fields. *)
Ltac same_fields :=
  repeat match goal with
  | H : _ :: _ = _ :: _ |- _ => injection H as H
  | H : bytes_of _ = bytes_of _ |- _ => apply bytes_of_inj in H
  end; subst.

Lemma put32_end_inj a b : uint32_range a -> uint32_range b -> put32 a = put32 b -> a = b.
Proof. intros ?? E. by apply (put32_app_inj a b [] []); rewrite ?app_nil_r. Qed.

Lemma put64_end_inj a b : int64_range a -> int64_range b ->
  put64 (uint64_of a) = put64 (uint64_of b) -> a = b.
Proof. intros ?? E. by apply (put64_int_app_inj a b [] []); rewrite ?app_nil_r. Qed.

Ltac board_inj :=
  intros; inv_ok;
  match goal with
  | H1 : boardCanonical _ _ = Ok ?o1, H2 : boardCanonical _ _ = Ok ?o2, E : ?o2 ++ _ = ?o1 ++ _ |- _ =>
      apply (board_payload_inj _ _ _ _ _ _ _ H2 H1 eq_refl) in E as [? E]
  | H1 : boardCanonical _ _ = Ok ?o1, H2 : boardCanonical _ _ = Ok ?o2, E : ?o1 ++ _ = ?o2 ++ _ |- _ =>
      apply (board_payload_inj _ _ _ _ _ _ _ H1 H2 eq_refl) in E as [? E]
  end;
  peel_payload.

Definition be_typed (r : VaultBoardEnrollment) : Prop := uint32_range (be_ExitDelay r).
Definition bo_typed (r : VaultBoardOperation) : Prop :=
  uint32_range (bo_Vout r) /\ int64_range (bo_ValueSats r) /\ int64_range (bo_SequenceAnchorMTP r).
Definition ba_typed (r : VaultBoardAuthorization) : Prop :=
  uint32_range (ba_Attempt r) /\ int64_range (ba_ReceiverSats r) /\ int64_range (ba_FeeSats r) /\
  int64_range (ba_ExpireAt r) /\ uint32_range (ba_ReceiverVout r).
Definition bs_typed (r : VaultBoardSubmission) : Prop := uint32_range (bs_Attempt r) /\ uint32_range (bs_ReceiverVout r).
Definition bd_typed (r : VaultBoardDispatch) : Prop := uint32_range (bd_Attempt r).

#[local] Obligation Tactic := idtac.

Definition board_err_key := Errorf "vault-board-v1 integrity key".

#[export] Program Instance VaultBoardEnrollment_sealed : Sealed VaultBoardEnrollment := {|
  canonical := canonicalVaultBoardEnrollment; mac_of := be_IntegrityMAC; with_mac := be_set_MAC;
  well_typed := be_typed; err_key := board_err_key;
  err_missing := Errorf "vault-board-v1 enrollment integrity MAC missing or malformed";
  err_mismatch := Errorf "vault-board-v1 enrollment integrity MAC mismatch" |}.
Next Obligation. done. Qed.
Next Obligation. done. Qed.
Next Obligation. by intros []. Qed.
Next Obligation. done. Qed.
Next Obligation.
  intros r1 r2 p W1 W2. unfold canonicalVaultBoardEnrollment, be_typed in *. board_inj.
  match goal with E : put32 _ = put32 _ |- _ => apply put32_end_inj in E; [|done..] end.
  destruct r1, r2; unfold be_set_MAC; simpl in *. by same_fields.
Qed.

#[export] Program Instance VaultBoardOperation_sealed : Sealed VaultBoardOperation := {|
  canonical := canonicalVaultBoardOperation; mac_of := bo_IntegrityMAC; with_mac := bo_set_MAC;
  well_typed := bo_typed; err_key := board_err_key;
  err_missing := Errorf "vault-board-v1 operation integrity MAC missing or malformed";
  err_mismatch := Errorf "vault-board-v1 operation integrity MAC mismatch" |}.
Next Obligation. done. Qed.
Next Obligation. done. Qed.
Next Obligation. by intros []. Qed.
Next Obligation. done. Qed.
Next Obligation.
  intros r1 r2 p (?&?&?) (?&?&?). unfold canonicalVaultBoardOperation in *. board_inj.
  match goal with E : put64 _ = put64 _ |- _ => apply put64_end_inj in E; [|done..] end.
  destruct r1, r2; unfold bo_set_MAC; simpl in *. by same_fields.
Qed.

#[export] Program Instance VaultBoardAuthorization_sealed : Sealed VaultBoardAuthorization := {|
  canonical := canonicalVaultBoardAuthorization; mac_of := ba_IntegrityMAC; with_mac := ba_set_MAC;
  well_typed := ba_typed; err_key := board_err_key;
  err_missing := Errorf "vault-board-v1 authorization integrity MAC missing or malformed";
  err_mismatch := Errorf "vault-board-v1 authorization integrity MAC mismatch" |}.
Next Obligation. done. Qed.
Next Obligation. done. Qed.
Next Obligation. by intros []. Qed.
Next Obligation. done. Qed.
Next Obligation.
  intros r1 r2 p (?&?&?&?&?) (?&?&?&?&?). unfold canonicalVaultBoardAuthorization in *. board_inj.
  match goal with E : put32 _ = put32 _ |- _ => apply put32_end_inj in E; [|done..] end.
  destruct r1, r2; unfold ba_set_MAC; simpl in *. by same_fields.
Qed.

#[export] Program Instance VaultBoardSubmission_sealed : Sealed VaultBoardSubmission := {|
  canonical := canonicalVaultBoardSubmission; mac_of := bs_IntegrityMAC; with_mac := bs_set_MAC;
  well_typed := bs_typed; err_key := board_err_key;
  err_missing := Errorf "vault-board-v1 submission integrity MAC missing or malformed";
  err_mismatch := Errorf "vault-board-v1 submission integrity MAC mismatch" |}.
Next Obligation. done. Qed.
Next Obligation. done. Qed.
Next Obligation. by intros []. Qed.
Next Obligation. done. Qed.
Next Obligation.
  intros r1 r2 p (?&?) (?&?). unfold canonicalVaultBoardSubmission in *. board_inj.
  match goal with E : put32 _ = put32 _ |- _ => apply put32_end_inj in E; [|done..] end.
  destruct r1, r2; unfold bs_set_MAC; simpl in *. by same_fields.
Qed.

#[export] Program Instance VaultBoardDispatch_sealed : Sealed VaultBoardDispatch := {|
  canonical := canonicalVaultBoardDispatch; mac_of := bd_IntegrityMAC; with_mac := bd_set_MAC;
  well_typed := bd_typed; err_key := board_err_key;
  err_missing := Errorf "vault-board-v1 dispatch integrity MAC missing or malformed";
  err_mismatch := Errorf "vault-board-v1 dispatch integrity MAC mismatch" |}.
Next Obligation. done. Qed.
Next Obligation. done. Qed.
Next Obligation. by intros []. Qed.
Next Obligation. done. Qed.
Next Obligation.
  intros r1 r2 p ? ?. unfold canonicalVaultBoardDispatch, bd_typed in *. board_inj.
  match goal with E : put32 _ = put32 _ |- _ => apply put32_end_inj in E; [|done..] end.
  destruct r1, r2; unfold bd_set_MAC; simpl in *. by same_fields.
Qed.

(** [Seal*] and [Verify*] of the five record types. *)
Definition SealVaultBoardEnrollment (r : VaultBoardEnrollment) (key : bytes) := Seal r key.
Definition VerifyVaultBoardEnrollment (r : VaultBoardEnrollment) (key : bytes) := Verify r key.
Definition SealVaultBoardOperation (r : VaultBoardOperation) (key : bytes) := Seal r key.
Definition VerifyVaultBoardOperation (r : VaultBoardOperation) (key : bytes) := Verify r key.
Definition SealVaultBoardAuthorization (r : VaultBoardAuthorization) (key : bytes) := Seal r key.
Definition VerifyVaultBoardAuthorization (r : VaultBoardAuthorization) (key : bytes) := Verify r key.
Definition SealVaultBoardDispatch (r : VaultBoardDispatch) (key : bytes) := Seal r key.
Definition VerifyVaultBoardDispatch (r : VaultBoardDispatch) (key : bytes) := Verify r key.
Definition SealVaultBoardSubmission (r : VaultBoardSubmission) (key : bytes) := Seal r key.
Definition VerifyVaultBoardSubmission (r : VaultBoardSubmission) (key : bytes) := Verify r key.
