(* ===== verification/Ledger.v ===== *)
(** * The policy store: [src/internal/policy/ledger.go] and the schema it opens

    The tables are finite maps from their primary keys; an INSERT checks the
    primary key, the foreign keys and the CHECK constraints of the schema
    ([schema_core.go], [schema.go], [tenant_schema.go]).  A transaction is a
    function on the database: an error rolls back, a commit may fail.  The
    external policy sequence is observed before the commit, so its file can be
    ahead of the database and never behind; [Env] is what the environment
    chooses (the outcome of the file write, whether COMMIT succeeds). *)

From S2P Require Import Prelude Crypto Codec GoTime Program Monotonic Vtxo BoardRows.
From Stdlib Require Import Strings.Byte Strings.Ascii Strings.String.
From stdpp Require Import base decidable list strings gmap countable option sorting.
From Stdlib Require Import ZArith Lia.
Open Scope string_scope.
Open Scope list_scope.
Open Scope Z_scope.

Definition allowanceWindow : Z := 24 * hour.

(** ** Tables *)

Record SignCountRow := MkSignCountRow { sc_sign_count : Z; sc_updated_at : string; sc_integrity_mac : bytes }.

Abbreviation input_key := (string * bytes * Z)%type.
Abbreviation phase_key := (string * Z * string)%type.

Record Database := MkDatabase {
  t_vault : gset string;
  t_vtxo_operation : gmap string VtxoOperation;
  t_vtxo_operation_input : gmap input_key VtxoOperationInput;
  t_webauthn_sign_count : gmap (string * bytes) SignCountRow;
  t_vault_board_enrollment : gmap string VaultBoardEnrollment;
  t_vault_board_operation : gmap string VaultBoardOperation;
  t_vault_board_authorization : gmap phase_key VaultBoardAuthorization;
  t_vault_board_dispatch : gmap phase_key VaultBoardDispatch;
  t_vault_board_submission : gmap phase_key VaultBoardSubmission
}.

Definition set_vtxo_operation t (d : Database) := MkDatabase (t_vault d) t (t_vtxo_operation_input d)
  (t_webauthn_sign_count d) (t_vault_board_enrollment d) (t_vault_board_operation d)
  (t_vault_board_authorization d) (t_vault_board_dispatch d) (t_vault_board_submission d).
Definition set_vtxo_operation_input t (d : Database) := MkDatabase (t_vault d) (t_vtxo_operation d) t
  (t_webauthn_sign_count d) (t_vault_board_enrollment d) (t_vault_board_operation d)
  (t_vault_board_authorization d) (t_vault_board_dispatch d) (t_vault_board_submission d).
Definition set_webauthn_sign_count t (d : Database) := MkDatabase (t_vault d) (t_vtxo_operation d)
  (t_vtxo_operation_input d) t (t_vault_board_enrollment d) (t_vault_board_operation d)
  (t_vault_board_authorization d) (t_vault_board_dispatch d) (t_vault_board_submission d).
Definition set_vault_board_enrollment t (d : Database) := MkDatabase (t_vault d) (t_vtxo_operation d)
  (t_vtxo_operation_input d) (t_webauthn_sign_count d) t (t_vault_board_operation d)
  (t_vault_board_authorization d) (t_vault_board_dispatch d) (t_vault_board_submission d).
Definition set_vault_board_operation t (d : Database) := MkDatabase (t_vault d) (t_vtxo_operation d)
  (t_vtxo_operation_input d) (t_webauthn_sign_count d) (t_vault_board_enrollment d) t
  (t_vault_board_authorization d) (t_vault_board_dispatch d) (t_vault_board_submission d).
Definition set_vault_board_authorization t (d : Database) := MkDatabase (t_vault d) (t_vtxo_operation d)
  (t_vtxo_operation_input d) (t_webauthn_sign_count d) (t_vault_board_enrollment d) (t_vault_board_operation d)
  t (t_vault_board_dispatch d) (t_vault_board_submission d).
Definition set_vault_board_dispatch t (d : Database) := MkDatabase (t_vault d) (t_vtxo_operation d)
  (t_vtxo_operation_input d) (t_webauthn_sign_count d) (t_vault_board_enrollment d) (t_vault_board_operation d)
  (t_vault_board_authorization d) t (t_vault_board_submission d).
Definition set_vault_board_submission t (d : Database) := MkDatabase (t_vault d) (t_vtxo_operation d)
  (t_vtxo_operation_input d) (t_webauthn_sign_count d) (t_vault_board_enrollment d) (t_vault_board_operation d)
  (t_vault_board_authorization d) (t_vault_board_dispatch d) t.

(** SQLite's [length] of a TEXT stops at the first NUL character. *)
Definition text_empty (s : string) : bool :=
  match s with EmptyString => true | String c _ => Ascii.eqb c "000" end.

(** The CHECK constraints of [vtxo_operation] ([pending_proof_digest] is stored
    as NULL when empty). *)
Definition vtxo_operation_check (r : VtxoOperation) : bool :=
  seqb (op_Purpose r) "spend" && (zlen (op_BundleDigest r) =? 32) &&
  bool_decide (op_State r ∈ ["reserved"; "signed"; "submitted"; "finalized"; "aborted"; "unresolved"]) &&
  (0 <=? op_AmountSats r) && (0 <=? op_FeeSats r) && (zlen (op_FeePolicyDigest r) =? 32) &&
  (0 <=? op_ChangeSats r) && match op_ChangeVout r with Some v => 0 <=? v | None => true end &&
  ((zlen (op_PendingProofDigest r) =? 0) || (zlen (op_PendingProofDigest r) =? 32)) &&
  (zlen (op_IntegrityMAC r) =? 32) &&
  (((op_ChangeSats r =? 0) && bool_decide (op_ChangeVout r = None) && (zlen (op_ChangeScript r) =? 0)) ||
   ((330 <=? op_ChangeSats r) && bool_decide (op_ChangeVout r = Some 1) && (0 <? zlen (op_ChangeScript r)))) &&
  (((zlen (op_PendingProofDigest r) =? 0) && text_empty (op_AuthorizedPendingProof r)) ||
   ((zlen (op_PendingProofDigest r) =? 32) && negb (text_empty (op_AuthorizedPendingProof r)))).

Definition vtxo_operation_input_check (r : VtxoOperationInput) : bool :=
  (zlen (in_Txid r) =? 32) && (0 <=? in_Vout r) && (0 <=? in_ValueSats r) && (zlen (in_IntegrityMAC r) =? 32).

(** [INSERT INTO vtxo_operation] *)
Definition insertVtxoOperation (d : Database) (r : VtxoOperation) : result Database :=
  require (bool_decide (t_vtxo_operation d !! op_OperationID r = None)) (ErrConstraint "UNIQUE vtxo_operation.operation_id");;
  require (bool_decide (op_VaultID r ∈ t_vault d)) (ErrConstraint "FOREIGN KEY");;
  require (vtxo_operation_check r) (ErrConstraint "CHECK");;
  Ok (set_vtxo_operation (<[op_OperationID r := r]> (t_vtxo_operation d)) d).

Definition input_pk (r : VtxoOperationInput) : input_key := (in_OperationID r, in_Txid r, in_Vout r).

(** [INSERT INTO vtxo_operation_input] *)
Definition insertVtxoOperationInput (d : Database) (r : VtxoOperationInput) : result Database :=
  require (bool_decide (t_vtxo_operation_input d !! input_pk r = None)) (ErrConstraint "UNIQUE vtxo_operation_input");;
  require (bool_decide (is_Some (t_vtxo_operation d !! in_OperationID r))) (ErrConstraint "FOREIGN KEY");;
  require (vtxo_operation_input_check r) (ErrConstraint "CHECK");;
  Ok (set_vtxo_operation_input (<[input_pk r := r]> (t_vtxo_operation_input d)) d).

(** ** The ledger *)

(** [l_file] is the content of the sequence file [l_monotonic] points to. *)
Record Ledger := MkLedger {
  l_db : Database;
  l_network : string;
  l_integrityKey : bytes;
  l_monotonic : option Monotonic;
  l_file : option string
}.

Definition set_db (d : Database) (l : Ledger) := MkLedger d (l_network l) (l_integrityKey l) (l_monotonic l) (l_file l).
Definition set_file (f : option string) (l : Ledger) := MkLedger (l_db l) (l_network l) (l_integrityKey l) (l_monotonic l) f.
Definition set_integrityKey (k : bytes) (l : Ledger) := MkLedger (l_db l) (l_network l) k (l_monotonic l) (l_file l).
Definition set_monotonic (m : option Monotonic) (l : Ledger) := MkLedger (l_db l) (l_network l) (l_integrityKey l) m (l_file l).

Definition Close (l : Ledger) : Ledger := set_integrityKey [] l.

Definition SetIntegrityKey (l : Ledger) (key : bytes) : Ledger * result unit :=
  if negb (zlen key =? sha256_size) then (l, Err (Errorf "policy integrity key must be 32 bytes"))
  else if negb (zlen (l_integrityKey l) =? 0) then
    if negb (zlen (l_integrityKey l) =? sha256_size) || negb (beqb (l_integrityKey l) key)
    then (l, Err (Errorf "policy integrity key already initialized")) else (l, Ok tt)
  else (set_integrityKey key l, Ok tt).

Definition RequireIntegrityKey (l : Ledger) (key : bytes) : result unit :=
  require (zlen key =? sha256_size) (Errorf "policy integrity key must be 32 bytes");;
  require (zlen (l_integrityKey l) =? sha256_size) (Errorf "policy integrity key is not initialized");;
  require (beqb (l_integrityKey l) key) (Errorf "policy integrity key mismatch").

Definition integrityKeyCopy (l : Ledger) : result bytes :=
  require (zlen (l_integrityKey l) =? sha256_size) (Errorf "policy integrity key required");;
  Ok (l_integrityKey l).

Definition addOutflow (amount fee : Z) : result Z :=
  require (negb ((amount <? 0) || (fee <? 0))) (Errorf "negative outflow");;
  require (negb ((0 <? fee) && (int64_max - fee <? amount))) (Errorf "amount+fee overflow");;
  Ok (amount + fee).

(** Scanning a row: [change_vout] must be a uint32. *)
Definition scanVtxoOperation (row : VtxoOperation) : result VtxoOperation :=
  match op_ChangeVout row with
  | Some v => if (v <? 0) || (uint32_max <? v) then Err (Errorf "vtxo operation change vout") else Ok row
  | None => Ok row
  end.

(** [SELECT ... FROM vtxo_operation WHERE vault_id = ?] *)
Definition selectVault (d : Database) (vaultID : string) : list VtxoOperation :=
  filter (fun r => op_VaultID r = vaultID) (map snd (map_to_list (t_vtxo_operation d))).

(** One row of the loop of [spentInWindow]. *)
Definition spentStep (key : bytes) (now total : Z) (row : VtxoOperation) : result Z :=
  rec ← scanVtxoOperation row;
  wrap "vtxo operation integrity" (VerifyVtxoOperation rec key);;
  if negb (vtxoStateCountsTowardAllowance (op_State rec)) then Ok total else
  match parseRFC3339 (op_CreatedAt rec) with
  | None => Err (Errorf "vtxo operation created_at")
  | Some created =>
      if negb (vtxoStateAwaitingSettlement (op_State rec)) && (created + allowanceWindow <? now) then Ok total else
      need ← addOutflow (op_AmountSats rec) (op_FeeSats rec);
      require (negb (int64_max - need <? total)) (Errorf "period spent overflow");;
      Ok (total + need)
  end.

Definition spentInWindow (l : Ledger) (d : Database) (now : Z) (vaultID : string) : result Z :=
  key ← integrityKeyCopy l;
  foldR (spentStep key now) 0 (selectVault d vaultID).

Definition SpentInPeriod (l : Ledger) (now : Z) (vaultID : string) : result Z :=
  require (negb (seqb vaultID "")) (Errorf "vault id required");;
  spentInWindow l (l_db l) now vaultID.

(** The rows the sequence counts. *)
Definition outflow_rows (d : Database) : Z :=
  Z.of_nat (size (t_vtxo_operation d)) + Z.of_nat (size (t_vault_board_authorization d)) +
  Z.of_nat (size (t_vault_board_dispatch d)) + Z.of_nat (size (t_vault_board_submission d)).

(** The board tables exist: the schema was validated when the ledger was opened.
    The count is scanned into an int64. *)
Definition economicOutflowCount (d : Database) : result Z :=
  let n := outflow_rows d in
  require (negb (int64_max <? n)) (Errorf "converting count to int64");;
  require (negb (n <? 0)) (Errorf "economic outflow count");;
  Ok n.

Definition observeEconomicOutflowsLocked (l : Ledger) (io : write_outcome) (d : Database) : option string * result unit :=
  match l_monotonic l with
  | None => (l_file l, Ok tt)
  | Some m =>
      match economicOutflowCount d with
      | Err e => (l_file l, Err e)
      | Ok n => Observe m io (l_file l) n
      end
  end.

Definition AttachMonotonic (l : Ledger) (io : write_outcome) (m : option Monotonic) : Ledger * result unit :=
  match m with
  | None => (l, Err (Errorf "monotonic policy sequence required"))
  | Some m =>
      let l := set_monotonic (Some m) l in
      let '(file, r) := observeEconomicOutflowsLocked l io (l_db l) in
      (set_file file l, r)
  end.

(** ** Transactions *)

Record Env := MkEnv { env_write : write_outcome; env_commit_ok : bool }.

(** What the body of a [BEGIN IMMEDIATE] ends with: the new database and whether
    the sequence is observed before COMMIT. *)
Abbreviation tx_result A := (result (Database * bool * A)).

Definition commitTx {A} (l : Ledger) (env : Env) (body : tx_result A) : Ledger * result A :=
  match body with
  | Err e => (l, Err e)
  | Ok (d, observe, a) =>
      let '(file, seen) := if observe then observeEconomicOutflowsLocked l (env_write env) d else (l_file l, Ok tt) in
      match seen with
      | Err e => (set_file file l, Err (Wrapf "policy sequence" e))
      | Ok _ => if env_commit_ok env then (set_db d (set_file file l), Ok a) else (set_file file l, Err ErrCommit)
      end
  end.

Lemma integrityKeyCopy_Ok l k : integrityKeyCopy l = Ok k <-> k = l_integrityKey l /\ zlen k = 32.
Proof.
  unfold integrityKeyCopy. rewrite bind_Ok. setoid_rewrite require_Ok. split.
  - intros ([] & H & [= <-]). by bool_prop.
  - intros [-> H]. exists tt. by rewrite H.
Qed.

(** ** What the loop of [spentInWindow] computes *)

(** The outflow a row charges at instant [now]: in flight, or counted and
    created within the window. *)
Definition row_charge (now : Z) (r : VtxoOperation) : Z :=
  if vtxoStateCountsTowardAllowance (op_State r) then
    match parseRFC3339 (op_CreatedAt r) with
    | Some created =>
        if vtxoStateAwaitingSettlement (op_State r) || (now <=? created + allowanceWindow)
        then op_AmountSats r + op_FeeSats r else 0
    | None => 0
    end
  else 0.

Definition vault_charge (v : string) (now : Z) (r : VtxoOperation) : Z :=
  if bool_decide (op_VaultID r = v) then row_charge now r else 0.

(** The charge of a vault at [now]. *)
Definition charged (d : Database) (v : string) (now : Z) : Z := msum (vault_charge v now) (t_vtxo_operation d).

(** A row the loop can read. *)
Definition row_ok (key : bytes) (r : VtxoOperation) : Prop :=
  (forall n, op_ChangeVout r = Some n -> uint32_range n) /\
  VerifyVtxoOperation r key = Ok tt /\
  (vtxoStateCountsTowardAllowance (op_State r) = true -> is_Some (parseRFC3339 (op_CreatedAt r))).

Lemma canonical_op_facts r p : canonicalVtxoOperation r = Ok p ->
  op_OperationID r <> "" /\ op_VaultID r <> "" /\ op_Purpose r = vtxoPurposeSpend /\
  requireVtxoState (op_State r) = Ok tt /\ 0 <= op_AmountSats r /\ 0 <= op_FeeSats r /\ 0 <= op_ChangeSats r.
Proof.
  unfold canonicalVtxoOperation. intros H. inv_ok. bool_prop.
  repeat match goal with H : seqb _ _ = false |- _ => apply seqb_false in H | H : seqb _ _ = true |- _ => apply seqb_true in H end.
  done.
Qed.

Lemma verify_op_facts r key : VerifyVtxoOperation r key = Ok tt ->
  op_OperationID r <> "" /\ op_VaultID r <> "" /\ op_Purpose r = vtxoPurposeSpend /\
  requireVtxoState (op_State r) = Ok tt /\ 0 <= op_AmountSats r /\ 0 <= op_FeeSats r /\ 0 <= op_ChangeSats r.
Proof. intros (_ & p & Hp & _)%Verify_Ok. by eapply canonical_op_facts. Qed.

Lemma scanVtxoOperation_Ok row rec :
  scanVtxoOperation row = Ok rec <-> rec = row /\ (forall n, op_ChangeVout row = Some n -> uint32_range n).
Proof.
  unfold scanVtxoOperation, uint32_range. destruct (op_ChangeVout row) as [v|]; [|naive_solver].
  destruct (Z.ltb_spec v 0), (Z.ltb_spec uint32_max v); simpl; split.
  all: try done; try (intros [= <-]); try (intros [-> Hn]; specialize (Hn _ eq_refl)); try lia.
  - split; [done|]. intros ? [= <-]. lia.
  - done.
Qed.

(** [addOutflow] adds two non-negative int64 exactly, and refuses the rest. *)
Lemma addOutflow_Ok a f n : a <= int64_max -> f <= int64_max ->
  addOutflow a f = Ok n <-> 0 <= a /\ 0 <= f /\ a + f <= int64_max /\ n = a + f.
Proof.
  intros Ha Hf. unfold addOutflow.
  destruct (Z.ltb_spec a 0), (Z.ltb_spec f 0), (Z.ltb_spec 0 f), (Z.ltb_spec (int64_max - f) a); simpl;
    (split; [try done; intros [= <-]; lia | intros (?&?&?&->); try lia; try done]).
Qed.

Lemma row_charge_nonneg now r : 0 <= op_AmountSats r -> 0 <= op_FeeSats r -> 0 <= row_charge now r.
Proof.
  intros. unfold row_charge. destruct (vtxoStateCountsTowardAllowance _); [|lia].
  destruct (parseRFC3339 _); [|lia]. destruct (_ || _); lia.
Qed.

Lemma spentStep_Ok key now total row t :
  0 <= total <= int64_max -> op_AmountSats row <= int64_max -> op_FeeSats row <= int64_max ->
  spentStep key now total row = Ok t <->
  row_ok key row /\ t = total + row_charge now row /\ t <= int64_max.
Proof.
  intros Ht Ha Hf. unfold spentStep, row_ok, row_charge. rewrite bind_Ok. setoid_rewrite scanVtxoOperation_Ok. split.
  - intros (rec & [-> Hv] & ([] & Hk%wrap_Ok & H)%bind_Ok). pose proof (verify_op_facts _ _ Hk) as (_&_&_&_&?&?&_).
    destruct (vtxoStateCountsTowardAllowance (op_State row)); simpl in H.
    2: { inv_ok. split_and!; try done; lia. }
    destruct (parseRFC3339 (op_CreatedAt row)) as [c|]; [|done].
    rewrite <-(negb_involutive (now <=? c + allowanceWindow)), <-Z.ltb_antisym.
    destruct (vtxoStateAwaitingSettlement (op_State row)), (c + allowanceWindow <? now); simpl in H |- *.
    3: { inv_ok. split_and!; try done; lia. }
    all: apply bind_Ok in H as (need & Hn & ([] & Hr%require_Ok & [= <-])%bind_Ok);
      apply addOutflow_Ok in Hn as (_ & _ & _ & ->); [|done..]; bool_prop; split_and!; try done; lia.
  - intros ((Hv & Hk & Hp) & -> & Hle). pose proof (verify_op_facts _ _ Hk) as (_&_&_&_&?&?&_).
    exists row. split; [done|]. rewrite Hk. simpl.
    destruct (vtxoStateCountsTowardAllowance (op_State row)); simpl; [|f_equal; lia].
    destruct (Hp eq_refl) as [c Hc]. rewrite Hc in *.
    rewrite <-(negb_involutive (now <=? c + allowanceWindow)), <-Z.ltb_antisym in *.
    destruct (vtxoStateAwaitingSettlement (op_State row)), (c + allowanceWindow <? now); simpl in *.
    3: f_equal; lia.
    all: rewrite (proj2 (addOutflow_Ok _ _ _ Ha Hf)) by (split_and!; try done; lia); simpl;
      rewrite (proj2 (Z.ltb_ge _ _)) by lia; done.
Qed.

Definition row_typed (r : VtxoOperation) : Prop := op_AmountSats r <= int64_max /\ op_FeeSats r <= int64_max.

Lemma spent_fold key now rows total t :
  0 <= total <= int64_max -> Forall row_typed rows ->
  foldR (spentStep key now) total rows = Ok t <->
  Forall (row_ok key) rows /\ t = total + zsum (row_charge now) rows /\ t <= int64_max.
Proof.
  intros Ht Hty. revert total Ht. induction Hty as [|r rows [Ha Hf] _ IH]; intros total Ht; simpl.
  { split; [intros [= <-]; split_and!; [constructor|lia..]|]. intros (_ & -> & _). f_equal. lia. }
  rewrite bind_Ok, Forall_cons_iff. split.
  - intros (t' & Hs & H). apply spentStep_Ok in Hs as (Hr & -> & Hle); [|done..].
    pose proof Hr as (_ & (_&_&_&_&?&?&_)%verify_op_facts & _).
    pose proof (row_charge_nonneg now r ltac:(done) ltac:(done)).
    apply IH in H as (Hall & -> & Hle'); [|lia]. split_and!; try done; lia.
  - intros ((Hr & Hall) & -> & Hle).
    pose proof Hr as (_ & (_&_&_&_&?&?&_)%verify_op_facts & _).
    pose proof (row_charge_nonneg now r ltac:(done) ltac:(done)).
    assert (0 <= zsum (row_charge now) rows).
    { apply zsum_nonneg. intros a Hin. rewrite Forall_forall in Hall.
      destruct (Hall a Hin) as (_ & (_&_&_&_&?&?&_)%verify_op_facts & _). by apply row_charge_nonneg. }
    exists (total + row_charge now r). split; [apply spentStep_Ok; try done; split_and!; try done; lia|].
    apply IH; [lia|]. split_and!; try done; lia.
Qed.

Lemma filter_vault_charge v now l :
  zsum (row_charge now) (filter (fun r => op_VaultID r = v) l) = zsum (vault_charge v now) l.
Proof.
  induction l as [|r l IH]; [done|]. rewrite filter_cons. cbn [zsum foldr]. unfold vault_charge at 1.
  fold (zsum (vault_charge v now) l). destruct (decide (op_VaultID r = v)).
  - rewrite bool_decide_eq_true_2 by done. simpl. lia.
  - rewrite bool_decide_eq_false_2 by done. lia.
Qed.

Lemma zsum_map {A B} (f : B -> Z) (g : A -> B) l : zsum f (map g l) = zsum (fun a => f (g a)) l.
Proof. induction l; simpl; lia. Qed.

Lemma selectVault_charged d v now : zsum (row_charge now) (selectVault d v) = charged d v now.
Proof. unfold selectVault, charged, msum. by rewrite filter_vault_charge, zsum_map. Qed.

Lemma elem_of_selectVault d v r :
  r ∈ selectVault d v <-> op_VaultID r = v /\ exists k, t_vtxo_operation d !! k = Some r.
Proof.
  unfold selectVault. rewrite list_elem_of_filter, list_elem_of_fmap. split.
  - intros (? & [k r'] & -> & Hin). apply elem_of_map_to_list in Hin. eauto.
  - intros (? & k & Hk). split; [done|]. exists (k, r). split; [done|]. by apply elem_of_map_to_list.
Qed.

Lemma spent_total l d now v t : Forall row_typed (selectVault d v) ->
  spentInWindow l d now v = Ok t -> t = charged d v now.
Proof.
  intros Hty H. unfold spentInWindow in H. apply bind_Ok in H as (key & _ & H).
  apply spent_fold in H as (_ & -> & _); [by rewrite selectVault_charged|unfold int64_max; lia|done].
Qed.

(** ** Effects of a transaction *)

(** A committed transaction that observed the sequence leaves the file at the
    new count; whatever happens the database is the old one or the new one. *)
Lemma commitTx_cases {A} l env (body : tx_result A) l' r :
  commitTx l env body = (l', r) ->
  l_network l' = l_network l /\ l_integrityKey l' = l_integrityKey l /\ l_monotonic l' = l_monotonic l /\
  ((l_db l' = l_db l /\ (exists e, r = Err e) /\
      (l_file l' = l_file l \/ exists d a, body = Ok (d, true, a) /\
         exists o, observeEconomicOutflowsLocked l (env_write env) d = (l_file l', o))) \/
   exists d ob a, body = Ok (d, ob, a) /\ r = Ok a /\ l_db l' = d /\
     (if ob then observeEconomicOutflowsLocked l (env_write env) d = (l_file l', Ok tt) else l_file l' = l_file l)).
Proof.
  unfold commitTx. destruct body as [[[d ob] a]|e].
  2: { intros [= <- <-]. split_and!; try done. left. eauto. }
  destruct ob; simpl.
  - destruct (observeEconomicOutflowsLocked l (env_write env) d) as [f [[]|e]] eqn:E;
      [destruct (env_commit_ok env)|]; intros [= <- <-]; simpl; split_and!; try done.
    + right. exists d, true, a. done.
    + left. split_and!; [done|eauto|]. right. exists d, a. split; [done|]. eauto.
    + left. split_and!; [done|eauto|]. right. exists d, a. split; [done|]. eauto.
  - destruct (env_commit_ok env); intros [= <- <-]; simpl; split_and!; try done; [right|left; eauto].
    exists d, false, a. done.
Qed.

(** Whatever the observation returns, the authenticated count does not go back,
    and a successful one leaves it at the number of rows. *)
Lemma observe_sequence l io d m n file' r :
  l_monotonic l = Some m -> sequence_count m (l_file l) = Some n ->
  observeEconomicOutflowsLocked l io d = (file', r) ->
  exists n', sequence_count m file' = Some n' /\ n <= n' /\ (r = Ok tt -> n' = outflow_rows d).
Proof.
  intros Hm Hn. unfold observeEconomicOutflowsLocked. rewrite Hm.
  destruct (economicOutflowCount d) as [k|e] eqn:E; [|intros [= <- <-]; exists n; split_and!; done || lia].
  unfold economicOutflowCount in E. inv_ok. bool_prop. intros Ho.
  assert (Hb : 0 <= outflow_rows d <= uint64_max) by (unfold uint64_max, int64_max in *; lia).
  destruct (Observe_cases _ _ _ _ _ _ Hb Ho) as [[->|(-> & _ & Hlt)] Hok].
  - exists n. split_and!; [done|lia|]. intros Hr. specialize (Hok Hr). congruence.
  - exists (outflow_rows d). rewrite sequence_payload by done.
    specialize (Hlt _ Hn). split_and!; done || lia.
Qed.

(** ** Properties *)

(** [C17] The rolling-window total is exact and fails closed: [spentInWindow]
    returns a total only when every row of the vault authenticates and every
    counted row has a readable creation time, and then it is the sum, without
    int64 overflow, of the outflows in flight or created within 24 hours. *)
Theorem spent_in_window_exact l d now v t :
  Forall row_typed (selectVault d v) ->
  spentInWindow l d now v = Ok t <->
  zlen (l_integrityKey l) = 32 /\ Forall (row_ok (l_integrityKey l)) (selectVault d v) /\
  t = charged d v now /\ t <= int64_max.
Proof.
  intros Hty. unfold spentInWindow, integrityKeyCopy. rewrite <-selectVault_charged. split.
  - intros H. inv_ok. bool_prop. apply spent_fold in H as (? & -> & ?); [done|unfold int64_max; lia|done].
  - intros (Hk & Hrows & -> & Hle). rewrite Hk. cbn [mbind result_bind require sha256_size Z.eqb].
    apply spent_fold; [unfold int64_max; lia|done|]. done.
Qed.

Definition example_db : Database :=
  MkDatabase {["vault-a"]} {[op_OperationID example_sealed := example_sealed]} ∅ ∅ ∅ ∅ ∅ ∅ ∅.

Definition example_ledger : Ledger := MkLedger example_db NetworkMutinynet example_key None None.

Lemma example_rows : selectVault example_db "vault-a" = [example_sealed].
Proof. unfold selectVault, example_db. simpl. rewrite map_to_list_singleton. vm_compute. reflexivity. Qed.

Lemma example_row_ok : row_ok example_key example_sealed.
Proof.
  split_and!; [|exact example_sealed_verifies|by vm_compute; eauto].
  assert (E : op_ChangeVout example_sealed = None) by (vm_compute; reflexivity). rewrite E. done.
Qed.

Lemma spent_in_window_exact_witness :
  Forall row_typed (selectVault example_db "vault-a") /\
  (let t := 1782907200 * second in
   spentInWindow example_ledger example_db t "vault-a" = Ok (charged example_db "vault-a" t)).
Proof.
  assert (T : Forall row_typed (selectVault example_db "vault-a")).
  { rewrite example_rows. repeat constructor; vm_compute; discriminate. }
  split; [exact T|]. cbv zeta.
  apply (spent_in_window_exact example_ledger example_db (1782907200 * second) "vault-a" _ T).
  split_and!; [vm_compute; reflexivity| |reflexivity|vm_compute; discriminate].
  rewrite example_rows. constructor; [exact example_row_ok|constructor].
Defined.

(** [addOutflow] is exact on int64: it returns the mathematical sum of two
    non-negative amounts when that sum is an int64, and an error otherwise. *)
Theorem add_outflow_exact a f :
  in_int64 a = true -> in_int64 f = true ->
  (0 <= a /\ 0 <= f /\ a + f <= int64_max -> addOutflow a f = Ok (a + f)) /\
  (~ (0 <= a /\ 0 <= f /\ a + f <= int64_max) -> exists e, addOutflow a f = Err e).
Proof.
  unfold in_int64. intros Ha Hf. bool_prop. split.
  - intros ?. apply addOutflow_Ok; tauto.
  - intros Hn. destruct (addOutflow a f) as [n|e] eqn:E; [|eauto].
    apply addOutflow_Ok in E; [|done..]. tauto.
Qed.

Lemma add_outflow_exact_witness :
  addOutflow (int64_max - 1) 1 = Ok int64_max /\ exists e, addOutflow int64_max 1 = Err e.
Proof.
  split.
  - apply (add_outflow_exact (int64_max - 1) 1 eq_refl eq_refl). vm_compute. intuition congruence.
  - apply (add_outflow_exact int64_max 1 eq_refl eq_refl). vm_compute. intuition congruence.
Defined.
