(* ===== verification/SignCount.v ===== *)
(** * Authenticator counters: [src/internal/policy/signcount.go]

    One authenticated counter per (vault, credential).  An authentication must
    advance it, except for authenticators that always report zero. *)

From S2P Require Import Prelude Crypto Codec GoTime Program Monotonic Vtxo BoardRows Ledger.
From Stdlib Require Import Strings.Byte Strings.Ascii Strings.String.
From stdpp Require Import base decidable list strings gmap countable option sorting.
From Stdlib Require Import ZArith Lia.
Open Scope string_scope.
Open Scope list_scope.
Open Scope Z_scope.

Definition signCountMACDomain := "arkade-2fa-vault/webauthn-sign-count/v1".

Definition signCountMAC (vaultID : string) (credentialID : bytes) (count : Z) (key : bytes) : bytes :=
  hmac_sha256 key (bytes_of signCountMACDomain ++ bytes_of vaultID ++ credentialID ++ be_bytes 4 count).

Definition verifySignCountMAC (vaultID : string) (credentialID : bytes) (count : Z) (mac key : bytes) : result unit :=
  require (beqb mac (signCountMAC vaultID credentialID count key)) (Errorf "webauthn sign count MAC mismatch").

(** [Scan(&stored, &mac)] into a uint32 and a blob. *)
Definition scanSignCount (row : SignCountRow) : result (Z * bytes) :=
  require (in_uint32 (sc_sign_count row)) (Errorf "converting sign_count to uint32");;
  Ok (sc_sign_count row, sc_integrity_mac row).

(** The upsert. The conflict branch keeps the row's key, so only a fresh row is
    checked against the vault table. *)
Definition upsertSignCount (d : Database) (vaultID : string) (credentialID : bytes) (row : SignCountRow) : result Database :=
  require (bool_decide (is_Some (t_webauthn_sign_count d !! (vaultID, credentialID))) || bool_decide (vaultID ∈ t_vault d))
    (ErrConstraint "FOREIGN KEY");;
  require ((0 <=? sc_sign_count row) && (zlen (sc_integrity_mac row) =? 32)) (ErrConstraint "CHECK");;
  Ok (set_webauthn_sign_count (<[(vaultID, credentialID) := row]> (t_webauthn_sign_count d)) d).

Definition advanceSignCountLocked (key : bytes) (d : Database) (now : Z) (vaultID : string) (credentialID : bytes)
    (incoming : Z) : result Database :=
  let write :=
    upsertSignCount d vaultID credentialID
      (MkSignCountRow incoming (formatRFC3339Nano now) (signCountMAC vaultID credentialID incoming key)) in
  match t_webauthn_sign_count d !! (vaultID, credentialID) with
  | None => write
  | Some row =>
      '(stored, mac) ← scanSignCount row;
      verifySignCountMAC vaultID credentialID stored mac key;;
      require (negb ((incoming =? 0) && (0 <? stored))) (Errorf "webauthn sign count went backwards");;
      require (negb ((0 <? incoming) && (incoming <? stored))) (Errorf "webauthn sign count went backwards");;
      require (negb ((0 <? incoming) && (incoming =? stored))) (Errorf "webauthn sign count went backwards");;
      if (incoming =? 0) && (stored =? 0) then Ok d else write
  end.

Definition AdvanceSignCount (l : Ledger) (commit_ok : bool) (now : Z) (vaultID : string) (credentialID : bytes)
    (incoming : Z) : Ledger * result unit :=
  commitTx l (MkEnv WriteOk commit_ok)
    (require (negb (seqb vaultID "" || (zlen credentialID =? 0))) (Errorf "sign count identity required");;
     require (zlen (l_integrityKey l) =? sha256_size) (Errorf "sign count ledger required");;
     d ← advanceSignCountLocked (l_integrityKey l) (l_db l) now vaultID credentialID incoming;
     Ok (d, false, tt)).

Definition verifySignCountReplayLocked (key : bytes) (d : Database) (vaultID : string) (credentialID : bytes)
    (incoming : Z) : result unit :=
  match t_webauthn_sign_count d !! (vaultID, credentialID) with
  | None => Err (Errorf "webauthn sign count replay state missing")
  | Some row =>
      '(stored, mac) ← scanSignCount row;
      verifySignCountMAC vaultID credentialID stored mac key;;
      require (incoming =? stored) (Errorf "webauthn sign count replay mismatch")
  end.

(** ** Lemmas *)

(** The stored counter, -1 when the credential never authenticated. *)
Definition stored_count (d : Database) (vaultID : string) (credentialID : bytes) : Z :=
  match t_webauthn_sign_count d !! (vaultID, credentialID) with Some row => sc_sign_count row | None => -1 end.

Lemma scanSignCount_Ok row s m :
  scanSignCount row = Ok (s, m) <-> in_uint32 s = true /\ s = sc_sign_count row /\ m = sc_integrity_mac row.
Proof. unfold scanSignCount. rewrite bind_Ok. setoid_rewrite require_Ok. naive_solver. Qed.

Lemma upsertSignCount_Ok d v c row d' : upsertSignCount d v c row = Ok d' ->
  d' = set_webauthn_sign_count (<[(v, c):=row]> (t_webauthn_sign_count d)) d.
Proof. unfold upsertSignCount. intros H. by inv_ok. Qed.

(** The three guards: the counter goes forward, or stays at zero. *)
Lemma advance_guards key d now v c n d' row :
  0 <= n -> t_webauthn_sign_count d !! (v, c) = Some row ->
  advanceSignCountLocked key d now v c n = Ok d' ->
  sc_integrity_mac row = signCountMAC v c (sc_sign_count row) key /\
  ((n = 0 /\ sc_sign_count row = 0 /\ d' = d) \/
   (sc_sign_count row < n /\
    upsertSignCount d v c (MkSignCountRow n (formatRFC3339Nano now) (signCountMAC v c n key)) = Ok d')).
Proof.
  intros Hn E. unfold advanceSignCountLocked. rewrite E.
  intros ([s m] & (Hu & -> & ->)%scanSignCount_Ok & H)%bind_Ok. inv_ok.
  unfold verifySignCountMAC in *. inv_ok.
  match goal with H : beqb _ _ = true |- _ => apply beqb_true in H end.
  split; [done|]. revert H. generalize dependent (sc_sign_count row). intros s. intros.
  destruct (Z.eqb_spec n 0), (Z.ltb_spec 0 s), (Z.ltb_spec 0 n), (Z.ltb_spec n s), (Z.eqb_spec n s), (Z.eqb_spec s 0);
    simpl in *; try done; try lia; inv_ok; auto with lia.
  all: unfold in_uint32 in *; bool_prop; lia.
Qed.

Lemma advance_Ok key d now v c n d' :
  0 <= n -> advanceSignCountLocked key d now v c n = Ok d' ->
  stored_count d' v c = n /\ (stored_count d v c < n \/ (n = 0 /\ stored_count d v c = 0)) /\
  (forall v' c', (v', c') <> (v, c) -> stored_count d' v' c' = stored_count d v' c') /\
  d' = set_webauthn_sign_count (t_webauthn_sign_count d') d.
Proof.
  intros Hn H. unfold stored_count. destruct (t_webauthn_sign_count d !! (v, c)) as [row|] eqn:E.
  - destruct (advance_guards _ _ _ _ _ _ _ _ Hn E H) as (_ & [(-> & Hz & ->)|(Hlt & ->%upsertSignCount_Ok)]); simpl.
    + rewrite E. split_and!; [done|by right|done|by destruct d].
    + rewrite lookup_insert_eq. split_and!; [done|by left| |done]. intros. by rewrite lookup_insert_ne.
  - unfold advanceSignCountLocked in H. rewrite E in H. apply upsertSignCount_Ok in H as ->. simpl.
    rewrite lookup_insert_eq. split_and!; [done|left; lia| |done]. intros. by rewrite lookup_insert_ne.
Qed.

(** After an accepted counter the stored row authenticates that counter. *)
Lemma advance_row key d now v c n d' :
  0 <= n -> advanceSignCountLocked key d now v c n = Ok d' ->
  exists row, t_webauthn_sign_count d' !! (v, c) = Some row /\ sc_sign_count row = n /\
    sc_integrity_mac row = signCountMAC v c n key.
Proof.
  intros Hn H. destruct (t_webauthn_sign_count d !! (v, c)) as [row|] eqn:E.
  - destruct (advance_guards _ _ _ _ _ _ _ _ Hn E H) as (Hm & [(-> & Hz & ->)|(_ & ->%upsertSignCount_Ok)]).
    + exists row. rewrite Hz in Hm. done.
    + eexists. simpl. rewrite lookup_insert_eq. done.
  - unfold advanceSignCountLocked in H. rewrite E in H. apply upsertSignCount_Ok in H as ->.
    eexists. simpl. rewrite lookup_insert_eq. done.
Qed.

(** A run of authentications of one credential. *)
Definition advances (key : bytes) (v : string) (c : bytes) (d : Database) (ns : list (Z * Z)) : result Database :=
  foldR (fun d tn => advanceSignCountLocked key d tn.1 v c tn.2) d ns.

(** ** Properties *)

(** Accepted counters strictly increase: in any run of accepted
    authentications of a credential, the non-zero counters are strictly
    increasing and above every counter stored before, and a zero counter is
    accepted only while nothing above zero was ever stored. *)
Theorem accepted_counters_increase key v c ns d d' :
  Forall (fun tn => 0 <= tn.2) ns -> advances key v c d ns = Ok d' ->
  StronglySorted (fun a b => a < b \/ (a = 0 /\ b = 0)) (map snd ns) /\
  Forall (fun n => stored_count d v c < n \/ (n = 0 /\ stored_count d v c = 0)) (map snd ns) /\
  stored_count d' v c = List.last (map snd ns) (stored_count d v c).
Proof.
  unfold advances. revert d. induction ns as [|[t n] ns IH]; intros d Hn H; simpl in *.
  { injection H as ->. repeat constructor. }
  inversion Hn as [|?? Hn0 Hns]; subst; simpl in *. apply bind_Ok in H as (d1 & H1 & H).
  apply advance_Ok in H1 as (E1 & Hlt & _ & _); [|done]. destruct (IH _ Hns H) as (Hs & Hall & Hlast).
  rewrite E1 in Hall, Hlast. split_and!.
  - constructor; [done|]. eapply Forall_impl; [exact Hall|]. simpl. lia.
  - constructor; [done|]. eapply Forall_impl; [exact Hall|]. simpl. lia.
  - rewrite Hlast. destruct (map snd ns) as [|m l]; [done|]. clear. revert m. induction l; intros m; [done|apply IHl].
Qed.

Definition example_advances : list (Z * Z) := [(0, 0); (1, 0); (second, 4); (2 * second, 9)].

Definition sign_count_of (r : result Database) : Z :=
  match r with Ok d => stored_count d "vault-a" [x01] | Err _ => -2 end.

Lemma accepted_counters_increase_witness :
  exists d', advances example_key "vault-a" [x01] example_db example_advances = Ok d' /\
    stored_count d' "vault-a" [x01] = 9.
Proof.
  destruct (advances example_key "vault-a" [x01] example_db example_advances) as [d'|] eqn:E.
  - exists d'. split; [reflexivity|].
    refine (eq_trans (proj2 (proj2 (accepted_counters_increase example_key "vault-a" [x01] example_advances
      example_db d' _ E))) _); [|vm_compute; reflexivity].
    unfold example_advances. repeat constructor; vm_compute; discriminate.
  - exfalso. apply (f_equal sign_count_of) in E. vm_compute in E. discriminate.
Defined.

(** The counter's MAC does not separate the vault id from the credential id:
    bytes moved from the end of one to the start of the other give the same MAC,
    so the MAC alone does not tell which pair a row belongs to. *)
Theorem sign_count_mac_not_separated v s c n key :
  signCountMAC (v +:+ s) c n key = signCountMAC v (bytes_of s ++ c) n key.
Proof. unfold signCountMAC. by rewrite bytes_of_app, <-!app_assoc. Qed.
