(* ===== verification/Recovery.v ===== *)
(** * Recovery sessions: [src/internal/policy/session.go]

    The cosigner signs an initiate or clawback transition of an outpoint towards
    one destination only.  [ApplyRecoveryReplay] is the write-ahead log of that
    decision: it is called without a signature before the cosigner signs and with
    the signed PSBT afterwards ([src/internal/application/transition.go]).

    The table [recovery_session] is a finite map passed next to the ledger that
    holds the key and the vaults.  [strings.ToLower] and [strings.TrimSpace] are
    modelled on ASCII, the alphabet of the hexadecimal fields they are applied to.
    A nil [Signature] is [None]. *)

From S2P Require Import Prelude Crypto Codec GoTime Program Monotonic Vtxo BoardRows Ledger.
From Stdlib Require Import Strings.Byte Strings.Ascii Strings.String.
From stdpp Require Import base decidable list strings gmap countable option sorting.
From Stdlib Require Import ZArith Lia.
Open Scope string_scope.
Open Scope list_scope.
Open Scope Z_scope.

Definition sessionMACDomain := "arkade-2fa-vault/recovery-session/v2".
Definition sessionPurposeInitiate := "initiate".
Definition sessionPurposeClawback := "clawback".

Record RecoverySession := MkSession {
  rs_VaultID : string;
  rs_Purpose : string;
  rs_InputTxid : string;
  rs_InputVout : Z;
  rs_DestScript : string;
  rs_LastSighash : string;
  rs_Signature : option bytes;
  rs_CreatedAt : string;
  rs_UpdatedAt : string;
  rs_IntegrityMAC : bytes
}.

Inductive ReplayAction := ReplaySign | ReplayReplay | ReplayResign.

Definition rs_set_MAC (m : bytes) (r : RecoverySession) : RecoverySession :=
  MkSession (rs_VaultID r) (rs_Purpose r) (rs_InputTxid r) (rs_InputVout r) (rs_DestScript r) (rs_LastSighash r)
    (rs_Signature r) (rs_CreatedAt r) (rs_UpdatedAt r) m.
Definition rs_set_target (txid dest : string) (r : RecoverySession) : RecoverySession :=
  MkSession (rs_VaultID r) (rs_Purpose r) txid (rs_InputVout r) dest (rs_LastSighash r)
    (rs_Signature r) (rs_CreatedAt r) (rs_UpdatedAt r) (rs_IntegrityMAC r).
Definition rs_set_times (created updated : string) (r : RecoverySession) : RecoverySession :=
  MkSession (rs_VaultID r) (rs_Purpose r) (rs_InputTxid r) (rs_InputVout r) (rs_DestScript r) (rs_LastSighash r)
    (rs_Signature r) created updated (rs_IntegrityMAC r).
Definition rs_set_signed (sighash : string) (sig : option bytes) (r : RecoverySession) : RecoverySession :=
  MkSession (rs_VaultID r) (rs_Purpose r) (rs_InputTxid r) (rs_InputVout r) (rs_DestScript r) sighash
    sig (rs_CreatedAt r) (rs_UpdatedAt r) (rs_IntegrityMAC r).

(** [strings.TrimSpace] *)
Definition is_space (c : ascii) : bool :=
  let n := N_of_ascii c in ((9 <=? n) && (n <=? 13) || (n =? 32))%N.

Fixpoint trim_left (s : string) : string :=
  match s with
  | EmptyString => EmptyString
  | String c s' => if is_space c then trim_left s' else s
  end.

Fixpoint trim_right (s : string) : string :=
  match s with
  | EmptyString => EmptyString
  | String c s' =>
      match trim_right s' with
      | EmptyString => if is_space c then EmptyString else String c EmptyString
      | r => String c r
      end
  end.

Definition trim_space (s : string) : string := trim_right (trim_left s).

(** [strings.ToLower(strings.TrimSpace(s))] *)
Definition normalize (s : string) : string := to_lower (trim_space s).

Definition requireSessionPurpose (purpose : string) : result unit :=
  require (seqb purpose sessionPurposeInitiate || seqb purpose sessionPurposeClawback)
    (Errorf "purpose must be initiate or clawback").

Definition sig_bytes (s : option bytes) : bytes := default [] s.

Definition canonicalSession (rec : RecoverySession) : result bytes :=
  out ← appendFields [] [bytes_of sessionMACDomain; bytes_of (rs_VaultID rec); bytes_of (rs_Purpose rec);
    bytes_of (rs_InputTxid rec); bytes_of (rs_DestScript rec); bytes_of (rs_LastSighash rec);
    sig_bytes (rs_Signature rec); bytes_of (rs_CreatedAt rec); bytes_of (rs_UpdatedAt rec)];
  require (negb (rs_InputVout rec <? 0)) (Errorf "recovery session vout");;
  Ok (out ++ put32 (rs_InputVout rec)).

Definition sessionMAC (integrityKey payload : bytes) : bytes := hmac_sha256 integrityKey payload.

Definition sealSession (rec : RecoverySession) (integrityKey : bytes) : result RecoverySession :=
  require (zlen integrityKey =? sha256_size) (Errorf "recovery session seal required");;
  payload ← canonicalSession rec;
  Ok (rs_set_MAC (sessionMAC integrityKey payload) rec).

Definition verifySession (rec : RecoverySession) (integrityKey : bytes) : result unit :=
  require (zlen (rs_IntegrityMAC rec) =? sha256_size) (Errorf "recovery session MAC missing");;
  payload ← canonicalSession rec;
  require (beqb (rs_IntegrityMAC rec) (sessionMAC integrityKey payload)) (Errorf "recovery session MAC mismatch").

Definition DecideReplay (existing : option RecoverySession) (next : RecoverySession) : result ReplayAction :=
  requireSessionPurpose (rs_Purpose next);;
  let txid := normalize (rs_InputTxid next) in
  let dest := normalize (rs_DestScript next) in
  require (negb (seqb (rs_VaultID next) "" || seqb txid "" || seqb dest "")) (Errorf "recovery session dest and outpoint required");;
  match existing with
  | None => Ok ReplaySign
  | Some existing =>
      require (seqb (rs_DestScript existing) dest) (Errorf "second dest for this outpoint");;
      require (seqb (rs_InputTxid existing) txid && (rs_InputVout existing =? rs_InputVout next))
        (Errorf "overlapping input set for this outpoint");;
      if zlen (sig_bytes (rs_Signature existing)) =? 0 then
        require (negb (seqb (rs_LastSighash existing) "" || seqb (rs_LastSighash next) ""
                       || negb (seqb (rs_LastSighash existing) (rs_LastSighash next)))) ErrRecoveryBusy;;
        Ok ReplayResign
      else if negb (seqb (rs_LastSighash next) "") && seqb (rs_LastSighash existing) (rs_LastSighash next)
      then Ok ReplayReplay else Ok ReplayResign
  end.

(** ** The table *)

Abbreviation session_key := (string * string * Z * string)%type.
Abbreviation SessionTable := (gmap session_key RecoverySession).

Definition session_pk (r : RecoverySession) : session_key :=
  (rs_VaultID r, rs_InputTxid r, rs_InputVout r, rs_Purpose r).

Definition GetRecoverySession (l : Ledger) (t : SessionTable) (vaultID txid : string) (vout : Z) (purpose : string)
    : result (option RecoverySession) :=
  requireSessionPurpose purpose;;
  match t !! (vaultID, to_lower txid, vout, purpose) with
  | None => Ok None
  | Some row => verifySession row (l_integrityKey l);; Ok (Some row)
  end.

(** The upsert: on a conflict the key columns and [created_at] are kept. *)
Definition upsertSession (l : Ledger) (t : SessionTable) (rec : RecoverySession) : result SessionTable :=
  require ((seqb (rs_Purpose rec) "initiate" || seqb (rs_Purpose rec) "clawback") && (zlen (rs_IntegrityMAC rec) =? 32))
    (ErrConstraint "CHECK");;
  match t !! session_pk rec with
  | Some old => Ok (<[session_pk rec := rs_set_times (rs_CreatedAt old) (rs_UpdatedAt rec) rec]> t)
  | None =>
      require (bool_decide (rs_VaultID rec ∈ t_vault (l_db l))) (ErrConstraint "FOREIGN KEY");;
      Ok (<[session_pk rec := rec]> t)
  end.

(** [ok] says whether the single statement commits. *)
Definition PutRecoverySession (l : Ledger) (t : SessionTable) (ok : bool) (now : Z) (rec : RecoverySession)
    : result SessionTable :=
  requireSessionPurpose (rs_Purpose rec);;
  let now := formatRFC3339Nano now in
  let rec := rs_set_times (if seqb (rs_CreatedAt rec) "" then now else rs_CreatedAt rec) now rec in
  let rec := rs_set_target (normalize (rs_InputTxid rec)) (normalize (rs_DestScript rec)) rec in
  rec ← sealSession rec (l_integrityKey l);
  t ← upsertSession l t rec;
  require ok ErrCommit;;
  Ok t.

(** What is written when the request is not a pure replay. *)
Definition inherit (existing : option RecoverySession) (next : RecoverySession) : RecoverySession :=
  match existing with
  | None => next
  | Some existing =>
      rs_set_times (rs_CreatedAt existing) (rs_UpdatedAt next)
        (rs_set_signed (if seqb (rs_LastSighash next) "" then rs_LastSighash existing else rs_LastSighash next)
           (match rs_Signature next with None => rs_Signature existing | s => s end) next)
  end.

Definition ApplyRecoveryReplay (l : Ledger) (t : SessionTable) (ok : bool) (now : Z) (next : RecoverySession)
    : SessionTable * result (ReplayAction * option RecoverySession) :=
  let get t := GetRecoverySession l t (rs_VaultID next) (rs_InputTxid next) (rs_InputVout next) (rs_Purpose next) in
  match (existing ← get t; action ← DecideReplay existing next; Ok (existing, action)) with
  | Err e => (t, Err e)
  | Ok (existing, ReplayReplay) => (t, Ok (ReplayReplay, existing))
  | Ok (existing, action) =>
      match PutRecoverySession l t ok now (inherit existing next) with
      | Err e => (t, Err e)
      | Ok t' => (t', stored ← get t'; Ok (action, stored))
      end
  end.

(** ** Lemmas *)

Lemma lower_ascii_idem c : lower_ascii (lower_ascii c) = lower_ascii c.
Proof. destruct c as [[] [] [] [] [] [] [] []]; vm_compute; reflexivity. Qed.

Lemma to_lower_idem s : to_lower (to_lower s) = to_lower s.
Proof. induction s as [|c s IH]; [done|]. simpl. by rewrite lower_ascii_idem, IH. Qed.

Definition canonical_txid (next : RecoverySession) : Prop := normalize (rs_InputTxid next) = rs_InputTxid next.

Lemma canonical_txid_lower next : canonical_txid next -> to_lower (rs_InputTxid next) = rs_InputTxid next.
Proof. unfold canonical_txid, normalize. intros <-. apply to_lower_idem. Qed.

Lemma verifySession_Ok rec key u : verifySession rec key = Ok u <->
  zlen (rs_IntegrityMAC rec) = 32 /\ exists p, canonicalSession rec = Ok p /\ rs_IntegrityMAC rec = hmac_sha256 key p.
Proof.
  destruct u. unfold verifySession, sessionMAC. split.
  - intros Hv. inv_ok. bool_prop. split; [done|].
    match goal with H : beqb _ _ = true |- _ => apply beqb_true in H end. eauto.
  - intros (Hl & p & Hp & Hm). rewrite Hl, Hp. simpl. rewrite (proj2 (beqb_true _ _)); done.
Qed.

Lemma sealSession_Ok rec key rec' : sealSession rec key = Ok rec' ->
  exists p, canonicalSession rec = Ok p /\ rec' = rs_set_MAC (hmac_sha256 key p) rec.
Proof. unfold sealSession, sessionMAC. intros Hs. inv_ok. eauto. Qed.

(** What is sealed verifies. *)
Lemma seal_verify_session rec key rec' : sealSession rec key = Ok rec' -> verifySession rec' key = Ok tt.
Proof.
  intros (p & Hp & ->)%sealSession_Ok. apply verifySession_Ok. simpl. split; [apply zlen_hmac|]. by exists p.
Qed.

(** The row a request writes. *)
Record written (l : Ledger) (existing : option RecoverySession) (next row : RecoverySession) : Prop := {
  wr_pk : session_pk row = session_pk next;
  wr_dest : rs_DestScript row = normalize (rs_DestScript next);
  wr_sighash : rs_LastSighash row = rs_LastSighash (inherit existing next);
  wr_sig : rs_Signature row = rs_Signature (inherit existing next);
  wr_auth : (forall old, existing = Some old -> rs_CreatedAt old <> "") ->
    rs_CreatedAt row <> "" /\ verifySession row (l_integrityKey l) = Ok tt
}.

Lemma format_nonempty t : formatRFC3339Nano t <> "".
Proof. discriminate. Qed.

Lemma inherit_pk existing next : session_pk (inherit existing next) = session_pk next.
Proof. by destruct existing. Qed.

Lemma put_written l t ok now next t' : canonical_txid next ->
  PutRecoverySession l t ok now (inherit (t !! session_pk next) next) = Ok t' ->
  exists row, t' = <[session_pk next := row]> t /\ written l (t !! session_pk next) next row.
Proof.
  intros Hc. unfold PutRecoverySession. set (existing := t !! session_pk next).
  intros ([] & _ & (rec & Hs & (t1 & Hu & ([] & _ & [= <-])%bind_Ok)%bind_Ok)%bind_Ok)%bind_Ok.
  pose proof (seal_verify_session _ _ _ Hs) as Hv. apply sealSession_Ok in Hs as (p & _ & ->).
  unfold upsertSession in Hu. apply bind_Ok in Hu as ([] & _ & Hu).
  match type of Hv with verifySession ?r _ = _ => set (rec := r) in * end.
  assert (Hpk : session_pk rec = session_pk next).
  { unfold rec, session_pk. simpl. destruct existing; simpl; by rewrite Hc. }
  rewrite Hpk in Hu. fold existing in Hu. destruct existing as [old|].
  - injection Hu as <-. eexists. split; [done|]. constructor; simpl; try done.
    intros Ho. specialize (Ho old eq_refl). split; [done|].
    unfold rec in *. simpl in *. unfold seqb in *. rewrite bool_decide_eq_false_2 in * by done. exact Hv.
  - apply bind_Ok in Hu as ([] & _ & [= <-]). eexists. split; [done|]. constructor; simpl; try done.
    intros _. split; [|exact Hv]. unfold rec. simpl. unfold seqb. case_bool_decide; [apply format_nonempty|done].
Qed.

Lemma get_canonical l t next : canonical_txid next ->
  GetRecoverySession l t (rs_VaultID next) (rs_InputTxid next) (rs_InputVout next) (rs_Purpose next) =
  (requireSessionPurpose (rs_Purpose next);;
   match t !! session_pk next with
   | None => Ok None
   | Some row => verifySession row (l_integrityKey l);; Ok (Some row)
   end).
Proof. intros Hc. unfold GetRecoverySession, session_pk. by rewrite canonical_txid_lower. Qed.

Lemma get_canonical_Ok l t next o : canonical_txid next ->
  GetRecoverySession l t (rs_VaultID next) (rs_InputTxid next) (rs_InputVout next) (rs_Purpose next) = Ok o <->
  requireSessionPurpose (rs_Purpose next) = Ok tt /\ o = t !! session_pk next /\
  forall row, t !! session_pk next = Some row -> verifySession row (l_integrityKey l) = Ok tt.
Proof.
  intros Hc. rewrite get_canonical by done. destruct (requireSessionPurpose _) as [[]|]; simpl; [|naive_solver].
  destruct (t !! session_pk next) as [row|]; [|naive_solver].
  destruct (verifySession row _) as [[]|] eqn:E; simpl; [naive_solver|].
  split; [done|]. intros (_ & _ & H). specialize (H row eq_refl). congruence.
Qed.

Lemma decide_None next a : DecideReplay None next = Ok a -> a = ReplaySign.
Proof. unfold DecideReplay. intros H. by inv_ok. Qed.

(** The guards of [DecideReplay] on a stored session. *)
Lemma decide_Some old next a : DecideReplay (Some old) next = Ok a ->
  rs_DestScript old = normalize (rs_DestScript next) /\
  match a with
  | ReplaySign => False
  | ReplayReplay => sig_bytes (rs_Signature old) <> [] /\ rs_LastSighash next <> "" /\ rs_LastSighash old = rs_LastSighash next
  | ReplayResign => (sig_bytes (rs_Signature old) = [] /\ rs_LastSighash old = rs_LastSighash next) \/
                    (sig_bytes (rs_Signature old) <> [] /\ (rs_LastSighash next = "" \/ rs_LastSighash old <> rs_LastSighash next))
  end.
Proof.
  unfold DecideReplay. intros (? & _ & (? & _ & (? & Hd%require_Ok & (? & _ & H)%bind_Ok)%bind_Ok)%bind_Ok)%bind_Ok.
  apply seqb_true in Hd. split; [done|].
  destruct (Z.eqb_spec (zlen (sig_bytes (rs_Signature old))) 0) as [Hz|Hz].
  - apply bind_Ok in H as (? & Hr%require_Ok & [= <-]). left. bool_prop.
    repeat match goal with H : seqb _ _ = true |- _ => apply seqb_true in H end.
    split; [|done]. by destruct (sig_bytes _).
  - assert (sig_bytes (rs_Signature old) <> []) by (intros E; by rewrite E in Hz).
    destruct (negb _ && _) eqn:E; injection H as <-; [|right; split; [done|]].
    + bool_prop. repeat match goal with H : seqb _ _ = true |- _ => apply seqb_true in H end.
      split_and!; try done. intros E. rewrite E in *. by unfold seqb in *.
    + unfold seqb in E. do 2 case_bool_decide; simpl in E; auto; done.
Qed.

(** The two ways a call ends. *)
Inductive applied (l : Ledger) (t : SessionTable) (next : RecoverySession) :
    SessionTable -> result (ReplayAction * option RecoverySession) -> Prop :=
  | ap_refused e : applied l t next t (Err e)
  | ap_replayed old :
      t !! session_pk next = Some old -> verifySession old (l_integrityKey l) = Ok tt ->
      DecideReplay (Some old) next = Ok ReplayReplay ->
      applied l t next t (Ok (ReplayReplay, Some old))
  | ap_written row action :
      written l (t !! session_pk next) next row ->
      requireSessionPurpose (rs_Purpose next) = Ok tt ->
      DecideReplay (t !! session_pk next) next = Ok action -> action <> ReplayReplay ->
      (forall old, t !! session_pk next = Some old -> verifySession old (l_integrityKey l) = Ok tt) ->
      applied l t next (<[session_pk next := row]> t) (verifySession row (l_integrityKey l);; Ok (action, Some row)).

Lemma apply_cases l t ok now next t' r : canonical_txid next ->
  ApplyRecoveryReplay l t ok now next = (t', r) -> applied l t next t' r.
Proof.
  intros Hc. unfold ApplyRecoveryReplay.
  destruct (GetRecoverySession l t _ _ _ _) as [existing|e] eqn:Eg; simpl; [|intros [= <- <-]; constructor].
  apply get_canonical_Ok in Eg as (Hp & -> & Hv); [|done].
  destruct (DecideReplay _ next) as [action|e] eqn:Ed; simpl; [|intros [= <- <-]; constructor].
  assert (Hw : action <> ReplayReplay ->
    match PutRecoverySession l t ok now (inherit (t !! session_pk next) next) with
    | Ok t' => (t', stored ← GetRecoverySession l t' (rs_VaultID next) (rs_InputTxid next) (rs_InputVout next) (rs_Purpose next);
                    Ok (action, stored))
    | Err e => (t, Err e) end = (t', r) -> applied l t next t' r).
  { intros Ha. destruct (PutRecoverySession _ _ _ _ _) as [t1|e] eqn:Eput; [|intros [= <- <-]; constructor].
    apply put_written in Eput as (row & -> & W); [|done]. intros [= <- <-].
    rewrite get_canonical by done. rewrite Hp, lookup_insert_eq. simpl.
    replace (_ ≫= _) with (verifySession row (l_integrityKey l);; Ok (action, Some row)); [by apply ap_written|].
    by destruct (verifySession row _). }
  destruct action; try by apply Hw.
  intros [= <- <-]. destruct (t !! session_pk next) as [old|] eqn:Eo; [|by apply decide_None in Ed].
  apply ap_replayed; auto.
Qed.

(** ** Runs *)

Definition rstep (l : Ledger) (t t' : SessionTable) : Prop :=
  exists ok now next r, canonical_txid next /\ ApplyRecoveryReplay l t ok now next = (t', r).

Definition authentic (l : Ledger) (t : SessionTable) : Prop := forall k r, t !! k = Some r ->
  k = session_pk r /\ verifySession r (l_integrityKey l) = Ok tt /\ rs_CreatedAt r <> "".

Lemma written_kept l t next t' r k row : applied l t next t' r -> t !! k = Some row ->
  exists row', t' !! k = Some row' /\ rs_DestScript row' = rs_DestScript row.
Proof.
  intros [e|old ? ? ?|new action W _ Hd _ _] Hk; [by exists row..|].
  destruct (decide (k = session_pk next)) as [->|]; [|rewrite lookup_insert_ne by done; by exists row].
  rewrite lookup_insert_eq. exists new. split; [done|]. rewrite Hk in Hd.
  apply decide_Some in Hd as [-> _]. apply W.
Qed.

Lemma rsteps_kept l t t' k row : rtc (rstep l) t t' -> t !! k = Some row ->
  exists row', t' !! k = Some row' /\ rs_DestScript row' = rs_DestScript row.
Proof.
  intros Hr. revert row. induction Hr as [t|t t1 t' (ok & now & next & r & Hc & H1) _ IH]; intros row Hk; [by exists row|].
  destruct (written_kept _ _ _ _ _ _ _ (apply_cases _ _ _ _ _ _ _ Hc H1) Hk) as (row1 & Hk1 & E1).
  destruct (IH _ Hk1) as (row' & Hk' & E'). exists row'. split; [done|]. by rewrite E'.
Qed.

Lemma applied_authentic l t next t' r : applied l t next t' r -> authentic l t -> authentic l t'.
Proof.
  intros [e|old ? ? ?|new action W _ _ _ _] A; [done..|]. intros k r0.
  destruct (decide (k = session_pk next)) as [->|]; [|rewrite lookup_insert_ne by done; apply A].
  rewrite lookup_insert_eq. intros [= <-]. split; [symmetry; apply W|].
  assert (Ho : forall old, t !! session_pk next = Some old -> rs_CreatedAt old <> "") by (intros old Ho; by destruct (A _ _ Ho) as (_ & _ & ?)).
  by destruct (wr_auth _ _ _ _ W Ho).
Qed.

(** After a successful call the outpoint is bound to the requested destination. *)
Lemma applied_bound l t next t' a s : applied l t next t' (Ok (a, s)) ->
  exists row, t' !! session_pk next = Some row /\ rs_DestScript row = normalize (rs_DestScript next).
Proof.
  intros H. remember (Ok (a, s)) as r eqn:E. destruct H as [e|old Ho _ Hd|new action W _ _ _ _]; [done| |].
  - exists old. split; [done|]. by destruct (decide_Some _ _ _ Hd).
  - exists new. rewrite lookup_insert_eq. split; [done|]. apply W.
Qed.

(** A successful call found no other destination. *)
Lemma applied_checked l t next t' a s old : applied l t next t' (Ok (a, s)) -> t !! session_pk next = Some old ->
  rs_DestScript old = normalize (rs_DestScript next).
Proof.
  intros H Ho. remember (Ok (a, s)) as r eqn:E. destruct H as [e|old' Ho' _ Hd|new action _ _ Hd _ _]; [done| |].
  - rewrite Ho in Ho'. injection Ho' as <-. by destruct (decide_Some _ _ _ Hd).
  - rewrite Ho in Hd. by destruct (decide_Some _ _ _ Hd).
Qed.

Lemma applied_written_Ok l t next t' a s : applied l t next t' (Ok (a, s)) -> a <> ReplayReplay ->
  exists row, s = Some row /\ t' !! session_pk next = Some row /\ verifySession row (l_integrityKey l) = Ok tt /\
    written l (t !! session_pk next) next row /\ DecideReplay (t !! session_pk next) next = Ok a /\
    requireSessionPurpose (rs_Purpose next) = Ok tt.
Proof.
  intros H Ha. remember (Ok (a, s)) as r eqn:E. destruct H as [e|old Ho _ Hd|new action W Hp Hd _ _]; [done|congruence|].
  destruct (verifySession new _) as [[]|] eqn:Ev; simpl in E; [|done]. injection E as -> <-.
  exists new. by rewrite lookup_insert_eq.
Qed.

(** ** A concrete run *)

Definition example_recovery_ledger : Ledger :=
  MkLedger (MkDatabase {["vault-a"]} ∅ ∅ ∅ ∅ ∅ ∅ ∅ ∅) NetworkMutinynet (replicate 32 x2a) None None.

Definition example_session (sighash : string) (sig : option bytes) : RecoverySession :=
  MkSession "vault-a" "initiate" "aa11" 0 "5120ab" sighash sig "" "" [].

Definition example_first := ApplyRecoveryReplay example_recovery_ledger ∅ true 0 (example_session "11" (Some [x01; x02])).

(** The fee bump that the cosigner never answered. *)
Definition example_bump := ApplyRecoveryReplay example_recovery_ledger example_first.1 true second (example_session "22" None).

Lemma example_canonical sighash sig : canonical_txid (example_session sighash sig).
Proof. reflexivity. Qed.

Lemma example_first_ok : exists row, ApplyRecoveryReplay example_recovery_ledger ∅ true 0 (example_session "11" (Some [x01; x02])) =
  (example_first.1, Ok (ReplaySign, Some row)) /\ rs_Signature row = Some [x01; x02].
Proof.
  assert (H : match example_first.2 with Ok (ReplaySign, Some row) => bool_decide (rs_Signature row = Some [x01; x02]) | _ => false end = true)
    by (vm_compute; reflexivity).
  unfold example_first in *. destruct (ApplyRecoveryReplay _ _ _ _ _) as [t [[[] [row|]]|e]]; try discriminate H.
  exists row. split; [done|]. by apply bool_decide_eq_true in H.
Qed.

Lemma example_first_row : exists old, example_first.1 !! session_pk (example_session "22" None) = Some old /\
  sig_bytes (rs_Signature old) <> [] /\ rs_LastSighash old <> "22".
Proof.
  destruct example_first_ok as (row & E & Es). apply apply_cases in E; [|apply example_canonical].
  apply applied_written_Ok in E as (row' & [= <-] & Hrow & _ & W & _ & _); [|done].
  exists row. split; [exact Hrow|]. rewrite Es, (wr_sighash _ _ _ _ W). done.
Qed.

Lemma example_bump_ok : exists row, ApplyRecoveryReplay example_recovery_ledger example_first.1 true second (example_session "22" None) =
  (example_bump.1, Ok (ReplayResign, Some row)).
Proof.
  assert (H : match example_bump.2 with Ok (ReplayResign, Some row) => true | _ => false end = true) by (vm_compute; reflexivity).
  unfold example_bump in *. destruct (ApplyRecoveryReplay _ _ _ _ _) as [t [[[] [row|]]|e]]; try discriminate H.
  by exists row.
Qed.

Lemma example_retry_ok : exists row, ApplyRecoveryReplay example_recovery_ledger example_first.1 true second (example_session "11" None) =
  (example_first.1, Ok (ReplayReplay, Some row)).
Proof.
  set (call := ApplyRecoveryReplay _ _ _ _ _).
  assert (H : match call.2 with Ok (ReplayReplay, Some row) => true | _ => false end = true) by (vm_compute; reflexivity).
  pose proof (apply_cases _ _ _ _ _ _ _ (example_canonical "11" None) (surjective_pairing call)) as Ha.
  rewrite (surjective_pairing call). destruct Ha as [e|old ? ? ?|new action _ _ _ Hne _]; [discriminate H|by exists old|].
  destruct (verifySession new _) as [[]|]; [|discriminate H]. by destruct action.
Qed.

(** A request that was recorded and not signed yet. *)
Definition example_pending := ApplyRecoveryReplay example_recovery_ledger ∅ true 0 (example_session "11" None).

Lemma example_pending_row : exists old, example_pending.1 !! session_pk (example_session "22" None) = Some old /\
  verifySession old (l_integrityKey example_recovery_ledger) = Ok tt /\
  session_pk old = session_pk (example_session "22" None) /\
  rs_DestScript old = "5120ab" /\ sig_bytes (rs_Signature old) = [] /\ rs_LastSighash old <> "22".
Proof.
  assert (H : match example_pending.2 with Ok (ReplaySign, _) => true | _ => false end = true) by (vm_compute; reflexivity).
  pose proof (apply_cases _ _ _ _ _ _ _ (example_canonical "11" None) (surjective_pairing example_pending)) as Ha.
  destruct example_pending as [t [[[] o]|e]]; try discriminate H. simpl in *.
  apply applied_written_Ok in Ha as (row & _ & Hrow & Hv & W & _ & _); [|done]. exists row.
  split; [exact Hrow|]. split; [exact Hv|]. split; [apply W|]. split; [apply W|].
  rewrite (wr_sig _ _ _ _ W), (wr_sighash _ _ _ _ W). done.
Qed.

(** The same outpoint, its txid preceded by a space, another destination. *)
Definition example_untrimmed : RecoverySession :=
  MkSession "vault-a" "initiate" " aa11" 0 "5120cd" "33" None "" "" [].

(** ** Properties *)

(** [C19] Sign once: take two successful calls for one outpoint and purpose
    with any sequence of calls in between (successful or not, for any vault and
    outpoint, with any outcome of their writes).  When the txids of the two
    calls and of every call in between are canonical (lowercase, no space
    around them), the two ask for the same destination.  The condition cannot
    be dropped: [untrimmed_txid_escapes_destination_fence] shows a call with a
    space before its txid rewriting a bound row. *)
Theorem sign_once_destination l t0 ok1 now1 next1 t1 a1 s1 t2 ok2 now2 next2 t3 a2 s2 :
  canonical_txid next1 -> canonical_txid next2 -> session_pk next1 = session_pk next2 ->
  ApplyRecoveryReplay l t0 ok1 now1 next1 = (t1, Ok (a1, s1)) -> rtc (rstep l) t1 t2 ->
  ApplyRecoveryReplay l t2 ok2 now2 next2 = (t3, Ok (a2, s2)) ->
  normalize (rs_DestScript next1) = normalize (rs_DestScript next2).
Proof.
  intros C1 C2 Ek H1%apply_cases Hr H2%apply_cases; [|done..].
  destruct (applied_bound _ _ _ _ _ _ H1) as (row & Hrow & <-).
  destruct (rsteps_kept _ _ _ _ _ Hr Hrow) as (row' & Hrow' & <-).
  rewrite Ek in Hrow'. by eapply applied_checked.
Qed.

Lemma sign_once_destination_witness :
  normalize (rs_DestScript (example_session "11" (Some [x01; x02]))) = normalize (rs_DestScript (example_session "22" None)).
Proof.
  destruct example_first_ok as (r1 & E1 & _). destruct example_bump_ok as (r2 & E2).
  exact (sign_once_destination example_recovery_ledger ∅ true 0 (example_session "11" (Some [x01; x02])) example_first.1
    ReplaySign (Some r1) example_first.1 true second (example_session "22" None) example_bump.1 ReplayResign (Some r2)
    (example_canonical _ _) (example_canonical _ _) eq_refl E1
    (rtc_refl _ _) E2).
Defined.

(** The session table stays authentic: in every run every row is under its
    own key and verifies with the ledger's key. *)
Theorem sessions_stay_authentic l t t' : authentic l t -> rtc (rstep l) t t' -> authentic l t'.
Proof.
  intros A Hr. revert A. induction Hr as [t|t t1 t' (ok & now & next & r & Hc & H1) _ IH]; [done|]. intros A.
  apply IH. eapply applied_authentic; [by eapply apply_cases|done].
Qed.

Lemma sessions_stay_authentic_witness : authentic example_recovery_ledger example_bump.1.
Proof.
  apply (sessions_stay_authentic example_recovery_ledger ∅ example_bump.1).
  - intros k r H. rewrite lookup_empty in H. discriminate H.
  - destruct example_first_ok as (r1 & E1 & _). destruct example_bump_ok as (r2 & E2).
    apply (rtc_l _ _ example_first.1); [exists true, 0, (example_session "11" (Some [x01; x02])), (Ok (ReplaySign, Some r1)); exact (conj (example_canonical _ _) E1)|].
    apply rtc_once. exists true, second, (example_session "22" None), (Ok (ReplayResign, Some r2)). exact (conj (example_canonical _ _) E2).
Defined.

(** A replayed answer is the stored one: it verifies, it was signed for the
    destination and the sighash of the request, and the table is unchanged. *)
Theorem replay_returns_stored_signature l t ok now next t' s :
  canonical_txid next -> ApplyRecoveryReplay l t ok now next = (t', Ok (ReplayReplay, s)) ->
  t' = t /\ exists row, s = Some row /\ t !! session_pk next = Some row /\ verifySession row (l_integrityKey l) = Ok tt /\
    rs_DestScript row = normalize (rs_DestScript next) /\ rs_LastSighash row = rs_LastSighash next /\
    sig_bytes (rs_Signature row) <> [].
Proof.
  intros Hc H%apply_cases; [|done]. remember (Ok (ReplayReplay, s)) as r eqn:E.
  destruct H as [e|old Ho Hv Hd|new action _ _ _ Ha _]; [done| |].
  - injection E as <-. split; [done|]. exists old. apply decide_Some in Hd as (Hd & ? & _ & ?). done.
  - destruct (verifySession new _) as [[]|]; simpl in E; congruence.
Qed.

Lemma replay_returns_stored_signature_witness : exists row,
  example_first.1 !! session_pk (example_session "11" None) = Some row /\ sig_bytes (rs_Signature row) <> [].
Proof.
  destruct example_retry_ok as (r & E).
  destruct (replay_returns_stored_signature example_recovery_ledger example_first.1 true second (example_session "11" None)
    example_first.1 (Some r) (example_canonical _ _) E) as (_ & row & _ & Hrow & _ & _ & _ & Hsig).
  exists row. exact (conj Hrow Hsig).
Defined.

(** A session without a signature is held: any request whose sighash is not
    the recorded one is refused as busy, and the table is unchanged. *)
Theorem pending_session_held l t ok now next old :
  canonical_txid next -> t !! session_pk next = Some old ->
  verifySession old (l_integrityKey l) = Ok tt -> session_pk old = session_pk next ->
  requireSessionPurpose (rs_Purpose next) = Ok tt -> rs_VaultID next <> "" -> rs_InputTxid next <> "" ->
  normalize (rs_DestScript next) <> "" -> rs_DestScript old = normalize (rs_DestScript next) ->
  sig_bytes (rs_Signature old) = [] -> rs_LastSighash old <> rs_LastSighash next ->
  ApplyRecoveryReplay l t ok now next = (t, Err ErrRecoveryBusy).
Proof.
  intros Hc Ho Hv Hpk Hp Hn1 Hn2 Hn3 Hd Hs Hne. unfold ApplyRecoveryReplay.
  assert (Hg : GetRecoverySession l t (rs_VaultID next) (rs_InputTxid next) (rs_InputVout next) (rs_Purpose next) = Ok (Some old))
    by (apply get_canonical_Ok; [done|split_and!; [done|by rewrite Ho|intros row; rewrite Ho; by intros [= <-]]]).
  rewrite Hg. simpl. assert (E : DecideReplay (Some old) next = Err ErrRecoveryBusy); [|by rewrite E].
  unfold session_pk in Hpk. injection Hpk as _ Ht Hvo _. unfold DecideReplay. rewrite Hp, Hc, Hd, Ht, Hvo, Hs. simpl.
  rewrite (seqb_neq _ _ Hn1), (seqb_neq _ _ Hn2), (seqb_neq _ _ Hn3), (seqb_neq _ _ Hne), !seqb_refl, Z.eqb_refl. simpl.
  by rewrite !orb_true_r.
Qed.

Lemma pending_session_held_witness :
  ApplyRecoveryReplay example_recovery_ledger example_pending.1 true second (example_session "22" None) =
  (example_pending.1, Err ErrRecoveryBusy).
Proof.
  destruct example_pending_row as (old & Ho & Hv & Hpk & Hd & Hs & Hl).
  exact (pending_session_held example_recovery_ledger example_pending.1 true second (example_session "22" None) old
    (example_canonical _ _) Ho Hv Hpk eq_refl ltac:(discriminate) ltac:(discriminate) ltac:(vm_compute; discriminate) Hd Hs Hl).
Defined.

(** A fee bump that was recorded but never signed is answered with the
    previous signature: the write-ahead call stores the new sighash next to the
    old signature, so the retry of the same request is a replay of the signature
    of the other transaction. *)
Theorem fee_bump_retry_replays_previous_signature l t ok now next old t' stored :
  canonical_txid next -> t !! session_pk next = Some old -> sig_bytes (rs_Signature old) <> [] ->
  rs_Signature next = None -> rs_LastSighash next <> "" -> rs_LastSighash old <> rs_LastSighash next ->
  ApplyRecoveryReplay l t ok now next = (t', Ok (ReplayResign, Some stored)) ->
  rs_LastSighash stored = rs_LastSighash next /\ rs_Signature stored = rs_Signature old /\
  forall ok2 now2, ApplyRecoveryReplay l t' ok2 now2 next = (t', Ok (ReplayReplay, Some stored)).
Proof.
  intros Hc Ho Hs Hn Hb Hne H%apply_cases; [|done].
  apply applied_written_Ok in H as (row & [= <-] & Hrow & Hv & W & Hd & Hp); [|done].
  assert (E1 : rs_LastSighash stored = rs_LastSighash next).
  { rewrite (wr_sighash _ _ _ _ W), Ho. simpl. unfold seqb. by rewrite bool_decide_eq_false_2. }
  assert (E2 : rs_Signature stored = rs_Signature old) by (rewrite (wr_sig _ _ _ _ W), Ho; simpl; by rewrite Hn).
  split_and!; [done..|]. intros ok2 now2. unfold ApplyRecoveryReplay.
  assert (Hg : GetRecoverySession l t' (rs_VaultID next) (rs_InputTxid next) (rs_InputVout next) (rs_Purpose next) = Ok (Some stored))
    by (apply get_canonical_Ok; [done|split_and!; [done|by rewrite Hrow|intros r; rewrite Hrow; by intros [= <-]]]).
  rewrite Hg. simpl. assert (E : DecideReplay (Some stored) next = Ok ReplayReplay); [|by rewrite E].
  pose proof (wr_pk _ _ _ _ W) as Hpk. pose proof (wr_dest _ _ _ _ W) as Hds. rewrite Ho in Hd.
  unfold session_pk in Hpk. injection Hpk as _ Ht Hvo _. unfold DecideReplay in *. rewrite Hp in *. simpl in *.
  apply bind_Ok in Hd as ([] & Hid & _). rewrite Hid. simpl. rewrite Hds, Ht, Hvo, E1, E2, Hc.
  rewrite !seqb_refl, Z.eqb_refl, (seqb_neq _ _ Hb). simpl. by destruct (sig_bytes (rs_Signature old)).
Qed.

Lemma fee_bump_retry_replays_previous_signature_witness : exists stored,
  rs_LastSighash stored = "22" /\
  ApplyRecoveryReplay example_recovery_ledger example_bump.1 true (2 * second) (example_session "22" None) =
    (example_bump.1, Ok (ReplayReplay, Some stored)).
Proof.
  destruct example_first_row as (old & Ho & Hs & Hl). destruct example_bump_ok as (stored & E).
  destruct (fee_bump_retry_replays_previous_signature example_recovery_ledger example_first.1 true second
    (example_session "22" None) old example_bump.1 stored (example_canonical _ _) Ho Hs eq_refl ltac:(discriminate) Hl E)
    as (E1 & _ & Hr).
  exists stored. exact (conj E1 (Hr true (2 * second))).
Defined.

(** The one-destination rule depends on a trimmed txid: the session is looked
    up under the lowered txid and stored under the trimmed one, so a request for
    an outpoint already bound to a destination is accepted with another one when
    its txid carries a space, and it overwrites the stored row. *)
Theorem untrimmed_txid_escapes_destination_fence :
  rs_DestScript <$> example_first.1 !! session_pk (example_session "11" None) = Some "5120ab" /\
  exists t', ApplyRecoveryReplay example_recovery_ledger example_first.1 true second example_untrimmed =
      (t', Ok (ReplaySign, None)) /\
    rs_DestScript <$> t' !! session_pk (example_session "11" None) = Some "5120cd".
Proof.
  split; [vm_compute; reflexivity|].
  assert (H : match ApplyRecoveryReplay example_recovery_ledger example_first.1 true second example_untrimmed with
    | (t', Ok (ReplaySign, None)) =>
        bool_decide (rs_DestScript <$> t' !! session_pk (example_session "11" None) = Some "5120cd")
    | _ => false end = true) by (vm_compute; reflexivity).
  destruct (ApplyRecoveryReplay _ _ _ _ _) as [t' [[[] [?|]]|e]]; try discriminate H.
  exists t'. split; [done|]. by apply bool_decide_eq_true in H.
Qed.
