(* ===== verification/VtxoLedger.v ===== *)
(** * Spend operations in the ledger: [src/internal/policy/vtxo_ledger.go]

    Reservation under one transaction, compare-and-swap transitions, the signed
    commit with the authenticator counter, and the authenticated reads.  A
    handler that reads the clock takes the readings as arguments. *)

From S2P Require Import Prelude Crypto Codec GoTime Program Monotonic Vtxo BoardRows Ledger SignCount.
From Stdlib Require Import Strings.Byte Strings.Ascii Strings.String.
From stdpp Require Import base decidable list strings gmap countable option sorting.
From Stdlib Require Import ZArith Lia.
Open Scope string_scope.
Open Scope list_scope.
Open Scope Z_scope.

Definition maxReservedVtxoInputs : Z := MaxVtxoOperationInputs.

(** ** Reads *)

Definition loadVtxoOperation (l : Ledger) (d : Database) (operationID : string) : result VtxoOperation :=
  key ← integrityKeyCopy l;
  match t_vtxo_operation d !! operationID with
  | None => Err ErrNoRows
  | Some row =>
      rec ← scanVtxoOperation row;
      wrap "vtxo operation integrity" (VerifyVtxoOperation rec key);;
      Ok rec
  end.

Definition GetVtxoOperation (l : Ledger) (operationID : string) : result VtxoOperation :=
  require (negb (seqb operationID "")) (Errorf "vtxo operation id required");;
  loadVtxoOperation l (l_db l) operationID.

(** [ORDER BY txid, vout, operation_id]: blobs by [memcmp]. *)
Fixpoint bytes_compare (a b : bytes) : comparison :=
  match a, b with
  | [], [] => Eq
  | [], _ :: _ => Lt
  | _ :: _, [] => Gt
  | x :: a, y :: b =>
      match Z_of_byte x ?= Z_of_byte y with Eq => bytes_compare a b | c => c end
  end.

Definition input_row_leb (a b : VtxoOperationInput) : bool :=
  match bytes_compare (in_Txid a) (in_Txid b) with
  | Lt => true
  | Gt => false
  | Eq => (in_Vout a <? in_Vout b) || ((in_Vout a =? in_Vout b) && str_le (in_OperationID a) (in_OperationID b))
  end.

Definition input_row_le (a b : VtxoOperationInput) : Prop := input_row_leb a b = true.
#[export] Instance input_row_le_dec a b : Decision (input_row_le a b).
Proof. unfold input_row_le. apply _. Defined.

Definition orderInputs (rows : list VtxoOperationInput) : list VtxoOperationInput := merge_sort input_row_le rows.

Definition allInputs (d : Database) : list VtxoOperationInput := map snd (map_to_list (t_vtxo_operation_input d)).

Definition verifyInputRow (key : bytes) (row : VtxoOperationInput) : result VtxoOperationInput :=
  wrap "vtxo operation input integrity" (VerifyVtxoOperationInput row key);; Ok row.

Definition loadVtxoOperationInputs (l : Ledger) (d : Database) (operationID : string) : result (list VtxoOperationInput) :=
  key ← integrityKeyCopy l;
  mapR (verifyInputRow key) (orderInputs (filter (fun r => in_OperationID r = operationID) (allInputs d))).

Definition GetVtxoOperationInputs (l : Ledger) (operationID : string) : result (list VtxoOperationInput) :=
  require (negb (seqb operationID "")) (Errorf "vtxo operation id required");;
  loadVtxoOperationInputs l (l_db l) operationID.

Definition verifyRow (key : bytes) (row : VtxoOperation) : result VtxoOperation :=
  rec ← scanVtxoOperation row;
  wrap "vtxo operation integrity" (VerifyVtxoOperation rec key);;
  Ok rec.

Definition ListVtxoOperations (l : Ledger) (vaultID : string) : result (list VtxoOperation) :=
  require (negb (seqb vaultID "")) (Errorf "vault id required");;
  key ← integrityKeyCopy l;
  mapR (verifyRow key) (selectVault (l_db l) vaultID).

(** ** Expiry *)

(** [WHERE vault_id = ? AND state = 'reserved' AND expires_at != '' AND expires_at <= ?] *)
Definition selectExpired (d : Database) (vaultID : string) (now : Z) : list VtxoOperation :=
  filter (fun r => seqb (op_State r) vtxoStateReserved && negb (seqb (op_ExpiresAt r) "")
                   && str_le (op_ExpiresAt r) (formatRFC3339 now) = true) (selectVault d vaultID).

(** One row of the reading loop: [None] is [continue] or a reservation still live. *)
Definition expiredRow (key : bytes) (now : Z) (row : VtxoOperation) : result (option VtxoOperation) :=
  rec ← verifyRow key row;
  if seqb (op_ExpiresAt rec) "" then Ok None else
  match parseRFC3339 (op_ExpiresAt rec) with
  | None => Err (Errorf "vtxo reservation expiry")
  | Some exp => Ok (if exp <=? now then Some rec else None)
  end.

(** [UPDATE vtxo_operation SET state = ?, integrity_mac = ? WHERE operation_id = ? AND state = ?] *)
Definition abortOne (key : bytes) (d : Database) (rec : VtxoOperation) : result Database :=
  rec ← SealVtxoOperation (op_set_State vtxoStateAborted rec) key;
  match t_vtxo_operation d !! op_OperationID rec with
  | Some row =>
      if seqb (op_State row) vtxoStateReserved then
        let row' := op_set_MAC (op_IntegrityMAC rec) (op_set_State (op_State rec) row) in
        require (vtxo_operation_check row') (ErrConstraint "CHECK");;
        Ok (set_vtxo_operation (<[op_OperationID rec := row']> (t_vtxo_operation d)) d)
      else Ok d
  | None => Ok d
  end.

Definition abortExpiredVtxoLocked (l : Ledger) (d : Database) (vaultID : string) (now : Z) : result Database :=
  key ← integrityKeyCopy l;
  expired ← mapR (expiredRow key now) (selectExpired d vaultID now);
  foldR (abortOne key) d (omap id expired).

(** ** Fences *)

(** The joined rows whose outpoint is one of [inputs]. *)
Definition selectOverlap (d : Database) (inputs : list VtxoOperationInput) : list (VtxoOperation * VtxoOperationInput) :=
  omap (fun i => (fun o => (o, i)) <$> t_vtxo_operation d !! in_OperationID i)
    (orderInputs (filter (fun i => (in_Txid i, in_Vout i) ∈ map (fun j => (in_Txid j, in_Vout j)) inputs) (allInputs d))).

Definition overlapMatch (key : bytes) (row : VtxoOperation * VtxoOperationInput) : result (string * string) :=
  rec ← scanVtxoOperation row.1;
  wrap "vtxo operation integrity" (VerifyVtxoOperation rec key);;
  wrap "vtxo operation input integrity" (VerifyVtxoOperationInput row.2 key);;
  require (seqb (in_OperationID row.2) (op_OperationID rec)) (Errorf "vtxo operation input parent mismatch");;
  Ok (op_OperationID rec, op_State rec).

Definition rejectOverlappingVtxoInputs (l : Ledger) (d : Database) (operationID : string) (inputs : list VtxoOperationInput) : result unit :=
  require (negb ((zlen inputs =? 0) || (maxReservedVtxoInputs <? zlen inputs))) (Errorf "vtxo overlap input count must be 1..50");;
  key ← integrityKeyCopy l;
  matches ← mapR (overlapMatch key) (selectOverlap d inputs);
  foldR (fun _ m => if seqb m.1 operationID then Ok tt
                    else require (negb (vtxoStateLocksInputs m.2)) (Errorf "vtxo outpoint already reserved")) tt matches.

Definition rejectConcurrentVtxoOperationLocked (l : Ledger) (d : Database) (vaultID operationID : string) : result unit :=
  key ← integrityKeyCopy l;
  recs ← mapR (verifyRow key) (selectVault d vaultID);
  require (negb (existsb (fun r => negb (seqb (op_OperationID r) operationID) && vtxoStateBlocksNewOperation (op_State r)) recs))
    ErrVtxoOperationActive.

(** ** Reservation *)

Definition insertInput (key : bytes) (operationID : string) (d : Database) (i : VtxoOperationInput) : result Database :=
  i ← SealVtxoOperationInput (in_set_OperationID operationID i) key;
  insertVtxoOperationInput d i.

(** [now1] is the reading for expiry, [now2] the one of [spentInWindow]. *)
Definition reserveBody (l : Ledger) (now1 now2 : Z) (rec : VtxoOperation) (inputs : list VtxoOperationInput)
    (remainingCap : Z) : tx_result unit :=
  d ← abortExpiredVtxoLocked l (l_db l) (op_VaultID rec) now1;
  rejectOverlappingVtxoInputs l d (op_OperationID rec) inputs;;
  rejectConcurrentVtxoOperationLocked l d (op_VaultID rec) (op_OperationID rec);;
  usedAmt ← spentInWindow l d now2 (op_VaultID rec);
  need ← addOutflow (op_AmountSats rec) (op_FeeSats rec);
  require (negb (remainingCap <? usedAmt)) ErrPeriodAllowanceExceeded;;
  require (negb (remainingCap - usedAmt <? need)) ErrPeriodAllowanceExceeded;;
  key ← integrityKeyCopy l;
  rec ← SealVtxoOperation rec key;
  d ← insertVtxoOperation d rec;
  d ← foldR (insertInput key (op_OperationID rec)) d inputs;
  Ok (d, true, tt).

Definition ReserveVtxoOperation (l : Ledger) (env : Env) (now1 now2 : Z) (rec : VtxoOperation)
    (inputs : list VtxoOperationInput) (remainingCap : Z) : Ledger * result unit :=
  commitTx l env
    (require (negb (seqb (op_OperationID rec) "" || seqb (op_VaultID rec) "")) (Errorf "vtxo operation identity required");;
     require (seqb (op_State rec) vtxoStateReserved) (Errorf "reserve requires reserved state");;
     require (negb (remainingCap <? 0)) (Errorf "negative allowance");;
     require (negb ((zlen inputs =? 0) || (maxReservedVtxoInputs <? zlen inputs))) (Errorf "vtxo reservation input count must be 1..50");;
     reserveBody l now1 now2 rec inputs remainingCap).

(** ** Transitions *)

Definition validVtxoTransition (from to : string) : bool :=
  if seqb from vtxoStateReserved then seqb to vtxoStateSigned || seqb to vtxoStateAborted
  else if seqb from vtxoStateSigned then seqb to vtxoStateSubmitted
  else if seqb from vtxoStateSubmitted then seqb to vtxoStateFinalized || seqb to vtxoStateUnresolved
  else false.

(** The UPDATE and its number of rows: every column but the key is replaced. *)
Definition updateVtxoOperation (d : Database) (expectedState : string) (rec : VtxoOperation) : result (Database * Z) :=
  match t_vtxo_operation d !! op_OperationID rec with
  | Some row =>
      if seqb (op_VaultID row) (op_VaultID rec) && seqb (op_State row) expectedState then
        require (vtxo_operation_check rec) (ErrConstraint "CHECK");;
        Ok (set_vtxo_operation (<[op_OperationID rec := rec]> (t_vtxo_operation d)) d, 1)
      else Ok (d, 0)
  | None => Ok (d, 0)
  end.

(** What a compare-and-swap ends with: a new database to commit and the row, or
    the current row and nothing to commit. *)
Inductive swap := Swapped (d : Database) (rec : VtxoOperation) | NotSwapped (current : VtxoOperation).

Definition swapTx (l : Ledger) (commit_ok : bool) (body : result swap) : Ledger * result (VtxoOperation * bool) :=
  match body with
  | Err e => (l, Err e)
  | Ok (NotSwapped current) => (l, Ok (current, false))
  | Ok (Swapped d rec) => if commit_ok then (set_db d l, Ok (rec, true)) else (l, Err ErrCommit)
  end.

Definition transitionBody (l : Ledger) (expectedState : string) (rec : VtxoOperation) : result swap :=
  require (negb (seqb (op_OperationID rec) "" || seqb (op_VaultID rec) "")) (Errorf "vtxo operation identity required");;
  require (validVtxoTransition expectedState (op_State rec)) (Errorf "invalid vtxo state transition");;
  key ← integrityKeyCopy l;
  rec ← SealVtxoOperation rec key;
  '(d, n) ← updateVtxoOperation (l_db l) expectedState rec;
  if n =? 1 then Ok (Swapped d rec) else
  current ← loadVtxoOperation l (l_db l) (op_OperationID rec);
  Ok (NotSwapped current).

Definition TransitionVtxoOperation (l : Ledger) (commit_ok : bool) (expectedState : string) (rec : VtxoOperation)
  : Ledger * result (VtxoOperation * bool) := swapTx l commit_ok (transitionBody l expectedState rec).

Definition signedBody (l : Ledger) (now : Z) (rec : VtxoOperation) (credentialID : bytes) (signCount : Z) : result swap :=
  require (negb (seqb (op_OperationID rec) "" || seqb (op_VaultID rec) "" || (zlen credentialID =? 0)
                 || negb (seqb (op_State rec) vtxoStateSigned))) (Errorf "signed vtxo operation identity required");;
  key ← integrityKeyCopy l;
  rec ← SealVtxoOperation rec key;
  '(d, n) ← updateVtxoOperation (l_db l) vtxoStateReserved rec;
  if negb (n =? 1) then
    current ← loadVtxoOperation l d (op_OperationID rec);
    (if seqb (op_State current) vtxoStateSigned
     then verifySignCountReplayLocked (l_integrityKey l) d (op_VaultID rec) credentialID signCount else Ok tt);;
    Ok (NotSwapped current)
  else
    d ← advanceSignCountLocked (l_integrityKey l) d now (op_VaultID rec) credentialID signCount;
    Ok (Swapped d rec).

Definition CommitSignedVtxoOperation (l : Ledger) (commit_ok : bool) (now : Z) (rec : VtxoOperation)
    (credentialID : bytes) (signCount : Z) : Ledger * result (VtxoOperation * bool) :=
  swapTx l commit_ok (signedBody l now rec credentialID signCount).

Definition VerifySignedVtxoReplay (l : Ledger) (operationID vaultID : string) (credentialID : bytes) (signCount : Z) : result unit :=
  require (negb (seqb operationID "" || seqb vaultID "" || (zlen credentialID =? 0))) (Errorf "signed vtxo replay identity required");;
  require (zlen (l_integrityKey l) =? sha256_size) (Errorf "sign count ledger required");;
  rec ← loadVtxoOperation l (l_db l) operationID;
  require (seqb (op_VaultID rec) vaultID && seqb (op_State rec) vtxoStateSigned) (Errorf "signed vtxo replay state mismatch");;
  verifySignCountReplayLocked (l_integrityKey l) (l_db l) vaultID credentialID signCount.

(** ** Well-formed databases

    The rows are stored under their keys, satisfy their constraints and verify
    under the store's key. *)

Record op_row_wf (key : bytes) (d : Database) (k : string) (r : VtxoOperation) : Prop := {
  wf_op_key : op_OperationID r = k;
  wf_op_typed : op_well_typed r;
  wf_op_verify : VerifyVtxoOperation r key = Ok tt;
  wf_op_vault : op_VaultID r ∈ t_vault d;
  wf_op_check : vtxo_operation_check r = true
}.

Record in_row_wf (key : bytes) (d : Database) (k : input_key) (i : VtxoOperationInput) : Prop := {
  wf_in_key : input_pk i = k;
  wf_in_verify : VerifyVtxoOperationInput i key = Ok tt;
  wf_in_parent : is_Some (t_vtxo_operation d !! in_OperationID i)
}.

Definition db_wf (key : bytes) (d : Database) : Prop :=
  (forall k r, t_vtxo_operation d !! k = Some r -> op_row_wf key d k r) /\
  (forall k i, t_vtxo_operation_input d !! k = Some i -> in_row_wf key d k i).

Lemma verifyRow_Ok key row rec : verifyRow key row = Ok rec ->
  rec = row /\ VerifyVtxoOperation row key = Ok tt.
Proof. unfold verifyRow. intros H. inv_ok. by apply scanVtxoOperation_Ok in H0 as [-> _]. Qed.

Lemma mapR_verifyRow key rows recs : mapR (verifyRow key) rows = Ok recs -> recs = rows.
Proof.
  intros H%mapR_Ok. induction H as [|r r' rows recs Hr _ ->]; [done|]. by apply verifyRow_Ok in Hr as [-> _].
Qed.

(** Every row of a well-formed database appears once, under its own id. *)
Lemma rows_of_wf key d r : db_wf key d ->
  r ∈ map snd (map_to_list (t_vtxo_operation d)) <-> t_vtxo_operation d !! op_OperationID r = Some r.
Proof.
  intros [Hop _]. rewrite list_elem_of_fmap. split.
  - intros ([k r'] & -> & Hin%elem_of_map_to_list). simpl. by rewrite (wf_op_key _ _ _ _ (Hop _ _ Hin)).
  - intros H. exists (op_OperationID r, r). split; [done|]. by apply elem_of_map_to_list.
Qed.

Lemma selectVault_wf key d v r : db_wf key d ->
  r ∈ selectVault d v <-> op_VaultID r = v /\ t_vtxo_operation d !! op_OperationID r = Some r.
Proof. intros W. unfold selectVault. by rewrite list_elem_of_filter, (rows_of_wf key). Qed.

Lemma ids_NoDup key d v : db_wf key d -> NoDup (map op_OperationID (selectVault d v)).
Proof.
  intros W. apply NoDup_fmap_2_strong.
  - intros x y Hx Hy E. rewrite (selectVault_wf key) in Hx, Hy by done. destruct Hx, Hy. congruence.
  - unfold selectVault. apply NoDup_filter. apply NoDup_fmap_2_strong; [|apply NoDup_map_to_list].
    intros [k1 r1] [k2 r2] H1%elem_of_map_to_list H2%elem_of_map_to_list; simpl. intros ->.
    destruct W as [Hop _]. f_equal. rewrite <-(wf_op_key _ _ _ _ (Hop _ _ H1)). apply (wf_op_key _ _ _ _ (Hop _ _ H2)).
Qed.

(** ** Expiry *)

(** The rows the reservation transaction aborts. *)
Definition expired_at (v : string) (now : Z) (r : VtxoOperation) : bool :=
  seqb (op_VaultID r) v && seqb (op_State r) vtxoStateReserved && negb (seqb (op_ExpiresAt r) "") &&
  str_le (op_ExpiresAt r) (formatRFC3339 now) &&
  match parseRFC3339 (op_ExpiresAt r) with Some e => e <=? now | None => false end.

Definition expiry_passed (now : Z) (r : VtxoOperation) : bool :=
  negb (seqb (op_ExpiresAt r) "") && match parseRFC3339 (op_ExpiresAt r) with Some e => e <=? now | None => false end.

Lemma expired_rows key now rows os : mapR (expiredRow key now) rows = Ok os ->
  omap id os = filter (fun r => expiry_passed now r = true) rows.
Proof.
  intros H%mapR_Ok. induction H as [|x o rows os Hx _ IH]; [done|].
  assert (o = if expiry_passed now x then Some x else None) as ->.
  { apply bind_Ok in Hx as (rec & [-> _]%verifyRow_Ok & Hx). unfold expiry_passed.
    destruct (seqb _ _); [by injection Hx|]. destruct (parseRFC3339 _) as [e|]; [|done]. by injection Hx. }
  rewrite filter_cons. destruct (decide _) as [E|E]; cbn [omap list_omap id].
  - by rewrite E, IH.
  - apply not_true_is_false in E. by rewrite E, IH.
Qed.

Lemma abortOne_Ok key d rec d' :
  t_vtxo_operation d !! op_OperationID rec = Some rec -> op_State rec = vtxoStateReserved ->
  abortOne key d rec = Ok d' ->
  exists rec', SealVtxoOperation (op_set_State vtxoStateAborted rec) key = Ok rec' /\
    vtxo_operation_check rec' = true /\
    d' = set_vtxo_operation (<[op_OperationID rec := rec']> (t_vtxo_operation d)) d.
Proof.
  intros Hl Hs. unfold abortOne. intros (rec' & Hseal & H)%bind_Ok. exists rec'. split; [done|].
  apply Seal_Ok in Hseal as (_ & p & _ & ->). simpl in H. rewrite Hl, Hs in H. simpl in H. by inv_ok.
Qed.

Lemma abort_all key d rs d' :
  NoDup (map op_OperationID rs) ->
  Forall (fun r => t_vtxo_operation d !! op_OperationID r = Some r /\ op_State r = vtxoStateReserved) rs ->
  foldR (abortOne key) d rs = Ok d' ->
  exists t', d' = set_vtxo_operation t' d /\
    (forall r, r ∈ rs -> exists r', SealVtxoOperation (op_set_State vtxoStateAborted r) key = Ok r' /\
       vtxo_operation_check r' = true /\ t' !! op_OperationID r = Some r') /\
    (forall k, k ∉ map op_OperationID rs -> t' !! k = t_vtxo_operation d !! k).
Proof.
  revert d. induction rs as [|r rs IH]; intros d Hnd Hall H; simpl in *.
  { injection H as <-. exists (t_vtxo_operation d). split_and!; [by destruct d|set_solver|done]. }
  apply NoDup_cons in Hnd as [Hnin Hnd]. inversion Hall as [|?? [Hl Hs] Hall']; subst.
  apply bind_Ok in H as (d1 & H1 & H). apply abortOne_Ok in H1 as (r' & Hseal & Hc & ->); [|done..].
  apply IH in H as (t' & -> & Hin & Hout); [|done|].
  - exists t'. split_and!; [done| |].
    + intros x [->|Hx]%elem_of_cons; [|by apply Hin]. exists r'. split_and!; [done..|].
      rewrite Hout by done. simpl. by rewrite lookup_insert_eq.
    + intros k [Hk1 Hk2]%not_elem_of_cons. rewrite Hout by done. simpl. by rewrite lookup_insert_ne.
  - rewrite Forall_forall in Hall' |- *. intros x Hx. destruct (Hall' x Hx) as [Hlx Hsx]. split; [|done]. simpl.
    rewrite lookup_insert_ne; [done|]. intros E. apply Hnin. rewrite E. by apply list_elem_of_fmap_2.
Qed.

(** Exactly the expired reservations of the vault become aborted. *)
Lemma abortExpired_spec l d v now d' :
  db_wf (l_integrityKey l) d -> abortExpiredVtxoLocked l d v now = Ok d' ->
  exists t', d' = set_vtxo_operation t' d /\ forall k,
    match t_vtxo_operation d !! k with
    | None => t' !! k = None
    | Some r =>
        if expired_at v now r
        then exists r', SealVtxoOperation (op_set_State vtxoStateAborted r) (l_integrityKey l) = Ok r' /\
               vtxo_operation_check r' = true /\ t' !! k = Some r'
        else t' !! k = Some r
    end.
Proof.
  intros W. unfold abortExpiredVtxoLocked. intros (key & [-> _]%integrityKeyCopy_Ok & (os & Hos & H)%bind_Ok)%bind_Ok.
  set (key := l_integrityKey l) in *.
  assert (Hsel : forall r, r ∈ selectExpired d v now <->
    (op_VaultID r = v /\ t_vtxo_operation d !! op_OperationID r = Some r) /\
    seqb (op_State r) vtxoStateReserved && negb (seqb (op_ExpiresAt r) "") && str_le (op_ExpiresAt r) (formatRFC3339 now) = true).
  { intros r. unfold selectExpired. rewrite list_elem_of_filter, (selectVault_wf key) by done. tauto. }
  rewrite (expired_rows _ _ _ _ Hos) in H.
  assert (Hiff : forall r, r ∈ filter (fun r => expiry_passed now r = true) (selectExpired d v now) <->
    t_vtxo_operation d !! op_OperationID r = Some r /\ expired_at v now r = true).
  { intros r. rewrite list_elem_of_filter, Hsel. unfold expired_at, expiry_passed.
    rewrite !andb_true_iff, !seqb_true. tauto. }
  apply abort_all in H as (t' & -> & Hin & Hout).
  - exists t'. split; [done|]. intros k. destruct (t_vtxo_operation d !! k) as [r|] eqn:E.
    + pose proof (wf_op_key _ _ _ _ (proj1 W _ _ E)) as <-. destruct (expired_at v now r) eqn:Ex.
      * apply Hin, Hiff. done.
      * rewrite Hout; [done|]. intros (x & Ek & Hx%Hiff)%list_elem_of_fmap. rewrite Ek in E. destruct Hx. congruence.
    + rewrite Hout; [done|]. intros (x & -> & [Hx _]%Hiff)%list_elem_of_fmap. congruence.
  - apply NoDup_fmap_2_strong.
    + intros x y [Hx _]%Hiff [Hy _]%Hiff Exy. congruence.
    + do 2 apply NoDup_filter. apply (NoDup_fmap_1 op_OperationID). by apply (ids_NoDup key).
  - apply Forall_forall. intros r [Hr Hx]%Hiff. split; [done|]. unfold expired_at in Hx. bool_prop. by apply seqb_true.
Qed.

(** Sealed rows are well formed. *)
Lemma sealed_row_wf key d r r' :
  op_well_typed r -> SealVtxoOperation r key = Ok r' -> vtxo_operation_check r' = true ->
  op_VaultID r ∈ t_vault d -> op_row_wf key d (op_OperationID r) r'.
Proof.
  intros Ht Hs Hc Hv. pose proof (seal_verify _ _ _ Hs) as Hver.
  apply Seal_Ok in Hs as (_ & p & _ & ->). by constructor.
Qed.

Lemma op_row_wf_vault key d d' k r : t_vault d' = t_vault d -> op_row_wf key d k r -> op_row_wf key d' k r.
Proof. intros E [? ? ? ? ?]. constructor; try done. by rewrite E. Qed.

(** Replacing the operations table keeps the database well formed when every new
    row is, and no row disappears. *)
Lemma set_vtxo_wf key d t' : db_wf key d ->
  (forall k r, t' !! k = Some r -> op_row_wf key d k r) ->
  (forall k, is_Some (t_vtxo_operation d !! k) -> is_Some (t' !! k)) ->
  db_wf key (set_vtxo_operation t' d).
Proof.
  intros [Hop Hin] Hnew Hkeep. split; simpl.
  - intros k r Hk. apply (op_row_wf_vault _ d); [done|]. by apply Hnew.
  - intros k i Hk. destruct (Hin _ _ Hk). constructor; try done. by apply Hkeep.
Qed.

Lemma abortExpired_wf l d v now d' :
  db_wf (l_integrityKey l) d -> abortExpiredVtxoLocked l d v now = Ok d' -> db_wf (l_integrityKey l) d'.
Proof.
  intros W H. destruct (abortExpired_spec _ _ _ _ _ W H) as (t' & -> & Hspec). apply set_vtxo_wf; [done| |].
  - intros k r' Hk. specialize (Hspec k). destruct (t_vtxo_operation d !! k) as [r|] eqn:E; [|congruence].
    pose proof (proj1 W _ _ E) as Hr. destruct (expired_at v now r).
    + destruct Hspec as (r1 & Hs & Hc & E1). rewrite E1 in Hk. injection Hk as <-.
      rewrite <-(wf_op_key _ _ _ _ Hr). apply (sealed_row_wf _ _ (op_set_State vtxoStateAborted r)); try done; apply Hr.
    + rewrite Hspec in Hk. by injection Hk as <-.
  - intros k [r E]. specialize (Hspec k). rewrite E in Hspec. destruct (expired_at v now r); [|eauto].
    destruct Hspec as (r1 & _ & _ & ->). eauto.
Qed.

(** ** Fences *)

Lemma rejectConcurrent_Ok l d v id u : db_wf (l_integrityKey l) d ->
  rejectConcurrentVtxoOperationLocked l d v id = Ok u ->
  forall k r, t_vtxo_operation d !! k = Some r -> op_VaultID r = v -> k <> id ->
    vtxoStateBlocksNewOperation (op_State r) = false.
Proof.
  intros W. unfold rejectConcurrentVtxoOperationLocked.
  intros (key & _ & (recs & Hrecs%mapR_verifyRow & Hr)%bind_Ok)%bind_Ok k r Hk Hv Hne. subst recs.
  apply require_Ok, negb_true_iff in Hr. pose proof (wf_op_key _ _ _ _ (proj1 W _ _ Hk)) as Ek.
  destruct (vtxoStateBlocksNewOperation (op_State r)) eqn:E; [|done]. rewrite <-Hr. symmetry.
  apply existsb_exists. exists r. split.
  - apply list_elem_of_In. apply (selectVault_wf (l_integrityKey l)); [done|]. by rewrite Ek.
  - rewrite E, andb_true_r, negb_true_iff. apply seqb_false. congruence.
Qed.

Definition outpoint (i : VtxoOperationInput) : bytes * Z := (in_Txid i, in_Vout i).

Lemma elem_of_orderInputs rows i : i ∈ orderInputs rows <-> i ∈ rows.
Proof. unfold orderInputs. by rewrite merge_sort_Permutation. Qed.

Lemma foldR_unit_Ok {A} (f : unit -> A -> result unit) l :
  foldR f tt l = Ok tt -> Forall (fun a => f tt a = Ok tt) l.
Proof.
  induction l as [|a l IH]; [constructor|]. simpl. intros ([] & Ha & H)%bind_Ok. constructor; auto.
Qed.

Lemma rejectOverlapping_Ok l d id inputs u : db_wf (l_integrityKey l) d ->
  rejectOverlappingVtxoInputs l d id inputs = Ok u ->
  forall k i o, t_vtxo_operation_input d !! k = Some i -> t_vtxo_operation d !! in_OperationID i = Some o ->
    outpoint i ∈ map outpoint inputs -> in_OperationID i <> id -> vtxoStateLocksInputs (op_State o) = false.
Proof.
  intros W. unfold rejectOverlappingVtxoInputs.
  intros (_ & _ & (key & _ & (ms & Hms%mapR_Ok & Hr)%bind_Ok)%bind_Ok)%bind_Ok k i o Hi Ho Hout Hne.
  destruct u. apply foldR_unit_Ok in Hr.
  assert (Hin : (o, i) ∈ selectOverlap d inputs).
  { unfold selectOverlap. apply list_elem_of_omap. exists i. rewrite Ho. split; [|done].
    apply elem_of_orderInputs, list_elem_of_filter. split; [done|]. unfold allInputs.
    apply list_elem_of_fmap. exists (k, i). split; [done|]. by apply elem_of_map_to_list. }
  pose proof (wf_op_key _ _ _ _ (proj1 W _ _ Ho)) as Ek.
  apply list_elem_of_lookup in Hin as [n Hn]. destruct (Forall2_lookup_l _ _ _ _ _ Hms Hn) as (m & Hm & Hmatch).
  rewrite Forall_lookup in Hr. specialize (Hr _ _ Hm). unfold overlapMatch in Hmatch. simpl in Hmatch. inv_ok.
  apply scanVtxoOperation_Ok in H as [-> _]. simpl in Hr. rewrite Ek in Hr.
  rewrite (proj2 (seqb_false _ _)) in Hr by done. apply require_Ok in Hr. by apply negb_true_iff in Hr.
Qed.

(** ** The reservation's effect *)

Lemma insertVtxoOperation_Ok d r d' : insertVtxoOperation d r = Ok d' ->
  t_vtxo_operation d !! op_OperationID r = None /\ op_VaultID r ∈ t_vault d /\ vtxo_operation_check r = true /\
  d' = set_vtxo_operation (<[op_OperationID r := r]> (t_vtxo_operation d)) d.
Proof. unfold insertVtxoOperation. intros H. inv_ok. by bool_prop. Qed.

Lemma insertInput_Ok key id d i d' : insertInput key id d i = Ok d' ->
  exists i', SealVtxoOperationInput (in_set_OperationID id i) key = Ok i' /\
    in_OperationID i' = id /\ outpoint i' = outpoint i /\ t_vtxo_operation_input d !! input_pk i' = None /\
    is_Some (t_vtxo_operation d !! id) /\
    d' = set_vtxo_operation_input (<[input_pk i' := i']> (t_vtxo_operation_input d)) d.
Proof.
  unfold insertInput, insertVtxoOperationInput. intros (i' & Hs & H)%bind_Ok. exists i'. split; [done|].
  apply Seal_Ok in Hs as (_ & p & _ & ->). inv_ok. by bool_prop.
Qed.

Lemma seal_input_ids key id j i : SealVtxoOperationInput (in_set_OperationID id j) key = Ok i ->
  in_OperationID i = id /\ outpoint i = outpoint j /\ input_pk i = (id, in_Txid j, in_Vout j) /\
  VerifyVtxoOperationInput i key = Ok tt.
Proof. intros H. pose proof (seal_verify _ _ _ H) as Hv. by apply Seal_Ok in H as (_ & p & _ & ->). Qed.

(** The inputs of a reservation are appended under its id; the rest stays. *)
Lemma insertInputs_spec key id inputs d d' :
  foldR (insertInput key id) d inputs = Ok d' ->
  exists ti, d' = set_vtxo_operation_input ti d /\
    (forall k i, t_vtxo_operation_input d !! k = Some i -> ti !! k = Some i) /\
    (forall k i, ti !! k = Some i -> t_vtxo_operation_input d !! k = Some i \/
       (input_pk i = k /\ exists j, j ∈ inputs /\ SealVtxoOperationInput (in_set_OperationID id j) key = Ok i)) /\
    (forall j, j ∈ inputs -> exists i, SealVtxoOperationInput (in_set_OperationID id j) key = Ok i /\ ti !! input_pk i = Some i).
Proof.
  revert d. induction inputs as [|j inputs IH]; intros d; simpl.
  { intros [= <-]. exists (t_vtxo_operation_input d). split_and!; [by destruct d|done|by left|set_solver]. }
  intros (d1 & (j' & Hs & Hid & Hout & Hnew & _ & ->)%insertInput_Ok & H)%bind_Ok.
  apply IH in H as (ti & -> & Hold & Hrows & Hall). exists ti. simpl in *. split_and!; [done| | |].
  - intros k i Hk. apply Hold. rewrite lookup_insert_ne; [done|]. intros <-. congruence.
  - intros k i [Hk|(? & x & ? & ?)]%Hrows.
    + destruct (decide (k = input_pk j')) as [->|]; [|rewrite lookup_insert_ne in Hk by done; by left].
      rewrite lookup_insert_eq in Hk. injection Hk as <-. right. split; [done|]. exists j. split; [left|done].
    + right. split; [done|]. exists x. split; [by right|done].
  - intros x [->|Hx]%elem_of_cons; [|by apply Hall]. exists j'. split; [done|]. apply Hold, lookup_insert_eq.
Qed.

(** What a committed reservation did: [d1] is the database after the expiry
    sweep, and every check passed on it. *)
Record reserved_from (l : Ledger) (now1 now2 : Z) (rec : VtxoOperation) (inputs : list VtxoOperationInput)
    (cap : Z) (d1 d' : Database) (rec' : VtxoOperation) : Prop := {
  rf_abort : abortExpiredVtxoLocked l (l_db l) (op_VaultID rec) now1 = Ok d1;
  rf_state : op_State rec = vtxoStateReserved;
  rf_overlap : rejectOverlappingVtxoInputs l d1 (op_OperationID rec) inputs = Ok tt;
  rf_concurrent : rejectConcurrentVtxoOperationLocked l d1 (op_VaultID rec) (op_OperationID rec) = Ok tt;
  rf_spent : exists used, spentInWindow l d1 now2 (op_VaultID rec) = Ok used /\
               0 <= op_AmountSats rec /\ 0 <= op_FeeSats rec /\ used + (op_AmountSats rec + op_FeeSats rec) <= cap;
  rf_seal : SealVtxoOperation rec (l_integrityKey l) = Ok rec';
  rf_fresh : t_vtxo_operation d1 !! op_OperationID rec = None;
  rf_vault : op_VaultID rec ∈ t_vault d1;
  rf_check : vtxo_operation_check rec' = true;
  rf_inputs : foldR (insertInput (l_integrityKey l) (op_OperationID rec))
                (set_vtxo_operation (<[op_OperationID rec := rec']> (t_vtxo_operation d1)) d1) inputs = Ok d'
}.

Lemma addOutflow_sum a f n : addOutflow a f = Ok n -> 0 <= a /\ 0 <= f /\ n = a + f.
Proof. unfold addOutflow. intros H. inv_ok. bool_prop. split_and!; done || lia. Qed.

Lemma reserveBody_Ok l now1 now2 rec inputs cap d ob u :
  op_State rec = vtxoStateReserved -> reserveBody l now1 now2 rec inputs cap = Ok (d, ob, u) ->
  ob = true /\ exists d1 rec', reserved_from l now1 now2 rec inputs cap d1 d rec'.
Proof.
  intros Hst. unfold reserveBody.
  intros (d1 & Ha & ([] & Ho & ([] & Hc & (used & Hu & (need & Hn%addOutflow_sum & H)%bind_Ok)%bind_Ok)%bind_Ok)%bind_Ok)%bind_Ok.
  apply bind_Ok in H as ([] & H1%require_Ok & ([] & H2%require_Ok & (key & [-> _]%integrityKeyCopy_Ok & H)%bind_Ok)%bind_Ok).
  apply bind_Ok in H as (rec' & Hs & (d2 & (Hf & Hv & Hck & ->)%insertVtxoOperation_Ok & (d3 & Hin & [= <- <- <-])%bind_Ok)%bind_Ok).
  split; [done|]. exists d1, rec'. bool_prop. destruct Hn as (? & ? & ->).
  assert (Eid : op_OperationID rec' = op_OperationID rec) by (by apply Seal_Ok in Hs as (_ & p & _ & ->)).
  assert (Ev : op_VaultID rec' = op_VaultID rec) by (by apply Seal_Ok in Hs as (_ & p & _ & ->)).
  rewrite Eid in Hf, Hin. rewrite Ev in Hv.
  constructor; try done. exists used. split_and!; try done. lia.
Qed.

(** A reservation leaves the database as it was, or commits what
    [reserved_from] describes. *)
Lemma Reserve_cases l env now1 now2 rec inputs cap l' r :
  ReserveVtxoOperation l env now1 now2 rec inputs cap = (l', r) ->
  l_integrityKey l' = l_integrityKey l /\
  ((l_db l' = l_db l /\ exists e, r = Err e) \/
   (r = Ok tt /\ exists d1 rec', reserved_from l now1 now2 rec inputs cap d1 (l_db l') rec')).
Proof.
  unfold ReserveVtxoOperation. intros (_ & Hk & _ & H)%commitTx_cases. split; [done|].
  destruct H as [(Hd & He & _)|(d & ob & [] & Hb & -> & <- & _)]; [left; done|right; split; [done|]].
  apply bind_Ok in Hb as ([] & _ & ([] & Hst%require_Ok & ([] & _ & ([] & _ & Hb)%bind_Ok)%bind_Ok)%bind_Ok).
  apply seqb_true in Hst. by apply reserveBody_Ok in Hb as [_ Hb].
Qed.

(** The row table after a reservation. *)
Lemma reserved_tables l now1 now2 rec inputs cap d1 d' rec' :
  reserved_from l now1 now2 rec inputs cap d1 d' rec' ->
  t_vtxo_operation d' = <[op_OperationID rec := rec']> (t_vtxo_operation d1) /\ t_vault d' = t_vault d1.
Proof. intros H. destruct (insertInputs_spec _ _ _ _ _ (rf_inputs _ _ _ _ _ _ _ _ _ H)) as (ti & -> & _). done. Qed.

Lemma reserved_wf l now1 now2 rec inputs cap d1 d' rec' :
  db_wf (l_integrityKey l) (l_db l) -> op_well_typed rec ->
  reserved_from l now1 now2 rec inputs cap d1 d' rec' ->
  db_wf (l_integrityKey l) d1 /\ db_wf (l_integrityKey l) d'.
Proof.
  intros W Ht H. pose proof (abortExpired_wf _ _ _ _ _ W (rf_abort _ _ _ _ _ _ _ _ _ H)) as W1. split; [done|].
  destruct (insertInputs_spec _ _ _ _ _ (rf_inputs _ _ _ _ _ _ _ _ _ H)) as (ti & -> & _ & Hrows & _).
  pose proof (sealed_row_wf _ d1 _ _ Ht (rf_seal _ _ _ _ _ _ _ _ _ H) (rf_check _ _ _ _ _ _ _ _ _ H) (rf_vault _ _ _ _ _ _ _ _ _ H)) as Hr'.
  split; simpl.
  - intros k r. rewrite lookup_insert_Some. intros [[<- <-]|[_ Hk]].
    + by apply (op_row_wf_vault _ d1).
    + apply (op_row_wf_vault _ d1); [done|]. by apply W1.
  - intros k i [Hk|(? & j & _ & (Hid & _ & _ & ?)%seal_input_ids)]%Hrows; simpl in *.
    + destruct (proj2 W1 _ _ Hk) as [? ? [o Ho]]. constructor; try done. simpl.
      destruct (decide (in_OperationID i = op_OperationID rec)) as [->|]; [rewrite lookup_insert_eq; eauto|].
      rewrite lookup_insert_ne by done. eauto.
    + constructor; try done. simpl. rewrite Hid, lookup_insert_eq. eauto.
Qed.

(** ** The compare-and-swap's effect *)

(** The tables other than the operations and the counters are untouched. *)
Record same_rest (d d' : Database) : Prop := {
  sr_vault : t_vault d' = t_vault d;
  sr_input : t_vtxo_operation_input d' = t_vtxo_operation_input d;
  sr_enrollment : t_vault_board_enrollment d' = t_vault_board_enrollment d;
  sr_operation : t_vault_board_operation d' = t_vault_board_operation d;
  sr_authorization : t_vault_board_authorization d' = t_vault_board_authorization d;
  sr_dispatch : t_vault_board_dispatch d' = t_vault_board_dispatch d;
  sr_submission : t_vault_board_submission d' = t_vault_board_submission d
}.

(** [rec] replaced the stored [row], which was in state [from]; [rec'] is [rec] sealed. *)
Record swapped_from (l : Ledger) (from : string) (rec : VtxoOperation) (d' : Database) (row rec' : VtxoOperation) : Prop := {
  sw_row : t_vtxo_operation (l_db l) !! op_OperationID rec = Some row;
  sw_vault : op_VaultID row = op_VaultID rec;
  sw_from : op_State row = from;
  sw_valid : validVtxoTransition from (op_State rec) = true;
  sw_seal : SealVtxoOperation rec (l_integrityKey l) = Ok rec';
  sw_check : vtxo_operation_check rec' = true;
  sw_table : t_vtxo_operation d' = <[op_OperationID rec := rec']> (t_vtxo_operation (l_db l));
  sw_rest : same_rest (l_db l) d'
}.

Lemma seal_ids rec key rec' : SealVtxoOperation rec key = Ok rec' ->
  op_OperationID rec' = op_OperationID rec /\ op_VaultID rec' = op_VaultID rec /\ op_State rec' = op_State rec /\
  op_AmountSats rec' = op_AmountSats rec /\ op_FeeSats rec' = op_FeeSats rec /\ op_CreatedAt rec' = op_CreatedAt rec.
Proof. by intros (_ & p & _ & ->)%Seal_Ok. Qed.

Lemma update_swap l from rec rec' d n :
  validVtxoTransition from (op_State rec) = true -> SealVtxoOperation rec (l_integrityKey l) = Ok rec' ->
  updateVtxoOperation (l_db l) from rec' = Ok (d, n) -> n = 1 ->
  exists row, swapped_from l from rec d row rec'.
Proof.
  intros Hv Hs H ->. pose proof (seal_ids _ _ _ Hs) as (Eid & Ev & _). unfold updateVtxoOperation in H. rewrite Eid, Ev in H.
  destruct (t_vtxo_operation (l_db l) !! op_OperationID rec) as [row|] eqn:E; [|done].
  destruct (seqb (op_VaultID row) (op_VaultID rec)) eqn:E1, (seqb (op_State row) from) eqn:E2; try done.
  apply seqb_true in E1, E2. simpl in H. apply bind_Ok in H as ([] & Hc%require_Ok & [= <-]). exists row. by constructor.
Qed.

Lemma advance_rest key d now v c n d' : advanceSignCountLocked key d now v c n = Ok d' ->
  d' = set_webauthn_sign_count (t_webauthn_sign_count d') d.
Proof.
  unfold advanceSignCountLocked. destruct (_ !! _) as [row|].
  - intros H. unfold scanSignCount in H. inv_ok. revert H. destruct ((n =? 0) && (sc_sign_count row =? 0)); [intros E%Ok_inj; rewrite <-E; by destruct d|].
    by intros ->%upsertSignCount_Ok.
  - by intros ->%upsertSignCount_Ok.
Qed.

Lemma Transition_cases l ok from rec l' r :
  TransitionVtxoOperation l ok from rec = (l', r) ->
  l' = l \/ exists d row rec', l' = set_db d l /\ r = Ok (rec', true) /\ swapped_from l from rec d row rec'.
Proof.
  unfold TransitionVtxoOperation, swapTx. destruct (transitionBody l from rec) as [[d rec1|cur]|e] eqn:E;
    [destruct ok| |]; intros [= <- <-]; try by left.
  right. unfold transitionBody in E.
  apply bind_Ok in E as ([] & _ & ([] & Hv%require_Ok & (key & [-> _]%integrityKeyCopy_Ok & E)%bind_Ok)%bind_Ok).
  apply bind_Ok in E as (rec' & Hs & ([d' n] & Hu & E)%bind_Ok).
  destruct (Z.eqb_spec n 1); [|by inv_ok]. injection E as -> ->.
  destruct (update_swap _ _ _ _ _ _ Hv Hs Hu ltac:(done)) as [row Hrow]. eauto 10.
Qed.

Lemma update_counts d from rec d' n : updateVtxoOperation d from rec = Ok (d', n) -> t_webauthn_sign_count d' = t_webauthn_sign_count d.
Proof.
  unfold updateVtxoOperation. destruct (_ !! _) as [row|]; [|by intros [= <- <-]].
  destruct (_ && _); [|by intros [= <- <-]]. by intros ([] & _ & [= <- <-])%bind_Ok.
Qed.

Lemma commit_signed_swapped l ok now rec cred cnt l' rec' :
  CommitSignedVtxoOperation l ok now rec cred cnt = (l', Ok (rec', true)) ->
  exists d row, l' = set_db d l /\
    (op_State rec = vtxoStateSigned /\
     negb (seqb (op_OperationID rec) "" || seqb (op_VaultID rec) "" || (zlen cred =? 0)
           || negb (seqb (op_State rec) vtxoStateSigned)) = true /\
     exists d0, t_webauthn_sign_count d0 = t_webauthn_sign_count (l_db l) /\
       advanceSignCountLocked (l_integrityKey l) d0 now (op_VaultID rec) cred cnt = Ok d) /\
    swapped_from l vtxoStateReserved rec d row rec'.
Proof.
  unfold CommitSignedVtxoOperation, swapTx. destruct (signedBody l now rec cred cnt) as [[d rec1|cur]|e] eqn:E;
    [destruct ok| |]; intros [= <- ->]. unfold signedBody in E.
  apply bind_Ok in E as ([] & Hg%require_Ok & (key & [-> _]%integrityKeyCopy_Ok & (rec2 & Hs & ([d' n] & Hu & E)%bind_Ok)%bind_Ok)%bind_Ok).
  assert (Hst : op_State rec = vtxoStateSigned) by (clear -Hg; bool_prop; by apply seqb_true). pose proof (seal_ids _ _ _ Hs) as (_ & Ev & _).
  destruct (Z.eqb_spec n 1); simpl in E; [|apply bind_Ok in E as (cur & _ & (? & _ & [=])%bind_Ok)].
  apply bind_Ok in E as (d2 & Hadv & E). injection E as -> ->. rewrite Ev in Hadv.
  pose proof (advance_rest _ _ _ _ _ _ _ Hadv) as Hd.
  destruct (update_swap l vtxoStateReserved rec rec' d' n) as [row [? ? ? ? ? ? Ht [? ? ? ? ? ? ?]]]; try done.
  { by rewrite Hst. }
  exists d, row. split_and!; try done; [exists d'; split; [by eapply update_counts|done]|].
  constructor; try done; rewrite Hd; [done|by constructor].
Qed.

Lemma CommitSigned_cases l ok now rec cred cnt l' r :
  CommitSignedVtxoOperation l ok now rec cred cnt = (l', r) ->
  l' = l \/ exists d row rec', l' = set_db d l /\ r = Ok (rec', true) /\
    (op_State rec = vtxoStateSigned /\
     negb (seqb (op_OperationID rec) "" || seqb (op_VaultID rec) "" || (zlen cred =? 0)
           || negb (seqb (op_State rec) vtxoStateSigned)) = true /\
     exists d0, t_webauthn_sign_count d0 = t_webauthn_sign_count (l_db l) /\
       advanceSignCountLocked (l_integrityKey l) d0 now (op_VaultID rec) cred cnt = Ok d) /\
    swapped_from l vtxoStateReserved rec d row rec'.
Proof.
  intros H. pose proof H as H0. unfold CommitSignedVtxoOperation, swapTx in H0.
  destruct (signedBody l now rec cred cnt) as [[d rec1|cur]|e]; [destruct ok| |]; injection H0 as <- <-; try by left.
  right. destruct (commit_signed_swapped _ _ _ _ _ _ _ _ H) as (d' & row & ? & ? & ?). eauto 10.
Qed.

Lemma swapped_wf l from rec d' row rec' :
  db_wf (l_integrityKey l) (l_db l) -> op_well_typed rec -> swapped_from l from rec d' row rec' ->
  db_wf (l_integrityKey l) d'.
Proof.
  intros W Ht [Hrow Hv _ _ Hs Hc Htab [Evault Einput _ _ _ _ _]].
  pose proof (proj1 W _ _ Hrow) as Wrow. split.
  - intros k r. rewrite Htab, lookup_insert_Some. intros [[<- <-]|[_ Hk]].
    + apply (sealed_row_wf _ _ rec); try done. rewrite Evault, <-Hv. apply Wrow.
    + apply (op_row_wf_vault _ (l_db l)); [done|]. by apply W.
  - intros k i. rewrite Einput. intros Hk. destruct (proj2 W _ _ Hk) as [? ? [o Ho]]. constructor; try done.
    rewrite Htab. destruct (decide (in_OperationID i = op_OperationID rec)) as [->|]; [rewrite lookup_insert_eq; eauto|].
    rewrite lookup_insert_ne by done. eauto.
Qed.

Lemma elem_of_inputs_of key d id i : db_wf key d ->
  i ∈ orderInputs (filter (fun r => in_OperationID r = id) (allInputs d)) <->
  in_OperationID i = id /\ t_vtxo_operation_input d !! input_pk i = Some i.
Proof.
  intros W. unfold allInputs. rewrite elem_of_orderInputs, list_elem_of_filter, list_elem_of_fmap.
  split; intros [Hid Hi]; (split; [done|]).
  - destruct Hi as ([k i'] & -> & Hin%elem_of_map_to_list). simpl. by rewrite (wf_in_key _ _ _ _ (proj2 W _ _ Hin)).
  - exists (input_pk i, i). split; [done|]. by apply elem_of_map_to_list.
Qed.

(** ** Sealing and inserting never report the allowance error *)

Lemma never_appendFields dst flds : never ErrPeriodAllowanceExceeded (appendFields dst flds).
Proof. unfold appendFields, appendCredentialField. auto with never. Qed.

Lemma never_seal r key : never ErrPeriodAllowanceExceeded (SealVtxoOperation r key).
Proof.
  unfold SealVtxoOperation, Seal, recordMAC, canonical, VtxoOperation_sealed, canonicalVtxoOperation, requireVtxoState, changeShape.
  auto 40 using never_appendFields with never.
Qed.

Lemma never_insert d r : never ErrPeriodAllowanceExceeded (insertVtxoOperation d r).
Proof. unfold insertVtxoOperation. auto 10 with never. Qed.

Lemma never_insertInput key id d i : never ErrPeriodAllowanceExceeded (insertInput key id d i).
Proof.
  unfold insertInput, insertVtxoOperationInput, SealVtxoOperationInput, Seal, recordMAC, canonical, VtxoOperationInput_sealed,
    canonicalVtxoOperationInput. auto 40 using never_appendFields with never.
Qed.

Lemma never_key l : never ErrPeriodAllowanceExceeded (integrityKeyCopy l).
Proof. unfold integrityKeyCopy. auto with never. Qed.

Lemma commitTx_never {A} l env (body : tx_result A) :
  never ErrPeriodAllowanceExceeded body -> never ErrPeriodAllowanceExceeded (commitTx l env body).2.
Proof.
  unfold commitTx. destruct body as [[[d ob] a]|e]; [intros _|intros H [= ->]; by apply H].
  destruct (if ob then _ else _) as [f [u|e]]; [|by apply never_Err]. destruct (env_commit_ok env); [done|by apply never_Err].
Qed.

(** ** A concrete run for the witnesses *)

Definition example_seq : Monotonic := MkMonotonic example_key.
Definition example_now : Z := 1782907200 * second.

(** An empty store with its sequence at zero. *)
Definition example_l0 : Ledger :=
  MkLedger (MkDatabase {["vault-a"]} ∅ ∅ ∅ ∅ ∅ ∅ ∅ ∅) NetworkMutinynet example_key (Some example_seq)
    (Some (monotonicPayload example_seq 0)).

Definition example_input : VtxoOperationInput := MkVtxoOperationInput "" (replicate 32 x09) 0 10100 [x51] [].

Definition example_env : Env := MkEnv WriteOk true.

Definition example_l1 : Ledger :=
  (ReserveVtxoOperation example_l0 example_env example_now example_now example_op [example_input] 20000).1.

Lemma example_reserved :
  ReserveVtxoOperation example_l0 example_env example_now example_now example_op [example_input] 20000 = (example_l1, Ok tt).
Proof.
  assert (E : (ReserveVtxoOperation example_l0 example_env example_now example_now example_op [example_input] 20000).2 = Ok tt)
    by (vm_compute; reflexivity).
  unfold example_l1. revert E. generalize (ReserveVtxoOperation example_l0 example_env example_now example_now example_op [example_input] 20000).
  intros [l r]. simpl. by intros ->.
Qed.

Lemma example_op_typed : op_well_typed example_op.
Proof. unfold op_well_typed, int64_range, int64_max; simpl. split_and!; try lia; done. Qed.

(** ** Properties *)

(** A committed reservation is what the ledger reads back: the operation is
    returned as it was given, sealed and authenticated, with exactly the inputs
    it was given, each sealed under the operation's id. *)
Theorem reserve_reads_back l env now1 now2 rec inputs cap l' :
  db_wf (l_integrityKey l) (l_db l) -> op_well_typed rec ->
  ReserveVtxoOperation l env now1 now2 rec inputs cap = (l', Ok tt) ->
  (exists rec', GetVtxoOperation l' (op_OperationID rec) = Ok rec' /\ op_set_MAC (op_IntegrityMAC rec) rec' = rec) /\
  exists rows, GetVtxoOperationInputs l' (op_OperationID rec) = Ok rows /\
    forall i, i ∈ rows <-> exists j, j ∈ inputs /\
      SealVtxoOperationInput (in_set_OperationID (op_OperationID rec) j) (l_integrityKey l) = Ok i.
Proof.
  intros W Hty Hres. apply Reserve_cases in Hres as [Ek [[_ [e He]]|(_ & d1 & rec' & H)]]; [done|].
  destruct (reserved_wf _ _ _ _ _ _ _ _ _ W Hty H) as [W1 W']. destruct (reserved_tables _ _ _ _ _ _ _ _ _ H) as [Et _].
  pose proof (rf_seal _ _ _ _ _ _ _ _ _ H) as Hseal. pose proof (seal_verify _ _ _ Hseal) as Hver.
  pose proof (proj1 (proj1 (Seal_Ok _ _ _) Hseal)) as Hk32. pose proof (proj1 (verify_op_facts _ _ Hver)) as Hne.
  pose proof (seal_ids _ _ _ Hseal) as (Eid & _). rewrite Eid in Hne.
  assert (Hkey : integrityKeyCopy l' = Ok (l_integrityKey l)) by (apply integrityKeyCopy_Ok; by rewrite Ek).
  split.
  - exists rec'. split.
    + unfold GetVtxoOperation, loadVtxoOperation. rewrite (proj2 (seqb_false _ _) Hne), Hkey, Et, lookup_insert_eq.
      cbn [negb require mbind result_bind]. rewrite (proj2 (scanVtxoOperation_Ok rec' rec')).
      * cbn [mbind result_bind]. unfold VerifyVtxoOperation. by rewrite Hver.
      * split; [done|]. apply (seal_op_typed _ _ _ Hseal) in Hty as (_ & _ & _ & Hv). exact Hv.
    + apply Seal_Ok in Hseal as (_ & p & _ & ->). by destruct rec.
  - set (rows := orderInputs (filter (fun r => in_OperationID r = op_OperationID rec) (allInputs (l_db l')))).
    pose proof (fun i => elem_of_inputs_of (l_integrityKey l) _ (op_OperationID rec) i W') as Hrows. fold rows in Hrows.
    exists rows. split.
    + unfold GetVtxoOperationInputs, loadVtxoOperationInputs. rewrite (proj2 (seqb_false _ _) Hne), Hkey.
      cbn [negb require mbind result_bind]. apply mapR_Ok. fold rows. apply Forall_Forall2_diag, Forall_forall.
      intros i [_ Hi]%Hrows. unfold verifyInputRow. by rewrite (wf_in_verify _ _ _ _ (proj2 W' _ _ Hi)).
    + intros i. rewrite Hrows. destruct (insertInputs_spec _ _ _ _ _ (rf_inputs _ _ _ _ _ _ _ _ _ H)) as (ti & -> & _ & Hnew & Hall).
      simpl. split.
      * intros [Hid Hi]. apply Hnew in Hi as [Hi|(_ & j & ? & ?)]; [|by exists j]. simpl in Hi.
        destruct (wf_in_parent _ _ _ _ (proj2 W1 _ _ Hi)) as [o Ho]. rewrite Hid in Ho. by rewrite (rf_fresh _ _ _ _ _ _ _ _ _ H) in Ho.
      * intros (j & Hj & Hs). destruct (Hall j Hj) as (i' & Hs' & Hi'). rewrite Hs in Hs'. injection Hs' as <-.
        split; [|done]. by apply seal_input_ids in Hs as [? _].
Qed.

Lemma example_l0_wf : db_wf example_key (l_db example_l0).
Proof. split; intros k r; simpl; by rewrite lookup_empty. Qed.

Lemma reserve_reads_back_witness :
  exists rec', GetVtxoOperation example_l1 (op_OperationID example_op) = Ok rec' /\
    op_set_MAC (op_IntegrityMAC example_op) rec' = example_op.
Proof.
  exact (proj1 (reserve_reads_back example_l0 example_env example_now example_now example_op [example_input] 20000
    example_l1 example_l0_wf example_op_typed example_reserved)).
Defined.

(** A lost compare-and-swap changes nothing and hands back the stored row, which
    verifies; if that row is signed, the given counter is the stored one. *)
Lemma commit_signed_lost l ok now rec cred cnt l' cur :
  db_wf (l_integrityKey l) (l_db l) -> CommitSignedVtxoOperation l ok now rec cred cnt = (l', Ok (cur, false)) ->
  l' = l /\ t_vtxo_operation (l_db l) !! op_OperationID rec = Some cur /\
  VerifyVtxoOperation cur (l_integrityKey l) = Ok tt /\
  ~ (op_VaultID cur = op_VaultID rec /\ op_State cur = vtxoStateReserved) /\
  (op_State cur = vtxoStateSigned -> stored_count (l_db l) (op_VaultID rec) cred = cnt).
Proof.
  intros W. unfold CommitSignedVtxoOperation, swapTx. destruct (signedBody l now rec cred cnt) as [[d rec1|c]|e] eqn:E;
    [by destruct ok| |done]. intros [= <- <-]. split; [done|]. unfold signedBody in E.
  apply bind_Ok in E as ([] & _ & (key & [-> _]%integrityKeyCopy_Ok & (rec' & Hs & ([d' n] & Hu & E)%bind_Ok)%bind_Ok)%bind_Ok).
  pose proof (seal_ids _ _ _ Hs) as (Eid & Ev & _).
  destruct (Z.eqb_spec n 1) as [->|Hn]; simpl in E; [by apply bind_Ok in E as (? & _ & [=])|].
  apply bind_Ok in E as (cur & Hl & ([] & Hr & [= <-])%bind_Ok). rewrite Eid in Hl. rewrite Ev in Hr.
  unfold updateVtxoOperation in Hu. rewrite Eid, Ev in Hu.
  destruct (t_vtxo_operation (l_db l) !! op_OperationID rec) as [row|] eqn:Erow.
  2: { injection Hu as <- <-. unfold loadVtxoOperation in Hl. apply bind_Ok in Hl as (k & _ & Hl). by rewrite Erow in Hl. }
  destruct (seqb (op_VaultID row) (op_VaultID rec) && seqb (op_State row) vtxoStateReserved) eqn:Ec.
  { by apply bind_Ok in Hu as ([] & _ & [= <- <-]). }
  injection Hu as <- <-. unfold loadVtxoOperation in Hl.
  apply bind_Ok in Hl as (k & [-> _]%integrityKeyCopy_Ok & Hl). rewrite Erow in Hl.
  apply bind_Ok in Hl as (rec2 & [-> _]%scanVtxoOperation_Ok & ([] & Hv%wrap_Ok & [= ->])%bind_Ok).
  split_and!; [done|done| |].
  - intros [E1 E2]. by rewrite E1, E2, (proj2 (seqb_true _ _) eq_refl) in Ec.
  - intros Hst. rewrite Hst, (proj2 (seqb_true _ _) eq_refl) in Hr. unfold verifySignCountReplayLocked in Hr. unfold stored_count.
    destruct (t_webauthn_sign_count (l_db l) !! (op_VaultID rec, cred)) as [srow|]; [|done]. apply bind_Ok in Hr as ([st m] & (_ & -> & _)%scanSignCount_Ok & ([] & _ & He%require_Ok)%bind_Ok).
    by apply Z.eqb_eq in He.
Qed.

(** Once [rec] is stored signed under [cnt], its commit is a replay. *)
Lemma commit_signed_replay l rec rec' cred cnt crow ok now :
  op_well_typed rec -> 0 <= cnt <= uint32_max -> SealVtxoOperation rec (l_integrityKey l) = Ok rec' ->
  op_State rec = vtxoStateSigned ->
  negb (seqb (op_OperationID rec) "" || seqb (op_VaultID rec) "" || (zlen cred =? 0)
        || negb (seqb (op_State rec) vtxoStateSigned)) = true ->
  t_vtxo_operation (l_db l) !! op_OperationID rec = Some rec' ->
  t_webauthn_sign_count (l_db l) !! (op_VaultID rec, cred) = Some crow -> sc_sign_count crow = cnt ->
  sc_integrity_mac crow = signCountMAC (op_VaultID rec) cred cnt (l_integrityKey l) ->
  CommitSignedVtxoOperation l ok now rec cred cnt = (l, Ok (rec', false)).
Proof.
  intros Hty Hu Hseal Hst Hg Hrow Hcr Hcn Hcm. pose proof (seal_ids _ _ _ Hseal) as (Eid & Ev & Es & _).
  unfold CommitSignedVtxoOperation, signedBody. rewrite Hg.
  pose proof (proj1 (proj1 (Seal_Ok _ _ _) Hseal)) as Hk32.
  rewrite (proj2 (integrityKeyCopy_Ok l (l_integrityKey l))) by done.
  cbn [mbind result_bind require]. rewrite Hseal. cbn [mbind result_bind].
  unfold updateVtxoOperation. rewrite Eid, Ev, Hrow, Es, Hst, andb_false_r. cbn [mbind result_bind Z.eqb negb].
  unfold loadVtxoOperation. rewrite (proj2 (integrityKeyCopy_Ok l (l_integrityKey l))) by done.
  cbn [mbind result_bind]. rewrite Hrow.
  rewrite (proj2 (scanVtxoOperation_Ok rec' rec')) by (split; [done|]; apply (seal_op_typed _ _ _ Hseal Hty)).
  cbn [mbind result_bind]. unfold VerifyVtxoOperation. rewrite (seal_verify _ _ _ Hseal). cbn [mbind result_bind wrap].
  rewrite Es, Hst. cbn [seqb]. unfold verifySignCountReplayLocked. rewrite Hcr.
  rewrite (proj2 (scanSignCount_Ok crow cnt (signCountMAC (op_VaultID rec) cred cnt (l_integrityKey l)))).
  2: { unfold in_uint32. rewrite (proj2 (Z.leb_le _ _)), (proj2 (Z.leb_le cnt _)) by lia. done. }
  cbn [mbind result_bind]. unfold verifySignCountMAC. rewrite (proj2 (beqb_true _ _)) by done. rewrite Z.eqb_refl. done.
Qed.


Lemma example_l1_wf : db_wf (l_integrityKey example_l1) (l_db example_l1).
Proof.
  pose proof example_reserved as H. apply Reserve_cases in H as [Ek [[_ [e He]]|(_ & d1 & rec' & H)]]; [done|].
  rewrite Ek. by destruct (reserved_wf _ _ _ _ _ _ _ _ _ example_l0_wf example_op_typed H).
Qed.

Definition example_signed : VtxoOperation := op_set_State vtxoStateSigned example_op.

Definition example_sign_call := CommitSignedVtxoOperation example_l1 true example_now example_signed [x01] 5.

Lemma example_sign_swaps : match example_sign_call.2 with Ok (_, swapped) => swapped | Err _ => false end = true.
Proof. vm_compute. reflexivity. Qed.

Lemma example_sign_Ok : exists rec', example_sign_call.2 = Ok (rec', true).
Proof.
  generalize example_sign_swaps. generalize example_sign_call.2. intros [[rec' [|]]|e] H; [by exists rec'|discriminate H..].
Qed.


(** The allowance decision is exact: once the sweep, the fences and the sums
    succeed, the reservation is refused with [ErrPeriodAllowanceExceeded], the
    store and the sequence untouched, exactly when the charge of the vault plus
    the new outflow is above the cap. *)
Theorem reserve_allowance_decision l env now1 now2 rec inputs cap d1 used need :
  op_OperationID rec <> "" -> op_VaultID rec <> "" -> op_State rec = vtxoStateReserved -> 0 <= cap ->
  1 <= zlen inputs <= 50 ->
  abortExpiredVtxoLocked l (l_db l) (op_VaultID rec) now1 = Ok d1 ->
  rejectOverlappingVtxoInputs l d1 (op_OperationID rec) inputs = Ok tt ->
  rejectConcurrentVtxoOperationLocked l d1 (op_VaultID rec) (op_OperationID rec) = Ok tt ->
  spentInWindow l d1 now2 (op_VaultID rec) = Ok used -> addOutflow (op_AmountSats rec) (op_FeeSats rec) = Ok need ->
  ReserveVtxoOperation l env now1 now2 rec inputs cap = (l, Err ErrPeriodAllowanceExceeded) <-> cap < used + need.
Proof.
  intros Hid Hv Hst Hcap Hlen Ha Ho Hc Hu Hn. unfold ReserveVtxoOperation, reserveBody.
  rewrite (proj2 (seqb_false _ _) Hid), (proj2 (seqb_false _ _) Hv), Hst, (proj2 (Z.ltb_ge cap 0)) by done.
  rewrite (proj2 (Z.eqb_neq (zlen inputs) 0)), (proj2 (Z.ltb_ge maxReservedVtxoInputs (zlen inputs)))
    by (unfold maxReservedVtxoInputs, MaxVtxoOperationInputs; lia).
  rewrite Ha. cbn [mbind result_bind orb negb require seqb]. rewrite Ho, Hc, Hu, Hn. cbn [mbind result_bind].
  pose proof (addOutflow_sum _ _ _ Hn) as (? & ? & ->).
  destruct (Z.ltb_spec cap used), (Z.ltb_spec (cap - used) (op_AmountSats rec + op_FeeSats rec)); cbn [negb require mbind result_bind];
    try (split; [intros; lia|done]).
  split; [|lia]. intros E. exfalso. eapply commitTx_never; [|apply (f_equal snd) in E; exact E].
  auto 20 using never_seal, never_insertInput, never_insert, never_key with never.
Qed.

(** The same reservation under a cap of 10000 satoshis, below its 10100. *)
Lemma example_stages :
  (abortExpiredVtxoLocked example_l0 (l_db example_l0) "vault-a" example_now = Ok (l_db example_l0) /\
   rejectOverlappingVtxoInputs example_l0 (l_db example_l0) (op_OperationID example_op) [example_input] = Ok tt /\
   rejectConcurrentVtxoOperationLocked example_l0 (l_db example_l0) "vault-a" (op_OperationID example_op) = Ok tt) /\
  spentInWindow example_l0 (l_db example_l0) example_now "vault-a" = Ok 0 /\
  addOutflow (op_AmountSats example_op) (op_FeeSats example_op) = Ok 10100.
Proof. repeat split; vm_compute; reflexivity. Qed.

Lemma reserve_allowance_decision_witness :
  ReserveVtxoOperation example_l0 example_env example_now example_now example_op [example_input] 10000
    = (example_l0, Err ErrPeriodAllowanceExceeded).
Proof.
  pose proof example_stages as ((H1 & H2 & H3) & H4 & H5).
  refine (proj2 (reserve_allowance_decision example_l0 example_env example_now example_now example_op [example_input] 10000
    (l_db example_l0) 0 10100 _ _ eq_refl _ _ H1 H2 H3 H4 H5) _); [discriminate|discriminate|lia|vm_compute; intuition congruence|lia].
Defined.
