(* ===== verification/Allowance.v ===== *)
(** * The rolling allowance: specification and refinement

    An abstract accumulator of charges states what the ledger promises: at every
    instant, the outflow of a vault that is pending, in flight or spent within
    the last 24 hours stays within its cap.  The ledger's operations on
    [vtxo_operation] ([src/internal/policy/vtxo_ledger.go]) are shown to refine
    it, step by step, for every interleaving of handlers, clock advances, file
    and commit failures. *)

From S2P Require Import Prelude Crypto Codec GoTime Program Monotonic Vtxo BoardRows Ledger SignCount VtxoLedger.
From Stdlib Require Import Strings.Byte Strings.Ascii Strings.String.
From stdpp Require Import base decidable list strings gmap countable option sorting relations.
From Stdlib Require Import ZArith Lia.
Open Scope string_scope.
Open Scope list_scope.
Open Scope Z_scope.

(** ** The abstract accumulator *)
Module Spec.

Inductive charge_kind := Pending (created : Z) | InFlight | Spent (settled : Z).

Record Charge := MkCharge { ch_vault : string; ch_sats : Z; ch_kind : charge_kind }.

Abbreviation Charges := (gmap string Charge).

Definition live (now : Z) (k : charge_kind) : bool :=
  match k with InFlight => true | Pending t | Spent t => now <=? t + allowanceWindow end.

Definition charge_at (v : string) (now : Z) (c : Charge) : Z :=
  if bool_decide (ch_vault c = v) && live now (ch_kind c) then ch_sats c else 0.

(** What vault [v] has used at [now]. *)
Definition used (s : Charges) (v : string) (now : Z) : Z := msum (charge_at v now) s.

Definition pending (c : Charge) : Prop := exists t, ch_kind c = Pending t.

Inductive astep (cap : string -> Z) : Charges * Z -> Charges * Z -> Prop :=
  | a_tick s now now' : now <= now' -> astep cap (s, now) (s, now')
  | a_reserve s now id v sats t :
      s !! id = None -> 0 <= sats -> used s v now + sats <= cap v ->
      astep cap (s, now) (<[id := MkCharge v sats (Pending t)]> s, now)
  | a_release s s' now :
      s' ⊆ s -> (forall id c, s !! id = Some c -> s' !! id = None -> pending c) ->
      astep cap (s, now) (s', now)
  | a_sign s now id v sats t :
      s !! id = Some (MkCharge v sats (Pending t)) -> now <= t + allowanceWindow ->
      astep cap (s, now) (<[id := MkCharge v sats InFlight]> s, now)
  | a_settle s now id v sats t :
      s !! id = Some (MkCharge v sats InFlight) ->
      astep cap (s, now) (<[id := MkCharge v sats (Spent t)]> s, now).

Definition nonneg (s : Charges) : Prop := forall id c, s !! id = Some c -> 0 <= ch_sats c.

Definition within (cap : string -> Z) (st : Charges * Z) : Prop :=
  nonneg st.1 /\ forall v, used st.1 v st.2 <= cap v.

Lemma charge_at_nonneg v now c : 0 <= ch_sats c -> 0 <= charge_at v now c.
Proof. unfold charge_at. destruct (_ && _); lia. Qed.

Lemma live_antimono now now' k : now <= now' -> live now' k = true -> live now k = true.
Proof. destruct k; simpl; rewrite ?Z.leb_le; lia. Qed.

Lemma charge_at_antimono v now now' c : now <= now' -> 0 <= ch_sats c -> charge_at v now' c <= charge_at v now c.
Proof.
  intros Hn Hc. unfold charge_at. destruct (bool_decide _); simpl; [|lia].
  destruct (live now' _) eqn:E; [by rewrite (live_antimono _ _ _ Hn E)|]. destruct (live now _); lia.
Qed.

Lemma used_antimono s v now now' : now <= now' -> nonneg s -> used s v now' <= used s v now.
Proof. intros Hn Hs. apply msum_le. intros k c Hc. by apply charge_at_antimono, (Hs k). Qed.

Lemma used_subset s s' v now : s' ⊆ s -> nonneg s -> used s' v now <= used s v now.
Proof. intros Hsub Hs. apply msum_subseteq; [done|]. intros k c Hc. by apply charge_at_nonneg, (Hs k). Qed.

Lemma used_insert s v now id c : s !! id = None -> used (<[id := c]> s) v now = charge_at v now c + used s v now.
Proof. apply msum_insert_new. Qed.

Lemma used_update s v now id c c' : s !! id = Some c ->
  used (<[id := c']> s) v now = charge_at v now c' - charge_at v now c + used s v now.
Proof. apply msum_update. Qed.

Lemma nonneg_insert s id c : nonneg s -> 0 <= ch_sats c -> nonneg (<[id := c]> s).
Proof. intros Hs Hc k x. rewrite lookup_insert_Some. intros [[<- <-]|[_ Hk]]; [done|]. by apply (Hs k). Qed.

(** Every abstract step keeps every vault within its cap. *)
Lemma astep_within cap st st' : astep cap st st' -> within cap st -> within cap st'.
Proof.
  intros Hst [Hn Hu]. destruct Hst as [s now now' Ht|s now id v sats t Hf H0 Hc|s s' now Hsub _|s now id v sats t Hl Ht|s now id v sats t Hl];
    (split; simpl in *; [try done|intros w; specialize (Hu w)]).
  - pose proof (used_antimono s w now now' Ht Hn). lia.
  - by apply nonneg_insert.
  - rewrite used_insert by done. unfold charge_at. simpl. case_bool_decide as Ev; [subst w|simpl; lia].
    destruct (true && _); lia.
  - intros k c Hk. apply (Hn k). by eapply lookup_weaken.
  - pose proof (used_subset s s' w now Hsub Hn). lia.
  - apply nonneg_insert; [done|]. apply (Hn _ _ Hl).
  - rewrite (used_update _ _ _ _ _ _ Hl). unfold charge_at. simpl. rewrite (proj2 (Z.leb_le _ _)) by done. lia.
  - apply nonneg_insert; [done|]. apply (Hn _ _ Hl).
  - rewrite (used_update _ _ _ _ _ _ Hl). pose proof (Hn _ _ Hl). unfold charge_at. simpl in *.
    destruct (bool_decide _), (now <=? _); simpl; lia.
Qed.

Lemma asteps_within cap st st' : rtc (astep cap) st st' -> within cap st -> within cap st'.
Proof. induction 1; eauto using astep_within. Qed.

End Spec.

(** ** The abstraction *)

Definition charge_of (r : VtxoOperation) : option Spec.Charge :=
  if vtxoStateCountsTowardAllowance (op_State r) then
    match parseRFC3339 (op_CreatedAt r) with
    | Some created =>
        Some (Spec.MkCharge (op_VaultID r) (op_AmountSats r + op_FeeSats r)
          (if vtxoStateAwaitingSettlement (op_State r) then Spec.InFlight
           else if seqb (op_State r) vtxoStateReserved then Spec.Pending created else Spec.Spent created))
    | None => None
    end
  else None.

Definition abs (d : Database) : gmap string Spec.Charge := omap charge_of (t_vtxo_operation d).

(** The ledger's [charged] is the accumulator's [used]. *)
Lemma abs_used d v now : Spec.used (abs d) v now = charged d v now.
Proof.
  unfold Spec.used, abs, charged. rewrite msum_omap. apply msum_ext. intros k r _.
  unfold charge_of, vault_charge, row_charge, Spec.charge_at.
  destruct (vtxoStateCountsTowardAllowance _); [|by destruct (bool_decide _)].
  destruct (parseRFC3339 _); [|by destruct (bool_decide _)]. simpl.
  by destruct (bool_decide (op_VaultID r = v)), (vtxoStateAwaitingSettlement (op_State r)), (seqb (op_State r) vtxoStateReserved).
Qed.

(** ** The system: handlers interleaved with the clock *)

(** What the application changes when it advances a stored [row] to [rec]
    ([src/internal/application/vtxo.go]): never the outflow; the creation time
    only when it settles, to a reading of the clock; and it authorizes within
    the allowance window of the reservation. *)
Definition app_update (now : Z) (row rec : VtxoOperation) : Prop :=
  op_AmountSats rec = op_AmountSats row /\ op_FeeSats rec = op_FeeSats row /\
  (op_CreatedAt rec = op_CreatedAt row \/
   (vtxoStateAwaitingSettlement (op_State row) = true /\
    exists t, t <= now /\ time_ok t /\ op_CreatedAt rec = formatRFC3339 t)) /\
  (op_State rec = vtxoStateSigned ->
   exists c, parseRFC3339 (op_CreatedAt row) = Some c /\ now <= c + allowanceWindow).

(** A transaction of another component: it leaves the spend tables alone, only
    appends rows the sequence counts, and observes the sequence when it does. *)
Definition other_tx {A} (l : Ledger) (body : tx_result A) : Prop :=
  forall d ob a, body = Ok (d, ob, a) ->
    t_vtxo_operation d = t_vtxo_operation (l_db l) /\
    t_vtxo_operation_input d = t_vtxo_operation_input (l_db l) /\ t_vault (l_db l) ⊆ t_vault d /\
    outflow_rows (l_db l) <= outflow_rows d /\
    (ob = false -> outflow_rows d = outflow_rows (l_db l)).

Inductive lstep (cap : string -> Z) : Ledger * Z -> Ledger * Z -> Prop :=
  | l_tick l now now' : now <= now' -> lstep cap (l, now) (l, now')
  | l_reserve l now env now1 now2 created rec inputs l' r :
      now1 <= now -> now2 <= now -> op_well_typed rec -> time_ok created ->
      op_CreatedAt rec = formatRFC3339 created ->
      ReserveVtxoOperation l env now1 now2 rec inputs (cap (op_VaultID rec)) = (l', r) ->
      lstep cap (l, now) (l', now)
  | l_signed l now ok rec cred cnt l' r :
      op_well_typed rec ->
      (forall row, t_vtxo_operation (l_db l) !! op_OperationID rec = Some row -> op_State row = vtxoStateReserved ->
         app_update now row rec) ->
      CommitSignedVtxoOperation l ok now rec cred cnt = (l', r) ->
      lstep cap (l, now) (l', now)
  | l_transition l now ok from rec l' r :
      op_well_typed rec ->
      (forall row, t_vtxo_operation (l_db l) !! op_OperationID rec = Some row -> op_State row = from -> app_update now row rec) ->
      TransitionVtxoOperation l ok from rec = (l', r) ->
      lstep cap (l, now) (l', now)
  | l_restart l now io l' r :
      AttachMonotonic l io (l_monotonic l) = (l', r) ->
      lstep cap (l, now) (l', now)
  | l_other {A} l now env (body : tx_result A) l' r :
      other_tx l body -> commitTx l env body = (l', r) ->
      lstep cap (l, now) (l', now).

(** Every row has a readable creation time. *)
Definition dated (d : Database) : Prop :=
  forall k r, t_vtxo_operation d !! k = Some r -> is_Some (parseRFC3339 (op_CreatedAt r)).

Definition inv (st : Ledger * Z) : Prop :=
  db_wf (l_integrityKey st.1) (l_db st.1) /\ dated (l_db st.1).

(** ** Simulation *)

Lemma abs_lookup d k : abs d !! k = t_vtxo_operation d !! k ≫= charge_of.
Proof. unfold abs. apply lookup_omap. Qed.

Lemma charge_of_aborted r : op_State r = vtxoStateAborted -> charge_of r = None.
Proof. intros E. unfold charge_of. by rewrite E. Qed.

Lemma charge_of_reserved r c : op_State r = vtxoStateReserved -> parseRFC3339 (op_CreatedAt r) = Some c ->
  charge_of r = Some (Spec.MkCharge (op_VaultID r) (op_AmountSats r + op_FeeSats r) (Spec.Pending c)).
Proof. intros E H. unfold charge_of. by rewrite E, H. Qed.

Lemma charge_of_flight r c : vtxoStateAwaitingSettlement (op_State r) = true -> parseRFC3339 (op_CreatedAt r) = Some c ->
  charge_of r = Some (Spec.MkCharge (op_VaultID r) (op_AmountSats r + op_FeeSats r) Spec.InFlight).
Proof.
  unfold vtxoStateAwaitingSettlement, charge_of. intros [E%seqb_true|E%seqb_true]%orb_true_iff H; by rewrite E, H.
Qed.

Lemma charge_of_spent r c : op_State r = vtxoStateFinalized \/ op_State r = vtxoStateUnresolved ->
  parseRFC3339 (op_CreatedAt r) = Some c ->
  charge_of r = Some (Spec.MkCharge (op_VaultID r) (op_AmountSats r + op_FeeSats r) (Spec.Spent c)).
Proof. unfold charge_of. intros [E|E] H; by rewrite E, H. Qed.

(** The expiry sweep only releases pending charges. *)
Lemma abort_released l d v now d1 : db_wf (l_integrityKey l) d -> dated d ->
  abortExpiredVtxoLocked l d v now = Ok d1 ->
  dated d1 /\ abs d1 ⊆ abs d /\
  (forall k c, abs d !! k = Some c -> abs d1 !! k = None -> Spec.pending c).
Proof.
  intros W Hd H. destruct (abortExpired_spec _ _ _ _ _ W H) as (t' & -> & Hs).
  assert (Hk : forall k, (t' !! k = t_vtxo_operation d !! k) \/
    exists r r', t_vtxo_operation d !! k = Some r /\ op_State r = vtxoStateReserved /\ t' !! k = Some r' /\
      op_State r' = vtxoStateAborted /\ op_CreatedAt r' = op_CreatedAt r).
  { intros k. specialize (Hs k). destruct (t_vtxo_operation d !! k) as [r|] eqn:E; [|by left].
    destruct (expired_at v now r) eqn:Ex; [right|by left]. destruct Hs as (r' & Hseal & _ & E').
    exists r, r'. pose proof (seal_ids _ _ _ Hseal) as (_ & _ & Es & _ & _ & Ec). split_and!; try done.
    unfold expired_at in Ex. bool_prop. by apply seqb_true. }
  split_and!.
  - intros k r Hr. simpl in Hr. destruct (Hk k) as [E|(r0 & r' & E0 & _ & E' & _ & Ec)].
    + rewrite E in Hr. by apply (Hd k).
    + rewrite Hr in E'. injection E' as <-. rewrite Ec. by apply (Hd k).
  - apply map_subseteq_spec. intros k c. rewrite !abs_lookup. simpl.
    destruct (Hk k) as [->|(r0 & r' & _ & _ & -> & Ea & _)]; [done|]. simpl. by rewrite charge_of_aborted.
  - intros k c. rewrite !abs_lookup. simpl. destruct (Hk k) as [->|(r0 & r' & -> & Er & _)]; [congruence|].
    simpl. destruct (parseRFC3339 (op_CreatedAt r0)) as [t|] eqn:Et.
    + rewrite (charge_of_reserved _ _ Er Et). intros [= <-] _. by exists t.
    + unfold charge_of. rewrite Et. by destruct (vtxoStateCountsTowardAllowance _).
Qed.

Lemma abs_nonneg key d : db_wf key d -> Spec.nonneg (abs d).
Proof.
  intros [W _] k c. rewrite abs_lookup. destruct (t_vtxo_operation d !! k) as [r|] eqn:E; [|done]. simpl.
  pose proof (wf_op_verify _ _ _ _ (W _ _ E)) as (_&_&_&_&?&?&_)%verify_op_facts. unfold charge_of.
  destruct (vtxoStateCountsTowardAllowance _); [|done]. destruct (parseRFC3339 _); [|done]. intros [= <-]. simpl. lia.
Qed.

Lemma wf_typed key d v : db_wf key d -> Forall row_typed (selectVault d v).
Proof.
  intros W. apply Forall_forall. intros r Hr. apply (selectVault_wf key) in Hr as [_ Hr]; [|done].
  destruct (wf_op_typed _ _ _ _ (proj1 W _ _ Hr)) as ([_ ?] & [_ ?] & _). done.
Qed.

Lemma reserve_simulated cap l now now1 now2 created rec inputs d1 d' rec' :
  db_wf (l_integrityKey l) (l_db l) -> dated (l_db l) -> now2 <= now -> op_well_typed rec ->
  time_ok created -> op_CreatedAt rec = formatRFC3339 created ->
  reserved_from l now1 now2 rec inputs (cap (op_VaultID rec)) d1 d' rec' ->
  dated d' /\ rtc (Spec.astep cap) (abs (l_db l), now) (abs d', now).
Proof.
  intros W Hd Hn Hty Hcr Ecr H. destruct (reserved_wf _ _ _ _ _ _ _ _ _ W Hty H) as [W1 _].
  destruct (abort_released _ _ _ _ _ W Hd (rf_abort _ _ _ _ _ _ _ _ _ H)) as (Hd1 & Hsub & Hpend).
  destruct (reserved_tables _ _ _ _ _ _ _ _ _ H) as [Et _].
  pose proof (seal_ids _ _ _ (rf_seal _ _ _ _ _ _ _ _ _ H)) as (_ & Ev & Es & Ea & Ef & Ec).
  rewrite (rf_state _ _ _ _ _ _ _ _ _ H) in Es.
  assert (Ep : parseRFC3339 (op_CreatedAt rec') = Some (unix created * second)) by (rewrite Ec, Ecr; by apply parse_format).
  split.
  { intros k r. rewrite Et, lookup_insert_Some. intros [[_ <-]|[_ Hk]]; [by rewrite Ep|by apply (Hd1 k)]. }
  eapply rtc_l; [by apply Spec.a_release|]. apply rtc_once. unfold abs at 2. rewrite Et.
  rewrite (omap_insert_Some _ _ _ _ _ (charge_of_reserved _ _ Es Ep)). fold (abs d1).
  destruct (rf_spent _ _ _ _ _ _ _ _ _ H) as (u & Hu & ? & ? & Hle). rewrite Ev, Ea, Ef.
  apply spent_total in Hu as ->; [|by eapply wf_typed].
  apply Spec.a_reserve; [|lia|].
  - rewrite abs_lookup. by rewrite (rf_fresh _ _ _ _ _ _ _ _ _ H).
  - pose proof (Spec.used_antimono (abs d1) (op_VaultID rec) now2 now Hn (abs_nonneg _ _ W1)).
    rewrite !abs_used in *. lia.
Qed.

(** The five edges of the lifecycle. *)
Lemma validVtxoTransition_cases from to : validVtxoTransition from to = true ->
  (from = vtxoStateReserved /\ to = vtxoStateSigned) \/ (from = vtxoStateReserved /\ to = vtxoStateAborted) \/
  (from = vtxoStateSigned /\ to = vtxoStateSubmitted) \/
  (from = vtxoStateSubmitted /\ (to = vtxoStateFinalized \/ to = vtxoStateUnresolved)).
Proof.
  unfold validVtxoTransition. destruct (seqb from vtxoStateReserved) eqn:E1; [|destruct (seqb from vtxoStateSigned) eqn:E2;
    [|destruct (seqb from vtxoStateSubmitted) eqn:E3; [|done]]];
    rewrite ?orb_true_iff, ?seqb_true in *; tauto.
Qed.

Lemma swap_simulated cap l now from rec d' row rec' :
  db_wf (l_integrityKey l) (l_db l) -> dated (l_db l) -> app_update now row rec ->
  swapped_from l from rec d' row rec' ->
  dated d' /\ rtc (Spec.astep cap) (abs (l_db l), now) (abs d', now).
Proof.
  intros W Hd (Ha & Hf & Hc & Hsig) [Hrow Hv Hfrom Hval Hs _ Et _].
  pose proof (seal_ids _ _ _ Hs) as (_ & Ev' & Es' & Ea' & Ef' & Ec').
  destruct (Hd _ _ Hrow) as [c Erow].
  assert (Hp : exists c', parseRFC3339 (op_CreatedAt rec') = Some c').
  { rewrite Ec'. destruct Hc as [->|(_ & t & _ & Ht & ->)]; [eauto|]. rewrite parse_format by done. eauto. }
  destruct Hp as [c' Ep]. split.
  { intros k r. rewrite Et, lookup_insert_Some. intros [[_ <-]|[_ Hk]]; [by rewrite Ep|by apply (Hd k)]. }
  assert (Habs : abs (l_db l) !! op_OperationID rec = charge_of row) by (by rewrite abs_lookup, Hrow).
  unfold abs at 2. rewrite Et, omap_insert. fold (abs (l_db l)).
  apply validVtxoTransition_cases in Hval as [[Ef Eto]|[[Ef Eto]|[[Ef Eto]|[Ef Eto]]]]; rewrite Ef in Hfrom; try rewrite Eto in Es'.
  - rewrite (charge_of_reserved _ _ Hfrom Erow) in Habs. rewrite (charge_of_flight rec' c') by (by rewrite ?Es').
    rewrite Ev', Ea', Ef', <-Hv, Ha, Hf. destruct (Hsig Eto) as (c0 & E0 & Hle). rewrite Erow in E0. injection E0 as <-.
    apply rtc_once. by eapply Spec.a_sign.
  - rewrite (charge_of_aborted rec') by done. apply rtc_once, Spec.a_release; [apply delete_subseteq|].
    intros k x Hk Hk'. destruct (decide (k = op_OperationID rec)) as [->|]; [|by rewrite lookup_delete_ne, Hk in Hk'].
    rewrite Habs, (charge_of_reserved _ _ Hfrom Erow) in Hk. injection Hk as <-. by exists c.
  - rewrite (charge_of_flight row c) in Habs by (by rewrite ?Hfrom). rewrite (charge_of_flight rec' c') by (by rewrite ?Es').
    rewrite Ev', Ea', Ef', <-Hv, Ha, Hf, insert_id by done. apply rtc_refl.
  - rewrite (charge_of_flight row c) in Habs by (by rewrite ?Hfrom).
    rewrite (charge_of_spent rec' c') by (done || (rewrite Es'; done)).
    rewrite Ev', Ea', Ef', <-Hv, Ha, Hf. apply rtc_once. by eapply Spec.a_settle.
Qed.

Lemma other_wf key d d' :
  t_vtxo_operation d' = t_vtxo_operation d -> t_vtxo_operation_input d' = t_vtxo_operation_input d ->
  t_vault d ⊆ t_vault d' -> db_wf key d -> db_wf key d'.
Proof.
  intros E1 E2 Hsub [Wo Wi]. split.
  - intros k r. rewrite E1. intros Hk. destruct (Wo _ _ Hk). constructor; try done. set_solver.
  - intros k i. rewrite E2. intros Hk. destruct (Wi _ _ Hk). constructor; try done. by rewrite E1.
Qed.

(** A committed transaction of another component, or nothing. *)
Lemma other_cases {A} l env (body : tx_result A) l' r :
  other_tx l body -> commitTx l env body = (l', r) ->
  l_integrityKey l' = l_integrityKey l /\
  t_vtxo_operation (l_db l') = t_vtxo_operation (l_db l) /\
  t_vtxo_operation_input (l_db l') = t_vtxo_operation_input (l_db l) /\ t_vault (l_db l) ⊆ t_vault (l_db l').
Proof.
  intros Ho (_ & Hk & _ & H)%commitTx_cases. split; [done|].
  destruct H as [(-> & _)|(d & ob & a & Hb & _ & <- & _)]; [done|].
  destruct (Ho _ _ _ Hb) as (? & ? & ? & _). done.
Qed.

Lemma restart_cases l io l' r : AttachMonotonic l io (l_monotonic l) = (l', r) ->
  l_integrityKey l' = l_integrityKey l /\ l_db l' = l_db l /\ l_monotonic l' = l_monotonic l.
Proof.
  unfold AttachMonotonic. destruct (l_monotonic l) eqn:E; [|by intros [= <- _]].
  destruct (observeEconomicOutflowsLocked _ _ _). by intros [= <- _].
Qed.

(** Every concrete step is matched by abstract steps and keeps the invariant. *)
Lemma lstep_simulated cap st st' : inv st -> lstep cap st st' ->
  inv st' /\ rtc (Spec.astep cap) (abs (l_db st.1), st.2) (abs (l_db st'.1), st'.2).
Proof.
  intros [W Hd] Hst. destruct Hst as [l now now' Ht|l now env n1 n2 created rec inputs l' r H1 H2 Hty Hc Ec H
    |l now ok rec cred cnt l' r Hty Happ H|l now ok from rec l' r Hty Happ H|l now io l' r H|A l now env body l' r Ho H]; simpl in *.
  - split; [done|]. by apply rtc_once, Spec.a_tick.
  - apply Reserve_cases in H as [Ek [[Ed _]|(_ & d1 & rec' & H)]]; unfold inv; simpl; rewrite Ek.
    + rewrite Ed. split; [done|apply rtc_refl].
    + destruct (reserve_simulated _ _ now _ _ created _ _ _ _ _ W Hd H2 Hty Hc Ec H) as [Hd' Hsim].
      destruct (reserved_wf _ _ _ _ _ _ _ _ _ W Hty H). done.
  - apply CommitSigned_cases in H as [->|(d & row & rec' & -> & _ & _ & H)]; [split; [done|apply rtc_refl]|].
    destruct (swap_simulated cap _ now _ _ _ _ _ W Hd (Happ _ (sw_row _ _ _ _ _ _ H) (sw_from _ _ _ _ _ _ H)) H) as [Hd' Hsim].
    split; [|done]. split; [exact (swapped_wf _ _ _ _ _ _ W Hty H)|done].
  - apply Transition_cases in H as [->|(d & row & rec' & -> & _ & H)]; [split; [done|apply rtc_refl]|].
    destruct (swap_simulated cap _ now _ _ _ _ _ W Hd (Happ _ (sw_row _ _ _ _ _ _ H) (sw_from _ _ _ _ _ _ H)) H) as [Hd' Hsim].
    split; [|done]. split; [exact (swapped_wf _ _ _ _ _ _ W Hty H)|done].
  - apply restart_cases in H as (Ek & Ed & _). unfold inv. simpl. rewrite Ek, Ed. split; [done|apply rtc_refl].
  - destruct (other_cases _ _ _ _ _ Ho H) as (Ek & Et & Ei & Hv). unfold inv, dated, abs. simpl. rewrite Ek, Et.
    split; [|apply rtc_refl]. split; [by apply (other_wf _ (l_db l))|done].
Qed.

Lemma lsteps_simulated cap st st' : rtc (lstep cap) st st' -> inv st ->
  inv st' /\ rtc (Spec.astep cap) (abs (l_db st.1), st.2) (abs (l_db st'.1), st'.2).
Proof.
  induction 1 as [st|st st1 st' H1 _ IH]; intros Hi; [split; [done|apply rtc_refl]|].
  destruct (lstep_simulated _ _ _ Hi H1) as [Hi1 Hs1]. destruct (IH Hi1) as [Hi' Hs']. split; [done|]. by etrans.
Qed.

(** A store opened on an empty spend table. *)
Definition fresh (l : Ledger) : Prop :=
  t_vtxo_operation (l_db l) = ∅ /\ t_vtxo_operation_input (l_db l) = ∅.

Lemma fresh_inv l now : fresh l -> inv (l, now).
Proof. intros [E1 E2]. split; [split|]; intros k r; simpl; rewrite ?E1, ?E2; by rewrite lookup_empty. Qed.

(** ** Exclusion *)

Definition one_active (d : Database) : Prop :=
  forall k1 k2 r1 r2, t_vtxo_operation d !! k1 = Some r1 -> t_vtxo_operation d !! k2 = Some r2 ->
    op_VaultID r1 = op_VaultID r2 -> vtxoStateBlocksNewOperation (op_State r1) = true ->
    vtxoStateBlocksNewOperation (op_State r2) = true -> k1 = k2.

Definition locks (d : Database) (i : VtxoOperationInput) : Prop :=
  exists o, t_vtxo_operation d !! in_OperationID i = Some o /\ vtxoStateLocksInputs (op_State o) = true.

Definition locked_once (d : Database) : Prop :=
  forall k1 k2 i1 i2, t_vtxo_operation_input d !! k1 = Some i1 -> t_vtxo_operation_input d !! k2 = Some i2 ->
    outpoint i1 = outpoint i2 -> locks d i1 -> locks d i2 -> in_OperationID i1 = in_OperationID i2.

(** No row gains a fence. *)
Definition fences_shrink (d d' : Database) : Prop :=
  t_vtxo_operation_input d' = t_vtxo_operation_input d /\
  forall k r', t_vtxo_operation d' !! k = Some r' -> exists r, t_vtxo_operation d !! k = Some r /\
    op_VaultID r = op_VaultID r' /\
    (vtxoStateBlocksNewOperation (op_State r') = true -> vtxoStateBlocksNewOperation (op_State r) = true) /\
    (vtxoStateLocksInputs (op_State r') = true -> vtxoStateLocksInputs (op_State r) = true).

Lemma shrink_exclusion d d' : fences_shrink d d' -> one_active d /\ locked_once d -> one_active d' /\ locked_once d'.
Proof.
  intros [Ei Hs] [Ha Hl]. split.
  - intros k1 k2 r1 r2 H1 H2 Ev B1 B2. destruct (Hs _ _ H1) as (s1 & S1 & V1 & C1 & _), (Hs _ _ H2) as (s2 & S2 & V2 & C2 & _).
    apply (Ha k1 k2 s1 s2); auto. congruence.
  - intros k1 k2 i1 i2. rewrite Ei. intros H1 H2 Eo (o1 & O1 & L1) (o2 & O2 & L2).
    destruct (Hs _ _ O1) as (s1 & S1 & _ & _ & C1), (Hs _ _ O2) as (s2 & S2 & _ & _ & C2).
    apply (Hl k1 k2); [done..| |]; eexists; eauto.
Qed.

Lemma shrink_refl d d' : t_vtxo_operation d' = t_vtxo_operation d ->
  t_vtxo_operation_input d' = t_vtxo_operation_input d -> fences_shrink d d'.
Proof. intros E1 E2. split; [done|]. rewrite E1. eauto 10. Qed.

Lemma abort_shrink l d v now d1 : db_wf (l_integrityKey l) d ->
  abortExpiredVtxoLocked l d v now = Ok d1 -> fences_shrink d d1.
Proof.
  intros W H. destruct (abortExpired_spec _ _ _ _ _ W H) as (t' & -> & Hs). split; [done|]. simpl. intros k r' Hk.
  specialize (Hs k). destruct (t_vtxo_operation d !! k) as [r|]; [|congruence]. exists r.
  destruct (expired_at v now r).
  - destruct Hs as (r1 & (_ & Ev & Es & _)%seal_ids & _ & E). rewrite Hk in E. injection E as <-. rewrite Es. done.
  - rewrite Hs in Hk. by injection Hk as <-.
Qed.

Lemma swap_shrink l from rec d' row rec' : swapped_from l from rec d' row rec' -> fences_shrink (l_db l) d'.
Proof.
  intros [Hrow Hv Hf Hval (_ & Ev & Es & _)%seal_ids _ Et [_ Ei _ _ _ _ _]]. split; [done|]. intros k r'.
  rewrite Et, lookup_insert_Some. intros [[<- <-]|[_ Hk]]; [exists row|exists r'; done].
  split_and!; [done|congruence| |]; rewrite Es, Hf;
    apply validVtxoTransition_cases in Hval as [[-> ->]|[[-> ->]|[[-> ->]|[-> [->| ->]]]]]; done.
Qed.

Lemma reserve_exclusion l n1 n2 rec inputs cap d1 d' rec' :
  db_wf (l_integrityKey l) (l_db l) -> op_well_typed rec ->
  reserved_from l n1 n2 rec inputs cap d1 d' rec' ->
  one_active (l_db l) /\ locked_once (l_db l) -> one_active d' /\ locked_once d'.
Proof.
  intros W Hty H Hex. destruct (reserved_wf _ _ _ _ _ _ _ _ _ W Hty H) as [W1 _].
  apply (shrink_exclusion _ d1) in Hex as [Ha Hl]; [|exact (abort_shrink l _ _ _ _ W (rf_abort _ _ _ _ _ _ _ _ _ H))].
  pose proof (rejectConcurrent_Ok _ _ _ _ _ W1 (rf_concurrent _ _ _ _ _ _ _ _ _ H)) as Hc.
  pose proof (rejectOverlapping_Ok _ _ _ _ _ W1 (rf_overlap _ _ _ _ _ _ _ _ _ H)) as Ho.
  pose proof (seal_ids _ _ _ (rf_seal _ _ _ _ _ _ _ _ _ H)) as (_ & Ev & _).
  pose proof (rf_fresh _ _ _ _ _ _ _ _ _ H) as Hfresh.
  destruct (insertInputs_spec _ _ _ _ _ (rf_inputs _ _ _ _ _ _ _ _ _ H)) as (ti & -> & _ & Hrows & _). simpl in *.
  split.
  - intros k1 k2 r1 r2. simpl. rewrite !lookup_insert_Some.
    intros [[<- <-]|[N1 H1]] [[<- <-]|[N2 H2]] Evv B1 B2; [done| | |by eapply Ha].
    + rewrite (Hc k2 r2) in B2; [done|done|congruence|done].
    + rewrite (Hc k1 r1) in B1; [done|done|congruence|done].
  - assert (Hold : forall k i, t_vtxo_operation_input d1 !! k = Some i -> in_OperationID i <> op_OperationID rec).
    { intros k i Hk E. destruct (wf_in_parent _ _ _ _ (proj2 W1 _ _ Hk)) as [o Eo]. congruence. }
    assert (Hlk : forall i, in_OperationID i <> op_OperationID rec ->
      locks (set_vtxo_operation_input ti (set_vtxo_operation (<[op_OperationID rec:=rec']> (t_vtxo_operation d1)) d1)) i -> locks d1 i).
    { intros i Hne (o & E & L). simpl in E. rewrite lookup_insert_ne in E by done. by exists o. }
    assert (Hnew : forall k i, t_vtxo_operation_input d1 !! k = Some i -> outpoint i ∈ map outpoint inputs -> ~ locks d1 i).
    { intros k i Hk Hin (o & E & L). by rewrite (Ho k i o Hk E Hin (Hold _ _ Hk)) in L. }
    assert (Hin : forall j i, j ∈ inputs -> outpoint i = outpoint j -> outpoint i ∈ map outpoint inputs)
      by (intros j i Hj ->; by apply list_elem_of_fmap_2).
    intros k1 k2 i1 i2 [H1|(_ & j1 & J1 & (I1 & O1 & _)%seal_input_ids)]%Hrows
      [H2|(_ & j2 & J2 & (I2 & O2 & _)%seal_input_ids)]%Hrows Eo L1 L2; simpl in *.
    + apply (Hl k1 k2); try done; apply Hlk; eauto.
    + destruct (Hnew k1 i1); [done|rewrite Eo; eauto|]. apply Hlk; eauto.
    + destruct (Hnew k2 i2); [done|rewrite <-Eo; eauto|]. apply Hlk; eauto.
    + congruence.
Qed.

Lemma lstep_exclusion cap st st' : inv st -> lstep cap st st' ->
  one_active (l_db st.1) /\ locked_once (l_db st.1) -> one_active (l_db st'.1) /\ locked_once (l_db st'.1).
Proof.
  intros [W _] Hst. destruct Hst as [l now now' Ht|l now env n1 n2 created rec inputs l' r H1 H2 Hty Hc Ec H
    |l now ok rec cred cnt l' r Hty Happ H|l now ok from rec l' r Hty Happ H|l now io l' r H|A l now env body l' r Ho H]; simpl in *.
  - done.
  - apply Reserve_cases in H as [_ [[-> _]|(_ & d1 & rec' & H)]]; [done|]. by eapply reserve_exclusion.
  - apply CommitSigned_cases in H as [->|(d & row & rec' & -> & _ & _ & H)]; [done|]. by eapply shrink_exclusion, swap_shrink.
  - apply Transition_cases in H as [->|(d & row & rec' & -> & _ & H)]; [done|]. by eapply shrink_exclusion, swap_shrink.
  - by apply restart_cases in H as (_ & -> & _).
  - destruct (other_cases _ _ _ _ _ Ho H) as (_ & Et & Ei & _). by apply shrink_exclusion, shrink_refl.
Qed.

Lemma lsteps_exclusion cap st st' : rtc (lstep cap) st st' -> inv st ->
  one_active (l_db st.1) /\ locked_once (l_db st.1) -> one_active (l_db st'.1) /\ locked_once (l_db st'.1).
Proof.
  induction 1 as [st|st st1 st' H1 _ IH]; intros Hi He; [done|].
  apply IH; [by eapply lstep_simulated|by eapply lstep_exclusion].
Qed.

(** ** The external sequence *)

Lemma same_domain_size (t t' : gmap string VtxoOperation) :
  (forall k, is_Some (t' !! k) <-> is_Some (t !! k)) -> size t' = size t.
Proof.
  intros H. rewrite <-!(size_dom (D := gset string)). f_equal. apply set_eq. intros k. by rewrite !elem_of_dom.
Qed.

Lemma abort_rows l d v now d1 : db_wf (l_integrityKey l) d -> abortExpiredVtxoLocked l d v now = Ok d1 ->
  outflow_rows d1 = outflow_rows d.
Proof.
  intros W H. destruct (abortExpired_spec _ _ _ _ _ W H) as (t' & -> & Hs). unfold outflow_rows. simpl.
  rewrite (same_domain_size (t_vtxo_operation d) t'); [done|]. intros k. specialize (Hs k).
  destruct (t_vtxo_operation d !! k) as [r|]; [|by rewrite Hs].
  destruct (expired_at v now r); [destruct Hs as (r' & _ & _ & ->)|rewrite Hs]; split; eauto.
Qed.

Lemma reserve_rows l n1 n2 rec inputs cap d1 d' rec' :
  db_wf (l_integrityKey l) (l_db l) -> reserved_from l n1 n2 rec inputs cap d1 d' rec' ->
  outflow_rows d' = outflow_rows (l_db l) + 1.
Proof.
  intros W H. rewrite <-(abort_rows _ _ _ _ _ W (rf_abort _ _ _ _ _ _ _ _ _ H)).
  pose proof (rf_fresh _ _ _ _ _ _ _ _ _ H) as Hf.
  destruct (insertInputs_spec _ _ _ _ _ (rf_inputs _ _ _ _ _ _ _ _ _ H)) as (ti & -> & _).
  unfold outflow_rows. simpl. rewrite map_size_insert_None by done. lia.
Qed.

Lemma swap_rows l from rec d' row rec' : swapped_from l from rec d' row rec' -> outflow_rows d' = outflow_rows (l_db l).
Proof.
  intros [Hrow _ _ _ _ _ Et [_ _ _ _ Ea Ed Es]]. unfold outflow_rows. rewrite Et, Ea, Ed, Es.
  by rewrite map_size_insert_Some by eauto.
Qed.

(** The number of counted rows never exceeds the authenticated sequence. *)
Definition sequenced (m : Monotonic) (l : Ledger) : Prop :=
  l_monotonic l = Some m /\ exists n, sequence_count m (l_file l) = Some n /\ outflow_rows (l_db l) <= n.

(** The sequence of [l'] is not behind the one of [l], and rows only accumulate. *)
Definition advances_to (m : Monotonic) (l l' : Ledger) : Prop :=
  outflow_rows (l_db l) <= outflow_rows (l_db l') /\
  forall n, sequence_count m (l_file l) = Some n -> exists n', sequence_count m (l_file l') = Some n' /\ n <= n'.

Lemma commit_sequenced {A} m l env (body : tx_result A) l' r :
  sequenced m l -> commitTx l env body = (l', r) ->
  (forall d ob a, body = Ok (d, ob, a) -> outflow_rows (l_db l) <= outflow_rows d /\
     (ob = false -> outflow_rows d = outflow_rows (l_db l))) ->
  sequenced m l' /\ advances_to m l l'.
Proof.
  intros (Hm & n & Hn & Hle) (_ & _ & Em & H)%commitTx_cases Hb. unfold sequenced, advances_to. rewrite Em, Hn.
  destruct H as [(-> & _ & [->|(d & a & _ & o & Ho)])|(d & ob & a & Hbody & _ & -> & Ho)].
  - rewrite Hn. split; [eauto|]. split; [lia|]. intros ? [= <-]. eauto with lia.
  - destruct (observe_sequence _ _ _ _ _ _ _ Hm Hn Ho) as (n' & -> & Hle' & _).
    split; [split; [done|]; exists n'; split; [done|lia]|]. split; [lia|]. intros ? [= <-]. eauto.
  - destruct (Hb _ _ _ Hbody) as [Hge Heq]. destruct ob.
    + destruct (observe_sequence _ _ _ _ _ _ _ Hm Hn Ho) as (n' & -> & Hle' & Hok). rewrite (Hok eq_refl) in *.
      split; [split; [done|]; eexists; split; [done|lia]|]. split; [done|]. intros ? [= <-]. eauto.
    + rewrite Ho, Hn, Heq by done. split; [eauto|]. split; [lia|]. intros ? [= <-]. eauto with lia.
Qed.

Lemma advances_refl m l l' : l_file l' = l_file l -> outflow_rows (l_db l') = outflow_rows (l_db l) -> advances_to m l l'.
Proof. intros E1 E2. unfold advances_to. rewrite E1, E2. split; [lia|]. intros n ->. eauto with lia. Qed.

Lemma reserve_sequenced m l env n1 n2 rec inputs cap l' r :
  inv (l, 0) -> sequenced m l -> ReserveVtxoOperation l env n1 n2 rec inputs cap = (l', r) ->
  sequenced m l' /\ advances_to m l l'.
Proof.
  intros [W _] Hs H. eapply commit_sequenced; [done|exact H|]. intros d ob a Hb.
  apply bind_Ok in Hb as ([] & _ & ([] & Hst%require_Ok & ([] & _ & ([] & _ & Hb)%bind_Ok)%bind_Ok)%bind_Ok).
  apply seqb_true in Hst. apply reserveBody_Ok in Hb as (-> & d1 & rec' & Hb); [|done].
  pose proof (reserve_rows _ _ _ _ _ _ _ _ _ W Hb) as ->. simpl. split; [lia|done].
Qed.

Lemma swap_sequenced m l from rec d row rec' : sequenced m l -> swapped_from l from rec d row rec' ->
  sequenced m (set_db d l) /\ advances_to m l (set_db d l).
Proof.
  intros (Hm & n & Hn & Hle) H%swap_rows. split; [|by apply advances_refl].
  split; [done|]. exists n. simpl. by rewrite H.
Qed.

Lemma lstep_sequenced cap m st st' : inv st -> sequenced m st.1 -> lstep cap st st' ->
  sequenced m st'.1 /\ advances_to m st.1 st'.1.
Proof.
  intros Hi Hs Hst. destruct Hst as [l now now' Ht|l now env n1 n2 created rec inputs l' r H1 H2 Hty Hc Ec H
    |l now ok rec cred cnt l' r Hty Happ H|l now ok from rec l' r Hty Happ H|l now io l' r H|A l now env body l' r Ho H]; simpl in *.
  - split; [done|by apply advances_refl].
  - by eapply reserve_sequenced.
  - apply CommitSigned_cases in H as [->|(d & row & rec' & -> & _ & _ & H)]; [split; [done|by apply advances_refl]|].
    by eapply swap_sequenced.
  - apply Transition_cases in H as [->|(d & row & rec' & -> & _ & H)]; [split; [done|by apply advances_refl]|].
    by eapply swap_sequenced.
  - destruct Hs as (Hm & n & Hn & Hle). unfold AttachMonotonic in H. rewrite Hm in H.
    destruct (observeEconomicOutflowsLocked _ io _) as [f o] eqn:E. injection H as <- <-.
    destruct (observe_sequence (set_monotonic (Some m) l) _ _ m n _ _ eq_refl Hn E) as (n' & Hn' & Hle' & _).
    unfold sequenced, advances_to. simpl. rewrite Hn, Hn'. split; [split; [done|]; exists n'; split; [done|lia]|].
    split; [lia|]. intros ? [= <-]. eauto.
  - eapply commit_sequenced; [done|exact H|]. intros d ob a Hb. destruct (Ho _ _ _ Hb) as (_ & _ & _ & ? & ?). done.
Qed.

Lemma lsteps_sequenced cap m st st' : rtc (lstep cap) st st' -> inv st -> sequenced m st.1 ->
  inv st' /\ sequenced m st'.1 /\ advances_to m st.1 st'.1.
Proof.
  induction 1 as [st|st st1 st' H1 _ IH]; intros Hi Hs; [split_and!; [done..|by apply advances_refl]|].
  destruct (lstep_sequenced _ _ _ _ Hi Hs H1) as [Hs1 [Ha1 Hb1]].
  destruct (IH (proj1 (lstep_simulated _ _ _ Hi H1)) Hs1) as (Hi' & Hs' & [Ha' Hb']). split_and!; [done..|].
  split; [lia|]. intros n Hn. destruct (Hb1 _ Hn) as (n1 & Hn1 & ?). destruct (Hb' _ Hn1) as (n' & Hn' & ?).
  exists n'. split; [done|lia].
Qed.

(** ** Terminal rows *)

Definition terminal (s : string) : Prop := s = vtxoStateFinalized \/ s = vtxoStateAborted \/ s = vtxoStateUnresolved.

Lemma abort_keeps l d v now d1 k r : db_wf (l_integrityKey l) d -> abortExpiredVtxoLocked l d v now = Ok d1 ->
  t_vtxo_operation d !! k = Some r -> op_State r <> vtxoStateReserved -> t_vtxo_operation d1 !! k = Some r.
Proof.
  intros W H Hk Hs. destruct (abortExpired_spec _ _ _ _ _ W H) as (t' & -> & Hsp). specialize (Hsp k). rewrite Hk in Hsp.
  destruct (expired_at v now r) eqn:E; [|done]. unfold expired_at in E. rewrite (proj2 (seqb_false _ _) Hs) in E.
  by rewrite andb_false_r in E.
Qed.

Lemma swap_keeps l from rec d row rec' k r : swapped_from l from rec d row rec' ->
  t_vtxo_operation (l_db l) !! k = Some r -> terminal (op_State r) -> t_vtxo_operation d !! k = Some r.
Proof.
  intros [Hrow _ Hf Hval _ _ Et _] Hk Ht. rewrite Et. rewrite lookup_insert_ne; [done|]. intros <-.
  rewrite Hrow in Hk. injection Hk as ->. rewrite <-Hf in Hval.
  apply validVtxoTransition_cases in Hval as [[E _]|[[E _]|[[E _]|[E _]]]]; rewrite E in Ht; by destruct Ht as [|[|]].
Qed.

Lemma lstep_keeps cap st st' k r : inv st -> lstep cap st st' ->
  t_vtxo_operation (l_db st.1) !! k = Some r -> terminal (op_State r) -> t_vtxo_operation (l_db st'.1) !! k = Some r.
Proof.
  intros [W _] Hst Hk Ht. destruct Hst as [l now now' Hn|l now env n1 n2 created rec inputs l' r' H1 H2 Hty Hc Ec H
    |l now ok rec cred cnt l' r' Hty Happ H|l now ok from rec l' r' Hty Happ H|l now io l' r' H|A l now env body l' r' Ho H]; simpl in *.
  - done.
  - apply Reserve_cases in H as [_ [[-> _]|(_ & d1 & rec' & H)]]; [done|].
    destruct (reserved_tables _ _ _ _ _ _ _ _ _ H) as [-> _].
    assert (Hk1 : t_vtxo_operation d1 !! k = Some r).
    { eapply abort_keeps; [exact W|exact (rf_abort _ _ _ _ _ _ _ _ _ H)|done|]. by destruct Ht as [-> |[-> | ->]]. }
    rewrite lookup_insert_ne; [done|]. intros <-. by rewrite (rf_fresh _ _ _ _ _ _ _ _ _ H) in Hk1.
  - apply CommitSigned_cases in H as [->|(d & row & rec' & -> & _ & _ & H)]; [done|]. by eapply swap_keeps.
  - apply Transition_cases in H as [->|(d & row & rec' & -> & _ & H)]; [done|]. by eapply swap_keeps.
  - by apply restart_cases in H as (_ & -> & _).
  - by destruct (other_cases _ _ _ _ _ Ho H) as (_ & -> & _).
Qed.

Lemma lsteps_keep cap st st' k r : rtc (lstep cap) st st' -> inv st ->
  t_vtxo_operation (l_db st.1) !! k = Some r -> terminal (op_State r) ->
  inv st' /\ t_vtxo_operation (l_db st'.1) !! k = Some r.
Proof.
  induction 1 as [st|st st1 st' H1 _ IH]; intros Hi Hk Ht; [done|].
  apply IH; [by eapply lstep_simulated|by eapply lstep_keeps|done].
Qed.

(** ** From a fresh store *)

Lemma fresh_within cap l0 now0 l now :
  (forall v, 0 <= cap v) -> fresh l0 -> rtc (lstep cap) (l0, now0) (l, now) -> forall v, charged (l_db l) v now <= cap v.
Proof.
  intros Hcap Hf Hr v. destruct (lsteps_simulated _ _ _ Hr (fresh_inv _ now0 Hf)) as [_ Hs]. simpl in Hs.
  assert (Hw : Spec.within cap (abs (l_db l0), now0)).
  { destruct Hf as [E _]. unfold abs. rewrite E. split; simpl; [intros k c; by rewrite lookup_omap, lookup_empty|].
    intros w. unfold Spec.used. rewrite omap_empty, msum_empty. apply Hcap. }
  destruct (Spec.asteps_within _ _ _ Hs Hw) as [_ Hu]. specialize (Hu v). simpl in Hu. by rewrite abs_used in Hu.
Qed.

Lemma fresh_exclusive cap l0 now0 l now :
  fresh l0 -> rtc (lstep cap) (l0, now0) (l, now) -> one_active (l_db l) /\ locked_once (l_db l).
Proof.
  intros Hf Hr. apply (lsteps_exclusion _ _ _ Hr (fresh_inv _ now0 Hf)).
  destruct Hf as [E1 E2]. split; intros k1 k2 r1 r2; simpl; rewrite ?E1, ?E2; by rewrite lookup_empty.
Qed.

(** ** Facts about the example run *)

Definition example_cap : string -> Z := fun _ => 20000.

Lemma example_step : lstep example_cap (example_l0, example_now) (example_l1, example_now).
Proof.
  refine (l_reserve example_cap example_l0 example_now example_env example_now example_now example_now example_op
    [example_input] example_l1 (Ok tt) _ _ example_op_typed _ _ example_reserved); try lia; vm_compute; intuition congruence.
Qed.

Lemma example_l1_rows : size (t_vtxo_operation (l_db example_l1)) = 1%nat.
Proof. vm_compute. reflexivity. Qed.

Lemma example_fresh : fresh example_l0.
Proof. done. Qed.

(** The same spend, ended unresolved. *)
Definition example_unresolved : VtxoOperation :=
  match SealVtxoOperation (op_set_State vtxoStateUnresolved example_op) example_key with Ok r => r | Err _ => example_op end.

Lemma example_unresolved_sealed :
  SealVtxoOperation (op_set_State vtxoStateUnresolved example_op) example_key = Ok example_unresolved.
Proof. vm_compute. reflexivity. Qed.

Definition example_stuck : Ledger :=
  set_db (set_vtxo_operation {[op_OperationID example_op := example_unresolved]} (l_db example_l0)) example_l0.

Lemma example_stuck_inv now : inv (example_stuck, now).
Proof.
  pose proof (seal_ids _ _ _ example_unresolved_sealed) as (_ & _ & _ & _ & _ & Ec).
  split; [split|]; simpl.
  - intros k r [<- <-]%lookup_singleton_Some.
    refine (sealed_row_wf _ _ _ _ _ example_unresolved_sealed _ _); [exact example_op_typed|vm_compute; reflexivity|].
    simpl. set_solver.
  - intros k i. by rewrite lookup_empty.
  - intros k r Hk. simpl in Hk. apply lookup_singleton_Some in Hk as [<- <-]. rewrite Ec. vm_compute. eauto.
Qed.

Lemma example_later : example_now <= example_now + hour.
Proof. vm_compute. discriminate. Qed.

Lemma example_stuck_row :
  t_vtxo_operation (l_db example_stuck) !! op_OperationID example_op = Some example_unresolved /\
  op_State example_unresolved = vtxoStateUnresolved.
Proof.
  split; [apply lookup_singleton_eq|]. pose proof (seal_ids _ _ _ example_unresolved_sealed) as (_ & _ & E & _). exact E.
Qed.

(** ** Properties *)

(** [C9] The rolling allowance is never exceeded: from a fresh store, after any
    interleaving of reservations, signed commits, transitions, restarts, other
    transactions, clock advances, file-system and commit failures, the outflow of
    every vault that is pending, in flight, or settled within the last 24 hours
    is at most the vault's cap. *)
Theorem allowance_never_exceeded cap l0 now0 l now :
  (forall v, 0 <= cap v) -> fresh l0 -> rtc (lstep cap) (l0, now0) (l, now) ->
  forall v, charged (l_db l) v now <= cap v.
Proof. intros Hcap Hf Hr. exact (fresh_within _ _ _ _ _ Hcap Hf Hr). Qed.

Lemma allowance_never_exceeded_witness :
  size (t_vtxo_operation (l_db example_l1)) = 1%nat /\ charged (l_db example_l1) "vault-a" example_now <= 20000.
Proof.
  split; [exact example_l1_rows|].
  apply (allowance_never_exceeded example_cap example_l0 example_now example_l1 example_now);
    [intros v; vm_compute; discriminate|exact example_fresh|exact (rtc_once _ _ example_step)].
Defined.

(** [C10] The ledger refines the allowance accumulator: from a well-formed store,
    whatever one handler call does is a sequence of moves of the abstract
    machine (reserve within the cap, release pending charges, put a pending
    charge in flight within its window, settle a charge in flight), and the
    store stays well formed with every row authentic. *)
Theorem ledger_refines_accumulator cap l now l' now' :
  inv (l, now) -> lstep cap (l, now) (l', now') ->
  inv (l', now') /\ rtc (Spec.astep cap) (abs (l_db l), now) (abs (l_db l'), now').
Proof. intros Hi Hs. exact (lstep_simulated _ _ _ Hi Hs). Qed.

Lemma ledger_refines_accumulator_witness :
  size (t_vtxo_operation (l_db example_l1)) = 1%nat /\
  rtc (Spec.astep example_cap) (abs (l_db example_l0), example_now) (abs (l_db example_l1), example_now).
Proof.
  split; [exact example_l1_rows|].
  exact (proj2 (ledger_refines_accumulator example_cap example_l0 example_now example_l1 example_now
    (fresh_inv _ _ example_fresh) example_step)).
Defined.

(** [C11] One live spend per vault and one holder per coin: in every reachable
    store at most one operation of a vault is reserved, signed, submitted or
    unresolved, and an outpoint is held by the inputs of at most one operation
    that is reserved, signed, submitted or finalized. *)
Theorem spends_are_exclusive cap l0 now0 l now :
  fresh l0 -> rtc (lstep cap) (l0, now0) (l, now) -> one_active (l_db l) /\ locked_once (l_db l).
Proof. intros Hf Hr. exact (fresh_exclusive _ _ _ _ _ Hf Hr). Qed.

Lemma spends_are_exclusive_witness :
  size (t_vtxo_operation_input (l_db example_l1)) = 1%nat /\ one_active (l_db example_l1) /\ locked_once (l_db example_l1).
Proof.
  split; [vm_compute; reflexivity|].
  exact (spends_are_exclusive example_cap example_l0 example_now example_l1 example_now example_fresh (rtc_once _ _ example_step)).
Defined.

(** [C12] Restoring an old database is refused: take a snapshot of the store, let
    a reservation commit, and let anything happen after it; a store restored to
    the snapshot next to the live sequence file does not start. *)
Theorem snapshot_before_reservation_refused cap m l1 now1 env n1 n2 rec inputs c l2 l3 now3 io :
  inv (l1, now1) -> sequenced m l1 -> op_well_typed rec ->
  (exists created, time_ok created /\ op_CreatedAt rec = formatRFC3339 created) ->
  ReserveVtxoOperation l1 env n1 n2 rec inputs c = (l2, Ok tt) ->
  rtc (lstep cap) (l2, now1) (l3, now3) ->
  exists e, (AttachMonotonic (set_db (l_db l1) l3) io (Some m)).2 = Err e.
Proof.
  intros Hi Hs Hty (created & Hc & Ec) Hres Hr.
  pose proof (lstep_simulated _ (l1, Z.max n1 n2) _ Hi (l_reserve (fun _ => c) _ (Z.max n1 n2) _ _ _ created _ _ _ _
    (Z.le_max_l n1 n2) (Z.le_max_r n1 n2) Hty Hc Ec Hres)) as [Hi2 _].
  pose proof (reserve_sequenced m _ _ _ _ _ _ _ _ _ Hi Hs Hres) as [Hs2 _].
  apply Reserve_cases in Hres as [_ [[_ [e He]]|(_ & d1 & rec' & H)]]; [done|].
  pose proof (reserve_rows _ _ _ _ _ _ _ _ _ (proj1 Hi) H) as Hrows. simpl in Hrows.
  destruct (lsteps_sequenced _ m _ _ Hr Hi2 Hs2) as (_ & (Hm3 & n3 & Hn3 & _) & [_ Hadv]). simpl in *.
  destruct Hs2 as (_ & n2' & Hn2 & Hle2). destruct (Hadv _ Hn2) as (n & Hn & Hle). rewrite Hn3 in Hn. injection Hn as <-.
  unfold AttachMonotonic, observeEconomicOutflowsLocked. simpl.
  destruct (economicOutflowCount (l_db l1)) as [k|e] eqn:E; [|by exists e].
  unfold economicOutflowCount in E. inv_ok.
  destruct (Observe_behind m io (l_file l3) (outflow_rows (l_db l1)) n3 Hn3) as [e ->]; [lia|]. by exists e.
Qed.

Lemma example_sequenced : sequenced example_seq example_l0.
Proof. split; [reflexivity|]. exists 0. split; vm_compute; [reflexivity|discriminate]. Qed.

Lemma snapshot_before_reservation_refused_witness :
  exists e, (AttachMonotonic (set_db (l_db example_l0) example_l1) WriteOk (Some example_seq)).2 = Err e.
Proof.
  exact (snapshot_before_reservation_refused example_cap example_seq example_l0 example_now example_env example_now example_now
    example_op [example_input] 20000 example_l1 example_l1 example_now WriteOk (fresh_inv _ _ example_fresh) example_sequenced
    example_op_typed (ex_intro _ example_now (conj (bool_decide_unpack (time_ok example_now) I) eq_refl)) example_reserved
    (rtc_refl _ _)).
Defined.

(** Settled rows are final: a finalized, aborted or unresolved row is never
    changed again by anything the system does. *)
Theorem terminal_rows_immutable cap st st' k r :
  inv st -> rtc (lstep cap) st st' -> t_vtxo_operation (l_db st.1) !! k = Some r -> terminal (op_State r) ->
  t_vtxo_operation (l_db st'.1) !! k = Some r.
Proof. intros Hi Hr Hk Ht. exact (proj2 (lsteps_keep _ _ _ _ _ Hr Hi Hk Ht)). Qed.

Lemma terminal_rows_immutable_witness :
  t_vtxo_operation (l_db example_stuck) !! op_OperationID example_op = Some example_unresolved.
Proof.
  exact (terminal_rows_immutable example_cap (example_stuck, example_now) (example_stuck, example_now + hour) _ _
    (example_stuck_inv _) (rtc_once _ _ (l_tick _ _ _ _ example_later))
    (proj1 example_stuck_row) (or_intror (or_intror (proj2 example_stuck_row)))).
Defined.

(** An unresolved spend fences its vault for good: after it, no reservation
    for the vault commits, whatever happens in between, and the attempt leaves
    the store unchanged. *)
Theorem unresolved_fences_vault cap st l now k r env n1 n2 rec inputs c l' res :
  inv st -> t_vtxo_operation (l_db st.1) !! k = Some r -> op_State r = vtxoStateUnresolved ->
  rtc (lstep cap) st (l, now) -> op_VaultID rec = op_VaultID r ->
  ReserveVtxoOperation l env n1 n2 rec inputs c = (l', res) ->
  l_db l' = l_db l /\ exists e, res = Err e.
Proof.
  intros Hi Hk Hs Hr Hv Hres. destruct (lsteps_keep _ _ _ _ _ Hr Hi Hk ltac:(unfold terminal; auto)) as [[W _] Hk'].
  simpl in *. apply Reserve_cases in Hres as [_ [?|(_ & d1 & rec' & H)]]; [done|exfalso].
  pose proof (abortExpired_wf _ _ _ _ _ W (rf_abort _ _ _ _ _ _ _ _ _ H)) as W1.
  assert (Hk1 : t_vtxo_operation d1 !! k = Some r)
    by (eapply abort_keeps; [exact W|exact (rf_abort _ _ _ _ _ _ _ _ _ H)|done|by rewrite Hs]).
  assert (Hne : k <> op_OperationID rec) by (intros ->; by rewrite (rf_fresh _ _ _ _ _ _ _ _ _ H) in Hk1).
  pose proof (rejectConcurrent_Ok _ _ _ _ _ W1 (rf_concurrent _ _ _ _ _ _ _ _ _ H) k r Hk1 (eq_sym Hv) Hne) as Hb.
  by rewrite Hs in Hb.
Qed.


Definition example_other : VtxoOperation :=
  MkVtxoOperation "0f0e0d0c0b0a09080706050403020100" "vault-a" "spend" (replicate 32 x01) "reserved"
    10 1 (replicate 32 x02) [x51] [] 0 None "" "" [] "" "" "" [x52] ""
    "2026-07-01T12:05:00Z" "2026-07-01T12:00:00Z" [x51] [].

Definition example_refused := ReserveVtxoOperation example_stuck example_env example_now example_now example_other [example_input] 20000.

Lemma unresolved_fences_vault_witness : l_db example_refused.1 = l_db example_stuck /\ exists e, example_refused.2 = Err e.
Proof.
  exact (unresolved_fences_vault example_cap (example_stuck, example_now) example_stuck example_now _ example_unresolved
    example_env example_now example_now example_other [example_input] 20000 _ _ (example_stuck_inv _) (proj1 example_stuck_row)
    (proj2 example_stuck_row) (rtc_refl _ _) eq_refl (surjective_pairing _)).
Defined.
