(* ===== verification/VaultBoard.v ===== *)
(** * The boarding journal: [src/internal/policy/vault_board.go], lines 412-1225

    Attempts of one boarding operation go through register, then delete or
    finalize; each phase is authorized, dispatched and submitted, in rows that
    are only ever appended.  Every operation is one transaction over the
    tables of [Ledger]. *)

From S2P Require Import Prelude Crypto Codec GoTime Program Monotonic Vtxo BoardRows Ledger.
From Stdlib Require Import Strings.Byte Strings.Ascii Strings.String.
From stdpp Require Import base decidable list strings gmap countable option sorting relations.
From Stdlib Require Import ZArith Lia.
Open Scope string_scope.
Open Scope list_scope.
Open Scope Z_scope.

(** ** Inserts *)

(** SQLite's [length] of a TEXT: characters before the first NUL; the
    continuation bytes that follow a lead byte are not counted. *)
Fixpoint text_length_from (in_char : bool) (s : string) : Z :=
  match s with
  | EmptyString => 0
  | String c s =>
      let n := Z.of_N (N_of_ascii c) in
      if n =? 0 then 0
      else if in_char && (128 <=? n) && (n <? 192) then text_length_from true s
      else 1 + text_length_from (192 <=? n) s
  end.
Definition text_length : string -> Z := text_length_from false.

(** [exit_delay = ...] of the schema of the deployment. *)
Definition schemaExitDelay (network : string) : Z :=
  if seqb network NetworkMainnet then MainnetVaultBoardV1ExitDelay else 604672.

Definition board_enrollment_check (network : string) (r : VaultBoardEnrollment) : bool :=
  seqb (be_Program r) "vault-board-v1" && (zlen (be_BoardingPub r) =? 33) && (zlen (be_CosignerPub r) =? 33) &&
  (zlen (be_OperatorPub r) =? 33) && (be_ExitDelay r =? schemaExitDelay network) && seqb (be_ExitDelayUnit r) "seconds" &&
  (zlen (be_PkScript r) =? 34) && (0 <? text_length (be_Address r)) && (text_length (be_Address r) <=? 128) &&
  (zlen (be_IntegrityMAC r) =? 32).

Definition board_operation_check (r : VaultBoardOperation) : bool :=
  (zlen (bo_Txid r) =? 32) && in_uint32 (bo_Vout r) && (0 <? bo_ValueSats r) && (zlen (bo_BoardingScript r) =? 34) &&
  (0 <? zlen (bo_ReceiverScript r)) && (zlen (bo_ReceiverScript r) <=? 10000) && (0 <? bo_SequenceAnchorMTP r) &&
  (zlen (bo_IntegrityMAC r) =? 32).

Definition txid_length_ok (s : string) : bool := (text_length s =? 0) || (text_length s =? 64).

(** [tree_session_pub] is stored as NULL when empty ([nullableVaultBoardBytes]). *)
Definition board_authorization_check (r : VaultBoardAuthorization) : bool :=
  let none := (text_length (ba_CommitmentTxid r) =? 0) && (text_length (ba_ReceiverTxid r) =? 0) && (ba_ReceiverVout r =? 0) in
  let free := (zlen (ba_TreeSessionPub r) =? 0) && (ba_ReceiverSats r =? 0) && (ba_FeeSats r =? 0) in
  in_uint32 (ba_Attempt r) && bool_decide (ba_Phase r ∈ ["register"; "delete"; "finalize"]) &&
  (zlen (ba_RequestDigest r) =? 32) && ((zlen (ba_TreeSessionPub r) =? 0) || (zlen (ba_TreeSessionPub r) =? 33)) &&
  (0 <=? ba_ReceiverSats r) && (0 <=? ba_FeeSats r) && (0 <=? ba_ExpireAt r) &&
  txid_length_ok (ba_CommitmentTxid r) && txid_length_ok (ba_ReceiverTxid r) && in_uint32 (ba_ReceiverVout r) &&
  (zlen (ba_IntegrityMAC r) =? 32) &&
  ((seqb (ba_Phase r) "register" && (0 <? ba_ExpireAt r) && (zlen (ba_TreeSessionPub r) =? 33) && (0 <? ba_ReceiverSats r) && none)
   || (seqb (ba_Phase r) "delete" && (0 <? ba_ExpireAt r) && free && none)
   || (seqb (ba_Phase r) "finalize" && (ba_ExpireAt r =? 0) && free &&
       (text_length (ba_CommitmentTxid r) =? 64) && (text_length (ba_ReceiverTxid r) =? 64))).

Definition board_submission_check (r : VaultBoardSubmission) : bool :=
  let none := (text_length (bs_CommitmentTxid r) =? 0) && (text_length (bs_ReceiverTxid r) =? 0) && (bs_ReceiverVout r =? 0) in
  let ref_ := text_length (bs_OperatorRef r) in
  (zlen (bs_RequestDigest r) =? 32) && bool_decide (bs_Outcome r ∈ ["submitted"; "released"; "rejected"]) && (ref_ <=? 256) &&
  txid_length_ok (bs_CommitmentTxid r) && txid_length_ok (bs_ReceiverTxid r) && in_uint32 (bs_ReceiverVout r) &&
  (zlen (bs_IntegrityMAC r) =? 32) &&
  ((seqb (bs_Phase r) "register" &&
     ((seqb (bs_Outcome r) "submitted" && (0 <? ref_)) || (seqb (bs_Outcome r) "rejected" && (ref_ =? 0))) && none)
   || (seqb (bs_Phase r) "delete" && seqb (bs_Outcome r) "released" && (ref_ =? 0) && none)
   || (seqb (bs_Phase r) "finalize" && seqb (bs_Outcome r) "submitted" && (ref_ =? 0) &&
       (text_length (bs_CommitmentTxid r) =? 64) && (text_length (bs_ReceiverTxid r) =? 64))).

Definition board_dispatch_check (r : VaultBoardDispatch) : bool :=
  (zlen (bd_RequestDigest r) =? 32) && (zlen (bd_IntegrityMAC r) =? 32).

Definition ba_pk (r : VaultBoardAuthorization) : phase_key := (ba_OperationID r, ba_Attempt r, ba_Phase r).
Definition bs_pk (r : VaultBoardSubmission) : phase_key := (bs_OperationID r, bs_Attempt r, bs_Phase r).
Definition bd_pk (r : VaultBoardDispatch) : phase_key := (bd_OperationID r, bd_Attempt r, bd_Phase r).

Definition PutVaultBoardEnrollmentTx (network : string) (d : Database) (r : VaultBoardEnrollment) : result Database :=
  require (bool_decide (t_vault_board_enrollment d !! be_VaultID r = None)) (ErrConstraint "UNIQUE vault_board_enrollment.vault_id");;
  require (bool_decide (be_VaultID r ∈ t_vault d)) (ErrConstraint "FOREIGN KEY");;
  require (board_enrollment_check network r) (ErrConstraint "CHECK");;
  Ok (set_vault_board_enrollment (<[be_VaultID r := r]> (t_vault_board_enrollment d)) d).

(** Another operation on the same vault and outpoint. *)
Definition same_board_outpoint (a b : VaultBoardOperation) : bool :=
  seqb (bo_VaultID a) (bo_VaultID b) && beqb (bo_Txid a) (bo_Txid b) && (bo_Vout a =? bo_Vout b).

Definition insertBoardOperation (d : Database) (r : VaultBoardOperation) : result Database :=
  require (bool_decide (t_vault_board_operation d !! bo_OperationID r = None)) (ErrConstraint "UNIQUE vault_board_operation.operation_id");;
  require (negb (existsb (same_board_outpoint r) (map snd (map_to_list (t_vault_board_operation d))))) (ErrConstraint "UNIQUE vault_id, txid, vout");;
  require (bool_decide (is_Some (t_vault_board_enrollment d !! bo_VaultID r))) (ErrConstraint "FOREIGN KEY");;
  require (board_operation_check r) (ErrConstraint "CHECK");;
  Ok (set_vault_board_operation (<[bo_OperationID r := r]> (t_vault_board_operation d)) d).

Definition insertBoardAuthorization (d : Database) (r : VaultBoardAuthorization) : result Database :=
  require (bool_decide (t_vault_board_authorization d !! ba_pk r = None)) (ErrConstraint "UNIQUE vault_board_authorization");;
  require (bool_decide (is_Some (t_vault_board_operation d !! ba_OperationID r))) (ErrConstraint "FOREIGN KEY");;
  require (board_authorization_check r) (ErrConstraint "CHECK");;
  Ok (set_vault_board_authorization (<[ba_pk r := r]> (t_vault_board_authorization d)) d).

Definition insertBoardDispatch (d : Database) (r : VaultBoardDispatch) : result Database :=
  require (bool_decide (t_vault_board_dispatch d !! bd_pk r = None)) (ErrConstraint "UNIQUE vault_board_dispatch");;
  require (bool_decide (is_Some (t_vault_board_authorization d !! bd_pk r))) (ErrConstraint "FOREIGN KEY");;
  require (board_dispatch_check r) (ErrConstraint "CHECK");;
  Ok (set_vault_board_dispatch (<[bd_pk r := r]> (t_vault_board_dispatch d)) d).

Definition insertBoardSubmission (d : Database) (r : VaultBoardSubmission) : result Database :=
  require (bool_decide (t_vault_board_submission d !! bs_pk r = None)) (ErrConstraint "UNIQUE vault_board_submission");;
  require (bool_decide (is_Some (t_vault_board_authorization d !! bs_pk r)) && bool_decide (is_Some (t_vault_board_dispatch d !! bs_pk r)))
    (ErrConstraint "FOREIGN KEY");;
  require (board_submission_check r) (ErrConstraint "CHECK");;
  Ok (set_vault_board_submission (<[bs_pk r := r]> (t_vault_board_submission d)) d).

(** ** Reads *)

Definition row_of {A} (o : option A) : result A := match o with Some r => Ok r | None => Err ErrNoRows end.

Definition loadVaultBoardOperation (d : Database) (id : string) : result VaultBoardOperation :=
  row_of (t_vault_board_operation d !! id).
Definition loadVaultBoardAuthorization (d : Database) (id : string) (attempt : Z) (phase : string) : result VaultBoardAuthorization :=
  row_of (t_vault_board_authorization d !! (id, attempt, phase)).
Definition loadVaultBoardSubmission (d : Database) (id : string) (attempt : Z) (phase : string) : result VaultBoardSubmission :=
  row_of (t_vault_board_submission d !! (id, attempt, phase)).
Definition loadVaultBoardDispatch (d : Database) (id : string) (attempt : Z) (phase : string) : result VaultBoardDispatch :=
  row_of (t_vault_board_dispatch d !! (id, attempt, phase)).

(** [WHERE operation_id = ? AND phase = 'register' ORDER BY attempt] *)
Definition attempt_le (a b : VaultBoardAuthorization) : Prop := ba_Attempt a <= ba_Attempt b.
#[export] Instance attempt_le_dec a b : Decision (attempt_le a b).
Proof. unfold attempt_le. apply _. Defined.

Definition boardRegisters (d : Database) (id : string) : list VaultBoardAuthorization :=
  merge_sort attempt_le (filter (fun r => ba_OperationID r = id /\ ba_Phase r = VaultBoardPhaseRegister)
    (map snd (map_to_list (t_vault_board_authorization d)))).

Definition loadLatestVaultBoardRegister (d : Database) (id : string) : result VaultBoardAuthorization :=
  row_of (last (boardRegisters d id)).

Definition loadVerifiedVaultBoardRegisters (d : Database) (key : bytes) (id : string) : result (list VaultBoardAuthorization) :=
  mapR (fun r => VerifyVaultBoardAuthorization r key;; Ok r) (boardRegisters d id).

(** [loadOptionalVerified*]: a missing row is fine, an unauthentic one is not. *)
Definition optionalVerified {A} (verify : A -> result unit) (r : result A) : result (option A) :=
  match r with
  | Ok rec => verify rec;; Ok (Some rec)
  | Err ErrNoRows => Ok None
  | Err e => Err e
  end.

Definition loadOptionalVerifiedVaultBoardAuthorization (d : Database) (key : bytes) id attempt phase :=
  optionalVerified (fun r => VerifyVaultBoardAuthorization r key) (loadVaultBoardAuthorization d id attempt phase).
Definition loadOptionalVerifiedVaultBoardSubmission (d : Database) (key : bytes) id attempt phase :=
  optionalVerified (fun r => VerifyVaultBoardSubmission r key) (loadVaultBoardSubmission d id attempt phase).
Definition loadOptionalVerifiedVaultBoardDispatch (d : Database) (key : bytes) id attempt phase :=
  optionalVerified (fun r => VerifyVaultBoardDispatch r key) (loadVaultBoardDispatch d id attempt phase).

Definition GetVaultBoardEnrollment (l : Ledger) (vaultID : string) : result (option VaultBoardEnrollment) :=
  require (negb (seqb vaultID "")) (Errorf "vault id required");;
  key ← integrityKeyCopy l;
  optionalVerified (fun r => VerifyVaultBoardEnrollment r key) (row_of (t_vault_board_enrollment (l_db l) !! vaultID)).

Record VaultBoardAttemptSnapshot := MkSnapshot {
  ss_Operation : VaultBoardOperation;
  ss_Register : VaultBoardAuthorization;
  ss_RegisterDispatch : option VaultBoardDispatch;
  ss_RegisterSubmission : option VaultBoardSubmission;
  ss_DeleteAuthorization : option VaultBoardAuthorization;
  ss_DeleteDispatch : option VaultBoardDispatch;
  ss_DeleteSubmission : option VaultBoardSubmission;
  ss_FinalAuthorization : option VaultBoardAuthorization;
  ss_FinalDispatch : option VaultBoardDispatch;
  ss_FinalSubmission : option VaultBoardSubmission
}.

(** A result or a dispatch carries the digest of its authorization. *)
Definition submission_matches (s : option VaultBoardSubmission) (a : option VaultBoardAuthorization) : bool :=
  match s, a with
  | None, _ => true
  | Some s, Some a => beqb (bs_RequestDigest s) (ba_RequestDigest a)
  | Some _, None => false
  end.
Definition dispatch_matches (s : option VaultBoardDispatch) (a : option VaultBoardAuthorization) : bool :=
  match s, a with
  | None, _ => true
  | Some s, Some a => beqb (bd_RequestDigest s) (ba_RequestDigest a)
  | Some _, None => false
  end.

(** The three dispatch checks run in Go's random map order; the order here only
    decides which of several mismatches is reported. *)
Definition GetCurrentVaultBoardAttempt (l : Ledger) (operationID : string) : result (option VaultBoardAttemptSnapshot) :=
  require (negb (seqb operationID "")) (Errorf "vault-board-v1 operation id required");;
  key ← integrityKeyCopy l;
  let d := l_db l in
  match t_vault_board_operation d !! operationID with
  | None => Ok None
  | Some operation =>
      VerifyVaultBoardOperation operation key;;
      match last (boardRegisters d operationID) with
      | None => Err (Errorf "vault-board-v1 operation has no register attempt")
      | Some register =>
          VerifyVaultBoardAuthorization register key;;
          let att := ba_Attempt register in
          rd ← loadOptionalVerifiedVaultBoardDispatch d key operationID att VaultBoardPhaseRegister;
          rs ← loadOptionalVerifiedVaultBoardSubmission d key operationID att VaultBoardPhaseRegister;
          da ← loadOptionalVerifiedVaultBoardAuthorization d key operationID att VaultBoardPhaseDelete;
          dd ← loadOptionalVerifiedVaultBoardDispatch d key operationID att VaultBoardPhaseDelete;
          ds ← loadOptionalVerifiedVaultBoardSubmission d key operationID att VaultBoardPhaseDelete;
          fa ← loadOptionalVerifiedVaultBoardAuthorization d key operationID att VaultBoardPhaseFinalize;
          fd ← loadOptionalVerifiedVaultBoardDispatch d key operationID att VaultBoardPhaseFinalize;
          fs ← loadOptionalVerifiedVaultBoardSubmission d key operationID att VaultBoardPhaseFinalize;
          require (submission_matches rs (Some register)) (Errorf "vault-board-v1 register result digest mismatch");;
          require (submission_matches ds da) (Errorf "vault-board-v1 delete result digest mismatch");;
          require (submission_matches fs fa) (Errorf "vault-board-v1 final result digest mismatch");;
          require (dispatch_matches rd (Some register)) (Errorf "vault-board-v1 register dispatch digest mismatch");;
          require (dispatch_matches dd da) (Errorf "vault-board-v1 delete dispatch digest mismatch");;
          require (dispatch_matches fd fa) (Errorf "vault-board-v1 finalize dispatch digest mismatch");;
          Ok (Some (MkSnapshot operation register rd rs da dd ds fa fd fs))
      end
  end.

(** ** Guards *)

Definition sameVaultBoardOperationFacts (stored proposed : VaultBoardOperation) : bool :=
  seqb (bo_OperationID stored) (bo_OperationID proposed) && seqb (bo_VaultID stored) (bo_VaultID proposed) &&
  beqb (bo_Txid stored) (bo_Txid proposed) && (bo_Vout stored =? bo_Vout proposed) &&
  (bo_ValueSats stored =? bo_ValueSats proposed) && beqb (bo_BoardingScript stored) (bo_BoardingScript proposed) &&
  beqb (bo_ReceiverScript stored) (bo_ReceiverScript proposed) &&
  (bo_SequenceAnchorMTP stored =? bo_SequenceAnchorMTP proposed).

Definition sameVaultBoardAuthorizationRequest (stored proposed : VaultBoardAuthorization) : bool :=
  seqb (ba_OperationID stored) (ba_OperationID proposed) && (ba_Attempt stored =? ba_Attempt proposed) &&
  seqb (ba_Phase stored) (ba_Phase proposed) && beqb (ba_RequestDigest stored) (ba_RequestDigest proposed) &&
  beqb (ba_TreeSessionPub stored) (ba_TreeSessionPub proposed) && (ba_ReceiverSats stored =? ba_ReceiverSats proposed) &&
  (ba_FeeSats stored =? ba_FeeSats proposed) && (ba_ExpireAt stored =? ba_ExpireAt proposed) &&
  seqb (ba_CommitmentTxid stored) (ba_CommitmentTxid proposed) && seqb (ba_ReceiverTxid stored) (ba_ReceiverTxid proposed) &&
  (ba_ReceiverVout stored =? ba_ReceiverVout proposed).

Definition requireVaultBoardCooperativeWindow (l : Ledger) (operation : VaultBoardOperation) (chain : VaultBoardChainState) : result unit :=
  pins ← PinsFor (l_network l);
  let delay := pin_BoardExitDelay pins in
  require (negb ((bo_SequenceAnchorMTP operation <=? 0) || (TipMTP chain <=? 0))) (Errorf "authoritative vault-board-v1 chain MTP required");;
  require (negb ((int64_max - delay <? bo_SequenceAnchorMTP operation) || (bo_SequenceAnchorMTP operation + delay <=? TipMTP chain)))
    (Errorf "vault-board-v1 cooperative path has matured").

Definition still_active := Errorf "previous vault-board-v1 register is still active".

Definition requireVaultBoardAttemptCanRotate (d : Database) (key : bytes) (id : string) (attempt now : Z) : result unit :=
  match t_vault_board_authorization d !! (id, attempt, VaultBoardPhaseFinalize) with
  | Some finalAuth =>
      VerifyVaultBoardAuthorization finalAuth key;;
      Err (Errorf "finalized vault-board-v1 attempt cannot rotate")
  | None =>
      register ← loadVaultBoardAuthorization d id attempt VaultBoardPhaseRegister;
      VerifyVaultBoardAuthorization register key;;
      match t_vault_board_dispatch d !! (id, attempt, VaultBoardPhaseRegister) with
      | None => Ok tt
      | Some registerDispatch =>
          VerifyVaultBoardDispatch registerDispatch key;;
          match t_vault_board_submission d !! (id, attempt, VaultBoardPhaseRegister) with
          | None => Err still_active
          | Some registerResult =>
              VerifyVaultBoardSubmission registerResult key;;
              if seqb (bs_Outcome registerResult) VaultBoardAuthRejected then Ok tt else
              let supersede :=
                require (seqb (bs_Outcome registerResult) VaultBoardAuthSubmitted &&
                         VaultBoardRegisterCanSupersede (ba_ExpireAt register) now) still_active in
              match t_vault_board_authorization d !! (id, attempt, VaultBoardPhaseDelete) with
              | None => supersede
              | Some deleteAuth =>
                  VerifyVaultBoardAuthorization deleteAuth key;;
                  match t_vault_board_dispatch d !! (id, attempt, VaultBoardPhaseDelete) with
                  | None => supersede
                  | Some deleteDispatch =>
                      VerifyVaultBoardDispatch deleteDispatch key;;
                      match t_vault_board_submission d !! (id, attempt, VaultBoardPhaseDelete) with
                      | None => Err still_active
                      | Some deleteResult =>
                          VerifyVaultBoardSubmission deleteResult key;;
                          require (seqb (bs_Outcome deleteResult) VaultBoardAuthReleased &&
                                   beqb (bs_RequestDigest deleteResult) (ba_RequestDigest deleteAuth)) still_active
                      end
                  end
              end
          end
      end
  end.

(** The row must be absent; a present one must authenticate before it is refused. *)
Definition refuseIfPresent {A} (verify : A -> result unit) (row : option A) (e : error) : result unit :=
  match row with Some r => verify r;; Err e | None => Ok tt end.

Definition requireVaultBoardAttemptCurrent (d : Database) (key : bytes) (id : string) (attempt : Z) : result unit :=
  match t_vault_board_submission d !! (id, attempt, VaultBoardPhaseRegister) with
  | Some registerResult =>
      VerifyVaultBoardSubmission registerResult key;;
      require (negb (seqb (bs_Outcome registerResult) VaultBoardAuthRejected)) (Errorf "vault-board-v1 register request was definitely rejected")
  | None => Ok tt
  end;;
  refuseIfPresent (fun r => VerifyVaultBoardAuthorization r key) (t_vault_board_authorization d !! (id, attempt, VaultBoardPhaseFinalize))
    (Errorf "vault-board-v1 attempt has final authorization");;
  refuseIfPresent (fun r => VerifyVaultBoardAuthorization r key) (t_vault_board_authorization d !! (id, attempt, VaultBoardPhaseDelete))
    (Errorf "vault-board-v1 attempt has delete authorization");;
  refuseIfPresent (fun r => VerifyVaultBoardSubmission r key) (t_vault_board_submission d !! (id, attempt, VaultBoardPhaseDelete))
    (Errorf "vault-board-v1 attempt was authoritatively released").

Definition validateVaultBoardPhaseOrder (d : Database) (key : bytes) (auth : VaultBoardAuthorization) : result unit :=
  latest ← loadLatestVaultBoardRegister d (ba_OperationID auth);
  VerifyVaultBoardAuthorization latest key;;
  require (ba_Attempt latest =? ba_Attempt auth) (Errorf "vault-board-v1 attempt is no longer current");;
  let register := t_vault_board_authorization d !! (ba_OperationID auth, ba_Attempt auth, VaultBoardPhaseRegister) in
  match register with Some r => VerifyVaultBoardAuthorization r key | None => Ok tt end;;
  if seqb (ba_Phase auth) VaultBoardPhaseDelete || seqb (ba_Phase auth) VaultBoardPhaseFinalize then
    require (bool_decide (is_Some register)) (Errorf "vault-board-v1 register authorization required");;
    match t_vault_board_submission d !! (ba_OperationID auth, ba_Attempt auth, VaultBoardPhaseRegister) with
    | None => Err (Errorf "vault-board-v1 register submission required")
    | Some registerSubmission =>
        VerifyVaultBoardSubmission registerSubmission key;;
        require (seqb (bs_Outcome registerSubmission) VaultBoardAuthSubmitted) (Errorf "vault-board-v1 register was not accepted");;
        let opposite := if seqb (ba_Phase auth) VaultBoardPhaseFinalize then VaultBoardPhaseDelete else VaultBoardPhaseFinalize in
        refuseIfPresent (fun r => VerifyVaultBoardAuthorization r key)
          (t_vault_board_authorization d !! (ba_OperationID auth, ba_Attempt auth, opposite))
          (Errorf "vault-board-v1 delete and finalize are mutually exclusive")
    end
  else Err (Errorf "invalid vault-board-v1 phase").

(** ** Begin an attempt *)

(** The prior attempt that shares the digest or the tree key, and whether it is
    the latest one. *)
Fixpoint findPrior (request : VaultBoardRegisterRequest) (registers : list VaultBoardAuthorization)
  : option (VaultBoardAuthorization * bool) :=
  match registers with
  | [] => None
  | prior :: rest =>
      if beqb (ba_RequestDigest prior) (rr_RequestDigest request) || beqb (ba_TreeSessionPub prior) (rr_TreeSessionPub request)
      then Some (prior, match rest with [] => true | _ => false end)
      else findPrior request rest
  end.

Definition sameRegisterRequest (prior : VaultBoardAuthorization) (request : VaultBoardRegisterRequest) : bool :=
  beqb (ba_RequestDigest prior) (rr_RequestDigest request) && beqb (ba_TreeSessionPub prior) (rr_TreeSessionPub request) &&
  (ba_ReceiverSats prior =? rr_ReceiverSats request) && (ba_FeeSats prior =? rr_FeeSats request) &&
  (ba_ExpireAt prior =? rr_ExpireAt request).

(** [t0] is the reading that bounds [ExpireAt], [now] the one inside the transaction. *)
Definition registerRequestOk (t0 : Z) (operation : VaultBoardOperation) (request : VaultBoardRegisterRequest) : bool :=
  negb (negb (zlen (rr_RequestDigest request) =? sha256_size) || negb (zlen (rr_TreeSessionPub request) =? 33)
        || (rr_ReceiverSats request <=? 0) || (rr_FeeSats request <? 0)
        || (int64_max - rr_FeeSats request <? rr_ReceiverSats request)
        || negb (rr_ReceiverSats request + rr_FeeSats request =? bo_ValueSats operation)
        || (rr_ExpireAt request <=? unix t0)).

(** The stored operation: verified and compared, or sealed and inserted. *)
Definition bindOperation (d : Database) (key : bytes) (now : Z) (operation : VaultBoardOperation) : result (Database * VaultBoardOperation) :=
  match t_vault_board_operation d !! bo_OperationID operation with
  | Some stored =>
      VerifyVaultBoardOperation stored key;;
      require (sameVaultBoardOperationFacts stored operation) (Errorf "vault-board-v1 outpoint is bound to different economic facts");;
      Ok (d, stored)
  | None =>
      operation ← SealVaultBoardOperation (bo_set_identity (bo_OperationID operation) (formatRFC3339Nano now) operation) key;
      d ← insertBoardOperation d operation;
      Ok (d, operation)
  end.

Definition nextAttempt (d : Database) (key : bytes) (id : string) (registers : list VaultBoardAuthorization) (now : Z) : result Z :=
  match last registers with
  | None => Ok 0
  | Some latest =>
      require (negb (ba_Attempt latest =? uint32_max)) (Errorf "vault-board-v1 attempt overflow");;
      requireVaultBoardAttemptCanRotate d key id (ba_Attempt latest) now;;
      Ok (ba_Attempt latest + 1)
  end.

Definition beginBody (l : Ledger) (t0 now : Z) (operation : VaultBoardOperation) (request : VaultBoardRegisterRequest)
    (chain : VaultBoardChainState) : tx_result (VaultBoardOperation * VaultBoardAuthorization * bool) :=
  operationID ← ComputeVaultBoardOperationID (bo_VaultID operation) (bo_Txid operation) (bo_Vout operation);
  require (seqb (bo_OperationID operation) "" || seqb (bo_OperationID operation) operationID) (Errorf "vault-board-v1 operation id is server-derived");;
  require (registerRequestOk t0 operation request) (Errorf "vault-board-v1 finite register request required");;
  key ← integrityKeyCopy l;
  '(d, stored) ← bindOperation (l_db l) key now (bo_set_identity operationID (bo_CreatedAt operation) operation);
  requireVaultBoardCooperativeWindow l stored chain;;
  registers ← loadVerifiedVaultBoardRegisters d key operationID;
  match findPrior request registers with
  | Some (prior, isLatest) =>
      require (isLatest && sameRegisterRequest prior request) (Errorf "vault-board-v1 attempt must rotate register digest and tree session key");;
      requireVaultBoardAttemptCurrent d key operationID (ba_Attempt prior);;
      Ok (d, false, (stored, prior, false))
  | None =>
      attempt ← nextAttempt d key operationID registers now;
      auth ← SealVaultBoardAuthorization
        (MkBoardAuthorization operationID attempt VaultBoardPhaseRegister (rr_RequestDigest request) (rr_TreeSessionPub request)
           (rr_ReceiverSats request) (rr_FeeSats request) (rr_ExpireAt request) "" "" 0 (formatRFC3339Nano now) []) key;
      d ← insertBoardAuthorization d auth;
      Ok (d, true, (stored, auth, true))
  end.

Definition BeginVaultBoardAttempt (l : Ledger) (env : Env) (t0 now : Z) operation request chain :=
  commitTx l env (beginBody l t0 now operation request chain).

(** ** Authorize and dispatch delete or finalize *)

(** The stored authorization of the phase, or the new one after the order checks. *)
Definition bindAuthorization (d : Database) (key : bytes) (now : Z) (auth : VaultBoardAuthorization) : result (Database * VaultBoardAuthorization) :=
  match t_vault_board_authorization d !! ba_pk auth with
  | Some storedAuth =>
      VerifyVaultBoardAuthorization storedAuth key;;
      require (sameVaultBoardAuthorizationRequest storedAuth auth) (Errorf "vault-board-v1 phase is bound to a different exact request");;
      Ok (d, storedAuth)
  | None =>
      validateVaultBoardPhaseOrder d key auth;;
      auth ← SealVaultBoardAuthorization (ba_set_CreatedAt (formatRFC3339Nano now) auth) key;
      d ← insertBoardAuthorization d auth;
      Ok (d, auth)
  end.

Definition dispatchOf (auth : VaultBoardAuthorization) (now : Z) : VaultBoardDispatch :=
  MkBoardDispatch (ba_OperationID auth) (ba_Attempt auth) (ba_Phase auth) (ba_RequestDigest auth) (formatRFC3339Nano now) [].

Definition authorizeBody (l : Ledger) (now1 now2 : Z) (auth : VaultBoardAuthorization) (chain : VaultBoardChainState)
  : tx_result (VaultBoardAuthorization * VaultBoardDispatch * bool) :=
  require (seqb (ba_Phase auth) VaultBoardPhaseDelete || seqb (ba_Phase auth) VaultBoardPhaseFinalize) (Errorf "vault-board-v1 atomic dispatch is delete/final only");;
  require (negb (seqb (ba_OperationID auth) "")) (Errorf "vault-board-v1 operation required");;
  key ← integrityKeyCopy l;
  operation ← loadVaultBoardOperation (l_db l) (ba_OperationID auth);
  VerifyVaultBoardOperation operation key;;
  requireVaultBoardCooperativeWindow l operation chain;;
  latest ← loadLatestVaultBoardRegister (l_db l) (ba_OperationID auth);
  VerifyVaultBoardAuthorization latest key;;
  require (ba_Attempt latest =? ba_Attempt auth) (Errorf "vault-board-v1 attempt is no longer current");;
  '(d, auth) ← bindAuthorization (l_db l) key now1 auth;
  match t_vault_board_dispatch d !! ba_pk auth with
  | Some existing =>
      VerifyVaultBoardDispatch existing key;;
      require (beqb (bd_RequestDigest existing) (ba_RequestDigest auth)) (Errorf "vault-board-v1 dispatch request changed");;
      Ok (d, false, (auth, existing, false))
  | None =>
      require (bool_decide (t_vault_board_submission d !! ba_pk auth = None)) (Errorf "vault-board-v1 result already recorded");;
      dispatch ← SealVaultBoardDispatch (dispatchOf auth now2) key;
      d ← insertBoardDispatch d dispatch;
      Ok (d, true, (auth, dispatch, true))
  end.

Definition AppendVaultBoardAuthorizationAndDispatch (l : Ledger) (env : Env) (now1 now2 : Z) auth chain :=
  commitTx l env (authorizeBody l now1 now2 auth chain).

(** ** Dispatch *)

Definition dispatchBody (l : Ledger) (now : Z) (rec : VaultBoardDispatch) (chain : VaultBoardChainState)
  : tx_result (VaultBoardDispatch * bool) :=
  let d := l_db l in
  key ← integrityKeyCopy l;
  operation ← loadVaultBoardOperation d (bd_OperationID rec);
  VerifyVaultBoardOperation operation key;;
  requireVaultBoardCooperativeWindow l operation chain;;
  match t_vault_board_dispatch d !! bd_pk rec with
  | Some existing =>
      VerifyVaultBoardDispatch existing key;;
      require (beqb (bd_RequestDigest existing) (bd_RequestDigest rec)) (Errorf "vault-board-v1 dispatch request changed");;
      Ok (d, false, (existing, false))
  | None =>
      auth ← loadVaultBoardAuthorization d (bd_OperationID rec) (bd_Attempt rec) (bd_Phase rec);
      VerifyVaultBoardAuthorization auth key;;
      require (beqb (ba_RequestDigest auth) (bd_RequestDigest rec)) (Errorf "vault-board-v1 dispatch request changed");;
      latest ← loadLatestVaultBoardRegister d (bd_OperationID rec);
      VerifyVaultBoardAuthorization latest key;;
      require (ba_Attempt latest =? bd_Attempt rec) (Errorf "vault-board-v1 attempt is no longer current");;
      require (bool_decide (t_vault_board_submission d !! bd_pk rec = None)) (Errorf "vault-board-v1 result already recorded");;
      rec ← SealVaultBoardDispatch (bd_set_CreatedAt (formatRFC3339Nano now) rec) key;
      d ← insertBoardDispatch d rec;
      Ok (d, true, (rec, true))
  end.

Definition AppendVaultBoardDispatch (l : Ledger) (env : Env) (now : Z) rec chain :=
  commitTx l env (dispatchBody l now rec chain).

(** ** Submission *)

Definition sameSubmission (current rec : VaultBoardSubmission) : bool :=
  beqb (bs_RequestDigest current) (bs_RequestDigest rec) && seqb (bs_Outcome current) (bs_Outcome rec) &&
  seqb (bs_OperatorRef current) (bs_OperatorRef rec) && seqb (bs_CommitmentTxid current) (bs_CommitmentTxid rec) &&
  seqb (bs_ReceiverTxid current) (bs_ReceiverTxid rec) && (bs_ReceiverVout current =? bs_ReceiverVout rec).

Definition submissionBody (l : Ledger) (now : Z) (rec : VaultBoardSubmission) : tx_result (VaultBoardSubmission * bool) :=
  let d := l_db l in
  key ← integrityKeyCopy l;
  match t_vault_board_submission d !! bs_pk rec with
  | Some current =>
      VerifyVaultBoardSubmission current key;;
      require (sameSubmission current rec) (Errorf "vault-board-v1 Operator result changed");;
      Ok (d, false, (current, false))
  | None =>
      auth ← loadVaultBoardAuthorization d (bs_OperationID rec) (bs_Attempt rec) (bs_Phase rec);
      VerifyVaultBoardAuthorization auth key;;
      require (beqb (ba_RequestDigest auth) (bs_RequestDigest rec)) (Errorf "vault-board-v1 request changed");;
      match t_vault_board_dispatch d !! bs_pk rec with
      | None => Err (Errorf "vault-board-v1 dispatch required")
      | Some dispatch =>
          VerifyVaultBoardDispatch dispatch key;;
          require (beqb (bd_RequestDigest dispatch) (bs_RequestDigest rec)) (Errorf "vault-board-v1 dispatch request changed");;
          rec ← SealVaultBoardSubmission (bs_set_CreatedAt (formatRFC3339Nano now) rec) key;
          d ← insertBoardSubmission d rec;
          Ok (d, true, (rec, true))
      end
  end.

Definition AppendVaultBoardSubmission (l : Ledger) (env : Env) (now : Z) (rec : VaultBoardSubmission) :=
  commitTx l env (submissionBody l now rec).

(** ** The journal's invariant *)

Record board_core (key : bytes) (d : Database) : Prop := {
  bi_op : forall k r, t_vault_board_operation d !! k = Some r ->
    bo_OperationID r = k /\ VerifyVaultBoardOperation r key = Ok tt;
  bi_auth : forall k r, t_vault_board_authorization d !! k = Some r ->
    ba_pk r = k /\ VerifyVaultBoardAuthorization r key = Ok tt /\ is_Some (t_vault_board_operation d !! ba_OperationID r);
  bi_disp : forall k r, t_vault_board_dispatch d !! k = Some r ->
    bd_pk r = k /\ VerifyVaultBoardDispatch r key = Ok tt /\
    exists a, t_vault_board_authorization d !! k = Some a /\ ba_RequestDigest a = bd_RequestDigest r;
  bi_sub : forall k r, t_vault_board_submission d !! k = Some r ->
    bs_pk r = k /\ VerifyVaultBoardSubmission r key = Ok tt /\
    exists s, t_vault_board_dispatch d !! k = Some s /\ bd_RequestDigest s = bs_RequestDigest r;
  bi_phase : forall id a p r, t_vault_board_authorization d !! (id, a, p) = Some r -> p <> VaultBoardPhaseRegister ->
    is_Some (t_vault_board_authorization d !! (id, a, VaultBoardPhaseRegister)) /\
    exists s, t_vault_board_submission d !! (id, a, VaultBoardPhaseRegister) = Some s /\ bs_Outcome s = VaultBoardAuthSubmitted;
  bi_excl : forall id a, is_Some (t_vault_board_authorization d !! (id, a, VaultBoardPhaseDelete)) ->
    t_vault_board_authorization d !! (id, a, VaultBoardPhaseFinalize) = None;
  bi_final : forall id a a', is_Some (t_vault_board_authorization d !! (id, a, VaultBoardPhaseFinalize)) ->
    is_Some (t_vault_board_authorization d !! (id, a', VaultBoardPhaseRegister)) -> a' <= a
}.

(** No delete or finalize authorization without its dispatch. *)
Definition dispatched (d : Database) : Prop :=
  forall id a p, is_Some (t_vault_board_authorization d !! (id, a, p)) -> p <> VaultBoardPhaseRegister ->
    is_Some (t_vault_board_dispatch d !! (id, a, p)).

Definition board_inv (key : bytes) (d : Database) : Prop := board_core key d /\ dispatched d.

(** Rows are only ever added, to these tables only. *)
Record appends (d d' : Database) : Prop := {
  ap_vault : t_vault d' = t_vault d;
  ap_vtxo : t_vtxo_operation d' = t_vtxo_operation d;
  ap_input : t_vtxo_operation_input d' = t_vtxo_operation_input d;
  ap_count : t_webauthn_sign_count d' = t_webauthn_sign_count d;
  ap_enrollment : t_vault_board_enrollment d' = t_vault_board_enrollment d;
  ap_operation : t_vault_board_operation d ⊆ t_vault_board_operation d';
  ap_authorization : t_vault_board_authorization d ⊆ t_vault_board_authorization d';
  ap_dispatch : t_vault_board_dispatch d ⊆ t_vault_board_dispatch d';
  ap_submission : t_vault_board_submission d ⊆ t_vault_board_submission d'
}.

#[export] Instance appends_preorder : PreOrder appends.
Proof.
  split; [intros d; by constructor|]. intros d1 d2 d3 [] []. constructor; try congruence; by etrans.
Qed.

Lemma appends_rows d d' : appends d d' -> outflow_rows d <= outflow_rows d'.
Proof.
  intros []. unfold outflow_rows. rewrite ap_vtxo0.
  pose proof (map_subseteq_size _ _ ap_authorization0). pose proof (map_subseteq_size _ _ ap_dispatch0).
  pose proof (map_subseteq_size _ _ ap_submission0). lia.
Qed.

(** ** Inserts preserve it *)

Lemma insertBoardOperation_Ok d r d' : insertBoardOperation d r = Ok d' ->
  t_vault_board_operation d !! bo_OperationID r = None /\
  d' = set_vault_board_operation (<[bo_OperationID r := r]> (t_vault_board_operation d)) d.
Proof. unfold insertBoardOperation. intros H. inv_ok. by bool_prop. Qed.

Lemma insertBoardAuthorization_Ok d r d' : insertBoardAuthorization d r = Ok d' ->
  t_vault_board_authorization d !! ba_pk r = None /\ is_Some (t_vault_board_operation d !! ba_OperationID r) /\
  d' = set_vault_board_authorization (<[ba_pk r := r]> (t_vault_board_authorization d)) d.
Proof. unfold insertBoardAuthorization. intros H. inv_ok. by bool_prop. Qed.

Lemma insertBoardDispatch_Ok d r d' : insertBoardDispatch d r = Ok d' ->
  t_vault_board_dispatch d !! bd_pk r = None /\
  d' = set_vault_board_dispatch (<[bd_pk r := r]> (t_vault_board_dispatch d)) d.
Proof. unfold insertBoardDispatch. intros H. inv_ok. by bool_prop. Qed.

Lemma insertBoardSubmission_Ok d r d' : insertBoardSubmission d r = Ok d' ->
  t_vault_board_submission d !! bs_pk r = None /\
  d' = set_vault_board_submission (<[bs_pk r := r]> (t_vault_board_submission d)) d.
Proof. unfold insertBoardSubmission. intros H. inv_ok. by bool_prop. Qed.

Lemma is_Some_insert {K V} `{Countable K} (m : gmap K V) k k' v : is_Some (m !! k') -> is_Some (<[k := v]> m !! k').
Proof. intros [x Hx]. destruct (decide (k = k')) as [->|]; [rewrite lookup_insert_eq|rewrite lookup_insert_ne by done]; eauto. Qed.

Lemma insert_keeps {K V} `{Countable K} (m : gmap K V) k k' v x : m !! k = None -> m !! k' = Some x -> <[k := v]> m !! k' = Some x.
Proof. intros Hk Hx. rewrite lookup_insert_ne; [done|]. congruence. Qed.

(** Lookups in a table with one more row. *)
Ltac table_cases :=
  repeat match goal with
  | H : <[_ := _]> _ !! _ = Some _ |- _ => apply lookup_insert_Some in H as [[? ?]|[? H]]
  | H : is_Some (<[_ := _]> _ !! _) |- _ => let x := fresh "x" in destruct H as [x H]
  end.

Lemma phases_distinct : VaultBoardPhaseRegister <> VaultBoardPhaseDelete /\
  VaultBoardPhaseRegister <> VaultBoardPhaseFinalize /\ VaultBoardPhaseDelete <> VaultBoardPhaseFinalize.
Proof. done. Qed.

Lemma insert_operation_inv key d r d' : board_inv key d -> VerifyVaultBoardOperation r key = Ok tt ->
  insertBoardOperation d r = Ok d' -> board_inv key d' /\ appends d d'.
Proof.
  intros [C D] Hv (Hn & ->)%insertBoardOperation_Ok. destruct C. split; [split; [constructor; simpl|done]|].
  - intros k x Hk. table_cases; [by subst|]. by apply bi_op0.
  - intros k x Hk. destruct (bi_auth0 _ _ Hk) as (? & ? & ?). split_and!; [done..|]. by apply is_Some_insert.
  - done.
  - done.
  - done.
  - done.
  - done.
  - constructor; simpl; try done. by apply insert_subseteq.
Qed.

Lemma insert_register_inv key d r d' : board_inv key d -> VerifyVaultBoardAuthorization r key = Ok tt ->
  ba_Phase r = VaultBoardPhaseRegister ->
  (forall a, t_vault_board_authorization d !! (ba_OperationID r, a, VaultBoardPhaseFinalize) = None) ->
  insertBoardAuthorization d r = Ok d' -> board_inv key d' /\ appends d d'.
Proof.
  intros [C D] Hv Hp Hnf (Hn & Hop & ->)%insertBoardAuthorization_Ok. destruct C. pose proof phases_distinct as (P1 & P2 & P3).
  assert (Hpk : ba_pk r = (ba_OperationID r, ba_Attempt r, VaultBoardPhaseRegister)) by (unfold ba_pk; by rewrite Hp).
  split; [split; [constructor; simpl|]|].
  - done.
  - intros k x Hk. table_cases; [by subst|]. by apply bi_auth0.
  - intros k x Hk. destruct (bi_disp0 _ _ Hk) as (? & ? & a & Ha & ?). split_and!; [done..|]. exists a. split; [|done].
    by apply insert_keeps.
  - done.
  - intros id a p x Hk Hne. table_cases; [congruence|]. destruct (bi_phase0 _ _ _ _ Hk Hne) as [? ?].
    split; [by apply is_Some_insert|done].
  - intros id a Hk. table_cases; [congruence|]. rewrite lookup_insert_ne; [by apply bi_excl0|]. congruence.
  - intros id a a' H1 H2. table_cases; try congruence.
    eapply bi_final0; eauto.
  - intros id a p Hk Hne. simpl in *. table_cases; [congruence|]. eapply D; eauto.
  - constructor; simpl; try done. by apply insert_subseteq.
Qed.

Lemma insert_phase_core key d r d' : board_inv key d -> VerifyVaultBoardAuthorization r key = Ok tt ->
  let id := ba_OperationID r in let a := ba_Attempt r in
  ba_Phase r = VaultBoardPhaseDelete \/ ba_Phase r = VaultBoardPhaseFinalize ->
  is_Some (t_vault_board_authorization d !! (id, a, VaultBoardPhaseRegister)) ->
  (exists s, t_vault_board_submission d !! (id, a, VaultBoardPhaseRegister) = Some s /\ bs_Outcome s = VaultBoardAuthSubmitted) ->
  (forall a', is_Some (t_vault_board_authorization d !! (id, a', VaultBoardPhaseRegister)) -> a' <= a) ->
  (ba_Phase r = VaultBoardPhaseDelete -> t_vault_board_authorization d !! (id, a, VaultBoardPhaseFinalize) = None) ->
  (ba_Phase r = VaultBoardPhaseFinalize -> t_vault_board_authorization d !! (id, a, VaultBoardPhaseDelete) = None) ->
  insertBoardAuthorization d r = Ok d' -> board_core key d' /\ appends d d'.
Proof.
  intros [C D] Hv id a Hp Hreg Hsub Hmax Hd Hf (Hn & Hop & ->)%insertBoardAuthorization_Ok. destruct C.
  pose proof phases_distinct as (P1 & P2 & P3). unfold ba_pk in *. fold id a in Hn |- *. set (p0 := ba_Phase r) in *.
  assert (Hp0 : p0 <> VaultBoardPhaseRegister) by (intros E; rewrite E in Hp; destruct Hp; congruence).
  split; [constructor; simpl|].
  - done.
  - intros k x Hk. table_cases; [by subst|]. by apply bi_auth0.
  - intros k x Hk. destruct (bi_disp0 _ _ Hk) as (? & ? & y & Hy & ?). split_and!; [done..|]. exists y. split; [|done].
    by apply insert_keeps.
  - done.
  - intros id' a' p x Hk Hne. table_cases.
    + simplify_eq. split; [by apply is_Some_insert|done].
    + destruct (bi_phase0 _ _ _ _ Hk Hne) as [? ?]. split; [by apply is_Some_insert|done].
  - intros id' a' Hk. table_cases.
    + simplify_eq. rewrite lookup_insert_ne by congruence. apply Hd. congruence.
    + destruct (decide ((id, a, p0) = (id', a', VaultBoardPhaseFinalize))) as [E|].
      * simplify_eq. rewrite Hf in *; [done|congruence].
      * rewrite lookup_insert_ne by done. apply bi_excl0. eauto.
  - intros id' a1 a2 H1 H2. table_cases; simplify_eq.
    + apply Hmax. eauto.
    + eapply bi_final0; eauto.
  - constructor; simpl; try done. by apply insert_subseteq.
Qed.

Lemma insert_dispatch_core key d r d' : board_core key d -> VerifyVaultBoardDispatch r key = Ok tt ->
  (exists a, t_vault_board_authorization d !! bd_pk r = Some a /\ ba_RequestDigest a = bd_RequestDigest r) ->
  insertBoardDispatch d r = Ok d' -> board_core key d' /\ appends d d'.
Proof.
  intros C Hv Ha (Hn & ->)%insertBoardDispatch_Ok. destruct C. split; [constructor; simpl; try done|].
  - intros k x Hk. table_cases; [by subst|]. by apply bi_disp0.
  - intros k x Hk. destruct (bi_sub0 _ _ Hk) as (? & ? & y & Hy & ?). split_and!; [done..|]. exists y. split; [|done].
    by apply insert_keeps.
  - constructor; simpl; try done. by apply insert_subseteq.
Qed.

Lemma insert_submission_inv key d r d' : board_inv key d -> VerifyVaultBoardSubmission r key = Ok tt ->
  (exists s, t_vault_board_dispatch d !! bs_pk r = Some s /\ bd_RequestDigest s = bs_RequestDigest r) ->
  insertBoardSubmission d r = Ok d' -> board_inv key d' /\ appends d d'.
Proof.
  intros [C D] Hv Hs (Hn & ->)%insertBoardSubmission_Ok. destruct C. split; [split; [constructor; simpl; try done|done]|].
  - intros k x Hk. table_cases; [by subst|]. by apply bi_sub0.
  - intros id a p x Hk Hne. destruct (bi_phase0 _ _ _ _ Hk Hne) as (? & s & Hls & ?). split; [done|]. exists s.
    split; [by apply insert_keeps|done].
  - constructor; simpl; try done. by apply insert_subseteq.
Qed.

(** ** The latest register *)

#[export] Instance attempt_le_trans : Transitive attempt_le.
Proof. intros x y z. unfold attempt_le. lia. Qed.
#[export] Instance attempt_le_total : Total attempt_le.
Proof. intros x y. unfold attempt_le. lia. Qed.

Lemma elem_of_boardRegisters key d id r : board_core key d ->
  r ∈ boardRegisters d id <-> t_vault_board_authorization d !! (id, ba_Attempt r, VaultBoardPhaseRegister) = Some r /\
    ba_OperationID r = id /\ ba_Phase r = VaultBoardPhaseRegister.
Proof.
  intros C. unfold boardRegisters. rewrite merge_sort_Permutation, list_elem_of_filter, list_elem_of_fmap.
  split.
  - intros [H1 ([k x] & -> & Hk%elem_of_map_to_list)]. simpl in *. destruct (bi_auth _ _ C _ _ Hk) as (<- & _).
    split; [|done]. destruct H1 as [<- <-]. by unfold ba_pk in Hk.
  - intros [H1 H2]. split; [done|]. exists ((id, ba_Attempt r, VaultBoardPhaseRegister), r). split; [done|]. by apply elem_of_map_to_list.
Qed.

Lemma last_max l x : StronglySorted attempt_le l -> last l = Some x -> forall y, y ∈ l -> attempt_le y x.
Proof.
  intros Hs. induction Hs as [|a l Hs IH Ha]; [done|]. destruct l as [|b l].
  - intros [= ->] y Hy. apply list_elem_of_singleton in Hy as ->. unfold attempt_le. lia.
  - intros Hl y [->|Hy]%elem_of_cons; [|by apply IH]. rewrite Forall_forall in Ha. apply Ha.
    apply last_Some_elem_of. exact Hl.
Qed.

(** The latest register is stored, and every register of the operation is at most its attempt. *)
Lemma latest_spec key d id r : board_core key d -> last (boardRegisters d id) = Some r ->
  t_vault_board_authorization d !! (id, ba_Attempt r, VaultBoardPhaseRegister) = Some r /\
  forall a, is_Some (t_vault_board_authorization d !! (id, a, VaultBoardPhaseRegister)) -> a <= ba_Attempt r.
Proof.
  intros C Hl. split; [by apply (elem_of_boardRegisters key), last_Some_elem_of|].
  intros a [x Hx]. destruct (bi_auth _ _ C _ _ Hx) as (Hk & _). unfold ba_pk in Hk. injection Hk as E1 E2 E3.
  rewrite <-E2. apply (last_max (boardRegisters d id)); [apply StronglySorted_merge_sort; apply _|done|].
  apply (elem_of_boardRegisters key); [done|]. by rewrite E2.
Qed.

Lemma no_register_no_phase key d id a p : board_core key d -> boardRegisters d id = [] ->
  t_vault_board_authorization d !! (id, a, p) = None.
Proof.
  intros C Hl. destruct (t_vault_board_authorization d !! (id, a, p)) as [x|] eqn:Hx; [|done]. exfalso.
  assert (Hr : is_Some (t_vault_board_authorization d !! (id, a, VaultBoardPhaseRegister))).
  { destruct (decide (p = VaultBoardPhaseRegister)) as [->|Hne]; [eauto|]. by destruct (bi_phase _ _ C _ _ _ _ Hx Hne). }
  destruct Hr as [r Hr]. destruct (bi_auth _ _ C _ _ Hr) as (Hk & _). unfold ba_pk in Hk. injection Hk as E1 E2 E3.
  assert (Hin : r ∈ boardRegisters d id) by (apply (elem_of_boardRegisters key); [done|]; by rewrite E2).
  rewrite Hl in Hin. by apply not_elem_of_nil in Hin.
Qed.

(** ** What the guards establish *)

(** Why an attempt may be replaced: it never left the process, the Operator
    rejected it, it was released, or its register proof expired. *)
Inductive rotatable (d : Database) (id : string) (a now : Z) : Prop :=
  | rot_undispatched : t_vault_board_dispatch d !! (id, a, VaultBoardPhaseRegister) = None -> rotatable d id a now
  | rot_rejected s : t_vault_board_submission d !! (id, a, VaultBoardPhaseRegister) = Some s ->
      bs_Outcome s = VaultBoardAuthRejected -> rotatable d id a now
  | rot_released s : t_vault_board_submission d !! (id, a, VaultBoardPhaseDelete) = Some s ->
      bs_Outcome s = VaultBoardAuthReleased -> rotatable d id a now
  | rot_expired s r : t_vault_board_submission d !! (id, a, VaultBoardPhaseRegister) = Some s ->
      bs_Outcome s = VaultBoardAuthSubmitted ->
      t_vault_board_authorization d !! (id, a, VaultBoardPhaseRegister) = Some r ->
      ba_ExpireAt r + 30 <= unix now -> rotatable d id a now.

Lemma can_supersede_spec e now : VaultBoardRegisterCanSupersede e now = true -> e + 30 <= unix now.
Proof. unfold VaultBoardRegisterCanSupersede, vaultBoardRegisterQuarantineSeconds, unix, second. intros H. bool_prop. lia. Qed.

Lemma rotate_spec d key id a now u : requireVaultBoardAttemptCanRotate d key id a now = Ok u ->
  t_vault_board_authorization d !! (id, a, VaultBoardPhaseFinalize) = None /\ rotatable d id a now.
Proof.
  unfold requireVaultBoardAttemptCanRotate, loadVaultBoardAuthorization.
  destruct (t_vault_board_authorization d !! (id, a, VaultBoardPhaseFinalize)) as [f|]; [intros H; by inv_ok|].
  intros (reg & Hreg & ([] & _ & H)%bind_Ok)%bind_Ok. split; [done|].
  assert (Ereg : t_vault_board_authorization d !! (id, a, VaultBoardPhaseRegister) = Some reg)
    by (unfold row_of in Hreg; destruct (_ !! _); congruence). clear Hreg.
  destruct (t_vault_board_dispatch d !! (id, a, VaultBoardPhaseRegister)) as [rd|] eqn:Erd; [|by apply rot_undispatched].
  apply bind_Ok in H as ([] & _ & H).
  destruct (t_vault_board_submission d !! (id, a, VaultBoardPhaseRegister)) as [rs|] eqn:Ers; [|done].
  apply bind_Ok in H as ([] & _ & H).
  destruct (seqb (bs_Outcome rs) VaultBoardAuthRejected) eqn:Erej; [apply seqb_true in Erej; by eapply rot_rejected|].
  assert (Hsup : require (seqb (bs_Outcome rs) VaultBoardAuthSubmitted && VaultBoardRegisterCanSupersede (ba_ExpireAt reg) now)
    still_active = Ok u -> rotatable d id a now).
  { intros Hs%require_Ok. bool_prop. apply seqb_true in H0. apply can_supersede_spec in H1. by eapply rot_expired. }
  destruct (t_vault_board_authorization d !! (id, a, VaultBoardPhaseDelete)) as [da|]; [|auto].
  apply bind_Ok in H as ([] & _ & H).
  destruct (t_vault_board_dispatch d !! (id, a, VaultBoardPhaseDelete)) as [dd|]; [|auto].
  apply bind_Ok in H as ([] & _ & H).
  destruct (t_vault_board_submission d !! (id, a, VaultBoardPhaseDelete)) as [ds|] eqn:Eds; [|done].
  apply bind_Ok in H as ([] & _ & H%require_Ok). bool_prop. apply seqb_true in H. by eapply rot_released.
Qed.

Lemma refuseIfPresent_Ok {A} (verify : A -> result unit) row e u : refuseIfPresent verify row e = Ok u -> row = None.
Proof. unfold refuseIfPresent. destruct row; [intros H; by inv_ok|done]. Qed.

Lemma phase_order_spec d key auth u : board_core key d -> validateVaultBoardPhaseOrder d key auth = Ok u ->
  let id := ba_OperationID auth in let a := ba_Attempt auth in
  (ba_Phase auth = VaultBoardPhaseDelete \/ ba_Phase auth = VaultBoardPhaseFinalize) /\
  is_Some (t_vault_board_authorization d !! (id, a, VaultBoardPhaseRegister)) /\
  (exists s, t_vault_board_submission d !! (id, a, VaultBoardPhaseRegister) = Some s /\ bs_Outcome s = VaultBoardAuthSubmitted) /\
  (forall a', is_Some (t_vault_board_authorization d !! (id, a', VaultBoardPhaseRegister)) -> a' <= a) /\
  (ba_Phase auth = VaultBoardPhaseDelete -> t_vault_board_authorization d !! (id, a, VaultBoardPhaseFinalize) = None) /\
  (ba_Phase auth = VaultBoardPhaseFinalize -> t_vault_board_authorization d !! (id, a, VaultBoardPhaseDelete) = None).
Proof.
  intros C H id a. unfold validateVaultBoardPhaseOrder, loadLatestVaultBoardRegister in H. fold id a in H.
  apply bind_Ok in H as (latest & Hl & ([] & _ & ([] & Ha%require_Ok & ([] & _ & H)%bind_Ok)%bind_Ok)%bind_Ok).
  unfold row_of in Hl. destruct (last (boardRegisters d id)) as [l|] eqn:El; [injection Hl as <-|done].
  destruct (latest_spec _ _ _ _ C El) as [_ Hmax]. apply Z.eqb_eq in Ha. rewrite Ha in Hmax. fold a in Hmax.
  destruct (seqb (ba_Phase auth) VaultBoardPhaseDelete || seqb (ba_Phase auth) VaultBoardPhaseFinalize) eqn:Ep; [|done].
  apply bind_Ok in H as ([] & Hr%require_Ok & H). apply bool_decide_eq_true in Hr.
  destruct (t_vault_board_submission d !! (id, a, VaultBoardPhaseRegister)) as [s|] eqn:Es; [|done].
  apply bind_Ok in H as ([] & _ & ([] & Ho%require_Ok & H%refuseIfPresent_Ok)%bind_Ok). apply seqb_true in Ho.
  rewrite orb_true_iff, !seqb_true in Ep. split_and!; try done; [eauto|intros E; by rewrite E in H..].
Qed.

(** ** The four transactions *)

Lemma bindOperation_spec d key now op d' stored : board_inv key d -> bindOperation d key now op = Ok (d', stored) ->
  board_inv key d' /\ appends d d' /\ t_vault_board_authorization d' = t_vault_board_authorization d /\
  t_vault_board_dispatch d' = t_vault_board_dispatch d /\ t_vault_board_submission d' = t_vault_board_submission d /\
  t_vault_board_operation d' !! bo_OperationID op = Some stored.
Proof.
  intros I. unfold bindOperation. destruct (t_vault_board_operation d !! bo_OperationID op) as [s|] eqn:E.
  - intros ([] & _ & ([] & _ & [= <- <-])%bind_Ok)%bind_Ok. done.
  - intros (op' & Hs & (d1 & Hi & [= <- <-])%bind_Ok)%bind_Ok.
    destruct (insert_operation_inv _ _ _ _ I (seal_verify _ _ _ Hs) Hi) as [I' A'].
    apply insertBoardOperation_Ok in Hi as (_ & ->). apply Seal_Ok in Hs as (_ & p & _ & ->).
    split_and!; try done. simpl. apply lookup_insert_eq.
Qed.

Lemma nextAttempt_spec d key id now n : board_core key d -> nextAttempt d key id (boardRegisters d id) now = Ok n ->
  (forall a, t_vault_board_authorization d !! (id, a, VaultBoardPhaseFinalize) = None) /\
  (n = 0 \/ rotatable d id (n - 1) now).
Proof.
  intros C. unfold nextAttempt. destruct (last (boardRegisters d id)) as [l|] eqn:El.
  - intros ([] & _ & ([] & Hr & [= <-])%bind_Ok)%bind_Ok. apply rotate_spec in Hr as [Hf Hr].
    destruct (latest_spec _ _ _ _ C El) as [Hl Hmax]. split; [|right; by replace (ba_Attempt l + 1 - 1) with (ba_Attempt l) by lia].
    intros a. destruct (t_vault_board_authorization d !! (id, a, VaultBoardPhaseFinalize)) as [f|] eqn:Ef; [|done].
    pose proof phases_distinct as (_ & P2 & _). destruct (bi_phase _ _ C _ _ _ _ Ef) as [Hra _]; [congruence|].
    pose proof (Hmax _ Hra). pose proof (bi_final _ _ C id a (ba_Attempt l) ltac:(eauto) ltac:(eauto)).
    replace a with (ba_Attempt l) in Ef by lia. congruence.
  - intros [= <-]. split; [|by left]. intros a. eapply no_register_no_phase; [done|]. by apply last_None.
Qed.

Lemma loadVerified_registers d key id rs : loadVerifiedVaultBoardRegisters d key id = Ok rs -> rs = boardRegisters d id.
Proof.
  unfold loadVerifiedVaultBoardRegisters. generalize (boardRegisters d id). intros l H%mapR_Ok.
  induction H as [|x y l rs Hx _ ->]; [done|]. by inv_ok.
Qed.

(** What a transaction of the journal does when it succeeds. *)
Definition journal_tx {A} (l : Ledger) (body : tx_result A) : Prop :=
  forall d ob a, body = Ok (d, ob, a) -> board_inv (l_integrityKey l) (l_db l) ->
    board_inv (l_integrityKey l) d /\ appends (l_db l) d /\ (ob = false -> outflow_rows d = outflow_rows (l_db l)).

Lemma begin_journal l t0 now op rq chain : journal_tx l (beginBody l t0 now op rq chain).
Proof.
  intros d ob [[stored auth] created] H I. unfold beginBody in H.
  apply bind_Ok in H as (id & _ & ([] & _ & ([] & _ & (key & [-> _]%integrityKeyCopy_Ok & H)%bind_Ok)%bind_Ok)%bind_Ok).
  apply bind_Ok in H as ([d1 st] & (I1 & A1 & Ea & Ed & Es & _)%bindOperation_spec & H); [|done].
  apply bind_Ok in H as ([] & _ & (rs & ->%loadVerified_registers & H)%bind_Ok).
  assert (Hrows : outflow_rows d1 = outflow_rows (l_db l)).
  { unfold outflow_rows. by rewrite Ea, Ed, Es, (ap_vtxo _ _ A1). }
  destruct (findPrior rq (boardRegisters d1 id)) as [[prior latest]|].
  - apply bind_Ok in H as ([] & _ & ([] & _ & [= <- <- <- <- <-])%bind_Ok). done.
  - apply bind_Ok in H as (n & Hn & (a & Hseal & (d2 & Hi & [= <- <- <- <- <-])%bind_Ok)%bind_Ok).
    apply nextAttempt_spec in Hn as [Hf _]; [|apply I1]. pose proof (seal_verify _ _ _ Hseal) as Hv.
    apply Seal_Ok in Hseal as (_ & p & _ & ->).
    destruct (insert_register_inv _ _ _ _ I1 Hv eq_refl Hf Hi) as [I2 A2]. split_and!; [done|by etrans|done].
Qed.

Lemma bindAuthorization_spec d key now auth d' a : board_inv key d -> bindAuthorization d key now auth = Ok (d', a) ->
  board_core key d' /\ appends d d' /\ ba_pk a = ba_pk auth /\
  t_vault_board_authorization d' !! ba_pk a = Some a /\ t_vault_board_dispatch d' = t_vault_board_dispatch d /\
  t_vault_board_submission d' = t_vault_board_submission d /\
  (forall k, k <> ba_pk a -> t_vault_board_authorization d' !! k = t_vault_board_authorization d !! k).
Proof.
  intros I. unfold bindAuthorization. destruct (t_vault_board_authorization d !! ba_pk auth) as [s|] eqn:E.
  - intros ([] & _ & ([] & _ & [= <- <-])%bind_Ok)%bind_Ok. pose proof (bi_auth _ _ (proj1 I) _ _ E) as (Ek & _).
    rewrite Ek. split_and!; try done. apply I.
  - intros ([] & Ho & (a' & Hs & (d1 & Hi & [= <- <-])%bind_Ok)%bind_Ok)%bind_Ok.
    apply phase_order_spec in Ho as (Hp & Hr & Hsub & Hmax & Hd & Hf); [|apply I].
    pose proof (seal_verify _ _ _ Hs) as Hv. apply Seal_Ok in Hs as (_ & p & _ & ->).
    destruct (insert_phase_core _ _ _ _ I Hv Hp Hr Hsub Hmax Hd Hf Hi) as [C A].
    apply insertBoardAuthorization_Ok in Hi as (_ & _ & ->). split_and!; try done; simpl.
    + apply lookup_insert_eq.
    + intros k Hk. by rewrite lookup_insert_ne.
Qed.

Lemma dispatched_after d d' key a : dispatched d -> appends d d' ->
  (forall k, k <> ba_pk a -> t_vault_board_authorization d' !! k = t_vault_board_authorization d !! k) ->
  is_Some (t_vault_board_dispatch d' !! ba_pk a) -> board_core key d' -> dispatched d'.
Proof.
  intros D A Hk Hd C id n p Ha Hne. destruct (decide ((id, n, p) = ba_pk a)) as [->|Hne']; [done|].
  rewrite Hk in Ha by done. destruct (D _ _ _ Ha Hne) as [x Hx]. exists x. eapply lookup_weaken; [done|]. apply A.
Qed.

Lemma authorize_journal l now1 now2 auth chain : journal_tx l (authorizeBody l now1 now2 auth chain).
Proof.
  intros d ob [[auth' disp] created] H I. unfold authorizeBody in H.
  apply bind_Ok in H as ([] & _ & ([] & _ & (key & [-> _]%integrityKeyCopy_Ok & H)%bind_Ok)%bind_Ok).
  apply bind_Ok in H as (op & _ & ([] & _ & ([] & _ & (latest & _ & ([] & _ & ([] & _ & H)%bind_Ok)%bind_Ok)%bind_Ok)%bind_Ok)%bind_Ok).
  apply bind_Ok in H as ([d1 a1] & (C1 & A1 & _ & Ha & Ed & Es & Hrest)%bindAuthorization_spec & H); [|done].
  destruct (t_vault_board_dispatch d1 !! ba_pk a1) as [ex|] eqn:Ex.
  - apply bind_Ok in H as ([] & _ & ([] & _ & [= <- <- <- <- <-])%bind_Ok).
    assert (D1 : dispatched d1) by (eapply dispatched_after; eauto; apply I).
    split_and!; [done|done|]. intros _.
    (* the authorization of a dispatched phase was already stored *)
    assert (Ea : t_vault_board_authorization d1 = t_vault_board_authorization (l_db l)).
    { apply map_eq. intros k. destruct (decide (k = ba_pk a1)) as [->|]; [|by apply Hrest].
      rewrite Ed in Ex. destruct (bi_disp _ _ (proj1 I) _ _ Ex) as (_ & _ & x & Hx & _).
      rewrite Hx. eapply lookup_weaken; [exact Hx|]. apply A1. }
    unfold outflow_rows. by rewrite Ea, Ed, Es, (ap_vtxo _ _ A1).
  - apply bind_Ok in H as ([] & _ & (dp & Hseal & (d2 & Hi & [= <- <- <- <- <-])%bind_Ok)%bind_Ok).
    pose proof (seal_verify _ _ _ Hseal) as Hv. apply Seal_Ok in Hseal as (_ & p & _ & ->).
    destruct (insert_dispatch_core _ _ _ _ C1 Hv ltac:(by exists a1) Hi) as [C2 A2].
    assert (A : appends (l_db l) d2) by (by etrans). split_and!; [split; [done|]|done|done].
    apply insertBoardDispatch_Ok in Hi as (_ & ->). eapply (dispatched_after (l_db l) _ _ a1); [apply I|done| | |exact C2].
    + intros k Hk. simpl. by apply Hrest.
    + simpl. rewrite lookup_insert_eq. eauto.
Qed.

Lemma row_of_Ok {A} (o : option A) r : row_of o = Ok r <-> o = Some r.
Proof. destruct o; simpl; naive_solver. Qed.

Lemma dispatched_keeps d d' : dispatched d -> appends d d' ->
  t_vault_board_authorization d' = t_vault_board_authorization d -> dispatched d'.
Proof.
  intros D A E id a p. rewrite E. intros Ha Hne. destruct (D _ _ _ Ha Hne) as [x Hx]. exists x.
  eapply lookup_weaken; [done|]. apply A.
Qed.

Lemma dispatch_journal l now rec chain : journal_tx l (dispatchBody l now rec chain).
Proof.
  intros d ob [dp created] H I. unfold dispatchBody in H.
  apply bind_Ok in H as (key & [-> _]%integrityKeyCopy_Ok & (op & _ & ([] & _ & ([] & _ & H)%bind_Ok)%bind_Ok)%bind_Ok).
  destruct (t_vault_board_dispatch (l_db l) !! bd_pk rec) as [ex|] eqn:Ex.
  - apply bind_Ok in H as ([] & _ & ([] & _ & [= <- <- <- <-])%bind_Ok). done.
  - apply bind_Ok in H as (a & Ha%row_of_Ok & ([] & _ & ([] & Hd%require_Ok & H)%bind_Ok)%bind_Ok). apply beqb_true in Hd.
    apply bind_Ok in H as (lt & _ & ([] & _ & ([] & _ & ([] & _ & (r & Hseal & (d2 & Hi & [= <- <- <- <-])%bind_Ok)%bind_Ok)%bind_Ok)%bind_Ok)%bind_Ok).
    pose proof (seal_verify _ _ _ Hseal) as Hv. apply Seal_Ok in Hseal as (_ & p & _ & ->).
    destruct (insert_dispatch_core _ _ _ _ (proj1 I) Hv ltac:(by exists a) Hi) as [C2 A2].
    split_and!; [split; [done|]|done|done]. eapply dispatched_keeps; [apply I|done|].
    by apply insertBoardDispatch_Ok in Hi as (_ & ->).
Qed.

Lemma submission_journal l now rec : journal_tx l (submissionBody l now rec).
Proof.
  intros d ob [sb created] H I. unfold submissionBody in H. apply bind_Ok in H as (key & [-> _]%integrityKeyCopy_Ok & H).
  destruct (t_vault_board_submission (l_db l) !! bs_pk rec) as [cur|] eqn:Ec.
  - apply bind_Ok in H as ([] & _ & ([] & _ & [= <- <- <- <-])%bind_Ok). done.
  - apply bind_Ok in H as (a & Ha%row_of_Ok & ([] & _ & ([] & Hd%require_Ok & H)%bind_Ok)%bind_Ok).
    destruct (t_vault_board_dispatch (l_db l) !! bs_pk rec) as [dp|] eqn:Ed; [|done].
    apply bind_Ok in H as ([] & _ & ([] & Hdd%require_Ok & (r & Hseal & (d2 & Hi & [= <- <- <- <-])%bind_Ok)%bind_Ok)%bind_Ok).
    apply beqb_true in Hdd. pose proof (seal_verify _ _ _ Hseal) as Hv. apply Seal_Ok in Hseal as (_ & p & _ & ->).
    destruct (insert_submission_inv _ _ _ _ I Hv ltac:(by exists dp) Hi) as [I2 A2]. done.
Qed.

(** ** The journal as a system *)

(** One call of a journal handler, whatever its result. *)
Inductive bstep (l l' : Ledger) : Prop :=
  | b_begin env t0 now op rq chain r : BeginVaultBoardAttempt l env t0 now op rq chain = (l', r) -> bstep l l'
  | b_authorize env now1 now2 auth chain r :
      AppendVaultBoardAuthorizationAndDispatch l env now1 now2 auth chain = (l', r) -> bstep l l'
  | b_dispatch env now rec chain r : AppendVaultBoardDispatch l env now rec chain = (l', r) -> bstep l l'
  | b_submit env now rec r : AppendVaultBoardSubmission l env now rec = (l', r) -> bstep l l'.

Lemma journal_commit {A} l env (body : tx_result A) l' r : journal_tx l body -> commitTx l env body = (l', r) ->
  board_inv (l_integrityKey l) (l_db l) -> board_inv (l_integrityKey l') (l_db l') /\ appends (l_db l) (l_db l').
Proof.
  intros J (_ & -> & _ & H)%commitTx_cases I. destruct H as [(-> & _)|(d & ob & a & Hb & _ & <- & _)]; [done|].
  destruct (J _ _ _ Hb I) as (? & ? & _). done.
Qed.

Lemma bstep_inv l l' : bstep l l' -> board_inv (l_integrityKey l) (l_db l) ->
  board_inv (l_integrityKey l') (l_db l') /\ appends (l_db l) (l_db l').
Proof.
  intros [env t0 now op rq chain r H|env n1 n2 auth chain r H|env now rec chain r H|env now rec r H] I.
  - exact (journal_commit _ _ _ _ _ (begin_journal _ _ _ _ _ _) H I).
  - exact (journal_commit _ _ _ _ _ (authorize_journal _ _ _ _ _) H I).
  - exact (journal_commit _ _ _ _ _ (dispatch_journal _ _ _ _) H I).
  - exact (journal_commit _ _ _ _ _ (submission_journal _ _ _) H I).
Qed.

Lemma bsteps_inv l l' : rtc bstep l l' -> board_inv (l_integrityKey l) (l_db l) ->
  board_inv (l_integrityKey l') (l_db l') /\ appends (l_db l) (l_db l').
Proof.
  induction 1 as [l|l l1 l' H1 _ IH]; intros I; [done|]. destruct (bstep_inv _ _ H1 I) as [I1 A1].
  destruct (IH I1) as [I' A']. split; [done|by etrans].
Qed.

Definition board_fresh (d : Database) : Prop :=
  t_vault_board_operation d = ∅ /\ t_vault_board_authorization d = ∅ /\
  t_vault_board_dispatch d = ∅ /\ t_vault_board_submission d = ∅.

Lemma board_fresh_inv key d : board_fresh d -> board_inv key d.
Proof.
  intros (E1 & E2 & E3 & E4). split; [constructor|unfold dispatched]; rewrite ?E1, ?E2, ?E3, ?E4; intros *;
    rewrite ?lookup_empty; try done; by intros [? ?].
Qed.

(** ** A concrete run for the witnesses *)

Definition example_board_l0 : Ledger :=
  MkLedger (MkDatabase {["vault-a"]} ∅ ∅ ∅
    {["vault-a" := MkBoardEnrollment "vault-a" "vault-board-v1" (replicate 33 x02) (replicate 33 x02) (replicate 33 x02)
                     604672 "seconds" (replicate 34 x51) "tark1" (replicate 32 x00)]} ∅ ∅ ∅ ∅)
    NetworkMutinynet example_key (Some (MkMonotonic example_key)) (Some (monotonicPayload (MkMonotonic example_key) 0)).

Definition example_board_now : Z := 1782907200 * second.
Definition example_board_env : Env := MkEnv WriteOk true.
Definition example_chain : VaultBoardChainState := MkChainState 1782000100.
Definition example_board_op : VaultBoardOperation :=
  MkBoardOperation "" "vault-a" (replicate 32 x05) 0 50000 (replicate 34 x51) [x51] 1782000000 "" [].
Definition example_request : VaultBoardRegisterRequest :=
  MkRegisterRequest (replicate 32 x0a) (replicate 33 x02) 49000 1000 1782907800.

Definition example_board_id : string :=
  match ComputeVaultBoardOperationID "vault-a" (replicate 32 x05) 0 with Ok id => id | Err _ => "" end.

Definition example_begin :=
  BeginVaultBoardAttempt example_board_l0 example_board_env example_board_now example_board_now example_board_op example_request example_chain.
Definition example_board_l1 : Ledger := example_begin.1.
Definition example_dispatch :=
  AppendVaultBoardDispatch example_board_l1 example_board_env example_board_now
    (MkBoardDispatch example_board_id 0 VaultBoardPhaseRegister (replicate 32 x0a) "" []) example_chain.
Definition example_board_l2 : Ledger := example_dispatch.1.
Definition example_submit :=
  AppendVaultBoardSubmission example_board_l2 example_board_env example_board_now
    (MkBoardSubmission example_board_id 0 VaultBoardPhaseRegister (replicate 32 x0a) VaultBoardAuthSubmitted "intent-1" "" "" 0 "" []).
Definition example_board_l3 : Ledger := example_submit.1.
Definition example_final : VaultBoardAuthorization :=
  MkBoardAuthorization example_board_id 0 VaultBoardPhaseFinalize (replicate 32 x0b) [] 0 0 0
    (hex_encode (replicate 32 xaa)) (hex_encode (replicate 32 xbb)) 1 "" [].
Definition example_authorize :=
  AppendVaultBoardAuthorizationAndDispatch example_board_l3 example_board_env example_board_now example_board_now example_final example_chain.
Definition example_board_l4 : Ledger := example_authorize.1.

Lemma example_bstep1 : bstep example_board_l0 example_board_l1.
Proof. unfold example_board_l1, example_begin. eapply b_begin. apply surjective_pairing. Qed.
Lemma example_bstep2 : bstep example_board_l1 example_board_l2.
Proof. unfold example_board_l2, example_dispatch. eapply b_dispatch. apply surjective_pairing. Qed.
Lemma example_bstep3 : bstep example_board_l2 example_board_l3.
Proof. unfold example_board_l3, example_submit. eapply b_submit. apply surjective_pairing. Qed.
Lemma example_bstep4 : bstep example_board_l3 example_board_l4.
Proof. unfold example_board_l4, example_authorize. eapply b_authorize. apply surjective_pairing. Qed.

Lemma example_board_steps : rtc bstep example_board_l0 example_board_l4.
Proof.
  exact (rtc_l _ _ _ _ example_bstep1 (rtc_l _ _ _ _ example_bstep2 (rtc_l _ _ _ _ example_bstep3
    (rtc_once _ _ example_bstep4)))).
Qed.

Lemma example_board_fresh : board_fresh (l_db example_board_l0).
Proof. done. Qed.

(** A register that was never dispatched and the attempt that replaces it. *)
Definition example_rotate :=
  BeginVaultBoardAttempt example_board_l1 example_board_env example_board_now example_board_now example_board_op
    (MkRegisterRequest (replicate 32 x0c) (replicate 33 x03) 49000 1000 1782907800) example_chain.
Definition example_board_r2 : Ledger := example_rotate.1.

Lemma example_board_l1_inv : board_inv (l_integrityKey example_board_l1) (l_db example_board_l1).
Proof. exact (proj1 (bstep_inv _ _ example_bstep1 (board_fresh_inv _ _ example_board_fresh))). Qed.

Lemma example_rotated_created :
  match example_rotate.2 with Ok (_, a, c) => c && (ba_Attempt a =? 1) | Err _ => false end = true.
Proof. vm_compute. reflexivity. Qed.

Lemma example_rotated : exists stored auth,
  BeginVaultBoardAttempt example_board_l1 example_board_env example_board_now example_board_now example_board_op
    (MkRegisterRequest (replicate 32 x0c) (replicate 33 x03) 49000 1000 1782907800) example_chain
  = (example_board_r2, Ok (stored, auth, true)) /\ ba_Attempt auth = 1.
Proof.
  pose proof example_rotated_created as H.
  destruct example_rotate as [l2 [[[stored auth] c]|e]] eqn:E; [|discriminate H].
  simpl in H. destruct c; [|discriminate H]. exists stored, auth. split; [|by apply Z.eqb_eq].
  unfold example_board_r2. rewrite E. exact E.
Qed.

(** A stored operation whose exit delay has passed at the chain tip. *)
Definition example_matured : Ledger :=
  MkLedger (set_vault_board_operation {["boarding-1" := example_board_op]} (l_db example_board_l0))
    NetworkMutinynet example_key None None.
Definition example_tip : VaultBoardChainState := MkChainState (1782000000 + 604672).
Definition example_late : VaultBoardAuthorization :=
  MkBoardAuthorization "boarding-1" 0 VaultBoardPhaseFinalize (replicate 32 x0b) [] 0 0 0
    (hex_encode (replicate 32 xaa)) (hex_encode (replicate 32 xbb)) 1 "" [].

Lemma example_pins : exists pins, PinsFor (l_network example_matured) = Ok pins /\
  bo_SequenceAnchorMTP example_board_op + pin_BoardExitDelay pins <= TipMTP example_tip.
Proof. eexists. split; [reflexivity|]. vm_compute. discriminate. Qed.

(** ** Properties *)

(** [C13] Delete and finalize exclude each other, and finalizing ends the
    operation: in every reachable journal an attempt never has both a delete and
    a finalize authorization, an operation has at most one finalize
    authorization over all its attempts, and no attempt is begun after it. *)
Theorem finalize_is_exclusive l0 l :
  board_fresh (l_db l0) -> rtc bstep l0 l ->
  let auth id a p := is_Some (t_vault_board_authorization (l_db l) !! (id, a, p)) in
  (forall id a, ~ (auth id a VaultBoardPhaseDelete /\ auth id a VaultBoardPhaseFinalize)) /\
  (forall id a1 a2, auth id a1 VaultBoardPhaseFinalize -> auth id a2 VaultBoardPhaseFinalize -> a1 = a2) /\
  (forall id a1 a2, auth id a1 VaultBoardPhaseFinalize -> auth id a2 VaultBoardPhaseRegister -> a2 <= a1).
Proof.
  intros Hf Hr auth. destruct (bsteps_inv _ _ Hr (board_fresh_inv _ _ Hf)) as [[C _] _].
  pose proof phases_distinct as (_ & P2 & _). unfold auth. split_and!.
  - intros id a [Hd [x Hx]]. by rewrite (bi_excl _ _ C _ _ Hd) in Hx.
  - intros id a1 a2 [x1 H1] [x2 H2]. destruct (bi_phase _ _ C _ _ _ _ H1) as [R1 _]; [congruence|].
    destruct (bi_phase _ _ C _ _ _ _ H2) as [R2 _]; [congruence|].
    pose proof (bi_final _ _ C id a1 a2 ltac:(eauto) R2). pose proof (bi_final _ _ C id a2 a1 ltac:(eauto) R1). lia.
  - intros id a1 a2 H1 H2. by eapply (bi_final _ _ C).
Qed.

Lemma finalize_is_exclusive_witness :
  rtc bstep example_board_l0 example_board_l4 /\
  ~ (is_Some (t_vault_board_authorization (l_db example_board_l4) !! (example_board_id, 0, VaultBoardPhaseDelete)) /\
     is_Some (t_vault_board_authorization (l_db example_board_l4) !! (example_board_id, 0, VaultBoardPhaseFinalize))).
Proof.
  split; [exact example_board_steps|].
  exact (proj1 (finalize_is_exclusive example_board_l0 example_board_l4 example_board_fresh example_board_steps) example_board_id 0).
Defined.

(** [C15] Nothing leaves or returns unauthorized: in every reachable journal a
    result has a dispatch and a dispatch has an authorization, all three for the
    same request digest; a delete or finalize authorization always has its
    dispatch, and rests on a register of the same attempt that the Operator
    accepted; and every row authenticates under the store's key. *)
Theorem journal_is_chained l0 l :
  board_fresh (l_db l0) -> rtc bstep l0 l ->
  let d := l_db l in
  (forall k s, t_vault_board_submission d !! k = Some s ->
     exists p a, t_vault_board_dispatch d !! k = Some p /\ t_vault_board_authorization d !! k = Some a /\
       ba_RequestDigest a = bs_RequestDigest s /\ bd_RequestDigest p = bs_RequestDigest s) /\
  (forall k p, t_vault_board_dispatch d !! k = Some p ->
     exists a, t_vault_board_authorization d !! k = Some a /\ ba_RequestDigest a = bd_RequestDigest p) /\
  (forall id n ph a, t_vault_board_authorization d !! (id, n, ph) = Some a ->
     VerifyVaultBoardAuthorization a (l_integrityKey l) = Ok tt /\
     (ph <> VaultBoardPhaseRegister -> is_Some (t_vault_board_dispatch d !! (id, n, ph)) /\
        exists s, t_vault_board_submission d !! (id, n, VaultBoardPhaseRegister) = Some s /\ bs_Outcome s = VaultBoardAuthSubmitted)).
Proof.
  intros Hf Hr d. destruct (bsteps_inv _ _ Hr (board_fresh_inv _ _ Hf)) as [[C D] _]. unfold d. split_and!.
  - intros k s Hs. destruct (bi_sub _ _ C _ _ Hs) as (_ & _ & p & Hp & Ep).
    destruct (bi_disp _ _ C _ _ Hp) as (_ & _ & a & Ha & Ea). exists p, a. split_and!; congruence.
  - intros k p Hp. by destruct (bi_disp _ _ C _ _ Hp) as (_ & _ & ?).
  - intros id n ph a Ha. destruct (bi_auth _ _ C _ _ Ha) as (_ & Hv & _). split; [done|]. intros Hne.
    split; [by eapply D; eauto|]. by destruct (bi_phase _ _ C _ _ _ _ Ha Hne).
Qed.

Lemma journal_is_chained_witness :
  rtc bstep example_board_l0 example_board_l4 /\
  (forall k p, t_vault_board_dispatch (l_db example_board_l4) !! k = Some p ->
    exists a, t_vault_board_authorization (l_db example_board_l4) !! k = Some a /\ ba_RequestDigest a = bd_RequestDigest p).
Proof.
  split; [exact example_board_steps|].
  exact (proj1 (proj2 (journal_is_chained example_board_l0 example_board_l4 example_board_fresh example_board_steps))).
Defined.

(** The journal is append-only: whatever the handlers do, no operation,
    authorization, dispatch or result row is changed or removed, and the other
    tables of the store are untouched. *)
Theorem journal_append_only l l' :
  board_inv (l_integrityKey l) (l_db l) -> rtc bstep l l' -> appends (l_db l) (l_db l').
Proof. intros I Hr. exact (proj2 (bsteps_inv _ _ Hr I)). Qed.

Lemma journal_append_only_witness : appends (l_db example_board_l0) (l_db example_board_l4).
Proof.
  exact (journal_append_only example_board_l0 example_board_l4 (board_fresh_inv _ _ example_board_fresh) example_board_steps).
Defined.

(** [C16] An attempt is replaced only when that is safe: when [BeginVaultBoardAttempt]
    allocates a new attempt, no attempt of the operation was ever finalized, and
    the previous one never left the process, or was rejected, or was released, or
    was accepted with a proof that expired at least 30 seconds ago; the new attempt
    is the successor of the latest. *)
Theorem rotation_is_safe l env t0 now op rq chain l' stored auth :
  board_inv (l_integrityKey l) (l_db l) ->
  BeginVaultBoardAttempt l env t0 now op rq chain = (l', Ok (stored, auth, true)) ->
  let id := ba_OperationID auth in
  (forall a, t_vault_board_authorization (l_db l) !! (id, a, VaultBoardPhaseFinalize) = None) /\
  t_vault_board_authorization (l_db l') !! (id, ba_Attempt auth, VaultBoardPhaseRegister) = Some auth /\
  (ba_Attempt auth = 0 \/ rotatable (l_db l) id (ba_Attempt auth - 1) now).
Proof.
  intros I H id. apply commitTx_cases in H as (_ & _ & _ & [(_ & [e He] & _)|(d & ob & [[st au] cr] & Hb & [= <- <- <-] & <- & _)]); [done|].
  unfold beginBody in Hb.
  apply bind_Ok in Hb as (oid & _ & ([] & _ & ([] & _ & (key & [-> _]%integrityKeyCopy_Ok & Hb)%bind_Ok)%bind_Ok)%bind_Ok).
  apply bind_Ok in Hb as ([d1 st1] & (I1 & A1 & Ea & Ed & Es & _)%bindOperation_spec & Hb); [|done].
  apply bind_Ok in Hb as ([] & _ & (rs & ->%loadVerified_registers & Hb)%bind_Ok).
  destruct (findPrior rq (boardRegisters d1 oid)) as [[prior latest]|].
  { by apply bind_Ok in Hb as ([] & _ & ([] & _ & [=])%bind_Ok). }
  apply bind_Ok in Hb as (n & Hn & (a & Hseal & (d2 & Hi & [= <- <- <- <-])%bind_Ok)%bind_Ok).
  apply nextAttempt_spec in Hn as [Hf Hrot]; [|apply I1]. apply Seal_Ok in Hseal as (_ & p & _ & ->).
  apply insertBoardAuthorization_Ok in Hi as (_ & _ & ->). unfold id. simpl. rewrite Ea in Hf. split_and!; [done| |].
  - unfold ba_pk. simpl. apply lookup_insert_eq.
  - destruct Hrot as [->|Hrot]; [by left|right].
    destruct Hrot as [Hu|s Hs Ho|s Hs Ho|s r Hs Ho Hr He]; rewrite ?Ed, ?Es, ?Ea in *;
      [by apply rot_undispatched|by eapply rot_rejected|by eapply rot_released|by eapply rot_expired].
Qed.

Lemma rotation_is_safe_witness : exists auth,
  ba_Attempt auth = 1 /\
  forall a, t_vault_board_authorization (l_db example_board_l1) !! (ba_OperationID auth, a, VaultBoardPhaseFinalize) = None.
Proof.
  destruct example_rotated as (stored & auth & E & Ea). exists auth. split; [exact Ea|].
  exact (proj1 (rotation_is_safe _ _ _ _ _ _ _ _ _ _ example_board_l1_inv E)).
Defined.

(** The cooperative path closes with the chain: once the tip's median time
    reaches the anchor plus the exit delay of the network, no delete or finalize
    is authorized or dispatched, and the store is left unchanged. *)
Theorem matured_path_refused l env now1 now2 auth chain op pins l' r :
  t_vault_board_operation (l_db l) !! ba_OperationID auth = Some op -> PinsFor (l_network l) = Ok pins ->
  bo_SequenceAnchorMTP op + pin_BoardExitDelay pins <= TipMTP chain ->
  AppendVaultBoardAuthorizationAndDispatch l env now1 now2 auth chain = (l', r) ->
  l' = l /\ exists e, r = Err e.
Proof.
  intros Hop Hpins Hle H. unfold AppendVaultBoardAuthorizationAndDispatch, commitTx in H.
  destruct (authorizeBody l now1 now2 auth chain) as [[[d ob] a]|e] eqn:E; [exfalso|injection H as <- <-; eauto].
  unfold authorizeBody, loadVaultBoardOperation in E. rewrite Hop in E. cbn [row_of] in E.
  apply bind_Ok in E as ([] & _ & ([] & _ & (key & _ & (o & [= <-] & ([] & _ & (u & Hw & _)%bind_Ok)%bind_Ok)%bind_Ok)%bind_Ok)%bind_Ok).
  unfold requireVaultBoardCooperativeWindow in Hw. rewrite Hpins in Hw. cbn [mbind result_bind] in Hw.
  apply bind_Ok in Hw as ([] & _ & Hw%require_Ok). bool_prop. lia.
Qed.

Lemma matured_path_refused_witness : exists e,
  AppendVaultBoardAuthorizationAndDispatch example_matured example_board_env example_board_now example_board_now
    example_late example_tip = (example_matured, Err e).
Proof.
  destruct (AppendVaultBoardAuthorizationAndDispatch example_matured example_board_env example_board_now example_board_now
    example_late example_tip) as [l' r] eqn:E.
  destruct example_pins as [pins [Hpins Hle]].
  destruct (matured_path_refused example_matured example_board_env example_board_now example_board_now example_late
    example_tip example_board_op pins l' r ltac:(reflexivity) Hpins Hle E) as [-> [e ->]].
  exists e. reflexivity.
Defined.
