(* ===== verification/Tenant.v ===== *)
(** * Tenants: [src/internal/policy/tenant.go], [envelope.go], [vaultmap.go]

    A vault is a descriptor row, a passkey row, an optional recovery envelope and
    an optional recovery map, each authenticated on its own.  The tables live in
    [Tenants], next to the [Ledger] whose key authenticates them and whose
    [t_vault] is the set of vault ids the other components refer to.

    A nil byte slice is the empty list: the handlers that write these rows pass
    non-empty keys, and the nullable recovery key is stored as NULL when empty
    ([nullableRecoveryKey]). *)

From S2P Require Import Prelude Crypto Codec GoTime Program Monotonic Vtxo BoardRows Ledger Recovery SignCount VaultBoard.
From Stdlib Require Import Strings.Byte Strings.Ascii Strings.String.
From stdpp Require Import base decidable list strings gmap countable option sorting.
From Stdlib Require Import ZArith Lia.
Open Scope string_scope.
Open Scope list_scope.
Open Scope Z_scope.

Definition CosignerModeHKDFSHA256V1 := "hkdf-sha256-v1".
Definition vaultRecordMACDomain := "arkade-vault/vault-record/v2".
Definition vaultCredentialMACDomain := "arkade-vault/vault-credential/v1".
Definition vaultMapMACDomain := "arkade-2fa-vault/vault-map/v1".

Record VaultRecord := MkVault {
  v_VaultID : string; v_TemplateVersion : string; v_PolicyVersion : string; v_ProtectionTier : string;
  v_Network : string; v_RPID : string; v_Origin : string;
  v_PhoneBIP340 : bytes; v_PhoneDirectP256 : bytes; v_ExternalOwnerWallet : bytes; v_RecoveryKey : bytes;
  v_VaultCosignerBase : bytes; v_ArkadeCosignerBase : bytes;
  v_ArkadeCosignerOrigin : string; v_ArkadeCosignerVersion : string; v_CosignerMode : string;
  v_SavingsAddress : string; v_SavingsScript : bytes;
  v_RecipientDustSats : Z; v_TxRecipientCapSats : Z; v_PeriodAllowanceSats : Z;
  v_AbsoluteFeeCapSats : Z; v_FeerateCapSatPerV : Z;
  v_IntegrityMAC : bytes
}.

Record VaultCredential := MkVaultCredential {
  c_CredentialID : bytes; c_VaultID : string; c_WebAuthnP256 : bytes; c_UserHandle : bytes;
  c_Resident : bool; c_IntegrityMAC : bytes
}.

(** The application view of a vault and its passkey. *)
Record Credential := MkCredential {
  ID : bytes; WebAuthnP256 : bytes; PhoneDirectP256 : bytes; PhoneBIP340 : bytes; ExternalOwnerWallet : bytes;
  RPID : string; Origin : string;
  RecoveryKey : bytes; VaultCosignerBase : bytes; ArkadeCosignerBase : bytes;
  ArkadeCosignerOrigin : string; ArkadeCosignerVersion : string;
  TemplateVersion : string; cr_PolicyVersion : string; ProtectionTier : string; cr_Network : string; VaultID : string;
  SavingsAddress : string; SavingsScript : bytes;
  RecipientDustSats : Z; cr_TxRecipientCapSats : Z; cr_PeriodAllowanceSats : Z;
  AbsoluteFeeCapSats : Z; FeerateCapSatPerV : Z;
  IntegrityMAC : bytes
}.

Definition VaultRecordFromCredential (c : Credential) : VaultRecord :=
  MkVault (VaultID c) (TemplateVersion c) (cr_PolicyVersion c) (ProtectionTier c) (cr_Network c) (RPID c) (Origin c)
    (PhoneBIP340 c) (PhoneDirectP256 c) (ExternalOwnerWallet c) (RecoveryKey c)
    (VaultCosignerBase c) (ArkadeCosignerBase c) (ArkadeCosignerOrigin c) (ArkadeCosignerVersion c)
    CosignerModeHKDFSHA256V1 (SavingsAddress c) (SavingsScript c)
    (RecipientDustSats c) (cr_TxRecipientCapSats c) (cr_PeriodAllowanceSats c) (AbsoluteFeeCapSats c) (FeerateCapSatPerV c) [].

Definition ToCredential (v : VaultRecord) (cred : VaultCredential) : Credential :=
  MkCredential (c_CredentialID cred) (c_WebAuthnP256 cred) (v_PhoneDirectP256 v) (v_PhoneBIP340 v) (v_ExternalOwnerWallet v)
    (v_RPID v) (v_Origin v) (v_RecoveryKey v) (v_VaultCosignerBase v) (v_ArkadeCosignerBase v)
    (v_ArkadeCosignerOrigin v) (v_ArkadeCosignerVersion v)
    (v_TemplateVersion v) (v_PolicyVersion v) (v_ProtectionTier v) (v_Network v) (v_VaultID v)
    (v_SavingsAddress v) (v_SavingsScript v)
    (v_RecipientDustSats v) (v_TxRecipientCapSats v) (v_PeriodAllowanceSats v) (v_AbsoluteFeeCapSats v) (v_FeerateCapSatPerV v) [].

Definition v_set_MAC (m : bytes) (v : VaultRecord) : VaultRecord :=
  MkVault (v_VaultID v) (v_TemplateVersion v) (v_PolicyVersion v) (v_ProtectionTier v) (v_Network v) (v_RPID v) (v_Origin v)
    (v_PhoneBIP340 v) (v_PhoneDirectP256 v) (v_ExternalOwnerWallet v) (v_RecoveryKey v)
    (v_VaultCosignerBase v) (v_ArkadeCosignerBase v) (v_ArkadeCosignerOrigin v) (v_ArkadeCosignerVersion v)
    (v_CosignerMode v) (v_SavingsAddress v) (v_SavingsScript v)
    (v_RecipientDustSats v) (v_TxRecipientCapSats v) (v_PeriodAllowanceSats v) (v_AbsoluteFeeCapSats v) (v_FeerateCapSatPerV v) m.
Definition c_set_MAC (m : bytes) (c : VaultCredential) : VaultCredential :=
  MkVaultCredential (c_CredentialID c) (c_VaultID c) (c_WebAuthnP256 c) (c_UserHandle c) (c_Resident c) m.

(** ** Row authentication *)

Definition vaultRecordFields (v : VaultRecord) : list bytes :=
  [bytes_of (v_VaultID v); bytes_of (v_TemplateVersion v); bytes_of (v_PolicyVersion v); bytes_of (v_ProtectionTier v);
   bytes_of (v_CosignerMode v); bytes_of (v_Network v); bytes_of (v_RPID v); bytes_of (v_Origin v);
   v_PhoneBIP340 v; v_PhoneDirectP256 v; v_ExternalOwnerWallet v; v_RecoveryKey v;
   v_VaultCosignerBase v; v_ArkadeCosignerBase v;
   bytes_of (v_ArkadeCosignerOrigin v); bytes_of (v_ArkadeCosignerVersion v)].

Definition canonicalVaultRecord (v : VaultRecord) : result bytes :=
  out ← appendFields [] [bytes_of vaultRecordMACDomain];
  out ← appendFields (out ++ put32 1) (vaultRecordFields v);
  appendFields (out ++ put64 (uint64_of (v_RecipientDustSats v)) ++ put64 (uint64_of (v_TxRecipientCapSats v))
      ++ put64 (uint64_of (v_PeriodAllowanceSats v)) ++ put64 (uint64_of (v_AbsoluteFeeCapSats v))
      ++ put64 (uint64_of (v_FeerateCapSatPerV v)))
    [bytes_of (v_SavingsAddress v); v_SavingsScript v].

Definition canonicalVaultCredential (c : VaultCredential) : result bytes :=
  out ← appendFields [] [bytes_of vaultCredentialMACDomain; c_CredentialID c; bytes_of (c_VaultID c); c_WebAuthnP256 c; c_UserHandle c];
  Ok (out ++ [if c_Resident c then x01 else x00]).

(** The amounts are int64. *)
Definition v_typed (v : VaultRecord) : Prop :=
  int64_range (v_RecipientDustSats v) /\ int64_range (v_TxRecipientCapSats v) /\ int64_range (v_PeriodAllowanceSats v) /\
  int64_range (v_AbsoluteFeeCapSats v) /\ int64_range (v_FeerateCapSatPerV v).

Lemma canonicalVaultRecord_payload v p : canonicalVaultRecord v = Ok p ->
  Forall short (vaultRecordFields v) /\ Forall short [bytes_of (v_SavingsAddress v); v_SavingsScript v] /\
  p = frames [bytes_of vaultRecordMACDomain] ++ put32 1 ++ frames (vaultRecordFields v)
      ++ put64 (uint64_of (v_RecipientDustSats v)) ++ put64 (uint64_of (v_TxRecipientCapSats v))
      ++ put64 (uint64_of (v_PeriodAllowanceSats v)) ++ put64 (uint64_of (v_AbsoluteFeeCapSats v))
      ++ put64 (uint64_of (v_FeerateCapSatPerV v)) ++ frames [bytes_of (v_SavingsAddress v); v_SavingsScript v].
Proof.
  unfold canonicalVaultRecord. intros H. inv_ok.
  repeat match goal with H : appendFields _ _ = Ok _ |- _ => apply appendFields_Ok in H as [? ->] end.
  split_and!; [done..|]. by rewrite app_nil_l, <-!app_assoc.
Qed.

Lemma canonicalVaultCredential_payload c p : canonicalVaultCredential c = Ok p ->
  let fs := [bytes_of vaultCredentialMACDomain; c_CredentialID c; bytes_of (c_VaultID c); c_WebAuthnP256 c; c_UserHandle c] in
  Forall short fs /\ p = frames fs ++ [if c_Resident c then x01 else x00].
Proof.
  unfold canonicalVaultCredential. intros H. inv_ok.
  by repeat match goal with H : appendFields _ _ = Ok _ |- _ => apply appendFields_Ok in H as [? ->] end.
Qed.

#[local] Obligation Tactic := idtac.

Definition tenant_err_key := Errorf "credential integrity key must be 32 bytes".

#[export] Program Instance VaultRecord_sealed : Sealed VaultRecord := {|
  canonical := canonicalVaultRecord; mac_of := v_IntegrityMAC; with_mac := v_set_MAC;
  well_typed := v_typed; err_key := tenant_err_key;
  err_missing := Errorf "vault integrity MAC missing or malformed";
  err_mismatch := Errorf "vault integrity MAC mismatch" |}.
Next Obligation. done. Qed.
Next Obligation. done. Qed.
Next Obligation. by intros []. Qed.
Next Obligation. done. Qed.
Next Obligation.
  intros r1 r2 p (?&?&?&?&?) (?&?&?&?&?) (S1 & T1 & ->)%canonicalVaultRecord_payload (S2 & T2 & E)%canonicalVaultRecord_payload.
  apply app_inv_head in E. apply app_inv_head in E. peel_payload. apply frames_inj in E; [|done..].
  destruct r1, r2; unfold v_set_MAC, vaultRecordFields in *; simpl in *. by same_fields.
Qed.

#[export] Program Instance VaultCredential_sealed : Sealed VaultCredential := {|
  canonical := canonicalVaultCredential; mac_of := c_IntegrityMAC; with_mac := c_set_MAC;
  well_typed := fun _ => True; err_key := tenant_err_key;
  err_missing := Errorf "vault credential integrity MAC missing or malformed";
  err_mismatch := Errorf "vault credential integrity MAC mismatch" |}.
Next Obligation. done. Qed.
Next Obligation. done. Qed.
Next Obligation. by intros []. Qed.
Next Obligation. done. Qed.
Next Obligation.
  intros r1 r2 p _ _ (S1 & ->)%canonicalVaultCredential_payload (S2 & E)%canonicalVaultCredential_payload.
  apply app_inj_tail in E as [E Er]. apply frames_inj in E; [|done..].
  destruct r1 as [? ? ? ? b1 ?], r2 as [? ? ? ? b2 ?]; unfold c_set_MAC; simpl in *. same_fields. by destruct b1, b2.
Qed.

Definition SealVaultRecord (v : VaultRecord) (key : bytes) : result VaultRecord := Seal v key.
Definition VerifyVaultRecord (v : VaultRecord) (key : bytes) : result unit := Verify v key.
Definition SealVaultCredential (c : VaultCredential) (key : bytes) : result VaultCredential := Seal c key.
Definition VerifyVaultCredential (c : VaultCredential) (key : bytes) : result unit := Verify c key.

(** ** Tables *)

Record CredentialEnvelope := MkEnvelope {
  e_Version : Z; e_Binding : string; e_Nonce : bytes; e_Ciphertext : bytes;
  e_DirectSig : bytes; e_PhoneSig : bytes; e_IntegrityMAC : bytes
}.

#[export] Instance CredentialEnvelope_eq_dec : EqDecision CredentialEnvelope.
Proof. solve_decision. Defined.

Record VaultMap := MkVaultMap { vm_VaultID : string; vm_KitHash : string; vm_Payload : string }.

Record VaultMapRow := MkVaultMapRow { vmr_map : VaultMap; vmr_updated_at : string; vmr_integrity_mac : bytes }.

Record Tenants := MkTenants {
  tn_vault : gmap string VaultRecord;
  tn_credential : gmap bytes VaultCredential;
  tn_envelope : gmap string CredentialEnvelope;
  tn_map : gmap string VaultMapRow
}.

Definition tn_set_envelope m (t : Tenants) := MkTenants (tn_vault t) (tn_credential t) m (tn_map t).
Definition tn_set_map m (t : Tenants) := MkTenants (tn_vault t) (tn_credential t) (tn_envelope t) m.

(** The CHECK constraints of [vault], [vault_credential], [vault_envelope] and
    [vault_map]. *)
Definition vault_check (v : VaultRecord) : bool :=
  bool_decide (v_ProtectionTier v ∈ ["standard"; "advanced"]) && seqb (v_CosignerMode v) "hkdf-sha256-v1" &&
  (zlen (v_IntegrityMAC v) =? 32) &&
  ((seqb (v_ProtectionTier v) "standard" && (zlen (v_RecoveryKey v) =? 0)) ||
   (seqb (v_ProtectionTier v) "advanced" && (zlen (v_RecoveryKey v) =? 33))).

Definition vault_credential_check (c : VaultCredential) : bool := zlen (c_IntegrityMAC c) =? 32.

Definition vault_envelope_check (e : CredentialEnvelope) : bool :=
  (e_Version e =? 2) && (0 <? text_length (e_Binding e)) && (text_length (e_Binding e) <=? 16384) &&
  (zlen (e_Nonce e) =? 12) && (zlen (e_Ciphertext e) =? 48) && (zlen (e_DirectSig e) =? 64) &&
  (zlen (e_PhoneSig e) =? 64) && (zlen (e_IntegrityMAC e) =? 32).

Definition vault_map_check (r : VaultMapRow) : bool :=
  (text_length (vm_KitHash (vmr_map r)) =? 64) && (0 <? text_length (vm_Payload (vmr_map r))) &&
  (text_length (vm_Payload (vmr_map r)) <=? 98304) && (zlen (vmr_integrity_mac r) =? 32).

(** [INSERT INTO vault_envelope] *)
Definition insertVaultEnvelopeTx (t : Tenants) (vaultID : string) (e : CredentialEnvelope) : result Tenants :=
  require (bool_decide (tn_envelope t !! vaultID = None)) (ErrConstraint "UNIQUE vault_envelope.vault_id");;
  require (bool_decide (is_Some (tn_vault t !! vaultID))) (ErrConstraint "FOREIGN KEY");;
  require (vault_envelope_check e) (ErrConstraint "CHECK");;
  Ok (tn_set_envelope (<[vaultID := e]> (tn_envelope t)) t).

(** The three inserts of a new tenant. *)
Definition insertVaultTx (t : Tenants) (v : VaultRecord) (cred : VaultCredential) (envelope : option CredentialEnvelope)
    : result Tenants :=
  require (bool_decide (tn_vault t !! v_VaultID v = None)) (ErrConstraint "UNIQUE vault.vault_id");;
  require (vault_check v) (ErrConstraint "CHECK");;
  let t := MkTenants (<[v_VaultID v := v]> (tn_vault t)) (tn_credential t) (tn_envelope t) (tn_map t) in
  require (bool_decide (tn_credential t !! c_CredentialID cred = None)) (ErrConstraint "UNIQUE vault_credential.credential_id");;
  require (bool_decide (is_Some (tn_vault t !! c_VaultID cred))) (ErrConstraint "FOREIGN KEY");;
  require (vault_credential_check cred) (ErrConstraint "CHECK");;
  let t := MkTenants (tn_vault t) (<[c_CredentialID cred := cred]> (tn_credential t)) (tn_envelope t) (tn_map t) in
  match envelope with
  | Some e => insertVaultEnvelopeTx t (v_VaultID v) e
  | None => Ok t
  end.

(** [SELECT ... FROM vault_credential WHERE vault_id = ? ORDER BY resident DESC LIMIT 1]:
    a resident credential first; a tie is broken by the table's own order. *)
Definition primaryCredential (t : Tenants) (vaultID : string) : option VaultCredential :=
  let cs := filter (fun c => c_VaultID c = vaultID) (map snd (map_to_list (tn_credential t))) in
  match filter (fun c => c_Resident c = true) cs with
  | c :: _ => Some c
  | [] => head cs
  end.

Definition LoadVault (t : Tenants) (vaultID : string) : result (option VaultRecord * option VaultCredential) :=
  require (negb (seqb vaultID "")) (Errorf "vault id required");;
  match tn_vault t !! vaultID with
  | None => Ok (None, None)
  | Some v => Ok (Some v, primaryCredential t vaultID)
  end.

Definition LoadVerifiedVault (t : Tenants) (vaultID : string) (key : bytes) : result (option VaultRecord * option VaultCredential) :=
  '(rec, cred) ← LoadVault t vaultID;
  match rec with
  | None => Ok (rec, cred)
  | Some v =>
      VerifyVaultRecord v key;;
      match cred with Some c => VerifyVaultCredential c key | None => Ok tt end;;
      Ok (rec, cred)
  end.

(** ** Envelopes *)

Definition CredentialEnvelopeVersion := 2.
Definition vaultEnvelopeDomain := "arkade-vault/vault-envelope/v2".
Definition vaultEnvelopeMACSalt := "arkade-vault/vault-envelope-mac/v2".
Definition credentialEnvelopeNonce := 12.
Definition credentialEnvelopeCipher := 48.
Definition credentialEnvelopeBinding := 16 * 1024.
Definition credentialEnvelopeSig := 64.

Definition DeriveVaultEnvelopeMACKey (integrityKey : bytes) (vaultID : string) : result bytes :=
  require (zlen integrityKey =? sha256_size) tenant_err_key;;
  require (negb (seqb vaultID "")) (Errorf "vault id required");;
  Ok (hmac_sha256 (bytes_of vaultEnvelopeMACSalt) (integrityKey ++ [x00] ++ bytes_of vaultID)).

Definition validateCredentialEnvelope (e : CredentialEnvelope) : result unit :=
  require (e_Version e =? CredentialEnvelopeVersion) (Errorf "credential envelope version must be 2");;
  require (negb ((slen (e_Binding e) =? 0) || (credentialEnvelopeBinding <? slen (e_Binding e))))
    (Errorf "credential envelope binding must be 1..16384 bytes");;
  require (zlen (e_Nonce e) =? credentialEnvelopeNonce) (Errorf "credential envelope nonce must be 12 bytes");;
  require (zlen (e_Ciphertext e) =? credentialEnvelopeCipher) (Errorf "credential envelope ciphertext must be 48 bytes");;
  require (zlen (e_DirectSig e) =? credentialEnvelopeSig) (Errorf "credential envelope direct signature must be 64 bytes");;
  require (zlen (e_PhoneSig e) =? credentialEnvelopeSig) (Errorf "credential envelope phone signature must be 64 bytes");;
  require (negb (negb (zlen (e_IntegrityMAC e) =? 0) && negb (zlen (e_IntegrityMAC e) =? sha256_size)))
    (Errorf "credential envelope integrity MAC must be 32 bytes").

Definition envelopePayload (e : CredentialEnvelope) (vaultID : string) (credentialID : bytes) : bytes :=
  frame (bytes_of vaultEnvelopeDomain) ++ put32 (e_Version e) ++
  frames [bytes_of vaultID; credentialID; bytes_of (e_Binding e); e_Nonce e; e_Ciphertext e; e_DirectSig e; e_PhoneSig e].

Definition vaultEnvelopeMAC (e : CredentialEnvelope) (vaultID : string) (credentialID integrityKey : bytes) : result bytes :=
  key ← DeriveVaultEnvelopeMACKey integrityKey vaultID;
  validateCredentialEnvelope e;;
  Ok (hmac_sha256 key (envelopePayload e vaultID credentialID)).

Definition e_set_MAC (m : bytes) (e : CredentialEnvelope) : CredentialEnvelope :=
  MkEnvelope (e_Version e) (e_Binding e) (e_Nonce e) (e_Ciphertext e) (e_DirectSig e) (e_PhoneSig e) m.

Definition SealVaultEnvelope (e : CredentialEnvelope) (vaultID : string) (credentialID integrityKey : bytes)
    : result CredentialEnvelope :=
  mac ← vaultEnvelopeMAC e vaultID credentialID integrityKey; Ok (e_set_MAC mac e).

Definition VerifyVaultEnvelope (e : CredentialEnvelope) (vaultID : string) (credentialID integrityKey : bytes) : result unit :=
  require (zlen (e_IntegrityMAC e) =? sha256_size) (Errorf "credential envelope integrity MAC missing or malformed");;
  want ← vaultEnvelopeMAC e vaultID credentialID integrityKey;
  require (beqb (e_IntegrityMAC e) want) (Errorf "credential envelope integrity MAC mismatch").

Definition getVaultEnvelope (t : Tenants) (vaultID : string) : result (option CredentialEnvelope) :=
  match tn_envelope t !! vaultID with
  | None => Ok None
  | Some e => validateCredentialEnvelope e;; Ok (Some e)
  end.

Definition GetVaultEnvelope (t : Tenants) (vaultID : string) : result (option CredentialEnvelope) :=
  require (negb (seqb vaultID "")) (Errorf "vault id required");;
  getVaultEnvelope t vaultID.

Definition envelopesEqual (a b : CredentialEnvelope) : bool :=
  (e_Version a =? e_Version b) && seqb (e_Binding a) (e_Binding b) && beqb (e_Nonce a) (e_Nonce b) &&
  beqb (e_Ciphertext a) (e_Ciphertext b) && beqb (e_DirectSig a) (e_DirectSig b) && beqb (e_PhoneSig a) (e_PhoneSig b) &&
  beqb (e_IntegrityMAC a) (e_IntegrityMAC b).

(** A transaction on the tenant tables: an error rolls back, a COMMIT may fail. *)
Definition commitTenants (t : Tenants) (commit_ok : bool) (body : result Tenants) : Tenants * result unit :=
  match body with
  | Err e => (t, Err e)
  | Ok t' => if commit_ok then (t', Ok tt) else (t, Err ErrCommit)
  end.

Definition storeEnvelopeBody (key : bytes) (t : Tenants) (vaultID : string) (e : CredentialEnvelope) : result Tenants :=
  require (negb (seqb vaultID "")) (Errorf "vault id required");;
  validateCredentialEnvelope e;;
  require (zlen (e_IntegrityMAC e) =? sha256_size) (Errorf "credential envelope integrity MAC must be 32 bytes");;
  match primaryCredential t vaultID with
  | None => Err (Errorf "vault credential required")
  | Some cred =>
      VerifyVaultEnvelope e vaultID (c_CredentialID cred) key;;
      existing ← getVaultEnvelope t vaultID;
      match existing with
      | Some ex => if envelopesEqual ex e then Ok t else Err (Errorf "credential envelope locked")
      | None => wrap "credential envelope locked or failed" (insertVaultEnvelopeTx t vaultID e)
      end
  end.

Definition StoreVaultEnvelopeIfAbsent (l : Ledger) (t : Tenants) (commit_ok : bool) (vaultID : string) (e : CredentialEnvelope)
    : Tenants * result unit := commitTenants t commit_ok (storeEnvelopeBody (l_integrityKey l) t vaultID e).

Definition replaceEnvelopeBody (key : bytes) (t : Tenants) (vaultID : string) (expected replacement : CredentialEnvelope)
    : result Tenants :=
  require (negb (seqb vaultID "")) (Errorf "vault id required");;
  validateCredentialEnvelope expected;;
  validateCredentialEnvelope replacement;;
  require ((zlen (e_IntegrityMAC expected) =? sha256_size) && (zlen (e_IntegrityMAC replacement) =? sha256_size))
    (Errorf "credential envelope integrity MAC must be 32 bytes");;
  match primaryCredential t vaultID with
  | None => Err (Errorf "vault credential required")
  | Some cred =>
      VerifyVaultEnvelope expected vaultID (c_CredentialID cred) key;;
      VerifyVaultEnvelope replacement vaultID (c_CredentialID cred) key;;
      current ← getVaultEnvelope t vaultID;
      match current with
      | None => Err (Errorf "credential envelope changed during upgrade")
      | Some cur =>
          require (envelopesEqual cur expected) (Errorf "credential envelope changed during upgrade");;
          wrap "replace credential envelope" (require (vault_envelope_check replacement) (ErrConstraint "CHECK"));;
          Ok (tn_set_envelope (<[vaultID := replacement]> (tn_envelope t)) t)
      end
  end.

Definition ReplaceVaultEnvelope (l : Ledger) (t : Tenants) (commit_ok : bool) (vaultID : string) (expected replacement : CredentialEnvelope)
    : Tenants * result unit := commitTenants t commit_ok (replaceEnvelopeBody (l_integrityKey l) t vaultID expected replacement).

(** ** Descriptor comparison *)

Definition VaultRecordsCanonicallyEqual (got want : VaultRecord) : result unit :=
  require (seqb (v_VaultID got) (v_VaultID want)) (Errorf "vault_id");;
  require (seqb (v_TemplateVersion got) (v_TemplateVersion want)) (Errorf "template_version");;
  require (seqb (v_PolicyVersion got) (v_PolicyVersion want)) (Errorf "policy_version");;
  require (seqb (v_ProtectionTier got) (v_ProtectionTier want)) (Errorf "protection_tier");;
  require (seqb (v_Network got) (v_Network want)) (Errorf "network");;
  require (seqb (v_RPID got) (v_RPID want)) (Errorf "rp_id");;
  require (seqb (v_Origin got) (v_Origin want)) (Errorf "origin");;
  require (beqb (v_PhoneBIP340 got) (v_PhoneBIP340 want)) (Errorf "phone_bip340");;
  require (beqb (v_PhoneDirectP256 got) (v_PhoneDirectP256 want)) (Errorf "phone_direct_p256");;
  require (beqb (v_ExternalOwnerWallet got) (v_ExternalOwnerWallet want)) (Errorf "external_owner_wallet");;
  require (beqb (v_RecoveryKey got) (v_RecoveryKey want)) (Errorf "recovery_key");;
  require (beqb (v_VaultCosignerBase got) (v_VaultCosignerBase want)) (Errorf "vault_cosigner_base");;
  require (beqb (v_ArkadeCosignerBase got) (v_ArkadeCosignerBase want)) (Errorf "arkade_cosigner_base");;
  require (seqb (v_ArkadeCosignerOrigin got) (v_ArkadeCosignerOrigin want)) (Errorf "arkade_cosigner_origin");;
  require (seqb (v_ArkadeCosignerVersion got) (v_ArkadeCosignerVersion want)) (Errorf "arkade_cosigner_version");;
  require (seqb (v_CosignerMode got) (v_CosignerMode want)) (Errorf "cosigner_mode");;
  require (seqb (v_SavingsAddress got) (v_SavingsAddress want)) (Errorf "savings_address");;
  require (beqb (v_SavingsScript got) (v_SavingsScript want)) (Errorf "savings_script");;
  require (v_RecipientDustSats got =? v_RecipientDustSats want) (Errorf "recipient_dust_sats");;
  require (v_TxRecipientCapSats got =? v_TxRecipientCapSats want) (Errorf "tx_recipient_cap_sats");;
  require (v_PeriodAllowanceSats got =? v_PeriodAllowanceSats want) (Errorf "period_allowance_sats");;
  require (v_AbsoluteFeeCapSats got =? v_AbsoluteFeeCapSats want) (Errorf "absolute_fee_cap_sats");;
  require (v_FeerateCapSatPerV got =? v_FeerateCapSatPerV want) (Errorf "feerate_cap_sat_vb").

Definition VaultCredentialsCanonicallyEqual (got want : VaultCredential) : result unit :=
  require (beqb (c_CredentialID got) (c_CredentialID want)) (Errorf "credential_id");;
  require (seqb (c_VaultID got) (c_VaultID want)) (Errorf "vault_id");;
  require (beqb (c_WebAuthnP256 got) (c_WebAuthnP256 want)) (Errorf "webauthn_p256");;
  require (beqb (c_UserHandle got) (c_UserHandle want)) (Errorf "user_handle");;
  require (Bool.eqb (c_Resident got) (c_Resident want)) (Errorf "resident").

(** ** Recovery maps *)

Definition vaultMapMAC (rec : VaultMap) (key : bytes) : bytes :=
  hmac_sha256 key (bytes_of vaultMapMACDomain ++ bytes_of (vm_VaultID rec) ++ bytes_of (vm_KitHash rec) ++ bytes_of (vm_Payload rec)).

Definition PutVaultMap (l : Ledger) (t : Tenants) (commit_ok : bool) (now : Z) (rec : VaultMap) : Tenants * result unit :=
  commitTenants t commit_ok
    (require (zlen (l_integrityKey l) =? sha256_size) (Errorf "map ledger required");;
     let rec := MkVaultMap (trim_space (vm_VaultID rec)) (normalize (vm_KitHash rec)) (vm_Payload rec) in
     require (negb (seqb (vm_VaultID rec) "" || negb (slen (vm_KitHash rec) =? 64) || seqb (vm_Payload rec) ""
                    || (98304 <? slen (vm_Payload rec)))) (Errorf "vault map required");;
     let row := MkVaultMapRow rec (formatRFC3339Nano now) (vaultMapMAC rec (l_integrityKey l)) in
     require (vault_map_check row) (ErrConstraint "CHECK");;
     require (bool_decide (is_Some (tn_map t !! vm_VaultID rec)) || bool_decide (is_Some (tn_vault t !! vm_VaultID rec)))
       (ErrConstraint "FOREIGN KEY");;
     Ok (tn_set_map (<[vm_VaultID rec := row]> (tn_map t)) t)).

Definition GetVaultMap (l : Ledger) (t : Tenants) (vaultID : string) : result (option VaultMap) :=
  require (zlen (l_integrityKey l) =? sha256_size) (Errorf "map ledger required");;
  let vaultID := trim_space vaultID in
  require (negb (seqb vaultID "")) (Errorf "vault id required");;
  match tn_map t !! vaultID with
  | None => Ok None
  | Some row =>
      require (beqb (vmr_integrity_mac row) (vaultMapMAC (vmr_map row) (l_integrityKey l))) (Errorf "vault map MAC mismatch");;
      Ok (Some (vmr_map row))
  end.

(** ** Lemmas *)

Lemma VerifyVaultEnvelope_Ok e v c key u : VerifyVaultEnvelope e v c key = Ok u <->
  zlen (e_IntegrityMAC e) = 32 /\ exists k, DeriveVaultEnvelopeMACKey key v = Ok k /\ validateCredentialEnvelope e = Ok tt /\
    e_IntegrityMAC e = hmac_sha256 k (envelopePayload e v c).
Proof.
  destruct u. unfold VerifyVaultEnvelope, vaultEnvelopeMAC. split.
  - intros (? & Hl%require_Ok & (w & (k & Hk & (? & Hv & [= <-])%bind_Ok)%bind_Ok & Hm%require_Ok)%bind_Ok)%bind_Ok.
    apply Z.eqb_eq in Hl. apply beqb_true in Hm. split; [done|]. destruct x0. by exists k.
  - intros (Hl & k & Hk & Hv & Hm). rewrite Hl, Hk, Hv. simpl. rewrite (proj2 (beqb_true _ _)); done.
Qed.

Lemma envelopesEqual_true a b : envelopesEqual a b = true <-> a = b.
Proof.
  unfold envelopesEqual. rewrite !andb_true_iff, !beqb_true, seqb_true, Z.eqb_eq.
  split; [|by intros ->]. destruct a, b. simpl. naive_solver.
Qed.

Lemma envelope_short e : validateCredentialEnvelope e = Ok tt ->
  e_Version e = 2 /\ Forall short [bytes_of (e_Binding e); e_Nonce e; e_Ciphertext e; e_DirectSig e; e_PhoneSig e].
Proof.
  unfold validateCredentialEnvelope, CredentialEnvelopeVersion, credentialEnvelopeNonce, credentialEnvelopeCipher,
    credentialEnvelopeSig, credentialEnvelopeBinding. intros H. inv_ok. bool_prop.
  split; [done|]. unfold slen in *. rewrite !Forall_cons. unfold short, uint32_max. split_and!; try lia. constructor.
Qed.

(** The MAC key and the payload determine the tenant, the passkey and the envelope. *)
Lemma envelopePayload_inj e1 e2 v1 v2 c1 c2 :
  validateCredentialEnvelope e1 = Ok tt -> validateCredentialEnvelope e2 = Ok tt ->
  short (bytes_of v1) -> short (bytes_of v2) -> short c1 -> short c2 ->
  envelopePayload e1 v1 c1 = envelopePayload e2 v2 c2 -> v1 = v2 /\ c1 = c2 /\ e_set_MAC [] e1 = e_set_MAC [] e2.
Proof.
  intros (V1 & S1)%envelope_short (V2 & S2)%envelope_short ? ? ? ?. unfold envelopePayload. rewrite V1, V2.
  intros E. apply app_inv_head in E. apply app_inv_head in E. apply frames_inj in E; [|done|by do 2 (constructor; [done|])..].
  destruct e1, e2; unfold e_set_MAC; simpl in *. same_fields. done.
Qed.

Lemma commitTenants_cases t ok body t' r : commitTenants t ok body = (t', r) ->
  (t' = t /\ exists e, r = Err e) \/ (body = Ok t' /\ r = Ok tt).
Proof. unfold commitTenants. destruct body as [t1|e]; [destruct ok|]; intros [= <- <-]; eauto. Qed.

Lemma getVaultEnvelope_Ok t v o : getVaultEnvelope t v = Ok o <->
  o = tn_envelope t !! v /\ forall e, o = Some e -> validateCredentialEnvelope e = Ok tt.
Proof.
  unfold getVaultEnvelope. destruct (tn_envelope t !! v) as [e|]; [|naive_solver].
  destruct (validateCredentialEnvelope e) as [[]|] eqn:E; simpl; naive_solver congruence.
Qed.

Lemma storeEnvelopeBody_Ok key t v e t' : storeEnvelopeBody key t v e = Ok t' ->
  v <> "" /\ validateCredentialEnvelope e = Ok tt /\
  (exists cred, primaryCredential t v = Some cred /\ VerifyVaultEnvelope e v (c_CredentialID cred) key = Ok tt) /\
  ((tn_envelope t !! v = Some e /\ t' = t) \/
   (tn_envelope t !! v = None /\ t' = tn_set_envelope (<[v := e]> (tn_envelope t)) t)).
Proof.
  unfold storeEnvelopeBody. intros (? & Hne%require_Ok & (? & Hv & (? & _ & H)%bind_Ok)%bind_Ok)%bind_Ok.
  apply negb_true_iff, seqb_false in Hne. destruct x0. split; [done|]. split; [done|].
  destruct (primaryCredential t v) as [cred|]; [|done].
  apply bind_Ok in H as ([] & Hver & (o & [-> _]%getVaultEnvelope_Ok & H)%bind_Ok). split; [eauto|].
  destruct (tn_envelope t !! v) as [ex|].
  - left. destruct (envelopesEqual ex e) eqn:E; [|done]. apply envelopesEqual_true in E. injection H as <-. by subst.
  - right. split; [done|]. apply wrap_Ok in H. unfold insertVaultEnvelopeTx in H. by inv_ok.
Qed.

Lemma replaceEnvelopeBody_Ok key t v e1 e2 t' : replaceEnvelopeBody key t v e1 e2 = Ok t' ->
  tn_envelope t !! v = Some e1 /\ validateCredentialEnvelope e2 = Ok tt /\
  (exists cred, primaryCredential t v = Some cred /\ VerifyVaultEnvelope e2 v (c_CredentialID cred) key = Ok tt) /\
  t' = tn_set_envelope (<[v := e2]> (tn_envelope t)) t.
Proof.
  unfold replaceEnvelopeBody. intros (? & _ & (? & _ & ([] & Hv2 & (? & _ & H)%bind_Ok)%bind_Ok)%bind_Ok)%bind_Ok.
  destruct (primaryCredential t v) as [cred|]; [|done].
  apply bind_Ok in H as ([] & _ & ([] & Hver & (o & [-> _]%getVaultEnvelope_Ok & H)%bind_Ok)%bind_Ok).
  destruct (tn_envelope t !! v) as [cur|]; [|done].
  apply bind_Ok in H as (? & E%require_Ok & (? & _ & [= <-])%bind_Ok). apply envelopesEqual_true in E. subst. eauto 6.
Qed.

Lemma VaultRecordsCanonicallyEqual_Ok a b u : VaultRecordsCanonicallyEqual a b = Ok u <-> v_set_MAC [] a = v_set_MAC [] b.
Proof.
  destruct u. unfold VaultRecordsCanonicallyEqual. split.
  - intros H. inv_ok. repeat match goal with
    | H : seqb _ _ = true |- _ => apply seqb_true in H | H : beqb _ _ = true |- _ => apply beqb_true in H
    | H : (_ =? _) = true |- _ => apply Z.eqb_eq in H end.
    destruct a, b. unfold v_set_MAC. simpl in *. by subst.
  - destruct a, b. unfold v_set_MAC. simpl. intros E. injection E as -> -> -> -> -> -> -> -> -> -> -> -> -> -> -> -> -> -> -> -> -> -> ->.
    unfold seqb, beqb. rewrite !bool_decide_eq_true_2, !Z.eqb_refl by done. done.
Qed.

(** ** A concrete tenant *)

Definition example_tenant_ledger : Ledger :=
  MkLedger (MkDatabase {["vault-a"]} ∅ ∅ ∅ ∅ ∅ ∅ ∅ ∅) NetworkMutinynet (replicate 32 x2a) None None.
Definition example_vault : VaultRecord :=
  MkVault "vault-a" "savings-v1" "vault-policy-v1" "standard" "mutinynet" "example.org" "https://example.org"
    (replicate 33 x02) (replicate 33 x02) (replicate 33 x02) [] (replicate 33 x02) (replicate 33 x02)
    "https://arkade" "v1" "hkdf-sha256-v1" "tark1" [x51; x20] 330 100000 200000 5000 50 [].
Definition example_passkey : VaultCredential := MkVaultCredential [x01; x02] "vault-a" (replicate 33 x02) [] true [].
Definition example_sealed_vault : VaultRecord :=
  match SealVaultRecord example_vault (replicate 32 x2a) with Ok v => v | Err _ => example_vault end.
Definition example_tenants : Tenants :=
  MkTenants {["vault-a" := example_sealed_vault]} {[[x01; x02] := example_passkey]} ∅ ∅.
Definition example_unsealed (b : string) : CredentialEnvelope :=
  MkEnvelope 2 b (replicate 12 x00) (replicate 48 x01) (replicate 64 x02) (replicate 64 x03) [].
Definition example_envelope (b : string) : CredentialEnvelope :=
  match SealVaultEnvelope (example_unsealed b) "vault-a" [x01; x02] (replicate 32 x2a) with Ok e => e | Err _ => example_unsealed b end.
Definition example_stored := StoreVaultEnvelopeIfAbsent example_tenant_ledger example_tenants true "vault-a" (example_envelope "b1").

Lemma example_vault_verifies : VerifyVaultRecord example_sealed_vault (replicate 32 x2a) = Ok tt.
Proof. vm_compute. reflexivity. Qed.

Lemma example_vault_typed : v_typed example_sealed_vault.
Proof. unfold v_typed, int64_range. vm_compute. repeat split; discriminate. Qed.

Lemma example_envelope_verifies : VerifyVaultEnvelope (example_envelope "b1") "vault-a" [x01; x02] (replicate 32 x2a) = Ok tt.
Proof. vm_compute. reflexivity. Qed.

Lemma example_stored_ok : StoreVaultEnvelopeIfAbsent example_tenant_ledger example_tenants true "vault-a" (example_envelope "b1") =
  (example_stored.1, Ok tt).
Proof.
  assert (H : match example_stored.2 with Ok _ => true | Err _ => false end = true) by (vm_compute; reflexivity).
  unfold example_stored in *. destruct (StoreVaultEnvelopeIfAbsent _ _ _ _ _) as [t [[]|e]]; [done|discriminate H].
Qed.

Lemma short_lit fld : zlen fld <= 256 -> short fld.
Proof. unfold short, uint32_max. lia. Qed.

(** ** Properties *)

(** Vault descriptors and passkeys cannot be altered in the store: two rows
    that verify under one MAC agree in every field, or their two payloads are an HMAC
    collision. *)
Theorem tenant_rows_authentic key :
  (forall v1 v2, v_typed v1 -> v_typed v2 -> VerifyVaultRecord v1 key = Ok tt -> VerifyVaultRecord v2 key = Ok tt ->
     v_IntegrityMAC v1 = v_IntegrityMAC v2 -> v1 = v2 \/ rows_collide key v1 v2) /\
  (forall c1 c2, VerifyVaultCredential c1 key = Ok tt -> VerifyVaultCredential c2 key = Ok tt ->
     c_IntegrityMAC c1 = c_IntegrityMAC c2 -> c1 = c2 \/ rows_collide key c1 c2).
Proof.
  split; [intros v1 v2 ? ? H1 H2 E; by apply (verify_authentic key v1 v2)|].
  intros c1 c2 H1 H2 E. by apply (verify_authentic key c1 c2).
Qed.

(** An envelope belongs to one tenant and one passkey: two envelopes that
    verify with the same MAC, for whatever vaults and passkeys, are the same
    envelope of the same vault and passkey, or the two derived keys and payloads
    differ and have one HMAC. *)
Theorem envelope_bound_to_tenant key e1 e2 v1 v2 c1 c2 :
  short (bytes_of v1) -> short (bytes_of v2) -> short c1 -> short c2 ->
  VerifyVaultEnvelope e1 v1 c1 key = Ok tt -> VerifyVaultEnvelope e2 v2 c2 key = Ok tt ->
  e_IntegrityMAC e1 = e_IntegrityMAC e2 ->
  (v1 = v2 /\ c1 = c2 /\ e1 = e2) \/
  exists k1 k2, DeriveVaultEnvelopeMACKey key v1 = Ok k1 /\ DeriveVaultEnvelopeMACKey key v2 = Ok k2 /\
    (k1, envelopePayload e1 v1 c1) <> (k2, envelopePayload e2 v2 c2) /\
    hmac_sha256 k1 (envelopePayload e1 v1 c1) = hmac_sha256 k2 (envelopePayload e2 v2 c2).
Proof.
  intros ? ? ? ? (_ & k1 & D1 & V1 & M1)%VerifyVaultEnvelope_Ok (_ & k2 & D2 & V2 & M2)%VerifyVaultEnvelope_Ok E.
  destruct (decide ((k1, envelopePayload e1 v1 c1) = (k2, envelopePayload e2 v2 c2))) as [Ep|Hne].
  - left. apply (f_equal snd) in Ep. cbn [snd] in Ep. apply envelopePayload_inj in Ep as (-> & -> & Ee); try done. split_and!; [done..|].
    destruct e1, e2. unfold e_set_MAC in Ee. simpl in *. congruence.
  - right. exists k1, k2. split_and!; [done..|]. congruence.
Qed.

Lemma envelope_bound_to_tenant_witness :
  ("vault-a" = "vault-a" /\ [x01; x02] = [x01; x02] /\ example_envelope "b1" = example_envelope "b1") \/
  (let e := example_envelope "b1" in
   exists k1 k2, DeriveVaultEnvelopeMACKey (replicate 32 x2a) "vault-a" = Ok k1 /\ DeriveVaultEnvelopeMACKey (replicate 32 x2a) "vault-a" = Ok k2 /\
    (k1, envelopePayload e "vault-a" [x01; x02]) <> (k2, envelopePayload e "vault-a" [x01; x02]) /\
    hmac_sha256 k1 (envelopePayload e "vault-a" [x01; x02]) = hmac_sha256 k2 (envelopePayload e "vault-a" [x01; x02])).
Proof.
  exact (envelope_bound_to_tenant (replicate 32 x2a) (example_envelope "b1") (example_envelope "b1") "vault-a" "vault-a" [x01; x02] [x01; x02]
    ltac:(apply short_lit; vm_compute; discriminate) ltac:(apply short_lit; vm_compute; discriminate)
    ltac:(apply short_lit; vm_compute; discriminate) ltac:(apply short_lit; vm_compute; discriminate)
    example_envelope_verifies example_envelope_verifies eq_refl).
Defined.

(** A recovery envelope is written once and replaced only by compare and
    swap: storing over another envelope, and replacing anything but the exact
    stored one, are refused and leave the tables unchanged; a success stores
    exactly the given envelope, which was sealed for this vault and its passkey,
    and reads back. *)
Theorem envelope_compare_and_swap l t ok v e t' r :
  (StoreVaultEnvelopeIfAbsent l t ok v e = (t', r) ->
     (t' = t /\ (exists err, r = Err err) \/ tn_envelope t' = <[v := e]> (tn_envelope t)) /\
     (forall old, tn_envelope t !! v = Some old -> t' = t /\ (r = Ok tt -> e = old))) /\
  (forall old, ReplaceVaultEnvelope l t ok v old e = (t', r) ->
     t' = t /\ (exists err, r = Err err) \/
     tn_envelope t !! v = Some old /\ tn_envelope t' = <[v := e]> (tn_envelope t)) /\
  (StoreVaultEnvelopeIfAbsent l t ok v e = (t', Ok tt) -> GetVaultEnvelope t' v = Ok (Some e) /\
     exists cred, primaryCredential t v = Some cred /\ VerifyVaultEnvelope e v (c_CredentialID cred) (l_integrityKey l) = Ok tt).
Proof.
  split_and!.
  - intros [[-> [err ->]]|[H ->]]%commitTenants_cases; [split; [eauto|intros; split; [done|discriminate]]|].
    apply storeEnvelopeBody_Ok in H as (_ & _ & _ & [[Ho ->]|[Ho ->]]).
    + split; [right; by rewrite insert_id|]. rewrite Ho. by intros old [= <-].
    + split; [by right|]. rewrite Ho. discriminate.
  - intros old [[-> [err ->]]|[H ->]]%commitTenants_cases; [eauto|].
    apply replaceEnvelopeBody_Ok in H as (Ho & _ & _ & ->). auto.
  - intros [[_ [err ?]]|[H _]]%commitTenants_cases; [done|].
    apply storeEnvelopeBody_Ok in H as (Hne & Hv & (cred & Hc & Hver) & Hs). split; [|by exists cred].
    unfold GetVaultEnvelope. rewrite seqb_neq by done. simpl. apply getVaultEnvelope_Ok.
    assert (E : tn_envelope t' !! v = Some e) by (destruct Hs as [[Ho ->]|[Ho ->]]; [done|]; simpl; apply lookup_insert_eq).
    rewrite E. split; [done|]. by intros e' [= <-].
Qed.

Lemma envelope_compare_and_swap_witness :
  GetVaultEnvelope example_stored.1 "vault-a" = Ok (Some (example_envelope "b1")).
Proof.
  exact (proj1 (proj2 (proj2 (envelope_compare_and_swap example_tenant_ledger example_tenants true "vault-a" (example_envelope "b1")
    example_stored.1 (Ok tt))) example_stored_ok)).
Defined.

Lemma tenant_rows_authentic_witness : example_sealed_vault = example_sealed_vault \/
  rows_collide (replicate 32 x2a) example_sealed_vault example_sealed_vault.
Proof.
  exact (proj1 (tenant_rows_authentic (replicate 32 x2a)) example_sealed_vault example_sealed_vault example_vault_typed example_vault_typed
    example_vault_verifies example_vault_verifies eq_refl).
Defined.

(** The descriptor comparison of a retried enrollment is exact: it accepts
    two records precisely when they agree in every field but the MAC. *)
Theorem descriptor_comparison_exact a b :
  VaultRecordsCanonicallyEqual a b = Ok tt <-> v_set_MAC [] a = v_set_MAC [] b.
Proof. apply VaultRecordsCanonicallyEqual_Ok. Qed.

(** The application view loses nothing of the descriptor: rebuilding the
    record from the view of a vault gives the vault, its MAC aside. *)
Theorem credential_view_round_trip v cred :
  v_CosignerMode v = CosignerModeHKDFSHA256V1 -> VaultRecordFromCredential (ToCredential v cred) = v_set_MAC [] v.
Proof. destruct v. unfold VaultRecordFromCredential, v_set_MAC. simpl. by intros ->. Qed.

Lemma credential_view_round_trip_witness :
  VaultRecordFromCredential (ToCredential example_vault example_passkey) = v_set_MAC [] example_vault.
Proof. exact (credential_view_round_trip example_vault example_passkey eq_refl). Defined.

(** The recovery map reads back: what [PutVaultMap] stores is returned by
    [GetVaultMap], with the vault id and kit hash normalized. *)
Theorem vault_map_round_trip l t ok now rec t' :
  PutVaultMap l t ok now rec = (t', Ok tt) ->
  GetVaultMap l t' (vm_VaultID rec) = Ok (Some (MkVaultMap (trim_space (vm_VaultID rec)) (normalize (vm_KitHash rec)) (vm_Payload rec))).
Proof.
  unfold PutVaultMap. intros [[_ [err ?]]|[H _]]%commitTenants_cases; [done|].
  apply bind_Ok in H as (? & Hk%require_Ok & (? & Hv%require_Ok & (? & _ & (? & _ & [= <-])%bind_Ok)%bind_Ok)%bind_Ok).
  unfold GetVaultMap. rewrite Hk. cbn [require mbind result_bind]. simpl in Hv. bool_prop.
  rewrite seqb_neq by (by apply seqb_false). cbn [negb require mbind result_bind tn_map tn_set_map vm_VaultID].
  rewrite lookup_insert_eq. cbn [vmr_integrity_mac vmr_map]. unfold beqb. by rewrite bool_decide_eq_true_2.
Qed.

Definition example_map : VaultMap := MkVaultMap " vault-a" (hex_encode (replicate 32 xab)) "{}".
Definition example_map_put := PutVaultMap example_tenant_ledger example_tenants true 0 example_map.

Lemma example_map_put_ok : PutVaultMap example_tenant_ledger example_tenants true 0 example_map = (example_map_put.1, Ok tt).
Proof.
  assert (H : match example_map_put.2 with Ok _ => true | Err _ => false end = true) by (vm_compute; reflexivity).
  unfold example_map_put in *. destruct (PutVaultMap _ _ _ _ _) as [t [[]|e]]; [done|discriminate H].
Qed.

Lemma vault_map_round_trip_witness : exists m,
  GetVaultMap example_tenant_ledger example_map_put.1 " vault-a" = Ok (Some m) /\ vm_Payload m = "{}".
Proof.
  eexists. split; [exact (vault_map_round_trip example_tenant_ledger example_tenants true 0 example_map example_map_put.1 example_map_put_ok)|].
  reflexivity.
Defined.

(** The recovery map's MAC does not separate its fields: a map whose vault id
    takes the first character of the kit hash, and whose kit hash takes the first
    character of the payload, has the same MAC, both kit hashes being of the
    stored length. *)
Theorem vault_map_mac_not_separated v k p c d key :
  slen k = 63 ->
  vaultMapMAC (MkVaultMap v (String c k) (String d p)) key =
  vaultMapMAC (MkVaultMap (v +:+ String c "") (k +:+ String d "") p) key /\
  slen (String c k) = 64 /\ slen (k +:+ String d "") = 64.
Proof.
  intros Hk. split.
  - unfold vaultMapMAC. simpl. rewrite !bytes_of_app, <-!app_assoc. done.
  - split; [rewrite slen_cons; lia|]. unfold slen in *. rewrite bytes_of_app, zlen_app, Hk. reflexivity.
Qed.

Lemma vault_map_mac_not_separated_witness :
  vaultMapMAC (MkVaultMap "v" (String "a" (hex_encode (replicate 31 xab) +:+ "0")) (String "{" "}")) example_key =
  vaultMapMAC (MkVaultMap "va" (hex_encode (replicate 31 xab) +:+ "0" +:+ "{") "}") example_key.
Proof.
  exact (proj1 (vault_map_mac_not_separated "v" (hex_encode (replicate 31 xab) +:+ "0") "}" "a" "{" example_key eq_refl)).
Defined.
