(* ===== verification/Enrollment.v ===== *)
(** * Enrollment: [invite.go], [pending.go], [enrollment_session.go], [vault_create.go]

    A vault is admitted by a one-time invite.  [Issue…] mints invites under a
    durable rate limit, [ReservePending…] binds one WebAuthn ceremony to an
    invite, and [createVault] inserts the tenant, its boarding enrollment, and
    consumes the invite and the ceremony in one transaction.

    [Store] is the whole database: the ledger's tables, the tenant tables, the
    recovery sessions, the invites and the pending ceremonies.  Times are compared
    as the RFC 3339 strings the store keeps. *)

From S2P Require Import Prelude Crypto Codec GoTime Program Monotonic Vtxo BoardRows Ledger Recovery SignCount VaultBoard Tenant.
From Stdlib Require Import Strings.Byte Strings.Ascii Strings.String.
From stdpp Require Import base decidable list strings gmap countable option sorting.
From Stdlib Require Import ZArith Lia.
Open Scope string_scope.
Open Scope list_scope.
Open Scope Z_scope.

(** ** Tables *)

(** A row of [invite]: [consumed_vault_id] is NULL while unused. *)
Record InviteRow := MkInviteRow { ir_expires_at : string; ir_consumed : option string; ir_created_at : string }.

Record Invite := MkInvite { iv_TokenHash : bytes; iv_ExpiresAt : string; iv_ConsumedVaultID : string; iv_CreatedAt : string }.

Record PendingEnrollment := MkPending {
  pe_Handle : string; pe_VaultID : string; pe_TokenHash : bytes; pe_Challenge : bytes;
  pe_ProtectionTier : string; pe_PolicyDigest : bytes; pe_ExpiresAt : string; pe_CreatedAt : string
}.

Record Store := MkStore {
  st_ledger : Ledger;
  st_tenants : Tenants;
  st_sessions : SessionTable;
  st_invite : gmap bytes InviteRow;
  st_pending : gmap string PendingEnrollment
}.

Definition st_set_invite m (s : Store) := MkStore (st_ledger s) (st_tenants s) (st_sessions s) m (st_pending s).
Definition st_set_pending m (s : Store) := MkStore (st_ledger s) (st_tenants s) (st_sessions s) (st_invite s) m.
Definition st_set_tenants m (s : Store) := MkStore (st_ledger s) m (st_sessions s) (st_invite s) (st_pending s).
Definition st_set_db d (s : Store) := MkStore (set_db d (st_ledger s)) (st_tenants s) (st_sessions s) (st_invite s) (st_pending s).

(** A transaction of the store: an error rolls back, a COMMIT may fail. *)
Definition commitStore {A} (s : Store) (commit_ok : bool) (body : result (Store * A)) : Store * result A :=
  match body with
  | Err e => (s, Err e)
  | Ok (s', a) => if commit_ok then (s', Ok a) else (s, Err ErrCommit)
  end.

(** ** Invites *)

Definition getInvite (s : Store) (tokenHash : bytes) : option Invite :=
  (fun r => MkInvite tokenHash (ir_expires_at r) (default "" (ir_consumed r)) (ir_created_at r)) <$> st_invite s !! tokenHash.

Definition GetInvite (s : Store) (tokenHash : bytes) : result (option Invite) :=
  require (zlen tokenHash =? sha256_size) (Errorf "invite token_hash must be 32 bytes");;
  Ok (getInvite s tokenHash).

Definition Usable (inv : option Invite) (now : Z) : bool :=
  match inv with
  | None => false
  | Some inv =>
      if negb (seqb (iv_ConsumedVaultID inv) "") then false
      else if seqb (iv_ExpiresAt inv) "" then false
      else str_le (formatRFC3339 now) (iv_ExpiresAt inv)
  end.

(** [INSERT INTO invite (token_hash, expires_at, created_at)] *)
Definition insertInvite (s : Store) (tokenHash : bytes) (expiresAt createdAt : string) : result Store :=
  require (bool_decide (st_invite s !! tokenHash = None)) (ErrConstraint "UNIQUE invite.token_hash");;
  require (zlen tokenHash =? 32) (ErrConstraint "CHECK");;
  Ok (st_set_invite (<[tokenHash := MkInviteRow expiresAt None createdAt]> (st_invite s)) s).

Definition PutInvite (s : Store) (commit_ok : bool) (tokenHash : bytes) (expiresAt createdAt : string) : Store * result unit :=
  commitStore s commit_ok
    (require (zlen tokenHash =? sha256_size) (Errorf "invite token_hash must be 32 bytes");;
     require (negb (seqb expiresAt "" || seqb createdAt "")) (Errorf "invite timestamps required");;
     s ← insertInvite s tokenHash expiresAt createdAt;
     Ok (s, tt)).

(** The rows the two DELETE statements of [IssueEnrollmentSession] select. *)
Definition stale (cutoff : string) (r : InviteRow) : bool :=
  bool_decide (ir_consumed r = None) && str_lt (ir_expires_at r) cutoff.

Definition staleToken (s : Store) (cutoff : string) (tokenHash : bytes) : bool :=
  match st_invite s !! tokenHash with Some r => stale cutoff r | None => false end.

Definition countInvites (p : InviteRow -> bool) (s : Store) : Z :=
  zlen (filter (fun kr => p kr.2 = true) (map_to_list (st_invite s))).

Definition recentInvites (since : string) : Store -> Z := countInvites (fun r => str_le since (ir_created_at r)).
Definition activeInvites (now : string) : Store -> Z :=
  countInvites (fun r => bool_decide (ir_consumed r = None) && str_le now (ir_expires_at r)).

Definition issueBody (s : Store) (hash : bytes) (now : Z) : result (Store * Z) :=
  require (zlen hash =? sha256_size) (Errorf "enrollment token hash must be 32 bytes");;
  let cutoff := formatRFC3339 (now - 24 * hour) in
  let s1 := st_set_pending (filter (fun kp => staleToken s cutoff (pe_TokenHash kp.2) = false) (st_pending s)) s in
  let s2 := st_set_invite (filter (fun kr => stale cutoff kr.2 = false) (st_invite s1)) s1 in
  let recent := recentInvites (formatRFC3339 (now - minute)) s2 in
  let active := activeInvites (formatRFC3339 now) s2 in
  require (negb ((30 <=? recent) || (1000 <=? active))) (Errorf "setup is busy; try again shortly");;
  let expires := now + 10 * minute in
  s3 ← insertInvite s2 hash (formatRFC3339 expires) (formatRFC3339 now);
  Ok (s3, expires).

Definition IssueEnrollmentSession (s : Store) (commit_ok : bool) (hash : bytes) (now : Z) : Store * result Z :=
  commitStore s commit_ok (issueBody s hash now).

(** ** Pending ceremonies *)

Definition validatePendingEnrollment (p : PendingEnrollment) : result unit :=
  require (negb (seqb (pe_Handle p) "" || seqb (pe_VaultID p) "")) (Errorf "pending enrollment handle and vault id required");;
  require (zlen (pe_TokenHash p) =? sha256_size) (Errorf "pending enrollment token_hash must be 32 bytes");;
  require (negb (zlen (pe_Challenge p) =? 0)) (Errorf "pending enrollment challenge required");;
  wrap "pending enrollment" (ValidateProtectionTier (pe_ProtectionTier p));;
  require (zlen (pe_PolicyDigest p) =? sha256_size) (Errorf "pending enrollment policy_digest must be 32 bytes");;
  require (negb (seqb (pe_ExpiresAt p) "" || seqb (pe_CreatedAt p) "")) (Errorf "pending enrollment timestamps required").

(** [token_hash] is UNIQUE: at most one row. *)
Definition getPendingByTokenHashTx (s : Store) (tokenHash : bytes) : option PendingEnrollment :=
  snd <$> head (filter (fun kp => pe_TokenHash kp.2 = tokenHash) (map_to_list (st_pending s))).

Definition GetPendingByHandle (s : Store) (handle : string) : result (option PendingEnrollment) :=
  require (negb (seqb handle "")) (Errorf "pending enrollment handle required");;
  Ok (st_pending s !! handle).

(** The constraints of [pending_enrollment] a written row has to meet, [others]
    being the rows it does not replace. *)
Definition pending_constraints (s : Store) (others : gmap string PendingEnrollment) (p : PendingEnrollment) : result unit :=
  require (bool_decide (others !! pe_Handle p = None)) (ErrConstraint "UNIQUE pending_enrollment.handle");;
  require (bool_decide (map_Forall (fun _ q => pe_VaultID q <> pe_VaultID p) others)) (ErrConstraint "UNIQUE pending_enrollment.vault_id");;
  require (bool_decide (map_Forall (fun _ q => pe_TokenHash q <> pe_TokenHash p) others)) (ErrConstraint "UNIQUE pending_enrollment.token_hash");;
  require (bool_decide (is_Some (st_invite s !! pe_TokenHash p))) (ErrConstraint "FOREIGN KEY");;
  require ((zlen (pe_TokenHash p) =? 32) && bool_decide (pe_ProtectionTier p ∈ ["standard"; "advanced"]) && (zlen (pe_PolicyDigest p) =? 32))
    (ErrConstraint "CHECK").

Definition reservePendingEnrollmentTx (s : Store) (p : PendingEnrollment) : result (Store * PendingEnrollment) :=
  match getInvite s (pe_TokenHash p) with
  | None => Err (Errorf "invite not available")
  | Some inv =>
      require (seqb (iv_ConsumedVaultID inv) "") (Errorf "invite not available");;
      require (negb (negb (seqb (iv_ExpiresAt inv) "") && str_lt (iv_ExpiresAt inv) (pe_CreatedAt p))) (Errorf "invite expired");;
      match getPendingByTokenHashTx s (pe_TokenHash p) with
      | Some existing =>
          if negb (seqb (pe_ExpiresAt existing) "") && str_le (pe_CreatedAt p) (pe_ExpiresAt existing) then
            require (seqb (pe_ProtectionTier existing) (pe_ProtectionTier p)) (Errorf "pending enrollment protection tier changed");;
            require (beqb (pe_PolicyDigest existing) (pe_PolicyDigest p)) (Errorf "pending enrollment policy changed");;
            Ok (s, existing)
          else
            (* UPDATE ... WHERE token_hash = ? AND handle = ? AND challenge = ? of the row just read *)
            let others := delete (pe_Handle existing) (st_pending s) in
            pending_constraints s others p;;
            Ok (st_set_pending (<[pe_Handle p := p]> others) s, p)
      | None =>
          wrap "pending enrollment" (pending_constraints s (st_pending s) p);;
          Ok (st_set_pending (<[pe_Handle p := p]> (st_pending s)) s, p)
      end
  end.

Definition ReservePendingEnrollment (s : Store) (commit_ok : bool) (p : PendingEnrollment) : Store * result PendingEnrollment :=
  commitStore s commit_ok (validatePendingEnrollment p;; reservePendingEnrollmentTx s p).

(** ** Admission *)

Record CreateVaultInput := MkCreateVaultInput {
  ci_Record : VaultRecord;
  ci_Credential : VaultCredential;
  ci_Envelope : option CredentialEnvelope;
  ci_TokenHash : bytes;
  ci_Pending : option PendingEnrollment
}.

Definition validatePendingBinding (i : CreateVaultInput) (p : PendingEnrollment) : result unit :=
  require (negb (seqb (pe_Handle p) "" || negb (seqb (pe_VaultID p) (v_VaultID (ci_Record i)))))
    (Errorf "pending enrollment does not match vault");;
  require (negb ((zlen (pe_Challenge p) =? 0) || negb (zlen (pe_TokenHash p) =? sha256_size) || negb (zlen (pe_PolicyDigest p) =? sha256_size)))
    (Errorf "pending enrollment challenge required");;
  require (seqb (pe_ProtectionTier p) (v_ProtectionTier (ci_Record i))) (Errorf "pending enrollment protection tier mismatch");;
  require (beqb (pe_TokenHash p) (ci_TokenHash i)) (Errorf "pending enrollment token mismatch").

Definition validateCreateVaultInput (i : CreateVaultInput) : result unit :=
  require (negb (seqb (v_VaultID (ci_Record i)) "")) (Errorf "create vault requires a new opaque vault id");;
  require (seqb (v_CosignerMode (ci_Record i)) CosignerModeHKDFSHA256V1) (Errorf "new vaults must use hkdf-sha256-v1");;
  wrap "new vault protection tier"
    (ValidateProtectionTierRecovery (v_ProtectionTier (ci_Record i)) (0 <? zlen (v_RecoveryKey (ci_Record i))));;
  require (seqb (c_VaultID (ci_Credential i)) (v_VaultID (ci_Record i))) (Errorf "credential vault id mismatch");;
  require (zlen (ci_TokenHash i) =? sha256_size) (Errorf "invite token_hash must be 32 bytes");;
  require (negb (negb (zlen (v_IntegrityMAC (ci_Record i)) =? sha256_size) || negb (zlen (c_IntegrityMAC (ci_Credential i)) =? sha256_size)))
    (Errorf "vault and credential integrity MACs required");;
  match ci_Pending i with Some p => validatePendingBinding i p | None => Ok tt end.

(** The row the DELETE of [consumePendingEnrollmentTx] selects. *)
Definition samePending (p q : PendingEnrollment) : bool :=
  seqb (pe_Handle q) (pe_Handle p) && beqb (pe_TokenHash q) (pe_TokenHash p) && seqb (pe_VaultID q) (pe_VaultID p) &&
  beqb (pe_Challenge q) (pe_Challenge p) && seqb (pe_ProtectionTier q) (pe_ProtectionTier p) &&
  beqb (pe_PolicyDigest q) (pe_PolicyDigest p) && seqb (pe_ExpiresAt q) (pe_ExpiresAt p).

Definition consumePendingEnrollmentTx (s : Store) (pending : option PendingEnrollment) (now : Z) : result Store :=
  match pending with
  | None => Ok s
  | Some p =>
      require (negb (negb (seqb (pe_ExpiresAt p) "") && str_lt (pe_ExpiresAt p) (formatRFC3339 now))) (Errorf "pending enrollment expired");;
      match st_pending s !! pe_Handle p with
      | Some q =>
          require (samePending p q) (Errorf "pending enrollment changed");;
          Ok (st_set_pending (delete (pe_Handle p) (st_pending s)) s)
      | None => Err (Errorf "pending enrollment changed")
      end
  end.

(** The new id in the set the other components refer to. *)
Definition add_vault (v : string) (d : Database) : Database :=
  MkDatabase ({[v]} ∪ t_vault d) (t_vtxo_operation d) (t_vtxo_operation_input d) (t_webauthn_sign_count d)
    (t_vault_board_enrollment d) (t_vault_board_operation d) (t_vault_board_authorization d)
    (t_vault_board_dispatch d) (t_vault_board_submission d).

Definition insertTenant (s : Store) (i : CreateVaultInput) : result Store :=
  t ← insertVaultTx (st_tenants s) (ci_Record i) (ci_Credential i) (ci_Envelope i);
  Ok (st_set_db (add_vault (v_VaultID (ci_Record i)) (l_db (st_ledger s))) (st_set_tenants t s)).

(** [UPDATE invite SET consumed_vault_id = ? WHERE token_hash = ? AND consumed_vault_id IS NULL] *)
Definition consumeInvite (s : Store) (tokenHash : bytes) (vaultID : string) : result Store :=
  match st_invite s !! tokenHash with
  | Some (MkInviteRow expires None created) =>
      require (bool_decide (map_Forall (fun _ r => ir_consumed r <> Some vaultID) (st_invite s))) (ErrConstraint "UNIQUE invite.consumed_vault_id");;
      require (bool_decide (is_Some (tn_vault (st_tenants s) !! vaultID))) (ErrConstraint "FOREIGN KEY");;
      Ok (st_set_invite (<[tokenHash := MkInviteRow expires (Some vaultID) created]> (st_invite s)) s)
  | _ => Err (Errorf "invite consume cas failed")
  end.

(** [now1] and [now2] are the two readings of the clock. *)
Definition createBody (s : Store) (now1 now2 : Z) (i : CreateVaultInput) (board : option VaultBoardEnrollment) : result (Store * unit) :=
  match st_invite s !! ci_TokenHash i with
  | None => Err (Wrapf "invite" ErrNoRows)
  | Some row =>
      require (bool_decide (ir_consumed row = None)) (Errorf "invite already consumed");;
      require (negb (negb (seqb (ir_expires_at row) "") && str_lt (ir_expires_at row) (formatRFC3339 now1))) (Errorf "invite expired");;
      s ← consumePendingEnrollmentTx s (ci_Pending i) now2;
      s ← wrap "create vault" (insertTenant s i);
      s ← match board with
          | None => Ok s
          | Some b => d ← wrap "create vault board" (PutVaultBoardEnrollmentTx (l_network (st_ledger s)) (l_db (st_ledger s)) b);
                      Ok (st_set_db d s)
          end;
      s ← consumeInvite s (ci_TokenHash i) (v_VaultID (ci_Record i));
      Ok (s, tt)
  end.

(** [PRAGMA foreign_key_check]: every reference of the schema has its row. *)
Definition ledger_keys (d : Database) : Prop :=
  map_Forall (fun _ r => op_VaultID r ∈ t_vault d) (t_vtxo_operation d) /\
  map_Forall (fun _ i => is_Some (t_vtxo_operation d !! in_OperationID i)) (t_vtxo_operation_input d) /\
  map_Forall (fun k _ => k.1 ∈ t_vault d) (t_webauthn_sign_count d) /\
  map_Forall (fun v _ => v ∈ t_vault d) (t_vault_board_enrollment d) /\
  map_Forall (fun _ o => is_Some (t_vault_board_enrollment d !! bo_VaultID o)) (t_vault_board_operation d) /\
  map_Forall (fun _ a => is_Some (t_vault_board_operation d !! ba_OperationID a)) (t_vault_board_authorization d) /\
  map_Forall (fun k _ => is_Some (t_vault_board_authorization d !! k)) (t_vault_board_dispatch d) /\
  map_Forall (fun k _ => is_Some (t_vault_board_authorization d !! k) /\ is_Some (t_vault_board_dispatch d !! k)) (t_vault_board_submission d).

Definition tenant_keys (t : Tenants) : Prop :=
  map_Forall (fun _ c => is_Some (tn_vault t !! c_VaultID c)) (tn_credential t) /\
  map_Forall (fun v _ => is_Some (tn_vault t !! v)) (tn_envelope t) /\
  map_Forall (fun v _ => is_Some (tn_vault t !! v)) (tn_map t).

Definition consumed_key (t : Tenants) (r : InviteRow) : Prop :=
  match ir_consumed r with Some v => is_Some (tn_vault t !! v) | None => True end.

Definition foreign_keys (s : Store) : Prop :=
  ledger_keys (l_db (st_ledger s)) /\ tenant_keys (st_tenants s) /\
  map_Forall (fun _ r => rs_VaultID r ∈ t_vault (l_db (st_ledger s))) (st_sessions s) /\
  map_Forall (fun _ r => consumed_key (st_tenants s) r) (st_invite s) /\
  map_Forall (fun _ p => is_Some (st_invite s !! pe_TokenHash p)) (st_pending s).

#[export] Instance consumed_key_dec t r : Decision (consumed_key t r).
Proof. unfold consumed_key. destruct (ir_consumed r); apply _. Defined.
#[export] Instance ledger_keys_dec d : Decision (ledger_keys d).
Proof. unfold ledger_keys. apply _. Defined.
#[export] Instance tenant_keys_dec t : Decision (tenant_keys t).
Proof. unfold tenant_keys. apply _. Defined.
#[export] Instance foreign_keys_dec s : Decision (foreign_keys s).
Proof. unfold foreign_keys. apply _. Defined.

Definition requireForeignKeyCheckClean (s : Store) : result unit :=
  require (bool_decide (foreign_keys s)) (Errorf "foreign key violation").

Definition createVault (s : Store) (commit_ok : bool) (now1 now2 : Z) (i : CreateVaultInput) (board : option VaultBoardEnrollment)
    : Store * result unit :=
  match (validateCreateVaultInput i;;
         match board with
         | Some b => require (negb (negb (seqb (be_VaultID b) (v_VaultID (ci_Record i))) || negb (zlen (be_IntegrityMAC b) =? sha256_size)))
                       (Errorf "vault-board-v1 enrollment mismatch")
         | None => Ok tt
         end) with
  | Err e => (s, Err e)
  | Ok _ =>
      match commitStore s commit_ok (createBody s now1 now2 i board) with
      | (s', Ok _) => (s', requireForeignKeyCheckClean s')
      | (s', Err e) => (s', Err e)
      end
  end.

Definition CreateVault (s : Store) (commit_ok : bool) (now1 now2 : Z) (i : CreateVaultInput) := createVault s commit_ok now1 now2 i None.
Definition CreateVaultWithBoard (s : Store) (commit_ok : bool) (now1 now2 : Z) (i : CreateVaultInput) (b : VaultBoardEnrollment) :=
  createVault s commit_ok now1 now2 i (Some b).

(** [SELECT vault_id FROM vault ORDER BY vault_id] *)
#[export] Instance str_le_dec a b : Decision (str_le a b = true).
Proof. apply _. Defined.
Definition ListVaultIDs (s : Store) : list string :=
  merge_sort (fun a b => str_le a b = true) (map fst (map_to_list (tn_vault (st_tenants s)))).

(** ** Effects *)

Lemma commitStore_cases {A} s ok (body : result (Store * A)) s' r : commitStore s ok body = (s', r) ->
  (s' = s /\ exists e, r = Err e) \/ exists a, body = Ok (s', a) /\ r = Ok a.
Proof. unfold commitStore. destruct body as [[s1 a]|e]; [destruct ok|]; intros [= <- <-]; eauto. Qed.

Lemma insertVaultTx_Ok t v c e t' : insertVaultTx t v c e = Ok t' ->
  tn_vault t !! v_VaultID v = None /\ tn_credential t !! c_CredentialID c = None /\
  is_Some (<[v_VaultID v := v]> (tn_vault t) !! c_VaultID c) /\
  tn_vault t' = <[v_VaultID v := v]> (tn_vault t) /\ tn_credential t' = <[c_CredentialID c := c]> (tn_credential t) /\
  tn_map t' = tn_map t /\
  tn_envelope t' = match e with Some e => <[v_VaultID v := e]> (tn_envelope t) | None => tn_envelope t end.
Proof.
  unfold insertVaultTx. intros (? & H1%require_Ok & (? & _ & (? & H2%require_Ok & (? & H3%require_Ok & (? & _ & H)%bind_Ok)%bind_Ok)%bind_Ok)%bind_Ok)%bind_Ok.
  apply bool_decide_eq_true in H1, H2, H3. split; [done|]. split; [done|]. split; [done|].
  destruct e as [e|]; [|by injection H as <-]. unfold insertVaultEnvelopeTx in H. by inv_ok.
Qed.

(** What a created vault changes. *)
Record created (s : Store) (i : CreateVaultInput) (board : option VaultBoardEnrollment) (s' : Store) (row : InviteRow) : Prop := {
  cd_invite : st_invite s !! ci_TokenHash i = Some row;
  cd_unused : ir_consumed row = None;
  cd_single : forall h r, st_invite s !! h = Some r -> ir_consumed r <> Some (v_VaultID (ci_Record i));
  cd_invites : st_invite s' = <[ci_TokenHash i := MkInviteRow (ir_expires_at row) (Some (v_VaultID (ci_Record i))) (ir_created_at row)]> (st_invite s);
  cd_tenants : insertVaultTx (st_tenants s) (ci_Record i) (ci_Credential i) (ci_Envelope i) = Ok (st_tenants s');
  cd_sessions : st_sessions s' = st_sessions s;
  cd_ledger : exists d, st_ledger s' = set_db d (st_ledger s) /\
    match board with
    | None => d = add_vault (v_VaultID (ci_Record i)) (l_db (st_ledger s))
    | Some b => PutVaultBoardEnrollmentTx (l_network (st_ledger s)) (add_vault (v_VaultID (ci_Record i)) (l_db (st_ledger s))) b = Ok d
    end;
  cd_pending : match ci_Pending i with
    | None => st_pending s' = st_pending s
    | Some p => st_pending s' = delete (pe_Handle p) (st_pending s) /\ exists q, st_pending s !! pe_Handle p = Some q /\ samePending p q = true
    end
}.

Lemma consumePending_Ok s p now s' : consumePendingEnrollmentTx s p now = Ok s' ->
  st_invite s' = st_invite s /\ st_tenants s' = st_tenants s /\ st_sessions s' = st_sessions s /\ st_ledger s' = st_ledger s /\
  match p with
  | None => st_pending s' = st_pending s
  | Some p => st_pending s' = delete (pe_Handle p) (st_pending s) /\ exists q, st_pending s !! pe_Handle p = Some q /\ samePending p q = true
  end.
Proof.
  unfold consumePendingEnrollmentTx. destruct p as [p|]; [|by intros [= <-]].
  intros (? & _ & H)%bind_Ok. destruct (st_pending s !! pe_Handle p) as [q|]; [|done].
  apply bind_Ok in H as (? & Hq%require_Ok & [= <-]). simpl. eauto 10.
Qed.

Lemma createBody_Ok s now1 now2 i board s' u : createBody s now1 now2 i board = Ok (s', u) -> exists row, created s i board s' row.
Proof.
  unfold createBody. destruct (st_invite s !! ci_TokenHash i) as [row|] eqn:Ei; [|done].
  intros (? & Hu%require_Ok & (? & _ & (s1 & (Ei1 & Et1 & Es1 & El1 & Hp)%consumePending_Ok & (s2 & Hs2%wrap_Ok & (s3 & Hs3 & (s4 & Hs4 & [= <- _])%bind_Ok)%bind_Ok)%bind_Ok)%bind_Ok)%bind_Ok)%bind_Ok.
  apply bool_decide_eq_true in Hu. exists row.
  unfold insertTenant in Hs2. rewrite Et1, El1 in Hs2. apply bind_Ok in Hs2 as (t & Ht & [= <-]).
  assert (H3 : st_invite s3 = st_invite s /\ st_tenants s3 = t /\ st_sessions s3 = st_sessions s /\ st_pending s3 = st_pending s1 /\
    exists d, st_ledger s3 = set_db d (st_ledger s) /\ match board with
      | None => d = add_vault (v_VaultID (ci_Record i)) (l_db (st_ledger s))
      | Some b => PutVaultBoardEnrollmentTx (l_network (st_ledger s)) (add_vault (v_VaultID (ci_Record i)) (l_db (st_ledger s))) b = Ok d end).
  { destruct board as [b|].
    - apply bind_Ok in Hs3 as (d & Hd%wrap_Ok & [= <-]). simpl in *. rewrite El1 in *. simpl in *. split_and!; try done. by exists d.
    - injection Hs3 as <-. simpl. rewrite El1. split_and!; try done. by eexists. }
  clear Hs3. destruct H3 as (E3 & T3 & S3 & P3 & d & L3 & D3).
  unfold consumeInvite in Hs4. rewrite E3, Ei in Hs4. destruct row as [exp [?|] cr]; [done|].
  apply bind_Ok in Hs4 as (? & Hs%require_Ok & (? & _ & [= <-])%bind_Ok).
  apply bool_decide_eq_true in Hs. constructor; simpl; try done.
  - by rewrite T3.
  - by exists d.
  - rewrite P3. destruct (ci_Pending i); done.
Qed.

Lemma issueBody_Ok s hash now s' e : issueBody s hash now = Ok (s', e) ->
  let cutoff := formatRFC3339 (now - 24 * hour) in
  let kept := filter (fun kr => stale cutoff kr.2 = false) (st_invite s) in
  st_ledger s' = st_ledger s /\ st_tenants s' = st_tenants s /\ st_sessions s' = st_sessions s /\
  st_pending s' = filter (fun kp => staleToken s cutoff (pe_TokenHash kp.2) = false) (st_pending s) /\
  kept !! hash = None /\ st_invite s' = <[hash := MkInviteRow (formatRFC3339 (now + 10 * minute)) None (formatRFC3339 now)]> kept /\
  recentInvites (formatRFC3339 (now - minute)) (st_set_invite kept s) < 30 /\ activeInvites (formatRFC3339 now) (st_set_invite kept s) < 1000.
Proof.
  intros (? & _ & (? & Hb%require_Ok & (s3 & Hi & [= <- <-])%bind_Ok)%bind_Ok)%bind_Ok cutoff kept.
  unfold insertInvite in Hi. apply bind_Ok in Hi as (? & Hn%require_Ok & (? & _ & [= <-])%bind_Ok).
  apply bool_decide_eq_true in Hn. simpl in *. apply negb_true_iff, orb_false_iff in Hb as [Hr Ha].
  apply Z.leb_gt in Hr, Ha. unfold recentInvites, activeInvites, countInvites in *. simpl in *. done.
Qed.

Lemma reserve_Ok s p s' q : reservePendingEnrollmentTx s p = Ok (s', q) ->
  (exists row, st_invite s !! pe_TokenHash p = Some row /\ default "" (ir_consumed row) = "") /\
  ((s' = s /\ getPendingByTokenHashTx s (pe_TokenHash p) = Some q /\ pe_ProtectionTier q = pe_ProtectionTier p /\ pe_PolicyDigest q = pe_PolicyDigest p) \/
   (q = p /\ exists others, others ⊆ st_pending s /\ pending_constraints s others p = Ok tt /\
      s' = st_set_pending (<[pe_Handle p := p]> others) s)).
Proof.
  unfold reservePendingEnrollmentTx, getInvite. destruct (st_invite s !! pe_TokenHash p) as [row|]; [|done]. simpl.
  intros (? & Hu%require_Ok & (? & _ & H)%bind_Ok)%bind_Ok. apply seqb_true in Hu. split; [eauto|].
  destruct (getPendingByTokenHashTx s (pe_TokenHash p)) as [ex|].
  - destruct (negb _ && _).
    + left. apply bind_Ok in H as (? & Ht%require_Ok & (? & Hd%require_Ok & [= <- <-])%bind_Ok).
      apply seqb_true in Ht. by apply beqb_true in Hd.
    + right. apply bind_Ok in H as ([] & Hc & [= <- <-]). split; [done|]. eexists. split; [|done]. apply delete_subseteq.
  - right. apply bind_Ok in H as ([] & Hc%wrap_Ok & [= <- <-]). split; [done|]. by eexists.
Qed.

(** ** The admission invariant *)

Definition vault_exists (s : Store) (v : string) : Prop := is_Some (tn_vault (st_tenants s) !! v).
Definition consumed_by (s : Store) (h : bytes) (v : string) : Prop :=
  exists r, st_invite s !! h = Some r /\ ir_consumed r = Some v.

Record enrolled (s : Store) : Prop := {
  en_vaults v : v ∈ t_vault (l_db (st_ledger s)) <-> vault_exists s v;
  en_keys : foreign_keys s;
  en_admitted v : vault_exists s v -> exists h, consumed_by s h v;
  en_once h1 h2 v : consumed_by s h1 v -> consumed_by s h2 v -> h1 = h2;
  en_handle h p : st_pending s !! h = Some p -> pe_Handle p = h;
  en_token h1 h2 p1 p2 : st_pending s !! h1 = Some p1 -> st_pending s !! h2 = Some p2 -> pe_TokenHash p1 = pe_TokenHash p2 -> h1 = h2
}.

Lemma add_vault_keys v d : ledger_keys d -> ledger_keys (add_vault v d).
Proof.
  intros (H1 & H2 & H3 & H4 & H5 & H6 & H7 & H8). unfold ledger_keys. simpl.
  split_and!; try done; intros k x Hx; apply elem_of_union; right; [by eapply H1|by eapply (H3 k)|by eapply (H4 k)].
Qed.

Lemma put_board_keys n d b d' : PutVaultBoardEnrollmentTx n d b = Ok d' -> ledger_keys d -> ledger_keys d' /\ t_vault d' = t_vault d.
Proof.
  unfold PutVaultBoardEnrollmentTx. intros (? & _ & (? & Hv%require_Ok & (? & _ & [= <-])%bind_Ok)%bind_Ok)%bind_Ok.
  apply bool_decide_eq_true in Hv. intros (H1 & H2 & H3 & H4 & H5 & H6 & H7 & H8). split; [|done]. unfold ledger_keys. simpl.
  split_and!; try done.
  - intros k y. rewrite lookup_insert_Some. intros [[<- _]|[_ Hx]]; [done|by eapply H4].
  - intros k o Ho. apply lookup_insert_is_Some'. right. by eapply H5.
Qed.

Lemma insertVault_keys t v c e t' : insertVaultTx t v c e = Ok t' -> tenant_keys t -> tenant_keys t'.
Proof.
  intros (_ & _ & Hc & Ev & Ec & Em & Ee)%insertVaultTx_Ok (K1 & K2 & K3). unfold tenant_keys. rewrite Ev, Ec, Em, Ee.
  split_and!.
  - intros k x. rewrite lookup_insert_Some. intros [[_ <-]|[_ Hx]]; [done|]. apply is_Some_insert. by eapply K1.
  - destruct e as [e|]; intros k x; [rewrite lookup_insert_Some; intros [[<- _]|[_ Hx]]|intros Hx].
    + rewrite lookup_insert_eq. eauto.
    + apply is_Some_insert. by eapply K2.
    + apply is_Some_insert. by eapply K2.
  - intros k x Hx. apply is_Some_insert. by eapply K3.
Qed.

Lemma created_ledger s i board s' row : created s i board s' row -> ledger_keys (l_db (st_ledger s)) ->
  ledger_keys (l_db (st_ledger s')) /\ t_vault (l_db (st_ledger s')) = {[v_VaultID (ci_Record i)]} ∪ t_vault (l_db (st_ledger s)).
Proof.
  intros [_ _ _ _ _ _ (d & -> & Hd) _] K. simpl. apply (add_vault_keys (v_VaultID (ci_Record i))) in K.
  destruct board; [by apply (put_board_keys _ _ _ _ Hd) in K|by subst].
Qed.

Lemma created_enrolled s i board s' row : created s i board s' row -> enrolled s -> enrolled s'.
Proof.
  intros C E. pose proof (insertVaultTx_Ok _ _ _ _ _ (cd_tenants _ _ _ _ _ C)) as (Hfresh & _ & _ & Ev & _).
  destruct (en_keys _ E) as (KL & KT & KS & KI & KP).
  destruct (created_ledger _ _ _ _ _ C KL) as [KL' EV].
  assert (Hx : forall v, vault_exists s' v <-> v = v_VaultID (ci_Record i) \/ vault_exists s v).
  { intros v. unfold vault_exists. rewrite Ev, lookup_insert_is_Some'. naive_solver. }
  assert (Hc : forall h v, consumed_by s' h v <-> (h = ci_TokenHash i /\ v = v_VaultID (ci_Record i)) \/ consumed_by s h v).
  { intros h v. unfold consumed_by. rewrite (cd_invites _ _ _ _ _ C). setoid_rewrite lookup_insert_Some. split.
    - intros (r & [[<- <-]|[_ Hr]] & Hv); [left; split; [done|by injection Hv as <-]|right; eauto].
    - intros [[-> ->]|(r & Hr & Hv)]; [eexists; split; [by left|done]|]. exists r. split; [|done]. right. split; [|done].
      intros <-. rewrite (cd_invite _ _ _ _ _ C) in Hr. injection Hr as <-. rewrite (cd_unused _ _ _ _ _ C) in Hv. done. }
  assert (HP : st_pending s' ⊆ st_pending s).
  { pose proof (cd_pending _ _ _ _ _ C) as Hp. destruct (ci_Pending i); [destruct Hp as [-> _]; apply delete_subseteq|by rewrite Hp]. }
  constructor.
  - intros v. rewrite EV, elem_of_union, elem_of_singleton, Hx, (en_vaults _ E). done.
  - split_and!; [done|by eapply insertVault_keys; [apply C|]| | |].
    + rewrite (cd_sessions _ _ _ _ _ C). intros k x Hk. rewrite EV. apply elem_of_union. right. by eapply KS.
    + intros h r. rewrite (cd_invites _ _ _ _ _ C), lookup_insert_Some. unfold consumed_key. rewrite Ev. intros [[_ <-]|[_ Hr]].
      * simpl. rewrite lookup_insert_eq. eauto.
      * specialize (KI h r Hr). unfold consumed_key in KI. destruct (ir_consumed r); [|done]. by apply is_Some_insert.
    + intros h p Hp. rewrite (cd_invites _ _ _ _ _ C). apply lookup_insert_is_Some'. right.
      eapply KP. by eapply lookup_weaken.
  - intros v [->|Hv]%Hx; [exists (ci_TokenHash i); apply Hc; by left|].
    destruct (en_admitted _ E v Hv) as [h Hh]. exists h. apply Hc. by right.
  - intros h1 h2 v [[-> ->]|H1]%Hc [[-> Ev2]|H2]%Hc; [done| | |by eapply (en_once _ E)].
    + destruct H2 as (r & Hr & Hv). by destruct (cd_single _ _ _ _ _ C _ _ Hr).
    + subst. destruct H1 as (r & Hr & Hv). by destruct (cd_single _ _ _ _ _ C _ _ Hr).
  - intros h p Hp. eapply (en_handle _ E). by eapply lookup_weaken.
  - intros h1 h2 p1 p2 H1 H2. eapply (en_token _ E); by eapply lookup_weaken.
Qed.

(** A step that adds an unused invite and only drops unused ones keeps the invariant. *)
Lemma invites_enrolled s s' : enrolled s ->
  st_ledger s' = st_ledger s -> st_tenants s' = st_tenants s -> st_sessions s' = st_sessions s ->
  (forall h v, consumed_by s' h v <-> consumed_by s h v) -> st_pending s' ⊆ st_pending s ->
  (forall h p, st_pending s' !! h = Some p -> is_Some (st_invite s' !! pe_TokenHash p)) -> enrolled s'.
Proof.
  intros E EL ET ES Hc HP HK. destruct (en_keys _ E) as (KL & KT & KS & KI & KP). constructor.
  - intros v. unfold vault_exists. rewrite EL, ET. apply (en_vaults _ E).
  - unfold foreign_keys. rewrite EL, ET, ES. split_and!; try done. intros h r Hr. unfold consumed_key.
    destruct (ir_consumed r) as [v|] eqn:Ev; [|done]. destruct (proj1 (Hc h v) (ex_intro _ r (conj Hr Ev))) as (r0 & Hr0 & Hv0).
    specialize (KI h r0 Hr0). unfold consumed_key in KI. by rewrite Hv0 in KI.
  - intros v. unfold vault_exists. rewrite ET. intros Hv. destruct (en_admitted _ E v Hv) as [h Hh]. exists h. by apply Hc.
  - intros h1 h2 v H1%Hc H2%Hc. by eapply (en_once _ E).
  - intros h p Hp. eapply (en_handle _ E). by eapply lookup_weaken.
  - intros h1 h2 p1 p2 H1 H2. eapply (en_token _ E); by eapply lookup_weaken.
Qed.

Lemma consumed_unused_insert s h row m :
  ir_consumed row = None -> m !! h = None -> st_invite s = <[h := row]> m ->
  forall h' v, consumed_by s h' v <-> exists r, m !! h' = Some r /\ ir_consumed r = Some v.
Proof.
  intros Hr Hm Es h' v. unfold consumed_by. rewrite Es. setoid_rewrite lookup_insert_Some. split.
  - intros (r & [[<- <-]|[_ H]] & Hv); [congruence|eauto].
  - intros (r & H & Hv). exists r. split; [|done]. right. split; [|done]. by intros ->; rewrite Hm in H.
Qed.

Lemma stale_consumed cutoff r v : ir_consumed r = Some v -> stale cutoff r = false.
Proof. unfold stale. intros ->. by rewrite bool_decide_eq_false_2. Qed.

Lemma issue_enrolled s hash now s' e : issueBody s hash now = Ok (s', e) -> enrolled s -> enrolled s'.
Proof.
  intros (EL & ET & ES & EP & Hn & EI & _)%issueBody_Ok E. apply (invites_enrolled s); try done.
  - intros h v. rewrite (consumed_unused_insert _ _ (MkInviteRow _ None _) _ eq_refl Hn EI). unfold consumed_by. setoid_rewrite map_lookup_filter_Some.
    split; [intros (r & [? _] & ?); eauto|]. intros (r & ? & Hv). exists r. split; [split; [done|]|done]. by eapply stale_consumed.
  - rewrite EP. apply map_filter_subseteq.
  - intros h p. rewrite EP, map_lookup_filter_Some. simpl. intros [Hp Hs]. rewrite EI. apply lookup_insert_is_Some'. right.
    destruct (en_keys _ E) as (_ & _ & _ & _ & KP). destruct (KP h p Hp) as [r Hr].
    exists r. apply map_lookup_filter_Some. split; [done|]. unfold staleToken in Hs. by rewrite Hr in Hs.
Qed.

Lemma insertInvite_enrolled s hash e c s' : insertInvite s hash e c = Ok s' -> enrolled s -> enrolled s'.
Proof.
  unfold insertInvite. intros (? & Hn%require_Ok & (? & _ & [= <-])%bind_Ok)%bind_Ok E. apply bool_decide_eq_true in Hn.
  apply (invites_enrolled s); try done.
  - intros h v. by apply (consumed_unused_insert (st_set_invite (<[hash := MkInviteRow e None c]> (st_invite s)) s) hash (MkInviteRow e None c)).
  - intros h p Hp. simpl. apply lookup_insert_is_Some'. right. destruct (en_keys _ E) as (_ & _ & _ & _ & KP). by eapply KP.
Qed.

Lemma reserve_enrolled s p s' q : reservePendingEnrollmentTx s p = Ok (s', q) -> enrolled s -> enrolled s'.
Proof.
  intros [(row & Hrow & _) [[-> _]|(-> & others & HO & HC & ->)]]%reserve_Ok E; [done|].
  unfold pending_constraints in HC.
  apply bind_Ok in HC as (? & Hh%require_Ok & (? & _ & (? & Ht%require_Ok & (? & _ & _)%bind_Ok)%bind_Ok)%bind_Ok).
  apply bool_decide_eq_true in Hh, Ht. destruct (en_keys _ E) as (KL & KT & KS & KI & KP). constructor; simpl; try apply E.
  - split_and!; try done. intros h y. simpl. rewrite lookup_insert_Some. intros [[_ <-]|[_ Hx]]; [eauto|].
    eapply KP. by eapply lookup_weaken.
  - intros h y. rewrite lookup_insert_Some. intros [[<- <-]|[_ Hx]]; [done|]. eapply (en_handle _ E). by eapply lookup_weaken.
  - intros h1 h2 p1 p2. rewrite !lookup_insert_Some. intros [[<- <-]|[_ H1]] [[<- <-]|[_ H2]] Et; [done| | |].
    + by destruct (Ht _ _ H2).
    + by destruct (Ht _ _ H1).
    + eapply (en_token _ E); [by eapply lookup_weaken..|done].
Qed.

(** The tenant handlers keep the vaults and their rows' references. *)
Lemma tenants_enrolled s t' : enrolled s -> tn_vault t' = tn_vault (st_tenants s) -> tenant_keys t' -> enrolled (st_set_tenants t' s).
Proof.
  intros E Ev KT'. destruct (en_keys _ E) as (KL & KT & KS & KI & KP).
  constructor; unfold vault_exists, consumed_by; simpl; rewrite ?Ev; try apply E.
  split_and!; try done. simpl. unfold consumed_key. rewrite Ev. exact KI.
Qed.

Lemma envelope_keys t v e : is_Some (tn_vault t !! v) -> tenant_keys t -> tenant_keys (tn_set_envelope (<[v := e]> (tn_envelope t)) t).
Proof.
  intros Hv (K1 & K2 & K3). split_and!; try done. intros k x. simpl. rewrite lookup_insert_Some. intros [[<- _]|[_ Hx]]; [done|by eapply K2].
Qed.

Definition credentialsOf (t : Tenants) (v : string) : list VaultCredential :=
  filter (fun c => c_VaultID c = v) (map snd (map_to_list (tn_credential t))).

Lemma credentialsOf_spec t v c : c ∈ credentialsOf t v <-> c_VaultID c = v /\ exists k, tn_credential t !! k = Some c.
Proof.
  unfold credentialsOf. rewrite list_elem_of_filter, list_elem_of_fmap. split.
  - intros (Hv & [k c'] & -> & H). apply elem_of_map_to_list in H. split; [done|by exists k].
  - intros (Hv & k & H). split; [done|]. exists (k, c). split; [done|]. by apply elem_of_map_to_list.
Qed.

Lemma primary_in t v c : primaryCredential t v = Some c -> c ∈ credentialsOf t v.
Proof.
  unfold primaryCredential. fold (credentialsOf t v). generalize (credentialsOf t v). intros cs Hc.
  destruct (filter (fun c => c_Resident c = true) cs) as [|c1 l] eqn:E; [by apply head_Some_elem_of|].
  injection Hc as ->. assert (Hc1 : c ∈ filter (fun c => c_Resident c = true) cs) by (rewrite E; constructor).
  by apply list_elem_of_filter in Hc1 as [_ ?].
Qed.

Lemma primary_some t v c : c ∈ credentialsOf t v -> is_Some (primaryCredential t v).
Proof.
  unfold primaryCredential. fold (credentialsOf t v). generalize (credentialsOf t v). intros cs Hc.
  destruct (filter (fun c => c_Resident c = true) cs); [|eauto]. destruct cs; [by apply not_elem_of_nil in Hc|by eexists].
Qed.

Lemma primary_vault t v c : tenant_keys t -> primaryCredential t v = Some c -> is_Some (tn_vault t !! v).
Proof. intros (K1 & _) Hc%primary_in. apply credentialsOf_spec in Hc as (<- & k & Hk). by eapply K1. Qed.

(** ** Runs of the store *)

Inductive estep (s s' : Store) : Prop :=
  | es_invite ok hash e c r : PutInvite s ok hash e c = (s', r) -> estep s s'
  | es_issue ok hash now r : IssueEnrollmentSession s ok hash now = (s', r) -> estep s s'
  | es_reserve ok p r : ReservePendingEnrollment s ok p = (s', r) -> estep s s'
  | es_create ok now1 now2 i board r : createVault s ok now1 now2 i board = (s', r) -> estep s s'
  | es_envelope ok v e t' r : StoreVaultEnvelopeIfAbsent (st_ledger s) (st_tenants s) ok v e = (t', r) -> s' = st_set_tenants t' s -> estep s s'
  | es_replace ok v e1 e2 t' r : ReplaceVaultEnvelope (st_ledger s) (st_tenants s) ok v e1 e2 = (t', r) -> s' = st_set_tenants t' s -> estep s s'
  | es_map ok now m t' r : PutVaultMap (st_ledger s) (st_tenants s) ok now m = (t', r) -> s' = st_set_tenants t' s -> estep s s'.

(** A create either changes nothing or creates, and its error is exactly the former. *)
Lemma createVault_cases s ok now1 now2 i board s' r : createVault s ok now1 now2 i board = (s', r) -> enrolled s ->
  (s' = s /\ exists e, r = Err e) \/ (r = Ok tt /\ validateCreateVaultInput i = Ok tt /\ exists row, created s i board s' row).
Proof.
  unfold createVault. intros H E. destruct (validateCreateVaultInput i) as [[]|e] eqn:Ev; simpl in H; [|injection H as <- <-; eauto].
  destruct (match board with Some b => _ | None => _ end) as [[]|e]; [|injection H as <- <-; eauto].
  destruct (commitStore s ok (createBody s now1 now2 i board)) as [s1 r1] eqn:Ec.
  apply commitStore_cases in Ec as [[-> [e ->]]|([] & Hb & ->)]; [injection H as <- <-; eauto|]. injection H as <- <-.
  apply createBody_Ok in Hb as [row C]. right. unfold requireForeignKeyCheckClean.
  rewrite bool_decide_eq_true_2; [eauto|]. eapply en_keys. by eapply created_enrolled.
Qed.

Lemma tenant_same s : st_set_tenants (st_tenants s) s = s.
Proof. by destruct s. Qed.

Lemma estep_enrolled s s' : estep s s' -> enrolled s -> enrolled s'.
Proof.
  intros H E. destruct (en_keys _ E) as (_ & KT & _).
  destruct H as [ok h e c r H|ok h now r H|ok p r H|ok n1 n2 i b r H|ok v e t' r H ->|ok v e1 e2 t' r H ->|ok now m t' r H ->].
  - apply commitStore_cases in H as [[-> _]|(a & H & _)]; [done|].
    apply bind_Ok in H as (? & _ & (? & _ & (s1 & Hi & [= <- _])%bind_Ok)%bind_Ok). by eapply insertInvite_enrolled.
  - apply commitStore_cases in H as [[-> _]|(a & H & _)]; [done|]. by eapply issue_enrolled.
  - apply commitStore_cases in H as [[-> _]|(a & H & _)]; [done|]. apply bind_Ok in H as (? & _ & H). by eapply reserve_enrolled.
  - destruct (createVault_cases _ _ _ _ _ _ _ _ H E) as [[-> _]|(_ & _ & row & C)]; [done|]. by eapply created_enrolled.
  - apply commitTenants_cases in H as [[-> _]|[H _]]; [by rewrite tenant_same|].
    apply storeEnvelopeBody_Ok in H as (_ & _ & (cred & Hc & _) & [[_ ->]|[_ ->]]); [by rewrite tenant_same|].
    apply tenants_enrolled; [done|done|]. apply envelope_keys; [|done]. by eapply primary_vault.
  - apply commitTenants_cases in H as [[-> _]|[H _]]; [by rewrite tenant_same|].
    apply replaceEnvelopeBody_Ok in H as (_ & _ & (cred & Hc & _) & ->).
    apply tenants_enrolled; [done|done|]. apply envelope_keys; [|done]. by eapply primary_vault.
  - apply commitTenants_cases in H as [[-> _]|[H _]]; [by rewrite tenant_same|].
    apply bind_Ok in H as (? & _ & (? & _ & (? & _ & (? & Hf%require_Ok & [= <-])%bind_Ok)%bind_Ok)%bind_Ok).
    apply tenants_enrolled; [done|done|]. destruct KT as (K1 & K2 & K3). split_and!; try done.
    intros k y. simpl. rewrite lookup_insert_Some. intros [[<- _]|[_ Hy]]; [|by eapply K3].
    apply orb_true_iff in Hf as [Hf|Hf]; apply bool_decide_eq_true in Hf; [|done]. destruct Hf as [m0 Hm0]. by eapply K3.
Qed.

Lemma consumed_kept s s' h r v : estep s s' -> enrolled s -> st_invite s !! h = Some r -> ir_consumed r = Some v ->
  st_invite s' !! h = Some r.
Proof.
  intros H E Hr Hv.
  destruct H as [ok h0 e c r0 H|ok h0 now r0 H|ok p r0 H|ok n1 n2 i b r0 H|ok v0 e t' r0 H ->|ok v0 e1 e2 t' r0 H ->|ok now m t' r0 H ->]; try done.
  - apply commitStore_cases in H as [[-> _]|(a & H & _)]; [done|].
    apply bind_Ok in H as (? & _ & (? & _ & (s1 & Hi & [= <- _])%bind_Ok)%bind_Ok). unfold insertInvite in Hi.
    apply bind_Ok in Hi as (? & Hn%require_Ok & (? & _ & [= <-])%bind_Ok). apply bool_decide_eq_true in Hn. simpl.
    rewrite lookup_insert_ne; [done|]. intros ->. congruence.
  - apply commitStore_cases in H as [[-> _]|(a & H & _)]; [done|]. apply issueBody_Ok in H as (_ & _ & _ & _ & Hn & -> & _).
    assert (Hk : filter (fun kr : bytes * InviteRow => stale (formatRFC3339 (now - 24 * hour)) kr.2 = false) (st_invite s) !! h = Some r)
      by (apply map_lookup_filter_Some; split; [done|by eapply stale_consumed]).
    rewrite lookup_insert_ne; [done|]. intros ->. congruence.
  - apply commitStore_cases in H as [[-> _]|(a & H & _)]; [done|]. apply bind_Ok in H as (? & _ & H).
    by apply reserve_Ok in H as [_ [[-> _]|(_ & o & _ & _ & ->)]].
  - destruct (createVault_cases _ _ _ _ _ _ _ _ H E) as [[-> _]|(_ & _ & row & C)]; [done|].
    rewrite (cd_invites _ _ _ _ _ C), lookup_insert_ne; [done|]. intros <-.
    rewrite (cd_invite _ _ _ _ _ C) in Hr. injection Hr as <-. rewrite (cd_unused _ _ _ _ _ C) in Hv. done.
Qed.

Lemma esteps_kept s s' : rtc estep s s' -> enrolled s -> enrolled s' /\
  forall h r v, st_invite s !! h = Some r -> ir_consumed r = Some v -> st_invite s' !! h = Some r.
Proof.
  induction 1 as [s|s s1 s' H1 _ IH]; intros E; [done|]. destruct (IH (estep_enrolled _ _ H1 E)) as [E' K].
  split; [done|]. intros h r v Hr Hv. eapply K; [|done]. by eapply consumed_kept.
Qed.

Definition store_fresh (s : Store) : Prop :=
  st_tenants s = MkTenants ∅ ∅ ∅ ∅ /\ st_sessions s = ∅ /\ st_invite s = ∅ /\ st_pending s = ∅ /\
  l_db (st_ledger s) = MkDatabase ∅ ∅ ∅ ∅ ∅ ∅ ∅ ∅ ∅.

Lemma store_fresh_enrolled s : store_fresh s -> enrolled s.
Proof.
  intros (Et & Es & Ei & Ep & Ed). constructor; unfold vault_exists, consumed_by; rewrite ?Et, ?Ei, ?Ep, ?Ed; simpl; intros *;
    rewrite ?lookup_empty; try done; try (by intros [? ?]); try (by intros (? & ? & _)).
  unfold foreign_keys, ledger_keys, tenant_keys. rewrite Et, Es, Ei, Ep, Ed. simpl. split_and!; intros ? ?; by rewrite lookup_empty.
Qed.

Lemma countInvites_insert p s m h row : st_invite s = <[h := row]> m -> m !! h = None ->
  countInvites p s <= countInvites p (st_set_invite m s) + 1.
Proof.
  intros Es Hm. unfold countInvites, zlen. rewrite Es. simpl. rewrite (map_to_list_insert m h row Hm), filter_cons.
  case_decide; simpl; lia.
Qed.

(** The tenant a creation makes visible. *)
Lemma created_primary s i board s' row : enrolled s -> created s i board s' row -> c_VaultID (ci_Credential i) = v_VaultID (ci_Record i) ->
  primaryCredential (st_tenants s') (v_VaultID (ci_Record i)) = Some (ci_Credential i).
Proof.
  intros E C Hid. destruct (insertVaultTx_Ok _ _ _ _ _ (cd_tenants _ _ _ _ _ C)) as (Hf & _ & _ & _ & Ec & _).
  destruct (en_keys _ E) as (_ & (K & _) & _).
  assert (Hin : ci_Credential i ∈ credentialsOf (st_tenants s') (v_VaultID (ci_Record i))).
  { apply credentialsOf_spec. split; [done|]. exists (c_CredentialID (ci_Credential i)). rewrite Ec. apply lookup_insert_eq. }
  destruct (primary_some _ _ _ Hin) as [c Hc]. rewrite Hc. apply primary_in, credentialsOf_spec in Hc as (Hv & k & Hk).
  rewrite Ec in Hk. apply lookup_insert_Some in Hk as [[_ <-]|[_ Hk]]; [done|].
  apply K in Hk. rewrite Hv, Hf in Hk. by destruct Hk.
Qed.

Lemma pending_unique s h q tok : enrolled s -> st_pending s !! h = Some q -> pe_TokenHash q = tok ->
  getPendingByTokenHashTx s tok = Some q.
Proof.
  intros E Hq Ht. unfold getPendingByTokenHashTx.
  assert (Hin : (h, q) ∈ filter (fun kp => pe_TokenHash kp.2 = tok) (map_to_list (st_pending s)))
    by (apply list_elem_of_filter; split; [done|by apply elem_of_map_to_list]).
  destruct (filter _ _) as [|[h' q'] l] eqn:El; [by apply not_elem_of_nil in Hin|].
  assert (Hin' : (h', q') ∈ filter (fun kp => pe_TokenHash kp.2 = tok) (map_to_list (st_pending s))) by (rewrite El; constructor).
  apply list_elem_of_filter in Hin' as [Ht' Hm%elem_of_map_to_list]. simpl in *.
  assert (h' = h) as -> by (eapply (en_token _ E); [done..|by rewrite Ht', Ht]). congruence.
Qed.

(** ** Theorems *)

(** [C20] Admission is by invite: in every store reached from an empty one, a vault
    exists exactly when an invite was consumed for it, and it is one invite only. *)
Theorem every_vault_was_invited s0 s v : store_fresh s0 -> rtc estep s0 s ->
  vault_exists s v <-> exists h, consumed_by s h v /\ forall h', consumed_by s h' v -> h' = h.
Proof.
  intros F%store_fresh_enrolled R. destruct (esteps_kept _ _ R F) as [E _]. split.
  - intros [h Hh]%(en_admitted _ E). exists h. split; [done|]. intros h' H'. by eapply (en_once _ E).
  - intros (h & (r & Hr & Hv) & _). destruct (en_keys _ E) as (_ & _ & _ & KI & _). specialize (KI h r Hr).
    unfold consumed_key in KI. by rewrite Hv in KI.
Qed.

(** An invite is single-use for good: once consumed for a vault it stays
    consumed for that vault after every run of the handlers, and every later
    creation with it is refused and changes nothing. *)
Theorem consumed_invite_permanent s s' h v ok now1 now2 i board s'' r : enrolled s -> rtc estep s s' -> consumed_by s h v ->
  ci_TokenHash i = h -> createVault s' ok now1 now2 i board = (s'', r) ->
  consumed_by s' h v /\ vault_exists s' v /\ s'' = s' /\ exists e, r = Err e.
Proof.
  intros E R (row & Hr & Hv) Hi H. destruct (esteps_kept _ _ R E) as [E' K]. pose proof (K _ _ _ Hr Hv) as Hr'.
  split; [by exists row|]. split.
  - destruct (en_keys _ E') as (_ & _ & _ & KI & _). specialize (KI h row Hr'). unfold consumed_key in KI. by rewrite Hv in KI.
  - destruct (createVault_cases _ _ _ _ _ _ _ _ H E') as [?|(_ & _ & row' & C)]; [done|].
    pose proof (cd_invite _ _ _ _ _ C) as Hc. pose proof (cd_unused _ _ _ _ _ C). rewrite Hi, Hr' in Hc. congruence.
Qed.

(** [C21] Creating a vault is atomic: either the call fails and the store is as
    before, or every part is there together: the vault row, its credential as the
    primary one, the envelope, the boarding enrollment, the consumed invite, and
    the pending ceremony is gone; no other tenant is touched. *)
Theorem create_vault_atomic s ok now1 now2 i board s' r : enrolled s -> createVault s ok now1 now2 i board = (s', r) ->
  (s' = s /\ exists e, r = Err e) \/
  (r = Ok tt /\ let v := v_VaultID (ci_Record i) in
   tn_vault (st_tenants s) !! v = None /\
   tn_vault (st_tenants s') = <[v := ci_Record i]> (tn_vault (st_tenants s)) /\
   primaryCredential (st_tenants s') v = Some (ci_Credential i) /\
   (forall e, ci_Envelope i = Some e -> tn_envelope (st_tenants s') !! v = Some e) /\
   (forall b, board = Some b -> be_VaultID b = v -> t_vault_board_enrollment (l_db (st_ledger s')) !! v = Some b) /\
   consumed_by s' (ci_TokenHash i) v /\
   (forall p, ci_Pending i = Some p -> st_pending s' !! pe_Handle p = None)).
Proof.
  intros E H. destruct (createVault_cases _ _ _ _ _ _ _ _ H E) as [?|(-> & Hval & row & C)]; [by left|right].
  split; [done|]. destruct (insertVaultTx_Ok _ _ _ _ _ (cd_tenants _ _ _ _ _ C)) as (Hf & _ & _ & Ev & _ & _ & Ee).
  unfold validateCreateVaultInput in Hval.
  apply bind_Ok in Hval as (? & _ & (? & _ & (? & _ & (? & Hid%require_Ok & _)%bind_Ok)%bind_Ok)%bind_Ok). apply seqb_true in Hid.
  split_and!; try done.
  - by eapply created_primary.
  - intros e He. rewrite Ee, He. apply lookup_insert_eq.
  - intros b -> Hb. destruct (cd_ledger _ _ _ _ _ C) as (d & -> & Hd). unfold PutVaultBoardEnrollmentTx in Hd.
    apply bind_Ok in Hd as (? & _ & (? & _ & (? & _ & [= <-])%bind_Ok)%bind_Ok). simpl. rewrite Hb. apply lookup_insert_eq.
  - eexists. rewrite (cd_invites _ _ _ _ _ C), lookup_insert_eq. done.
  - intros p Hp. pose proof (cd_pending _ _ _ _ _ C) as HP. rewrite Hp in HP. destruct HP as [-> _]. apply lookup_delete_eq.
Qed.

(** The durable rate limit: after a session was issued at most 30 invites were
    created in the last minute and at most 1000 unconsumed ones are live. *)
Theorem issue_rate_bounded s ok hash now s' e : IssueEnrollmentSession s ok hash now = (s', Ok e) ->
  recentInvites (formatRFC3339 (now - minute)) s' <= 30 /\ activeInvites (formatRFC3339 now) s' <= 1000 /\
  e = now + 10 * minute /\ st_invite s' !! hash = Some (MkInviteRow (formatRFC3339 e) None (formatRFC3339 now)).
Proof.
  intros [[_ [? ?]]|(e' & H & [= <-])]%commitStore_cases; [done|].
  assert (He : e = now + 10 * minute).
  { apply bind_Ok in H as (? & _ & (? & _ & (? & _ & [= _ <-])%bind_Ok)%bind_Ok). done. }
  apply issueBody_Ok in H as (_ & _ & _ & _ & Hn & EI & HR & HA). subst e. split_and!; [| |done|by rewrite EI, lookup_insert_eq].
  - unfold recentInvites in *.
    pose proof (countInvites_insert (fun r => str_le (formatRFC3339 (now - minute)) (ir_created_at r)) s' _ _ _ EI Hn) as Hc.
    unfold countInvites in *. simpl in *. lia.
  - unfold activeInvites in *.
    pose proof (countInvites_insert (fun r => bool_decide (ir_consumed r = None) && str_le (formatRFC3339 now) (ir_expires_at r)) s' _ _ _ EI Hn) as Hc.
    unfold countInvites in *. simpl in *. lia.
Qed.

(** A retry keeps its ceremony: while the ceremony reserved for an invite has
    not expired, a further reservation changes nothing and can only answer with the
    stored ceremony, and then for the same tier and policy. *)
Theorem pending_replay_same_identity s ok p q s' r : enrolled s -> st_pending s !! pe_Handle q = Some q ->
  pe_TokenHash p = pe_TokenHash q -> pe_ExpiresAt q <> "" -> str_le (pe_CreatedAt p) (pe_ExpiresAt q) = true ->
  ReservePendingEnrollment s ok p = (s', r) ->
  s' = s /\ forall q', r = Ok q' -> q' = q /\ pe_ProtectionTier p = pe_ProtectionTier q /\ pe_PolicyDigest p = pe_PolicyDigest q.
Proof.
  intros E Hq Ht He Hl [[-> [e ->]]|(q' & H & ->)]%commitStore_cases; [done|].
  apply bind_Ok in H as (? & _ & H). unfold reservePendingEnrollmentTx in H.
  rewrite (pending_unique s _ q (pe_TokenHash p) E Hq (eq_sym Ht)), Hl, (seqb_neq _ _ He) in H.
  destruct (getInvite _ _); [|done]. simpl in H.
  apply bind_Ok in H as (? & _ & (? & _ & (? & H1%require_Ok & (? & H2%require_Ok & [= <- <-])%bind_Ok)%bind_Ok)%bind_Ok).
  apply seqb_true in H1. apply beqb_true in H2. split; [done|]. intros ? [= <-]. done.
Qed.

(** ** Witnesses: an invite, its ceremony and the vault it admits *)

Definition example_store : Store :=
  MkStore (MkLedger (MkDatabase ∅ ∅ ∅ ∅ ∅ ∅ ∅ ∅ ∅) "regtest" [] None None) (MkTenants ∅ ∅ ∅ ∅) ∅ ∅ ∅.
Definition example_token : bytes := replicate 32 x07.
Definition example_mac : bytes := replicate 32 x01.
Definition example_ceremony : PendingEnrollment :=
  MkPending "handle" "vault-a" example_token [x01] "standard" example_mac (formatRFC3339 (10 * minute)) (formatRFC3339 0).
Definition example_input : CreateVaultInput :=
  MkCreateVaultInput
    (MkVault "vault-a" "" "" "standard" "" "" "" [] [] [] [] [] [] "" "" CosignerModeHKDFSHA256V1 "" [] 0 0 0 0 0 example_mac)
    (MkVaultCredential [x05] "vault-a" [] [] true example_mac) None example_token (Some example_ceremony).

Definition example_issued := IssueEnrollmentSession example_store true example_token 0.
Definition example_reserved := ReservePendingEnrollment example_issued.1 true example_ceremony.
Definition example_created := createVault example_reserved.1 true 0 0 example_input None.

Lemma example_runs : example_issued.2 = Ok (10 * minute) /\ example_reserved.2 = Ok example_ceremony /\ example_created.2 = Ok tt.
Proof. vm_compute. split_and!; reflexivity. Qed.

Lemma example_store_fresh : store_fresh example_store.
Proof. split_and!; reflexivity. Qed.

Lemma example_run : rtc estep example_store example_reserved.1 /\ rtc estep example_reserved.1 example_created.1.
Proof.
  split; [|apply rtc_once; exact (es_create _ _ _ _ _ _ _ _ (surjective_pairing example_created))].
  eapply rtc_l; [exact (es_issue _ _ _ _ _ _ (surjective_pairing example_issued))|].
  apply rtc_once. exact (es_reserve _ _ _ _ _ (surjective_pairing example_reserved)).
Qed.

Lemma example_consumed : consumed_by example_created.1 example_token "vault-a".
Proof. eexists. split; vm_compute; reflexivity. Qed.

Lemma example_enrolled : enrolled example_reserved.1 /\ enrolled example_created.1.
Proof.
  destruct example_run as [H1 H2]. pose proof (store_fresh_enrolled _ example_store_fresh) as E.
  destruct (esteps_kept _ _ H1 E) as [E1 _]. split; [done|]. by destruct (esteps_kept _ _ H2 E1).
Qed.

Lemma every_vault_was_invited_witness :
  vault_exists example_created.1 "vault-a" <->
  exists h, consumed_by example_created.1 h "vault-a" /\ forall h', consumed_by example_created.1 h' "vault-a" -> h' = h.
Proof.
  exact (every_vault_was_invited example_store example_created.1 "vault-a" example_store_fresh
    (transitivity (proj1 example_run) (proj2 example_run))).
Defined.

Definition example_again := createVault example_created.1 true 0 0 example_input None.

Lemma consumed_invite_permanent_witness :
  consumed_by example_created.1 example_token "vault-a" /\ vault_exists example_created.1 "vault-a" /\
  example_again.1 = example_created.1 /\ exists e, example_again.2 = Err e.
Proof.
  exact (consumed_invite_permanent example_created.1 example_created.1 example_token "vault-a" true 0 0 example_input None
    example_again.1 example_again.2 (proj2 example_enrolled) (rtc_refl _ _) example_consumed eq_refl (surjective_pairing example_again)).
Defined.

Lemma create_vault_atomic_witness :
  primaryCredential (st_tenants example_created.1) "vault-a" = Some (ci_Credential example_input) /\
  consumed_by example_created.1 example_token "vault-a" /\ st_pending example_created.1 !! "handle" = None.
Proof.
  destruct (create_vault_atomic example_reserved.1 true 0 0 example_input None example_created.1 example_created.2
    (proj1 example_enrolled) (surjective_pairing example_created)) as [[_ [e He]]|(_ & _ & _ & Hp & _ & _ & Hc & Hd)].
  - rewrite (proj2 (proj2 example_runs)) in He. discriminate He.
  - split; [exact Hp|]. split; [exact Hc|exact (Hd example_ceremony eq_refl)].
Defined.

Lemma issue_rate_bounded_witness :
  recentInvites (formatRFC3339 (0 - minute)) example_issued.1 <= 30 /\ activeInvites (formatRFC3339 0) example_issued.1 <= 1000.
Proof.
  destruct (issue_rate_bounded example_store true example_token 0 example_issued.1 (10 * minute)
    (eq_trans (surjective_pairing example_issued) (f_equal (pair example_issued.1) (proj1 example_runs)))) as (H1 & H2 & _).
  exact (conj H1 H2).
Defined.

Definition example_retry : PendingEnrollment :=
  MkPending "other" "vault-b" example_token [x02] "standard" example_mac (formatRFC3339 (11 * minute)) (formatRFC3339 minute).
Definition example_retried := ReservePendingEnrollment example_reserved.1 true example_retry.

Lemma example_pending_stored : st_pending example_reserved.1 !! "handle" = Some example_ceremony.
Proof. vm_compute. reflexivity. Qed.
Lemma example_unexpired : pe_ExpiresAt example_ceremony <> "" /\ str_le (pe_CreatedAt example_retry) (pe_ExpiresAt example_ceremony) = true.
Proof. vm_compute. split; [discriminate|reflexivity]. Qed.

Lemma pending_replay_same_identity_witness :
  example_retried.1 = example_reserved.1 /\ forall q, example_retried.2 = Ok q -> q = example_ceremony.
Proof.
  destruct (pending_replay_same_identity example_reserved.1 true example_retry example_ceremony example_retried.1 example_retried.2
    (proj1 example_enrolled) example_pending_stored eq_refl (proj1 example_unexpired) (proj2 example_unexpired)
    (surjective_pairing example_retried)) as [H1 H2].
  split; [exact H1|]. intros q Hq. exact (proj1 (H2 q Hq)).
Defined.
