(* ===== verification/Cbor.v ===== *)
(** * CBOR: [src/internal/webauthn/cbor.go]

    The decoder reads attestation objects, COSE keys and authenticator
    extensions.  It accepts integers, byte and text strings, booleans and maps of
    at most 16 entries, with minimal lengths and distinct keys.

    The recursion of [decodeCBOR] is on values nested in maps.  [decodeCBOR_fuel]
    carries a fuel and answers [None] without it; every value takes at least one
    byte, so [S (length in)] is enough ([decode_cbor_terminates]). *)

From S2P Require Import Prelude Crypto.
From Stdlib Require Import Strings.Byte Strings.Ascii Strings.String.
From stdpp Require Import base decidable list strings option.
From Stdlib Require Import ZArith Lia.
Open Scope string_scope.
Open Scope list_scope.
Open Scope Z_scope.

(** ** Values *)

Inductive cborValue :=
  | cborInt (intVal : Z)
  | cborBytes (bs : bytes)
  | cborText (text : string)
  | cborMap (mapVal : list (cborValue * cborValue))
  | cborBool (boolVal : bool).

Notation cborPair := (cborValue * cborValue)%type.
Definition maxCBORBytes := 4096.

(** The induction that reaches the entries of a map. *)
Fixpoint cborValue_nested_ind (P : cborValue -> Prop)
    (HI : forall n, P (cborInt n)) (HB : forall bs, P (cborBytes bs)) (HT : forall t, P (cborText t))
    (HM : forall ps, Forall (fun p => P p.1 /\ P p.2) ps -> P (cborMap ps)) (HO : forall b, P (cborBool b)) v : P v :=
  match v with
  | cborInt n => HI n
  | cborBytes bs => HB bs
  | cborText t => HT t
  | cborBool b => HO b
  | cborMap ps => HM ps ((fix go ps := match ps return Forall (fun p => P p.1 /\ P p.2) ps with
      | [] => Forall_nil_2 _
      | p :: ps => Forall_cons_2 _ p ps
          (conj (cborValue_nested_ind P HI HB HT HM HO p.1) (cborValue_nested_ind P HI HB HT HM HO p.2)) (go ps)
      end) ps)
  end.

(** ** Decoder *)

(** [binary.BigEndian.Uint16] *)
Definition be16 (b1 b0 : byte) : Z := Z_of_byte b1 * 256 + Z_of_byte b0.

Definition decodeCBORLen (ai : Z) (rest : bytes) : result (Z * bytes) :=
  if ai <? 24 then Ok (ai, rest)
  else if ai =? 24 then
    match rest with
    | b :: rest => if Z_of_byte b <? 24 then Err (Errorf "non-minimal cbor length") else Ok (Z_of_byte b, rest)
    | [] => Err (Errorf "truncated cbor length")
    end
  else if ai =? 25 then
    match rest with
    | b1 :: b0 :: rest => if be16 b1 b0 <=? 255 then Err (Errorf "non-minimal cbor length") else Ok (be16 b1 b0, rest)
    | _ => Err (Errorf "truncated cbor length")
    end
  else Err (Errorf "unsupported cbor additional info").

Definition sameCBORMapKey (a b : cborValue) : bool :=
  match a, b with
  | cborInt x, cborInt y => x =? y
  | cborText x, cborText y => seqb x y
  | _, _ => false
  end.

Definition isCBORMapKey (k : cborValue) : bool :=
  match k with cborInt _ | cborText _ => true | _ => false end.

(** The loop over the [n] entries of a map; [dec] is the recursive call. *)
Fixpoint decodePairs (dec : bytes -> option (result (cborValue * bytes))) (n : nat) (pairs : list cborPair) (rest : bytes)
    : option (result (list cborPair * bytes)) :=
  match n with
  | O => Some (Ok (pairs, rest))
  | S n =>
      fbind (dec rest) (fun '(k, next) =>
      if negb (isCBORMapKey k) then Some (Err (Errorf "unsupported cbor map key"))
      else if existsb (fun p => sameCBORMapKey p.1 k) pairs then Some (Err (Errorf "duplicate cbor map key"))
      else fbind (dec next) (fun '(v, rest) => decodePairs dec n (pairs ++ [(k, v)]) rest))
  end.

Definition take_bytes (n : Z) (rest : bytes) (what : string) : result (bytes * bytes) :=
  require (n <=? zlen rest) (Errorf what);;
  Ok (take (Z.to_nat n) rest, drop (Z.to_nat n) rest).

(** The switch over the major type. *)
Definition decode_body (dec : bytes -> option (result (cborValue * bytes))) (major ai n : Z) (rest : bytes)
    : option (result (cborValue * bytes)) :=
  match major with
  | 0 => Some (Ok (cborInt n, rest))
  | 1 => Some (Ok (cborInt (Z.lnot n), rest))
  | 2 => Some ('(bs, rest) ← take_bytes n rest "truncated cbor bytes"; Ok (cborBytes bs, rest))
  | 3 => Some ('(bs, rest) ← take_bytes n rest "truncated cbor text"; Ok (cborText (string_of_list_byte bs), rest))
  | 7 => match ai with
         | 20 => Some (Ok (cborBool false, rest))
         | 21 => Some (Ok (cborBool true, rest))
         | _ => Some (Err (Errorf "unsupported cbor simple value"))
         end
  | 5 => if 16 <? n then Some (Err (Errorf "cbor map too large"))
         else fbind (decodePairs dec (Z.to_nat n) [] rest) (fun '(pairs, rest) => Some (Ok (cborMap pairs, rest)))
  | _ => Some (Err (Errorf "unsupported cbor major type"))
  end.

Fixpoint decodeCBOR_fuel (fuel : nat) (inp : bytes) : option (result (cborValue * bytes)) :=
  match fuel with
  | O => None
  | S fuel =>
      match inp with
      | [] => Some (Err (Errorf "truncated cbor"))
      | b :: rest =>
          if maxCBORBytes <? zlen inp then Some (Err (Errorf "cbor too large"))
          else match decodeCBORLen (Z.land (Z_of_byte b) 31) rest with
               | Err e => Some (Err e)
               | Ok (n, rest) =>
                   decode_body (decodeCBOR_fuel fuel) (Z.shiftr (Z_of_byte b) 5) (Z.land (Z_of_byte b) 31) n rest
               end
      end
  end.

Definition cbor_out_of_fuel : error := Errorf "out of fuel".

Definition decodeCBOR (inp : bytes) : result (cborValue * bytes) :=
  default (Err cbor_out_of_fuel) (decodeCBOR_fuel (S (length inp)) inp).

#[local] Arguments byte_of_Z : simpl never.
#[local] Arguments Z_of_byte : simpl never.

Definition mapInt (v : cborValue) (key : Z) : option cborValue :=
  match v with
  | cborMap ps => snd <$> List.find (fun p => match p.1 with cborInt k => k =? key | _ => false end) ps
  | _ => None
  end.

Definition mapText (v : cborValue) (key : string) : option cborValue :=
  match v with
  | cborMap ps => snd <$> List.find (fun p => match p.1 with cborText k => seqb k key | _ => false end) ps
  | _ => None
  end.

(** ** Encoder *)

Definition encodeCBORUnsigned (n : Z) : bytes :=
  if n <? 24 then [byte_of_Z n]
  else if n <? 256 then [byte_of_Z 24; byte_of_Z n]
  else [byte_of_Z 25; byte_of_Z (Z.shiftr n 8); byte_of_Z n].

(** [out[0] |= major << 5] *)
Definition set_major (major : Z) (out : bytes) : bytes :=
  match out with
  | b :: out => byte_of_Z (Z.lor (Z_of_byte b) (Z.shiftl major 5)) :: out
  | [] => []
  end.

Definition encodeCBORNegative (n : Z) : bytes := set_major 1 (encodeCBORUnsigned (Z.lnot n)).
Definition encodeCBORBytes (b : bytes) : bytes := set_major 2 (encodeCBORUnsigned (zlen b)) ++ b.
Definition encodeCBORText (s : string) : bytes := set_major 3 (encodeCBORUnsigned (slen s)) ++ bytes_of s.
Definition encodeCBORMap (pairs : list bytes) : bytes := set_major 5 (encodeCBORUnsigned (zlen pairs)) ++ concat pairs.
Definition encodeCBORBool (v : bool) : bytes := if v then [xf5] else [xf4].

(** The encoders composed over a whole value: the reference the decoder is held to. *)
Fixpoint encodeCBOR (v : cborValue) : bytes :=
  match v with
  | cborInt n => if 0 <=? n then encodeCBORUnsigned n else encodeCBORNegative n
  | cborBytes b => encodeCBORBytes b
  | cborText s => encodeCBORText s
  | cborMap ps => encodeCBORMap (map (fun p => encodeCBOR p.1 ++ encodeCBOR p.2) ps)
  | cborBool b => encodeCBORBool b
  end.

Definition encodePair (p : cborPair) : bytes := encodeCBOR p.1 ++ encodeCBOR p.2.

(** The values the decoder produces: 16-bit lengths, small maps, distinct keys. *)
Definition distinct_keys (ps : list cborPair) : Prop := NoDup (map fst ps).

Fixpoint cbor_wf (v : cborValue) : Prop :=
  match v with
  | cborInt n => -65536 <= n <= 65535
  | cborBytes b => zlen b <= 65535
  | cborText s => slen s <= 65535
  | cborMap ps => zlen ps <= 16 /\ distinct_keys ps /\
      (fix go ps := match ps with
         | [] => True
         | p :: ps => (isCBORMapKey p.1 = true /\ cbor_wf p.1 /\ cbor_wf p.2) /\ go ps
         end) ps
  | cborBool _ => True
  end.

Definition pair_wf (p : cborPair) : Prop := isCBORMapKey p.1 = true /\ cbor_wf p.1 /\ cbor_wf p.2.

Lemma cbor_wf_map ps : cbor_wf (cborMap ps) <-> zlen ps <= 16 /\ distinct_keys ps /\ Forall pair_wf ps.
Proof.
  simpl. split; intros (H1 & H2 & H3); split_and!; try done; clear H1 H2.
  - induction ps as [|p ps IH]; [constructor|]. destruct H3 as [H ?]. constructor; [exact H|by apply IH].
  - induction ps as [|p ps IH]; [done|]. apply Forall_cons_1 in H3 as [H ?]. split; [exact H|by apply IH].
Qed.

(** ** Headers *)

(** A head is a major type and a 16-bit argument in its shortest form. *)
Definition head_of (major n : Z) : bytes := set_major major (encodeCBORUnsigned n).

Lemma land_low a b k : 0 <= k -> 0 <= b < 2 ^ k -> Z.land (a * 2 ^ k) b = 0.
Proof.
  intros Hk Hb. apply Z.bits_inj'. intros n Hn. rewrite Z.land_spec, Z.bits_0.
  destruct (Z.lt_ge_cases n k) as [?|?]; [by rewrite Z.mul_pow2_bits_low|].
  rewrite <-(Z.mod_small b (2 ^ k)), Z.mod_pow2_bits_high by lia. apply andb_false_r.
Qed.

Lemma byte_ai major ai : 0 <= major < 8 -> 0 <= ai < 32 ->
  Z.lor (Z_of_byte (byte_of_Z ai)) (Z.shiftl major 5) = major * 32 + ai.
Proof.
  intros Hm Ha. rewrite Z_of_byte_of_Z, Z.mod_small, Z.shiftl_mul_pow2 by lia.
  pose proof (Z.add_lor_land ai (major * 2 ^ 5)) as H. rewrite (Z.land_comm ai), land_low in H by lia. lia.
Qed.

Lemma byte_split b major ai : 0 <= major < 8 -> 0 <= ai < 32 ->
  Z.shiftr (Z_of_byte b) 5 = major /\ Z.land (Z_of_byte b) 31 = ai <-> b = byte_of_Z (major * 32 + ai).
Proof.
  intros Hm Ha. rewrite Z.shiftr_div_pow2 by lia. change 31 with (Z.ones 5). rewrite Z.land_ones by lia. change (2 ^ 5) with 32.
  pose proof (Z_of_byte_range b). split.
  - intros [Hd Hr]. apply Z_of_byte_inj. rewrite Z_of_byte_of_Z, Z.mod_small by lia. pose proof (Z.div_mod (Z_of_byte b) 32). lia.
  - intros ->. rewrite Z_of_byte_of_Z, Z.mod_small by lia. split.
    + rewrite Z.div_add_l by lia. rewrite Z.div_small by lia. lia.
    + rewrite Z.add_comm, Z_mod_plus_full, Z.mod_small; lia.
Qed.

Lemma be16_split b1 b0 : byte_of_Z (Z.shiftr (be16 b1 b0) 8) = b1 /\ byte_of_Z (be16 b1 b0) = b0 /\ 0 <= be16 b1 b0 <= 65535.
Proof.
  unfold be16. pose proof (Z_of_byte_range b1). pose proof (Z_of_byte_range b0). rewrite Z.shiftr_div_pow2 by lia. change (2 ^ 8) with 256.
  split_and!; [| |lia..]; apply Z_of_byte_inj; rewrite Z_of_byte_of_Z.
  - rewrite Z.div_add_l, (Z.div_small (Z_of_byte b0)) by lia. rewrite Z.mod_small; lia.
  - rewrite Z.add_comm, Z_mod_plus_full, Z.mod_small; lia.
Qed.

Lemma be16_join n : 0 <= n <= 65535 -> be16 (byte_of_Z (Z.shiftr n 8)) (byte_of_Z n) = n.
Proof.
  intros Hn. unfold be16. rewrite !Z_of_byte_of_Z, Z.shiftr_div_pow2 by lia. change (2 ^ 8) with 256.
  rewrite (Z.mod_small (n / 256)); [|split; [apply Z.div_pos; lia|apply Z.div_lt_upper_bound; lia]].
  pose proof (Z.div_mod n 256). lia.
Qed.

(** The decoder reads back a head. *)
Lemma decode_head major n rest : 0 <= major < 8 -> 0 <= n <= 65535 ->
  exists ai ext, head_of major n ++ rest = byte_of_Z (major * 32 + ai) :: ext ++ rest /\ 0 <= ai < 32 /\
    decodeCBORLen ai (ext ++ rest) = Ok (n, rest).
Proof.
  intros Hm Hn. unfold head_of, encodeCBORUnsigned. destruct (Z.ltb_spec n 24); [|destruct (Z.ltb_spec n 256)]; simpl set_major.
  - exists n, []. rewrite byte_ai by lia. split_and!; [done|lia..|]. simpl. unfold decodeCBORLen. by rewrite (proj2 (Z.ltb_lt n 24)).
  - exists 24, [byte_of_Z n]. rewrite byte_ai by lia. split_and!; [done|lia..|]. unfold decodeCBORLen. simpl.
    rewrite Z_of_byte_of_Z, Z.mod_small by lia. by rewrite (proj2 (Z.ltb_ge n 24)).
  - exists 25, [byte_of_Z (Z.shiftr n 8); byte_of_Z n]. rewrite byte_ai by lia. split_and!; [done|lia..|]. unfold decodeCBORLen. simpl.
    rewrite be16_join by lia. by rewrite (proj2 (Z.leb_gt n 255)) by lia.
Qed.

(** A head the decoder accepts is the one the encoder writes. *)
Lemma head_decoded major ai rest n rest' : 0 <= major < 8 -> 0 <= ai < 32 -> decodeCBORLen ai rest = Ok (n, rest') ->
  0 <= n <= 65535 /\ byte_of_Z (major * 32 + ai) :: rest = head_of major n ++ rest'.
Proof.
  intros Hm Ha. unfold decodeCBORLen, head_of, encodeCBORUnsigned.
  destruct (Z.ltb_spec ai 24); [|destruct (Z.eqb_spec ai 24) as [->|]; [|destruct (Z.eqb_spec ai 25) as [->|]; [|done]]].
  - intros [= <- <-]. rewrite (proj2 (Z.ltb_lt ai 24)) by lia. split; [lia|]. simpl. by rewrite byte_ai by lia.
  - destruct rest as [|b rest]; [done|]. destruct (Z.ltb_spec (Z_of_byte b) 24); [done|]. intros [= <- <-].
    pose proof (Z_of_byte_range b). rewrite (proj2 (Z.ltb_ge (Z_of_byte b) 24)), (proj2 (Z.ltb_lt (Z_of_byte b) 256)) by lia.
    split; [lia|]. simpl. by rewrite byte_ai, byte_of_Z_of_byte by lia.
  - destruct rest as [|b1 [|b0 rest]]; [done|done|]. destruct (Z.leb_spec (be16 b1 b0) 255); [done|]. intros [= <- <-].
    destruct (be16_split b1 b0) as (E1 & E0 & ?). rewrite (proj2 (Z.ltb_ge (be16 b1 b0) 24)), (proj2 (Z.ltb_ge (be16 b1 b0) 256)) by lia.
    split; [lia|]. simpl. by rewrite byte_ai, E1, E0 by lia.
Qed.

Lemma head_nonempty major n rest : head_of major n ++ rest <> [].
Proof. unfold head_of, encodeCBORUnsigned. by destruct (n <? 24), (n <? 256). Qed.

Lemma encode_unsigned_head n : encodeCBORUnsigned n = head_of 0 n.
Proof.
  assert (H : forall l, set_major 0 l = l).
  { intros [|b l]; [done|]. simpl. by rewrite Z.lor_0_r, byte_of_Z_of_byte. }
  unfold head_of. by rewrite H.
Qed.

(** Every encoding of a well-formed value is a head and its payload. *)
Lemma encode_nonempty v : encodeCBOR v <> [].
Proof.
  assert (H : forall major n tail, head_of major n ++ tail <> []) by (intros; apply head_nonempty).
  destruct v as [n|b|t|ps|[]]; simpl; [|apply H..|done|done].
  destruct (0 <=? n); [rewrite encode_unsigned_head|]; rewrite <-(app_nil_r (_ _)); apply H.
Qed.

(** ** One step of the decoder *)

Lemma decode_unfold fuel b rest :
  decodeCBOR_fuel (S fuel) (b :: rest) =
  if maxCBORBytes <? zlen (b :: rest) then Some (Err (Errorf "cbor too large"))
  else match decodeCBORLen (Z.land (Z_of_byte b) 31) rest with
       | Err e => Some (Err e)
       | Ok (n, rest) => decode_body (decodeCBOR_fuel fuel) (Z.shiftr (Z_of_byte b) 5) (Z.land (Z_of_byte b) 31) n rest
       end.
Proof. reflexivity. Qed.

Lemma byte_parts b : exists major ai, 0 <= major < 8 /\ 0 <= ai < 32 /\ b = byte_of_Z (major * 32 + ai) /\
  Z.shiftr (Z_of_byte b) 5 = major /\ Z.land (Z_of_byte b) 31 = ai.
Proof.
  pose proof (Z_of_byte_range b). exists (Z.shiftr (Z_of_byte b) 5), (Z.land (Z_of_byte b) 31).
  assert (0 <= Z.shiftr (Z_of_byte b) 5 < 8 /\ 0 <= Z.land (Z_of_byte b) 31 < 32) as [? ?].
  { change 31 with (Z.ones 5). rewrite Z.land_ones, Z.shiftr_div_pow2 by lia. change (2 ^ 5) with 32.
    split; [split; [apply Z.div_pos; lia|apply Z.div_lt_upper_bound; lia]|apply Z.mod_pos_bound; lia]. }
  split_and!; [lia..| |done|done]. by apply byte_split.
Qed.

(** On a head the decoder runs the branch of its major type. *)
Lemma decode_at_head fuel major n rest : 0 <= major < 8 -> 0 <= n <= 65535 -> zlen (head_of major n ++ rest) <= maxCBORBytes ->
  major <> 7 -> decodeCBOR_fuel (S fuel) (head_of major n ++ rest) = decode_body (decodeCBOR_fuel fuel) major 0 n rest.
Proof.
  intros Hm Hn Hlen H7. destruct (decode_head major n rest Hm Hn) as (ai & ext & E & Ha & HL). rewrite E in *.
  rewrite decode_unfold. rewrite (proj2 (Z.ltb_ge _ _)) by done.
  destruct (proj2 (byte_split _ major ai Hm Ha) eq_refl) as [-> ->]. rewrite HL.
  destruct major as [|[[]|[]|]|]; try done; by (destruct p as [[]|[]|]).
Qed.

(** ** Soundness: what is decoded is what the encoder writes *)

Lemma distinct_spec ps k : isCBORMapKey k = true -> Forall pair_wf ps ->
  existsb (fun p => sameCBORMapKey p.1 k) ps = false <-> k ∉ map fst ps.
Proof.
  intros Hk. induction ps as [|[k' v] ps IH]; intros Hps; simpl; [by split; [intros _; apply not_elem_of_nil|]|].
  apply Forall_cons_1 in Hps as [(Hk' & _) Hps]. rewrite orb_false_iff, not_elem_of_cons, (IH Hps). simpl in Hk'.
  assert (H : sameCBORMapKey k' k = false <-> k <> k'); [|by rewrite H].
  destruct k' as [x| |x| |], k as [y| |y| |]; simpl in *; try done; rewrite ?Z.eqb_neq, ?seqb_false; naive_solver.
Qed.

Lemma take_bytes_Ok n rest what b rest' : 0 <= n -> take_bytes n rest what = Ok (b, rest') <-> zlen b = n /\ rest = b ++ rest'.
Proof.
  intros Hn. unfold take_bytes, zlen. split.
  - intros (? & H%require_Ok & [= <- <-])%bind_Ok. apply Z.leb_le in H. rewrite length_take_le by lia. split; [lia|]. by rewrite take_drop.
  - intros [Hb ->]. assert (Hl : Z.to_nat n = length b) by lia. rewrite (proj2 (Z.leb_le _ _)) by (rewrite length_app; lia). simpl.
    by rewrite Hl, take_app_length, drop_app_length.
Qed.

Definition sound (dec : bytes -> option (result (cborValue * bytes))) : Prop :=
  forall inp v rest, dec inp = Some (Ok (v, rest)) -> cbor_wf v /\ inp = encodeCBOR v ++ rest.

Lemma decodePairs_sound dec n : sound dec -> forall acc rest ps rest',
  decodePairs dec n acc rest = Some (Ok (ps, rest')) -> Forall pair_wf acc -> distinct_keys acc ->
  Forall pair_wf ps /\ distinct_keys ps /\
  exists new, ps = acc ++ new /\ length new = n /\ rest = concat (map encodePair new) ++ rest'.
Proof.
  intros Hd. induction n as [|n IH]; intros acc rest ps rest' H Ha Hn.
  - injection H as <- <-. split_and!; [done|done|]. exists []. by rewrite app_nil_r.
  - simpl in H. apply fbind_Ok in H as ([k next] & Hk & H).
    destruct (negb (isCBORMapKey k)) eqn:Ek; [done|]. apply negb_false_iff in Ek.
    destruct (existsb (fun p => sameCBORMapKey p.1 k) acc) eqn:Ex; [done|]. apply (distinct_spec acc k Ek Ha) in Ex.
    apply fbind_Ok in H as ([v next'] & Hv & H). apply Hd in Hk as [Wk ->]. apply Hd in Hv as [Wv ->].
    destruct (IH _ _ _ _ H) as (Hps & Hnd & new & -> & Hl & ->).
    + apply Forall_app. split; [done|]. constructor; [exact (conj Ek (conj Wk Wv))|constructor].
    + unfold distinct_keys in *. rewrite map_app. apply list.NoDup_app. split_and!; [done| |apply NoDup_singleton].
      intros x Hx [->|Hn']%elem_of_cons; [done|by apply not_elem_of_nil in Hn'].
    + split_and!; [done|done|]. exists ((k, v) :: new). split; [by rewrite <-app_assoc|]. split; [simpl; lia|].
      simpl. unfold encodePair at 2. simpl. by rewrite <-!app_assoc.
Qed.

Lemma decode_body_sound dec major ai n rest v rest' : sound dec -> 0 <= n <= 65535 -> (ai < 24 -> n = ai) ->
  decode_body dec major ai n rest = Some (Ok (v, rest')) -> cbor_wf v /\ head_of major n ++ rest = encodeCBOR v ++ rest'.
Proof.
  intros Hd Hn Hai H. unfold decode_body in H.
  destruct major as [|[[[]|[]|]|[[]|[]|]|]|]; try done.
  - injection H as <- <-. simpl. rewrite (proj2 (Z.leb_le 0 n)), encode_unsigned_head by lia. split; [lia|done].
  - repeat match type of H with match ?x with _ => _ end = _ => is_var x; destruct x; try done end;
      injection H as <- <-; rewrite Hai by lia; done.
  - destruct (Z.ltb_spec 16 n); [done|]. apply fbind_Ok in H as ([ps r] & H & [= <- <-]).
    apply (decodePairs_sound dec _ Hd) in H as (W & N & new & -> & Hl & ->); [|constructor|constructor].
    rewrite app_nil_l in *. split; [apply cbor_wf_map; split_and!; [unfold zlen; lia|done..]|].
    simpl. unfold encodeCBORMap, encodePair, head_of, zlen. rewrite length_map, Hl, Z2Nat.id, <-app_assoc by lia. done.
  - injection H as H. apply bind_Ok in H as ([bs r] & H & [= <- <-]). apply take_bytes_Ok in H as [Hl ->]; [|lia].
    simpl. unfold encodeCBORText, slen, bytes_of, head_of. rewrite list_byte_of_string_of_list_byte, Hl, <-app_assoc. split; [lia|done].
  - injection H as H. apply bind_Ok in H as ([bs r] & H & [= <- <-]). apply take_bytes_Ok in H as [Hl ->]; [|lia].
    simpl. unfold encodeCBORBytes, head_of. rewrite Hl, <-app_assoc. split; [lia|done].
  - injection H as <- <-. simpl. rewrite (proj2 (Z.leb_gt 0 (Z.lnot n))) by (unfold Z.lnot; lia).
    unfold encodeCBORNegative. rewrite Z.lnot_involutive. split; [unfold Z.lnot; lia|done].
Qed.

Lemma decode_fuel_sound fuel : sound (decodeCBOR_fuel fuel).
Proof.
  induction fuel as [|fuel IH]; intros inp v rest H; [done|]. destruct inp as [|b inp]; [done|].
  rewrite decode_unfold in H. destruct (maxCBORBytes <? _); [done|].
  destruct (byte_parts b) as (major & ai & Hm & Ha & -> & E1 & E2). rewrite E1, E2 in H.
  destruct (decodeCBORLen ai inp) as [[n r]|e] eqn:EL; [|done].
  pose proof (head_decoded major ai inp n r Hm Ha EL) as [Hn ->].
  eapply decode_body_sound; [exact IH|exact Hn| |exact H].
  unfold decodeCBORLen in EL. intros Hai. rewrite (proj2 (Z.ltb_lt ai 24)) in EL by done. by injection EL as <- _.
Qed.

(** ** Totality *)

Lemma decode_shorter fuel inp v rest : decodeCBOR_fuel fuel inp = Some (Ok (v, rest)) -> (length rest < length inp)%nat.
Proof.
  intros [_ ->]%decode_fuel_sound. rewrite length_app. pose proof (encode_nonempty v). destruct (encodeCBOR v); [done|simpl; lia].
Qed.

Lemma decodePairs_total dec m : (forall inp, (length inp < m)%nat -> dec inp <> None) ->
  (forall inp v rest, dec inp = Some (Ok (v, rest)) -> (length rest < length inp)%nat) ->
  forall n acc rest, (length rest < m)%nat -> decodePairs dec n acc rest <> None.
Proof.
  intros Ht Hs. induction n as [|n IH]; intros acc rest Hr; [done|]. simpl.
  apply fbind_total; [by apply Ht|]. intros [k next] E1%Hs. destruct (negb _); [done|]. destruct (existsb _ _); [done|].
  apply fbind_total; [apply Ht; lia|]. intros [v next'] E2%Hs. apply IH. lia.
Qed.

Lemma decodePairs_le dec1 dec2 n : (forall inp r, dec1 inp = Some r -> dec2 inp = Some r) -> forall acc rest r,
  decodePairs dec1 n acc rest = Some r -> decodePairs dec2 n acc rest = Some r.
Proof.
  intros Hd. induction n as [|n IH]; intros acc rest r; [done|]. simpl.
  apply fbind_le; [intros a; apply Hd|]. intros [k next] _. destruct (negb _); [done|]. destruct (existsb _ _); [done|].
  apply fbind_le; [intros a; apply Hd|]. intros [v next'] _. apply IH.
Qed.

Lemma decode_fuel_le f1 : forall f2 inp r, (f1 <= f2)%nat -> decodeCBOR_fuel f1 inp = Some r -> decodeCBOR_fuel f2 inp = Some r.
Proof.
  induction f1 as [|f1 IH]; intros [|f2] inp r Hf H; [done|done|lia|]. destruct inp as [|b inp]; [done|].
  rewrite decode_unfold in *. destruct (maxCBORBytes <? _); [done|]. destruct (decodeCBORLen _ _) as [[n rest]|e]; [|done].
  unfold decode_body in *. repeat case_match; try done.
  destruct (decodePairs (decodeCBOR_fuel f1) _ _ _) as [r1|] eqn:E; [|done].
  rewrite (decodePairs_le _ (decodeCBOR_fuel f2) _ (fun i r => IH f2 i r (le_S_n _ _ Hf)) _ _ _ E). done.
Qed.

Lemma decode_total fuel : forall inp, (length inp < fuel)%nat -> decodeCBOR_fuel fuel inp <> None.
Proof.
  induction fuel as [|fuel IH]; intros inp Hf; [lia|]. destruct inp as [|b inp]; [done|]. rewrite decode_unfold.
  destruct (maxCBORBytes <? _); [done|]. destruct (decodeCBORLen _ _) as [[n r]|e] eqn:EL; [|done].
  destruct (byte_parts b) as (major & ai & Hm & Ha & _ & E1 & E2). rewrite E2 in EL.
  pose proof (head_decoded major ai inp n r Hm Ha EL) as [_ Hh]. apply (f_equal length) in Hh.
  assert (Hr : (length r < fuel)%nat).
  { simpl in *. rewrite length_app in Hh. pose proof (head_nonempty major n []). rewrite app_nil_r in *. destruct (head_of major n); [done|simpl in *; lia]. }
  unfold decode_body. repeat case_match; try done.
  pose proof (decodePairs_total (decodeCBOR_fuel fuel) fuel IH (decode_shorter fuel) (Z.to_nat n) [] r Hr).
  destruct (decodePairs _ _ _ _) as [[[]|]|]; done.
Qed.

(** ** Completeness: what the encoder writes is decoded *)

Definition complete_at (v : cborValue) : Prop := forall fuel rest, (length (encodeCBOR v) <= fuel)%nat ->
  zlen (encodeCBOR v ++ rest) <= maxCBORBytes -> decodeCBOR_fuel fuel (encodeCBOR v ++ rest) = Some (Ok (v, rest)).

Lemma decodePairs_complete fuel new : Forall (fun p => complete_at p.1 /\ complete_at p.2) new -> forall acc rest,
  Forall pair_wf (acc ++ new) -> distinct_keys (acc ++ new) -> (length (concat (map encodePair new)) <= fuel)%nat ->
  zlen (concat (map encodePair new) ++ rest) <= maxCBORBytes ->
  decodePairs (decodeCBOR_fuel fuel) (length new) acc (concat (map encodePair new) ++ rest) = Some (Ok (acc ++ new, rest)).
Proof.
  induction 1 as [|[k v] new [Ck Cv] _ IH]; intros acc rest W N Hf Hz; [by rewrite app_nil_r|].
  simpl in *. change (encodePair (k, v)) with (encodeCBOR k ++ encodeCBOR v) in *. rewrite <-!app_assoc in *.
  rewrite !length_app in Hf. rewrite (Ck fuel) by (done || lia). simpl.
  assert (Wk : Forall pair_wf acc /\ isCBORMapKey k = true).
  { apply Forall_app in W as [? [[??] _]%Forall_cons_1]. done. }
  rewrite (proj2 Wk). simpl. unfold distinct_keys in N. rewrite map_app in N. apply list.NoDup_app in N as (N1 & N2 & N3).
  rewrite (proj2 (distinct_spec acc k (proj2 Wk) (proj1 Wk))).
  2: { intros Hin. apply (N2 k Hin). constructor. }
  rewrite (Cv fuel); [simpl|lia|rewrite !zlen_app in *; unfold zlen in *; lia].
  rewrite (cons_middle (k, v) acc new), app_assoc. apply IH.
  - by rewrite <-app_assoc.
  - unfold distinct_keys. rewrite <-app_assoc, map_app. apply list.NoDup_app. done.
  - lia.
  - rewrite !zlen_app in *. unfold zlen in *. lia.
Qed.

Lemma decode_complete v : cbor_wf v -> complete_at v.
Proof.
  induction v as [n|bs|t|ps IH|b] using cborValue_nested_ind; intros W fuel rest Hf Hz;
    (destruct fuel as [|fuel]; [destruct (encodeCBOR _) eqn:E; [by destruct (encode_nonempty _ E)|simpl in Hf; lia]|]).
  - cbn [encodeCBOR cbor_wf] in *. destruct (Z.leb_spec 0 n).
    + rewrite encode_unsigned_head in *. by rewrite decode_at_head by (done || lia).
    + unfold encodeCBORNegative in *. fold (head_of 1 (Z.lnot n)) in *.
      rewrite decode_at_head by (done || unfold Z.lnot; lia). unfold decode_body. by rewrite Z.lnot_involutive.
  - cbn [encodeCBOR cbor_wf] in *. unfold encodeCBORBytes in *. fold (head_of 2 (zlen bs)) in *. rewrite <-app_assoc in *. pose proof (zlen_nonneg bs).
    rewrite decode_at_head by (done || lia). unfold decode_body. by rewrite (proj2 (take_bytes_Ok _ _ _ bs rest (zlen_nonneg bs))).
  - cbn [encodeCBOR cbor_wf] in *. unfold encodeCBORText in *. fold (head_of 3 (slen t)) in *. rewrite <-app_assoc in *. pose proof (zlen_nonneg (bytes_of t)).
    rewrite decode_at_head by (done || unfold slen in *; lia). unfold decode_body, slen.
    rewrite (proj2 (take_bytes_Ok _ _ _ (bytes_of t) rest (zlen_nonneg _))) by done. simpl.
    unfold bytes_of. by rewrite string_of_list_byte_of_string.
  - apply cbor_wf_map in W as (Hn & N & W). cbn [encodeCBOR] in *. unfold encodeCBORMap in *. fold encodePair in *.
    change (zlen (map (fun p => encodeCBOR p.1 ++ encodeCBOR p.2) ps)) with (zlen (map encodePair ps)) in *.
    assert (El : zlen (map encodePair ps) = zlen ps) by (unfold zlen; by rewrite length_map).
    rewrite El in *. fold (head_of 5 (zlen ps)) in *. rewrite <-app_assoc in *. pose proof (zlen_nonneg ps).
    rewrite decode_at_head by (done || lia). unfold decode_body. rewrite (proj2 (Z.ltb_ge 16 (zlen ps))) by lia.
    unfold zlen at 1. rewrite Nat2Z.id.
    change (map (fun p => encodeCBOR p.1 ++ encodeCBOR p.2) ps) with (map encodePair ps) in *.
    rewrite (decodePairs_complete fuel ps); [done| |done|done| |].
    + apply Forall_forall. intros p Hp. rewrite Forall_forall in IH, W. destruct (W p Hp) as (_ & W1 & W2). destruct (IH p Hp). auto.
    + rewrite length_app in Hf. pose proof (head_nonempty 5 (zlen ps) []). rewrite app_nil_r in *. destruct (head_of 5 _); [done|simpl in *; lia].
    + rewrite zlen_app in Hz. pose proof (zlen_nonneg (head_of 5 (zlen ps))). lia.
  - assert (Hz' : zlen (encodeCBOR (cborBool b) ++ rest) <= maxCBORBytes) by done.
    destruct b; simpl app in *; rewrite decode_unfold, (proj2 (Z.ltb_ge _ _)) by done; reflexivity.
Qed.

(** The two directions for [decodeCBOR] itself. *)
Lemma decodeCBOR_sound inp v rest : decodeCBOR inp = Ok (v, rest) -> zlen inp <= maxCBORBytes /\ cbor_wf v /\ inp = encodeCBOR v ++ rest.
Proof.
  unfold decodeCBOR. intros H. destruct (decodeCBOR_fuel _ _) as [r|] eqn:E; [simpl in H; subst|done].
  split; [|by apply decode_fuel_sound in E]. destruct inp as [|b inp]; [done|]. rewrite decode_unfold in E.
  destruct (Z.ltb_spec maxCBORBytes (zlen (b :: inp))); [done|lia].
Qed.

Lemma decodeCBOR_encode v rest : cbor_wf v -> zlen (encodeCBOR v ++ rest) <= maxCBORBytes -> decodeCBOR (encodeCBOR v ++ rest) = Ok (v, rest).
Proof. intros W Hz. unfold decodeCBOR. rewrite (decode_complete v W); [done| |done]. rewrite length_app. lia. Qed.

(** ** Theorems *)

(** [C24] The decoder terminates: the fuel it is given, one more than the length of
    its input, always yields an answer, and no larger fuel yields another. *)
Theorem decode_cbor_terminates inp fuel : (length inp < fuel)%nat -> decodeCBOR_fuel fuel inp = Some (decodeCBOR inp).
Proof.
  intros Hf. unfold decodeCBOR. pose proof (decode_total (S (length inp)) inp (Nat.lt_succ_diag_r _)) as Ht.
  destruct (decodeCBOR_fuel (S (length inp)) inp) as [r|] eqn:E; [simpl|done].
  by eapply (decode_fuel_le (S (length inp)) fuel).
Qed.

(** [C23] Decoding is the inverse of encoding, in both directions: a value is decoded
    from an input exactly when the input is within the size limit and starts with
    the value's encoding.  So each accepted item has one encoding only (lengths are
    minimal, keys distinct, nothing is skipped), and the rest is handed on intact. *)
Theorem decode_cbor_canonical inp v rest :
  decodeCBOR inp = Ok (v, rest) <-> zlen inp <= maxCBORBytes /\ cbor_wf v /\ inp = encodeCBOR v ++ rest.
Proof. split; [apply decodeCBOR_sound|]. intros (Hz & W & ->). by apply decodeCBOR_encode. Qed.

Lemma decode_cbor_terminates_witness : decodeCBOR_fuel 9 [xa1; x01; x02] = Some (decodeCBOR [xa1; x01; x02]).
Proof. apply (decode_cbor_terminates [xa1; x01; x02] 9). simpl. lia. Defined.
