(* ===== verification/P256.v ===== *)
(** * The curve P-256 and ECDSA, as Go's [crypto/elliptic] and [crypto/ecdsa] use them

    Affine arithmetic over Z, executable.  Point decoding returns [None] where Go
    returns an error.  The passkey code ([WebAuthn.v]) is built on these. *)

From S2P Require Import Prelude Crypto.
From Bignums Require Import BigZ.
From Stdlib Require Import Strings.Byte.
From stdpp Require Import base decidable list option.
From Stdlib Require Import ZArith Lia.
Open Scope Z_scope.

(** ** Parameters: [elliptic.P256().Params()] *)

Definition p256_p : Z := 2 ^ 256 - 2 ^ 224 + 2 ^ 192 + 2 ^ 96 - 1.
Definition p256_b : Z := 0x5ac635d8aa3a93e7b3ebbd55769886bc651d06b0cc53b0f63bce3c3e27d2604b.
Definition p256_n : Z := 0xffffffff00000000ffffffffffffffffbce6faada7179e84f3b9cac2fc632551.
Definition p256_gx : Z := 0x6b17d1f2e12c4247f8bce6e563a440f277037d812deb33a0f4a13945d898c296.
Definition p256_gy : Z := 0x4fe342e2fe1a7f9b8ee7eb4a7c0f9e162bce33576b315ececbb6406837bf51f5.

(** ** Modular arithmetic *)

Fixpoint powm_pos (m b : Z) (e : positive) : Z :=
  match e with
  | xH => b mod m
  | xO e => let r := powm_pos m b e in (r * r) mod m
  | xI e => let r := powm_pos m b e in ((r * r) mod m * b) mod m
  end.

(** The same on machine words, which is what evaluates. *)
Definition mulm_big (m x y : BigZ.t) : BigZ.t := BigZ.modulo (BigZ.mul x y) m.

Fixpoint powm_big (m b : BigZ.t) (e : positive) : BigZ.t :=
  match e with
  | xH => BigZ.modulo b m
  | xO e => let r := powm_big m b e in mulm_big m r r
  | xI e => let r := powm_big m b e in mulm_big m (mulm_big m r r) b
  end.

Definition powm (m b e : Z) : Z :=
  match e with Zpos e => BigZ.to_Z (powm_big (BigZ.of_Z m) (BigZ.of_Z b) e) | _ => 1 mod m end.

Lemma powm_big_spec m b e : BigZ.to_Z (powm_big m b e) = powm_pos (BigZ.to_Z m) (BigZ.to_Z b) e.
Proof.
  induction e as [e IH|e IH|]; cbn [powm_big powm_pos]; unfold mulm_big;
    rewrite ?BigZ.spec_modulo, ?BigZ.spec_mul, ?BigZ.spec_modulo, ?BigZ.spec_mul, ?IH; reflexivity.
Qed.

Lemma powm_words m b e : powm m b (Zpos e) = powm_pos m b e.
Proof. unfold powm. by rewrite powm_big_spec, !BigZ.spec_of_Z. Qed.

(** A product modulo [m] on machine words. *)
Definition mulm (m x y : Z) : Z := BigZ.to_Z (mulm_big (BigZ.of_Z m) (BigZ.of_Z x) (BigZ.of_Z y)).

Lemma mulm_words m x y : mulm m x y = (x * y) mod m.
Proof. unfold mulm, mulm_big. by rewrite BigZ.spec_modulo, BigZ.spec_mul, !BigZ.spec_of_Z. Qed.

(** The inverse modulo a prime by Euclid's algorithm, zero for zero; a division
    step halves the remainder at least every second time, so 512 steps are enough
    for 256-bit numbers. *)
Fixpoint euclid_big (fuel : nat) (r0 r1 t0 t1 : BigZ.t) : BigZ.t * BigZ.t :=
  match fuel with
  | O => (r0, t0)
  | S fuel =>
      if BigZ.eqb r1 BigZ.zero then (r0, t0)
      else let '(q, r) := BigZ.div_eucl r0 r1 in euclid_big fuel r1 r t1 (BigZ.sub t0 (BigZ.mul q t1))
  end.

Definition euclid (m a : Z) : BigZ.t * BigZ.t :=
  euclid_big 512 (BigZ.of_Z m) (BigZ.modulo (BigZ.of_Z a) (BigZ.of_Z m)) BigZ.zero BigZ.one.

Definition invm (m a : Z) : Z := BigZ.to_Z (BigZ.modulo (euclid m a).2 (BigZ.of_Z m)).

(** Every step keeps [r = t * a] modulo [m]. *)
Lemma euclid_big_spec fuel m a : forall r0 r1 t0 t1,
  (BigZ.to_Z r0 - BigZ.to_Z t0 * a) mod m = 0 -> (BigZ.to_Z r1 - BigZ.to_Z t1 * a) mod m = 0 -> m <> 0 ->
  let '(r, t) := euclid_big fuel r0 r1 t0 t1 in (BigZ.to_Z r - BigZ.to_Z t * a) mod m = 0.
Proof.
  induction fuel as [|fuel IH]; intros r0 r1 t0 t1 H0 H1 Hm; [done|]. cbn [euclid_big]. destruct (BigZ.eqb r1 BigZ.zero); [done|].
  pose proof (BigZ.spec_div_eucl r0 r1) as Hd. destruct (BigZ.div_eucl r0 r1) as [q r]. apply IH; [done| |done].
  destruct (Z.div_eucl (BigZ.to_Z r0) (BigZ.to_Z r1)) as [q' r'] eqn:E. injection Hd as Eq Er. rewrite BigZ.spec_sub, BigZ.spec_mul, Eq, Er.
  assert (Hr : BigZ.to_Z r0 = BigZ.to_Z r1 * q' + r').
  { destruct (Z.eq_dec (BigZ.to_Z r1) 0) as [Hz|Hnz]; [rewrite Hz in *; destruct (BigZ.to_Z r0); injection E as <- <-; lia|].
    pose proof (Z_div_mod_full (BigZ.to_Z r0) (BigZ.to_Z r1) Hnz) as Hf. rewrite E in Hf. apply Hf. }
  apply Z.mod_divide in H0 as [u Hu]; [|done]. apply Z.mod_divide in H1 as [v Hv]; [|done]. apply Z.mod_divide; [done|]. exists (u - q' * v). nia.
Qed.

(** The inverse: its product with [a] is the last remainder, 1 for coprime [a]. *)
Lemma invm_spec m a : 0 < m -> (invm m a * a) mod m = BigZ.to_Z (euclid m a).1 mod m.
Proof.
  intros Hm. unfold invm, euclid. generalize 512%nat as fuel. intros fuel.
  pose proof (euclid_big_spec fuel m a (BigZ.of_Z m) (BigZ.modulo (BigZ.of_Z a) (BigZ.of_Z m)) BigZ.zero BigZ.one) as He.
  destruct (euclid_big fuel _ _ _ _) as [r t]. simpl. rewrite BigZ.spec_modulo, BigZ.spec_of_Z, Z.mul_mod_idemp_l by lia.
  assert (E : (BigZ.to_Z r - BigZ.to_Z t * a) mod m = 0).
  { apply He; [| |lia]; rewrite ?BigZ.spec_modulo, !BigZ.spec_of_Z, ?BigZ.spec_0, ?BigZ.spec_1.
    - rewrite Z.mul_0_l, Z.sub_0_r. apply Z.mod_same. lia.
    - rewrite Z.mul_1_l, Zminus_mod_idemp_l, Z.sub_diag. apply Z.mod_0_l. lia. }
  apply Z.mod_divide in E as [u E]; [|lia]. replace (BigZ.to_Z r) with (BigZ.to_Z t * a + u * m) by lia. by rewrite Z.mod_add by lia.
Qed.

(** The square root modulo a prime that is 3 modulo 4. *)
Definition sqrtm (m a : Z) : Z := powm m a ((m + 1) / 4).

(** ** Points *)

(** [None] is the point at infinity. *)
Definition point : Type := option (Z * Z).
Definition base_point : point := Some (p256_gx, p256_gy).

Definition curve_rhs (x : Z) : Z := (x * x * x - 3 * x + p256_b) mod p256_p.

Definition on_curve (x y : Z) : bool :=
  (0 <=? x) && (x <? p256_p) && (0 <=? y) && (y <? p256_p) && ((y * y) mod p256_p =? curve_rhs x).

Definition line_third (l x1 y1 x2 : Z) : point :=
  let x3 := (mulm p256_p l l - x1 - x2) mod p256_p in Some (x3, (mulm p256_p l (x1 - x3) - y1) mod p256_p).

Definition point_add (P Q : point) : point :=
  match P, Q with
  | None, _ => Q
  | _, None => P
  | Some (x1, y1), Some (x2, y2) =>
      if x1 =? x2 then
        if (y1 + y2) mod p256_p =? 0 then None
        else line_third (mulm p256_p (3 * mulm p256_p x1 x1 - 3) (invm p256_p (2 * y1))) x1 y1 x2
      else line_third (mulm p256_p (y2 - y1) (invm p256_p (x2 - x1))) x1 y1 x2
  end.

Fixpoint affine_mul (k : positive) (P : point) : point :=
  match k with
  | xH => P
  | xO k => let Q := affine_mul k P in point_add Q Q
  | xI k => let Q := affine_mul k P in point_add (point_add Q Q) P
  end.

(** Scalar multiplication evaluates in Jacobian coordinates, [(X / Z^2, Y / Z^3)],
    on machine words; infinity has [Z = 0]. *)
Definition jacobian : Type := BigZ.t * BigZ.t * BigZ.t.
Definition p256_big : BigZ.t := Eval vm_compute in BigZ.of_Z p256_p.

Definition jac_double (P : jacobian) : jacobian :=
  let '(X, Y, Z) := P in
  let mul := mulm_big p256_big in
  let delta := mul Z Z in
  let gamma := mul Y Y in
  let beta := mul X gamma in
  let alpha := mul (BigZ.mul 3%bigZ (BigZ.sub X delta)) (BigZ.add X delta) in
  let X3 := BigZ.modulo (BigZ.sub (mul alpha alpha) (BigZ.mul 8%bigZ beta)) p256_big in
  (X3, BigZ.modulo (BigZ.sub (mul alpha (BigZ.sub (BigZ.mul 4%bigZ beta) X3)) (BigZ.mul 8%bigZ (mul gamma gamma))) p256_big,
   mul (BigZ.mul 2%bigZ Y) Z).

(** Adding the affine point [(x, y)]. *)
Definition jac_add (P : jacobian) (x y : BigZ.t) : jacobian :=
  let '(X, Y, Z) := P in
  if BigZ.eqb Z BigZ.zero then (x, y, BigZ.one) else
  let mul := mulm_big p256_big in
  let ZZ := mul Z Z in
  let H := BigZ.modulo (BigZ.sub (mul x ZZ) X) p256_big in
  let R := BigZ.modulo (BigZ.sub (mul (mul y ZZ) Z) Y) p256_big in
  if BigZ.eqb H BigZ.zero then (if BigZ.eqb R BigZ.zero then jac_double P else (BigZ.one, BigZ.one, BigZ.zero)) else
  let HH := mul H H in
  let HHH := mul HH H in
  let V := mul X HH in
  let X3 := BigZ.modulo (BigZ.sub (BigZ.sub (mul R R) HHH) (BigZ.mul 2%bigZ V)) p256_big in
  (X3, BigZ.modulo (BigZ.sub (mul R (BigZ.sub V X3)) (mul Y HHH)) p256_big, mul Z H).

Fixpoint jac_mul (k : positive) (x y : BigZ.t) : jacobian :=
  match k with
  | xH => (x, y, BigZ.one)
  | xO k => jac_double (jac_mul k x y)
  | xI k => jac_add (jac_double (jac_mul k x y)) x y
  end.

Definition to_affine (P : jacobian) : point :=
  let '(X, Y, Z) := P in
  if BigZ.eqb Z BigZ.zero then None else
  let zi := invm p256_p (BigZ.to_Z Z) in
  let zi2 := mulm p256_p zi zi in
  Some (mulm p256_p (BigZ.to_Z X) zi2, mulm p256_p (BigZ.to_Z Y) (mulm p256_p zi2 zi)).

Definition point_mul (k : Z) (P : point) : point :=
  match k, P with
  | Zpos k, Some (x, y) => to_affine (jac_mul k (BigZ.of_Z x) (BigZ.of_Z y))
  | _, _ => None
  end.

(** The two agree on a scalar with every case of the recursion. *)
Example point_mul_affine : point_mul 0xb5 base_point = affine_mul 0xb5 base_point.
Proof. vm_compute. reflexivity. Qed.

(** ** Encodings *)

(** [elliptic.UnmarshalCompressed]: 33 bytes, prefix 2 or 3, a reduced abscissa
    whose right-hand side is a square. *)
Definition UnmarshalCompressed (b : bytes) : option (Z * Z) :=
  match b with
  | prefix :: xs =>
      let x := be_val xs in
      if negb (zlen xs =? 32) || negb (beqb [prefix] [x02] || beqb [prefix] [x03]) || negb (x <? p256_p) then None
      else
        let y := sqrtm p256_p (curve_rhs x) in
        if (y * y) mod p256_p =? curve_rhs x then
          Some (x, if eqb (Z.odd y) (Z.odd (Z_of_byte prefix)) then y else (p256_p - y) mod p256_p)
        else None
  | [] => None
  end.

(** [ecdsa.ParseUncompressedPublicKey(P256, 04 || x || y)] *)
Definition ParseUncompressedPublicKey (b : bytes) : option (Z * Z) :=
  match b with
  | x04 :: xy =>
      let x := be_val (take 32 xy) in
      let y := be_val (drop 32 xy) in
      if (zlen xy =? 64) && on_curve x y then Some (x, y) else None
  | _ => None
  end.

(** ** ECDSA *)

(** [ecdsa.Verify] over a 32-byte digest. *)
Definition ecdsa_verify (pub : Z * Z) (digest : bytes) (r s : Z) : bool :=
  (0 <? r) && (r <? p256_n) && (0 <? s) && (s <? p256_n) &&
  let e := be_val digest mod p256_n in
  let w := invm p256_n s in
  match point_add (point_mul ((e * w) mod p256_n) base_point) (point_mul ((r * w) mod p256_n) (Some pub)) with
  | Some (x, _) => x mod p256_n =? r
  | None => false
  end.
