(* ===== verification/Der.v ===== *)
(** * DER signatures: [src/internal/webauthn/der.go]

    [CompactLowS] reads a DER ES256 signature and writes the fixed-width form with
    the smaller of the two equivalent [s].  [unmarshalECDSA] is [asn1.Unmarshal]
    into [struct{R, S *big.Int}], [marshalECDSA] is [asn1.Marshal] of it. *)

From S2P Require Import Prelude Crypto P256.
From Stdlib Require Import Strings.Byte Strings.String.
From stdpp Require Import base decidable list option.
From Stdlib Require Import ZArith Lia.
Open Scope string_scope.
Open Scope list_scope.
Open Scope Z_scope.

(** ** [encoding/asn1] *)

Definition asn1_error (what : string) : error := Wrapf "der ecdsa" (Errorf what).

(** The length octets after the first: at most [2^31], no leading zero. *)
Fixpoint long_length (n : nat) (len : Z) (l : bytes) : result (Z * bytes) :=
  match n with
  | O => Ok (len, l)
  | S n =>
      match l with
      | [] => Err (asn1_error "truncated tag or length")
      | b :: l =>
          require (len <? 2 ^ 23) (asn1_error "length too large");;
          let len := len * 256 + Z_of_byte b in
          require (negb (len =? 0)) (asn1_error "superfluous leading zeros in length");;
          long_length n len l
      end
  end.

Definition asn1_length (l : bytes) : result (Z * bytes) :=
  match l with
  | [] => Err (asn1_error "truncated tag or length")
  | b :: l =>
      if Z_of_byte b <? 128 then Ok (Z_of_byte b, l)
      else
        require (negb (Z_of_byte b =? 128)) (asn1_error "indefinite length found (not DER)");;
        '(len, l) ← long_length (Z.to_nat (Z_of_byte b - 128)) 0 l;
        require (128 <=? len) (asn1_error "non-minimal length");;
        Ok (len, l)
  end.

(** One element with the given identifier octet: its content and what follows. *)
Definition asn1_element (identifier : byte) (l : bytes) : result (bytes * bytes) :=
  match l with
  | [] => Err (asn1_error "sequence truncated")
  | b :: l =>
      require (beqb [b] [identifier]) (asn1_error "tags don't match");;
      '(len, l) ← asn1_length l;
      require (len <=? zlen l) (asn1_error "data truncated");;
      Ok (take (Z.to_nat len) l, drop (Z.to_nat len) l)
  end.

(** [parseBigInt]: two's complement in the fewest octets. *)
Definition asn1_integer (b : bytes) : result Z :=
  match b with
  | [] => Err (asn1_error "empty integer")
  | b0 :: r =>
      require (negb match r with
                    | b1 :: _ => ((Z_of_byte b0 =? 0) && (Z_of_byte b1 <? 128)) || ((Z_of_byte b0 =? 255) && (128 <=? Z_of_byte b1))
                    | [] => false
                    end) (asn1_error "integer not minimally-encoded");;
      Ok (if Z_of_byte b0 <? 128 then be_val b else be_val b - 256 ^ zlen b)
  end.

(** The fields in order; further content of the SEQUENCE is allowed and ignored. *)
Definition unmarshalECDSA (der : bytes) : result (Z * Z * bytes) :=
  '(inner, rest) ← asn1_element x30 der;
  '(rb, inner) ← asn1_element x02 inner;
  r ← asn1_integer rb;
  '(sb, _) ← asn1_element x02 inner;
  s ← asn1_integer sb;
  Ok (r, s, rest).

(** The octets of a non-negative integer: a zero octet first when the sign bit of
    the magnitude is set. *)
Definition integer_octets (n : Z) : bytes := be_bytes (S (Z.to_nat ((Z.log2 n + 1) / 8))) n.

(** An element of fewer than 128 octets. *)
Definition short_element (identifier : byte) (content : bytes) : bytes := identifier :: byte_of_Z (zlen content) :: content.

Definition marshalECDSA (r s : Z) : bytes :=
  short_element x30 (short_element x02 (integer_octets r) ++ short_element x02 (integer_octets s)).

(** ** [CompactLowS] *)

Definition canonicalScalar (v : Z) (name : string) : result unit :=
  require (negb (v <? 0)) (Errorf ("der ecdsa: negative " ++ name));;
  require (negb (v =? 0)) (Errorf ("der ecdsa: zero " ++ name)).

Definition half_order : Z := Z.shiftr p256_n 1.

Definition CompactLowS (der : bytes) : result bytes :=
  '(r, s, rest) ← unmarshalECDSA der;
  require (zlen rest =? 0) (Errorf "der ecdsa: trailing bytes");;
  canonicalScalar r "r";;
  canonicalScalar s "s";;
  require (negb ((r <=? 0) || (p256_n <=? r))) (Errorf "der ecdsa: r out of range");;
  require (negb ((s <=? 0) || (p256_n <=? s))) (Errorf "der ecdsa: s out of range");;
  let s := if half_order <? s then p256_n - s else s in
  Ok (be_bytes 32 r ++ be_bytes 32 s).

(** ** Lemmas *)

Definition scalar (v : Z) : Prop := 0 < v < p256_n.
Definition low_s (s : Z) : Z := if half_order <? s then p256_n - s else s.

Lemma p256_n_bits : 2 ^ 255 < p256_n < 2 ^ 256.
Proof. unfold p256_n. lia.
Qed.

Lemma half_order_eq : half_order = (p256_n - 1) / 2.
Proof. reflexivity. Qed.

Lemma CompactLowS_Ok der out : CompactLowS der = Ok out <->
  exists r s, unmarshalECDSA der = Ok (r, s, []) /\ scalar r /\ scalar s /\ out = be_bytes 32 r ++ be_bytes 32 (low_s s).
Proof.
  unfold CompactLowS, canonicalScalar, scalar. split.
  - intros H. inv_ok. bool_prop. match goal with H : zlen _ = 0 |- _ => apply zlen_nil_inv in H; subst end. eauto 10 with lia.
  - intros (r & s & -> & Hr & Hs & ->). simpl.
    rewrite (proj2 (Z.ltb_ge r 0)), (proj2 (Z.eqb_neq r 0)), (proj2 (Z.ltb_ge s 0)), (proj2 (Z.eqb_neq s 0)), (proj2 (Z.leb_gt r 0)),
      (proj2 (Z.leb_gt s 0)), (proj2 (Z.leb_gt p256_n r)), (proj2 (Z.leb_gt p256_n s)) by lia. done.
Qed.

Lemma low_s_involution s : scalar s -> low_s (p256_n - s) = low_s s.
Proof.
  unfold low_s, scalar. rewrite half_order_eq. intros Hs. assert (p256_n = 2 * ((p256_n - 1) / 2) + 1) by reflexivity.
  destruct (Z.ltb_spec ((p256_n - 1) / 2) (p256_n - s)), (Z.ltb_spec ((p256_n - 1) / 2) s); lia.
Qed.

Lemma low_s_scalar s : scalar s -> scalar (low_s s) /\ low_s s <= half_order.
Proof.
  unfold low_s, scalar. rewrite half_order_eq. intros Hs.
  assert (p256_n = 2 * ((p256_n - 1) / 2) + 1) by reflexivity.
  destruct (Z.ltb_spec ((p256_n - 1) / 2) s); lia.
Qed.

(** ** Round trip of the DER form *)

Lemma asn1_short_element identifier content rest : zlen content < 128 ->
  asn1_element identifier (short_element identifier content ++ rest) = Ok (content, rest).
Proof.
  intros Hl. pose proof (zlen_nonneg content). unfold short_element, asn1_element. simpl.
  unfold beqb. rewrite bool_decide_eq_true_2 by done. simpl.
  rewrite Z_of_byte_of_Z, Z.mod_small by lia. rewrite (proj2 (Z.ltb_lt _ _)) by done. simpl.
  rewrite zlen_app. rewrite (proj2 (Z.leb_le _ _)) by (pose proof (zlen_nonneg rest); lia). simpl.
  unfold zlen. by rewrite Nat2Z.id, take_app_length, drop_app_length.
Qed.

Lemma be_bytes_S n z : 0 <= z -> be_bytes (S n) z = byte_of_Z (z / 256 ^ Z.of_nat n) :: be_bytes n z.
Proof.
  intros Hz. unfold be_bytes.
  assert (H : forall n z, 0 <= z -> le_bytes (S n) z = le_bytes n z ++ [byte_of_Z (z / 256 ^ Z.of_nat n)]).
  { clear. induction n as [|n IH]; intros z Hz; [simpl; by rewrite Z.div_1_r|].
    assert (E : forall n z, le_bytes (S n) z = byte_of_Z z :: le_bytes n (z / 256)) by reflexivity.
    rewrite E, IH, E by (apply Z.div_pos; lia). simpl. do 3 f_equal.
    rewrite Z.div_div by lia. f_equal. rewrite Nat2Z.inj_succ, Z.pow_succ_r by lia. done. }
  rewrite H by done. by rewrite rev_app_distr.
Qed.

Lemma integer_octets_value n : 0 < n -> exists k, integer_octets n = be_bytes (S k) n /\ n < 128 * 256 ^ Z.of_nat k /\
  (k <> O -> 128 * 256 ^ (Z.of_nat k - 1) <= n).
Proof.
  intros Hn. pose proof (Z.log2_spec n Hn) as [H1 H2]. pose proof (Z.log2_nonneg n). unfold integer_octets.
  set (k := (Z.log2 n + 1) / 8). assert (Hk : 0 <= k /\ 8 * k <= Z.log2 n + 1 < 8 * k + 8) by (unfold k; Z.to_euclidean_division_equations; lia).
  exists (Z.to_nat k). split; [done|]. rewrite Z2Nat.id by lia.
  assert (P : forall e, 0 <= e -> 128 * 256 ^ e = 2 ^ (8 * e + 7)).
  { intros e He. change 128 with (2 ^ 7). change 256 with (2 ^ 8). rewrite <-Z.pow_mul_r, <-Z.pow_add_r by lia. f_equal. lia. }
  split.
  - rewrite P by lia. eapply Z.lt_le_trans; [exact H2|]. apply Z.pow_le_mono_r; lia.
  - intros Hk0. rewrite P by lia. eapply Z.le_trans; [|exact H1]. apply Z.pow_le_mono_r; lia.
Qed.

Lemma asn1_integer_octets n : 0 < n -> asn1_integer (integer_octets n) = Ok n.
Proof.
  intros Hn. destruct (integer_octets_value n Hn) as (k & -> & Hu & Hl).
  assert (Hv : be_val (be_bytes (S k) n) = n).
  { rewrite be_val_be_bytes, Z.mod_small; [done|]. split; [lia|]. rewrite Nat2Z.inj_succ, Z.pow_succ_r by lia. nia. }
  pose proof (Z.pow_pos_nonneg 256 (Z.of_nat k) ltac:(lia) ltac:(lia)) as Hp.
  rewrite be_bytes_S in * by lia. unfold asn1_integer. rewrite Hv.
  assert (Hb : Z_of_byte (byte_of_Z (n / 256 ^ Z.of_nat k)) = n / 256 ^ Z.of_nat k /\ n / 256 ^ Z.of_nat k < 128).
  { rewrite Z_of_byte_of_Z. assert (n / 256 ^ Z.of_nat k < 128) by (apply Z.div_lt_upper_bound; lia).
    rewrite Z.mod_small; [done|]. split; [apply Z.div_pos; lia|lia]. }
  destruct Hb as [Hb Hb']. rewrite Hb. rewrite (proj2 (Z.ltb_lt _ 128) Hb'), (proj2 (Z.eqb_neq _ 255)) by lia.
  destruct k as [|k]; [done|]. rewrite be_bytes_S by lia. rewrite andb_false_l, orb_false_r. 
  assert (Hc : (n / 256 ^ Z.of_nat (S k) =? 0) && (Z_of_byte (byte_of_Z (n / 256 ^ Z.of_nat k)) <? 128) = false); [|by rewrite Hc].
  apply andb_false_iff. destruct (Z.eqb_spec (n / 256 ^ Z.of_nat (S k)) 0) as [E|]; [right|by left].
  specialize (Hl ltac:(done)). rewrite Nat2Z.inj_succ in *. replace (Z.succ (Z.of_nat k) - 1) with (Z.of_nat k) in Hl by lia.
  assert (Hlt : n < 256 ^ Z.succ (Z.of_nat k)) by (apply Z.div_small_iff in E; lia). rewrite Z.pow_succ_r in Hlt by lia.
  pose proof (Z.pow_pos_nonneg 256 (Z.of_nat k) ltac:(lia) ltac:(lia)) as Hp'.
  rewrite Z_of_byte_of_Z, Z.mod_small; [|split; [apply Z.div_pos; lia|apply Z.div_lt_upper_bound; lia]].
  apply Z.ltb_ge. apply Z.div_le_lower_bound; lia.
Qed.

Lemma integer_octets_short n : 0 < n < 2 ^ 256 -> zlen (integer_octets n) <= 33.
Proof.
  intros Hn. unfold integer_octets, zlen. rewrite length_be_bytes. pose proof (Z.log2_nonneg n).
  assert (Z.log2 n < 256) by (apply Z.log2_lt_pow2; lia).
  assert ((Z.log2 n + 1) / 8 <= 32) by (Z.to_euclidean_division_equations; lia).
  assert (0 <= (Z.log2 n + 1) / 8) by (apply Z.div_pos; lia). lia.
Qed.

Lemma zlen_short_element i c : zlen (short_element i c) = 2 + zlen c.
Proof. unfold short_element, zlen. simpl. lia.
Qed.

(** The two integers, and content after them, are read back. *)
Lemma unmarshal_extended r s junk rest : 0 < r < 2 ^ 256 -> 0 < s < 2 ^ 256 -> zlen junk <= 57 ->
  unmarshalECDSA (short_element x30 (short_element x02 (integer_octets r) ++ short_element x02 (integer_octets s) ++ junk) ++ rest) = Ok (r, s, rest).
Proof.
  intros Hr Hs Hj. pose proof (integer_octets_short r Hr). pose proof (integer_octets_short s Hs).
  unfold unmarshalECDSA. rewrite asn1_short_element by (rewrite !zlen_app, !zlen_short_element; lia).
  cbn [mbind result_bind]. rewrite asn1_short_element by lia. cbn [mbind result_bind]. rewrite asn1_integer_octets by lia.
  cbn [mbind result_bind]. rewrite asn1_short_element by lia. cbn [mbind result_bind]. by rewrite asn1_integer_octets by lia.
Qed.

Lemma unmarshal_marshal r s : scalar r -> scalar s -> unmarshalECDSA (marshalECDSA r s) = Ok (r, s, []).
Proof.
  intros Hr Hs. pose proof p256_n_bits. unfold scalar in *.
  pose proof (unmarshal_extended r s [] [] ltac:(lia) ltac:(lia) ltac:(done)) as H0. by rewrite !app_nil_r in H0.
Qed.

(** ** Theorems *)

(** The compact form is the canonical one: the DER encoding of any scalars
    reads back as exactly these, with the smaller of [s] and [n - s], so the two
    malleable forms of a signature give the same 64 bytes. *)
Theorem compact_low_s_canonical r s : scalar r -> scalar s ->
  CompactLowS (marshalECDSA r s) = Ok (be_bytes 32 r ++ be_bytes 32 (low_s s)) /\
  CompactLowS (marshalECDSA r (p256_n - s)) = CompactLowS (marshalECDSA r s) /\
  scalar (low_s s) /\ low_s s <= half_order.
Proof.
  intros Hr Hs. pose proof p256_n_bits.
  assert (H1 : forall s, scalar s -> CompactLowS (marshalECDSA r s) = Ok (be_bytes 32 r ++ be_bytes 32 (low_s s))).
  { intros t Ht. apply CompactLowS_Ok. exists r, t. split; [by apply unmarshal_marshal|done]. }
  rewrite (H1 s Hs), (H1 (p256_n - s)), low_s_involution by (done || unfold scalar in *; lia).
  split; [done|]. split; [done|]. by apply low_s_scalar.
Qed.

Lemma compact_low_s_canonical_witness :
  CompactLowS (marshalECDSA 1 2) = Ok (be_bytes 32 1 ++ be_bytes 32 (low_s 2)) /\
  CompactLowS (marshalECDSA 1 (p256_n - 2)) = CompactLowS (marshalECDSA 1 2).
Proof.
  destruct (compact_low_s_canonical 1 2) as (H1 & H2 & _); [split; reflexivity|split; reflexivity|]. exact (conj H1 H2).
Defined.

(** Content inside the SEQUENCE after the second integer is ignored: such a
    signature, which is not DER of an ES256 signature, is accepted like the
    signature without it.  Only bytes after the SEQUENCE are refused. *)
Theorem der_inner_trailing_accepted r s junk : scalar r -> scalar s -> zlen junk <= 57 ->
  CompactLowS (short_element x30 (short_element x02 (integer_octets r) ++ short_element x02 (integer_octets s) ++ junk)) =
  CompactLowS (marshalECDSA r s).
Proof.
  intros Hr Hs Hj. pose proof p256_n_bits. unfold scalar in *.
  pose proof (unmarshal_extended r s junk [] ltac:(lia) ltac:(lia) Hj) as H1.
  rewrite app_nil_r in H1. unfold CompactLowS. by rewrite H1, unmarshal_marshal.
Qed.

Lemma der_inner_trailing_accepted_witness :
  CompactLowS (short_element x30 (short_element x02 (integer_octets 1) ++ short_element x02 (integer_octets 2) ++ [xde; xad])) =
  CompactLowS (marshalECDSA 1 2).
Proof. apply (der_inner_trailing_accepted 1 2 [xde; xad]); [split; reflexivity|split; reflexivity|discriminate]. Defined.
