(* ===== verification/Json.v ===== *)
(** * JSON and base64url, as Go's [encoding/json] and [encoding/base64] read them

    [webauthn/assert.go] decodes the client data of a passkey with these.  A text
    is first parsed as a whole ([json.Unmarshal] validates before it decodes); the
    decoder then visits the members of an object in order, so that a repeated
    member overwrites the earlier one.

    Strings are unquoted as Go does: escapes are decoded, an unpaired surrogate and
    every byte that is not UTF-8 become U+FFFD.  [parse_value] carries a fuel; every
    value takes at least a byte, and [json_text_total] shows that one more than twice
    the length of the text is enough. *)

From S2P Require Import Prelude Crypto.
From Stdlib Require Import Strings.Byte Strings.Ascii Strings.String.
From stdpp Require Import base decidable list strings option.
From Stdlib Require Import ZArith Lia.
Open Scope string_scope.
Open Scope list_scope.
Open Scope Z_scope.

(** ** Documents *)

Inductive json :=
  | JNull
  | JBool (b : bool)
  | JNumber
  | JString (s : bytes)
  | JArray (elems : list json)
  | JObject (members : list (bytes * json)).

Definition syntax_error : error := Errorf "json: invalid character".
Definition maxNestingDepth : Z := 10000.

(** Byte classes. *)
Definition isb (z : Z) (b : byte) : bool := Z_of_byte b =? z.
Definition between (lo hi : Z) (b : byte) : bool := (lo <=? Z_of_byte b) && (Z_of_byte b <=? hi).

Definition is_space (b : byte) : bool := isb 32 b || isb 9 b || isb 13 b || isb 10 b.
Definition is_digit (b : byte) : bool := between 48 57 b.

Fixpoint skip_space (l : bytes) : bytes :=
  match l with
  | b :: r => if is_space b then skip_space r else l
  | [] => []
  end.

(** ** Strings *)

(** [utf8.EncodeRune] *)
Definition replacement : bytes := [xef; xbf; xbd].

Definition utf8_encode (r : Z) : bytes :=
  if r <? 0x80 then [byte_of_Z r]
  else if r <? 0x800 then [byte_of_Z (0xc0 + r / 64); byte_of_Z (0x80 + r mod 64)]
  else if r <? 0x10000 then [byte_of_Z (0xe0 + r / 4096); byte_of_Z (0x80 + r / 64 mod 64); byte_of_Z (0x80 + r mod 64)]
  else [byte_of_Z (0xf0 + r / 262144); byte_of_Z (0x80 + r / 4096 mod 64); byte_of_Z (0x80 + r / 64 mod 64); byte_of_Z (0x80 + r mod 64)].

(** The valid multi-byte sequences of [utf8.DecodeRune]. *)
Definition cont (b : byte) : bool := between 0x80 0xbf b.
Definition valid2 (b0 b1 : byte) : bool := between 0xc2 0xdf b0 && cont b1.
Definition valid3 (b0 b1 b2 : byte) : bool :=
  ((isb 0xe0 b0 && between 0xa0 0xbf b1) || (isb 0xed b0 && between 0x80 0x9f b1) ||
   ((between 0xe1 0xec b0 || between 0xee 0xef b0) && cont b1)) && cont b2.
Definition valid4 (b0 b1 b2 b3 : byte) : bool :=
  ((isb 0xf0 b0 && between 0x90 0xbf b1) || (isb 0xf4 b0 && between 0x80 0x8f b1) || (between 0xf1 0xf3 b0 && cont b1)) &&
  cont b2 && cont b3.

Definition hex_val (b : byte) : option Z :=
  if between 48 57 b then Some (Z_of_byte b - 48)
  else if between 97 102 b then Some (Z_of_byte b - 87)
  else if between 65 70 b then Some (Z_of_byte b - 55)
  else None.

(** [getu4]: the four digits after [\u]. *)
Definition hex4 (a b c d : byte) : option Z :=
  a ← hex_val a; b ← hex_val b; c ← hex_val c; d ← hex_val d; Some (((a * 16 + b) * 16 + c) * 16 + d).

(** The single-character escapes. *)
Definition simple_escape (e : byte) : option bytes :=
  if isb 34 e || isb 92 e || isb 47 e then Some [e]
  else if isb 98 e then Some [x08]
  else if isb 102 e then Some [x0c]
  else if isb 110 e then Some [x0a]
  else if isb 114 e then Some [x0d]
  else if isb 116 e then Some [x09]
  else None.

Definition is_surrogate (r : Z) : bool := (0xd800 <=? r) && (r <? 0xe000).

(** [utf16.DecodeRune] of a high and a low surrogate. *)
Definition surrogate_pair (hi lo : Z) : option Z :=
  if (0xd800 <=? hi) && (hi <? 0xdc00) && (0xdc00 <=? lo) && (lo <? 0xe000) then
    Some ((hi - 0xd800) * 1024 + (lo - 0xdc00) + 0x10000)
  else None.

(** The pair an escaped surrogate forms with an escape that follows it. *)
Definition following_low (hi : Z) (rest : bytes) : option Z :=
  match rest with
  | b :: u :: a1 :: a2 :: a3 :: a4 :: _ =>
      if isb 92 b && isb 117 u then lo ← hex4 a1 a2 a3 a4; surrogate_pair hi lo else None
  | _ => None
  end.

(** One character of a literal: its end, the bytes it stands for, or an error. *)
Inductive string_char :=
  | StringEnd (rest : bytes)
  | StringChar (out rest : bytes)
  | StringBad.

Definition escaped (l : bytes) : string_char :=
  match l with
  | [] => StringBad
  | e :: r =>
      if isb 117 e then
        match r with
        | a1 :: a2 :: a3 :: a4 :: r =>
            match hex4 a1 a2 a3 a4 with
            | None => StringBad
            | Some u =>
                if is_surrogate u then
                  match following_low u r with
                  | Some rune => StringChar (utf8_encode rune) (drop 6 r)
                  | None => StringChar replacement r
                  end
                else StringChar (utf8_encode u) r
            end
        | _ => StringBad
        end
      else match simple_escape e with Some b => StringChar b r | None => StringBad end
  end.

(** [utf8.DecodeRune] at a byte above 127: a valid sequence, or one bad byte. *)
Definition multibyte (c : byte) (r : bytes) : string_char :=
  match r with
  | c1 :: r1 =>
      if valid2 c c1 then StringChar [c; c1] r1
      else match r1 with
           | c2 :: r2 =>
               if valid3 c c1 c2 then StringChar [c; c1; c2] r2
               else match r2 with
                    | c3 :: r3 => if valid4 c c1 c2 c3 then StringChar [c; c1; c2; c3] r3 else StringChar replacement r
                    | [] => StringChar replacement r
                    end
           | [] => StringChar replacement r
           end
  | [] => StringChar replacement r
  end.

Definition next_char (l : bytes) : string_char :=
  match l with
  | [] => StringBad
  | c :: r =>
      if isb 34 c then StringEnd r
      else if isb 92 c then escaped r
      else if Z_of_byte c <? 32 then StringBad
      else if Z_of_byte c <? 128 then StringChar [c] r
      else multibyte c r
  end.

(** The literal after its opening quote: its value and what follows the closing
    quote. *)
Fixpoint string_fuel (fuel : nat) (l : bytes) : option (result (bytes * bytes)) :=
  match fuel with
  | O => None
  | S fuel =>
      match next_char l with
      | StringEnd r => Some (Ok ([], r))
      | StringChar b r => fbind (string_fuel fuel r) (fun '(out, r) => Some (Ok (b ++ out, r)))
      | StringBad => Some (Err syntax_error)
      end
  end.

Definition string_body (l : bytes) : result (bytes * bytes) := default (Err syntax_error) (string_fuel (S (length l)) l).

(** ** Values *)

(** A literal after its first byte. *)
Definition literal (word : bytes) (v : json) (l : bytes) : result (json * bytes) :=
  if beqb (take (length word) l) word then Ok (v, drop (length word) l) else Err syntax_error.

Fixpoint skip_digits (l : bytes) : bytes :=
  match l with
  | b :: r => if is_digit b then skip_digits r else l
  | [] => []
  end.

(** At least one digit. *)
Definition digits1 (l : bytes) : result bytes :=
  match l with
  | b :: r => if is_digit b then Ok (skip_digits r) else Err syntax_error
  | [] => Err syntax_error
  end.

(** [-? (0 | \[1-9\]\[0-9\]* ) frac? exp?]; the numeric value is not used. *)
Definition number (l : bytes) : result (json * bytes) :=
  let l := match l with b :: r => if isb 45 b then r else l | [] => l end in
  l ← match l with
      | b :: r => if isb 48 b then Ok r else digits1 l
      | [] => Err syntax_error
      end;
  l ← match l with
      | b :: r => if isb 46 b then digits1 r else Ok l
      | [] => Ok l
      end;
  l ← match l with
      | b :: r =>
          if isb 101 b || isb 69 b then
            digits1 (match r with s :: r' => if isb 43 s || isb 45 s then r' else r | [] => r end)
          else Ok l
      | [] => Ok l
      end;
  Ok (JNumber, l).

Definition fail {A} : option (result A) := Some (Err syntax_error).

(** [parse_members] is at a key, [parse_elems] at an element; both have passed the
    opening bracket.  [depth] counts the open brackets. *)
Fixpoint parse_value (fuel : nat) (depth : Z) (l : bytes) : option (result (json * bytes)) :=
  match fuel with
  | O => None
  | S fuel =>
      match skip_space l with
      | [] => fail
      | c :: r =>
          if isb 34 c then Some ('(s, r) ← string_body r; Ok (JString s, r))
          else if isb 123 c then
            if maxNestingDepth <? depth + 1 then fail
            else match skip_space r with
                 | [] => fail
                 | b :: r' => if isb 125 b then Some (Ok (JObject [], r')) else parse_members fuel (depth + 1) [] r
                 end
          else if isb 91 c then
            if maxNestingDepth <? depth + 1 then fail
            else match skip_space r with
                 | [] => fail
                 | b :: r' => if isb 93 b then Some (Ok (JArray [], r')) else parse_elems fuel (depth + 1) [] r
                 end
          else if isb 116 c then Some (literal [x72; x75; x65] (JBool true) r)
          else if isb 102 c then Some (literal [x61; x6c; x73; x65] (JBool false) r)
          else if isb 110 c then Some (literal [x75; x6c; x6c] JNull r)
          else Some (number (c :: r))
      end
  end
with parse_members (fuel : nat) (depth : Z) (acc : list (bytes * json)) (l : bytes) : option (result (json * bytes)) :=
  match fuel with
  | O => None
  | S fuel =>
      match skip_space l with
      | [] => fail
      | q :: r =>
          if negb (isb 34 q) then fail
          else fbind (Some (string_body r)) (fun '(k, r) =>
            match skip_space r with
            | [] => fail
            | c :: r =>
                if negb (isb 58 c) then fail
                else fbind (parse_value fuel depth r) (fun '(v, r) =>
                  match skip_space r with
                  | [] => fail
                  | b :: r =>
                      if isb 44 b then parse_members fuel depth (acc ++ [(k, v)]) r
                      else if isb 125 b then Some (Ok (JObject (acc ++ [(k, v)]), r))
                      else fail
                  end)
            end)
      end
  end
with parse_elems (fuel : nat) (depth : Z) (acc : list json) (l : bytes) : option (result (json * bytes)) :=
  match fuel with
  | O => None
  | S fuel =>
      fbind (parse_value fuel depth l) (fun '(v, r) =>
        match skip_space r with
        | [] => fail
        | b :: r =>
            if isb 44 b then parse_elems fuel depth (acc ++ [v]) r
            else if isb 93 b then Some (Ok (JArray (acc ++ [v]), r))
            else fail
        end)
  end.

Definition json_text_fuel (fuel : nat) (data : bytes) : option (result json) :=
  fbind (parse_value fuel 0 data) (fun '(v, r) => match skip_space r with [] => Some (Ok v) | _ => fail end).

(** The document [json.Unmarshal] decodes. *)
Definition json_text (data : bytes) : result json := default (Err syntax_error) (json_text_fuel (S (2 * length data)) data).

(** ** Decoding into Go values *)

Definition type_error : error := Errorf "json: cannot unmarshal into Go value".

(** [foldName]: ASCII letters in one case, with the two other runes that fold to
    ASCII letters (U+017F to S, U+212A to K). *)
Fixpoint fold_name (l : bytes) : bytes :=
  match l with
  | [] => []
  | a :: r =>
      match r with
      | b :: r1 =>
          if isb 0xc5 a && isb 0xbf b then x53 :: fold_name r1
          else match r1 with
               | c :: r2 => if isb 0xe2 a && isb 0x84 b && isb 0xaa c then x4b :: fold_name r2
                            else (if between 97 122 a then byte_of_Z (Z_of_byte a - 32) else a) :: fold_name r
               | [] => (if between 97 122 a then byte_of_Z (Z_of_byte a - 32) else a) :: fold_name r
               end
      | [] => [if between 97 122 a then byte_of_Z (Z_of_byte a - 32) else a]
      end
  end.

(** The field of a struct a member is stored in: the names of the struct have to
    differ under folding. *)
Definition names_field (name : string) (key : bytes) : bool := beqb (fold_name key) (fold_name (bytes_of name)).

(** Storing into a [string] and into a [*bool]: null leaves a string alone and
    makes a pointer nil. *)
Definition into_string (v : json) (old : string) : result string :=
  match v with
  | JString s => Ok (string_of_list_byte s)
  | JNull => Ok old
  | _ => Err type_error
  end.
Definition into_bool_pointer (v : json) : result (option bool) :=
  match v with
  | JBool b => Ok (Some b)
  | JNull => Ok None
  | _ => Err type_error
  end.

(** Into a [map\[string\]json.RawMessage]: a later member replaces an earlier one;
    null is the nil map. *)
Definition into_raw_map (v : json) : result (list (bytes * json)) :=
  match v with
  | JObject ms => Ok ms
  | JNull => Ok []
  | _ => Err type_error
  end.
Definition raw_lookup (ms : list (bytes * json)) (key : string) : option json :=
  snd <$> List.find (fun m => beqb m.1 (bytes_of key)) (rev ms).

(** ** base64url without padding: [base64.RawURLEncoding] *)

Definition b64_char (v : Z) : byte :=
  byte_of_Z (if v <? 26 then 65 + v else if v <? 52 then 71 + v else if v <? 62 then v - 4 else if v =? 62 then 45 else 95).

Definition b64_val (b : byte) : option Z :=
  if between 65 90 b then Some (Z_of_byte b - 65)
  else if between 97 122 b then Some (Z_of_byte b - 71)
  else if between 48 57 b then Some (Z_of_byte b + 4)
  else if isb 45 b then Some 62
  else if isb 95 b then Some 63
  else None.

Fixpoint b64_encode (l : bytes) : bytes :=
  match l with
  | [] => []
  | [a] => let n := Z_of_byte a * 65536 in [b64_char (n / 262144); b64_char (n / 4096 mod 64)]
  | [a; b] =>
      let n := Z_of_byte a * 65536 + Z_of_byte b * 256 in
      [b64_char (n / 262144); b64_char (n / 4096 mod 64); b64_char (n / 64 mod 64)]
  | a :: b :: c :: r =>
      let n := Z_of_byte a * 65536 + Z_of_byte b * 256 + Z_of_byte c in
      b64_char (n / 262144) :: b64_char (n / 4096 mod 64) :: b64_char (n / 64 mod 64) :: b64_char (n mod 64) :: b64_encode r
  end.

Definition b64_error : error := Errorf "illegal base64 data".

(** The quanta of the input, line breaks removed; the unused low bits of the last
    quantum are not looked at. *)
Fixpoint b64_quanta (l : list Z) : result bytes :=
  match l with
  | [] => Ok []
  | [_] => Err b64_error
  | [a; b] => Ok [byte_of_Z ((a * 64 + b) / 16)]
  | [a; b; c] => let n := (a * 64 + b) * 64 + c in Ok [byte_of_Z (n / 1024); byte_of_Z (n / 4)]
  | a :: b :: c :: d :: r =>
      let n := ((a * 64 + b) * 64 + c) * 64 + d in
      out ← b64_quanta r;
      Ok (byte_of_Z (n / 65536) :: byte_of_Z (n / 256) :: byte_of_Z n :: out)
  end.

Definition b64_decode (l : bytes) : result bytes :=
  vs ← mapR (fun b => match b64_val b with Some v => Ok v | None => Err b64_error end)
         (List.filter (fun b => negb (isb 10 b || isb 13 b)) l);
  b64_quanta vs.

(** ** Every part of a text consumes it *)

Lemma skip_space_le l : (length (skip_space l) <= length l)%nat.
Proof. induction l as [|b l IH]; simpl; [lia|]. destruct (is_space b); simpl; lia. Qed.

Lemma next_char_le l b r : next_char l = StringChar b r -> (length r < length l)%nat.
Proof.
  destruct l as [|c l]; [done|]. unfold next_char. destruct (isb 34 c); [done|]. destruct (isb 92 c).
  - destruct l as [|e l]; [done|]. unfold escaped. destruct (isb 117 e).
    + destruct l as [|a1 [|a2 [|a3 [|a4 l]]]]; [done..|]. destruct (hex4 a1 a2 a3 a4) as [u|]; [|done].
      destruct (is_surrogate u); [destruct (following_low u l)|]; intros [= _ <-]; rewrite ?length_drop; simpl; lia.
    + destruct (simple_escape e); [|done]. intros [= _ <-]. simpl. lia.
  - destruct (_ <? 32); [done|]. destruct (_ <? 128); [intros [= _ <-]; simpl; lia|]. unfold multibyte.
    destruct l as [|c1 l1]; [intros [= _ <-]; simpl; lia|]. destruct (valid2 c c1); [intros [= _ <-]; simpl; lia|].
    destruct l1 as [|c2 l2]; [intros [= _ <-]; simpl; lia|]. destruct (valid3 c c1 c2); [intros [= _ <-]; simpl; lia|].
    destruct l2 as [|c3 l3]; [|destruct (valid4 c c1 c2 c3)]; intros [= _ <-]; simpl; lia.
Qed.

Lemma string_fuel_total fuel : forall l, (length l < fuel)%nat -> string_fuel fuel l <> None.
Proof.
  induction fuel as [|fuel IH]; intros l Hl; [lia|]. simpl. destruct (next_char l) as [r|b r|] eqn:E; [done| |done].
  apply next_char_le in E. apply fbind_total; [apply IH; lia|]. by intros [].
Qed.

Lemma string_fuel_le f1 : forall f2 l r, (f1 <= f2)%nat -> string_fuel f1 l = Some r -> string_fuel f2 l = Some r.
Proof.
  induction f1 as [|f1 IH]; intros [|f2] l r Hf; [done|done|lia|]. simpl. destruct (next_char l); [done| |done].
  apply fbind_le; [|by intros []]. intros a. apply IH. lia.
Qed.

Lemma string_fuel_body fuel l : (length l < fuel)%nat -> string_fuel fuel l = Some (string_body l).
Proof.
  intros Hl. unfold string_body. pose proof (string_fuel_total (S (length l)) l (Nat.lt_succ_diag_r _)) as Ht.
  destruct (string_fuel (S (length l)) l) as [r|] eqn:E; [|done]. by eapply (string_fuel_le (S (length l)) fuel).
Qed.

(** The literal reader without its fuel. *)
Lemma string_body_step l : string_body l =
  match next_char l with
  | StringEnd r => Ok ([], r)
  | StringChar b r => '(out, r) ← string_body r; Ok (b ++ out, r)
  | StringBad => Err syntax_error
  end.
Proof.
  unfold string_body at 1. simpl. destruct (next_char l) as [r|b r|] eqn:E; [done| |done]. apply next_char_le in E.
  rewrite (string_fuel_body (length l) r) by lia. by destruct (string_body r) as [[]|].
Qed.

Lemma string_body_le n : forall l, (length l <= n)%nat -> forall o r, string_body l = Ok (o, r) -> (length r < length l)%nat.
Proof.
  induction n as [|n IH]; intros l Hl o r H; rewrite string_body_step in H;
    (destruct (next_char l) as [r'|b r'|] eqn:E; [injection H as _ <-| |done]).
  1,3: destruct l as [|c l]; [done|]; unfold next_char in E; destruct (isb 34 c); [injection E as <-; simpl; lia|];
    destruct (isb 92 c); [unfold escaped in E; repeat case_match; done|]; repeat case_match; try done;
    unfold multibyte in E; repeat case_match; done.
  - apply next_char_le in E. lia.
  - apply next_char_le in E. apply bind_Ok in H as ([o' r1] & H & [= _ <-]). apply IH in H; lia.
Qed.

Lemma skip_digits_le l : (length (skip_digits l) <= length l)%nat.
Proof. induction l as [|b l IH]; simpl; [lia|]. destruct (is_digit b); simpl; lia. Qed.

Lemma digits1_le l r : digits1 l = Ok r -> (length r < length l)%nat.
Proof. destruct l as [|b l]; simpl; [done|]. destruct (is_digit b); [|done]. intros [= <-]. pose proof (skip_digits_le l). lia. Qed.

Lemma number_le l v r : number l = Ok (v, r) -> (length r < length l)%nat.
Proof.
  unfold number. intros (l1 & H1 & (l2 & H2 & (l3 & H3 & [= _ <-])%bind_Ok)%bind_Ok)%bind_Ok.
  assert (A1 : (length l1 < length l)%nat).
  { assert (H : forall k, match k with b :: r => if isb 48 b then Ok r else digits1 k | [] => Err syntax_error end = Ok l1 -> (length l1 < length k)%nat).
    { intros [|b k] Hk; [done|]. destruct (isb 48 b); [injection Hk as <-; simpl; lia|by apply digits1_le]. }
    destruct l as [|b l]; [done|]. destruct (isb 45 b); [apply (H l) in H1; simpl; lia|by apply (H (b :: l)) in H1]. }
  assert (A2 : (length l2 <= length l1)%nat).
  { destruct l1 as [|b l1]; [by injection H2 as <-|]. destruct (isb 46 b); [apply digits1_le in H2; simpl; lia|by injection H2 as <-]. }
  destruct l2 as [|b l2]; [injection H3 as <-; simpl in *; lia|].
  destruct (_ || _); [|injection H3 as <-; simpl in *; lia].
  apply digits1_le in H3. destruct l2 as [|s l2]; [simpl in *; lia|]. destruct (_ || _); simpl in *; lia.
Qed.

Lemma literal_le w v l v' r : literal w v l = Ok (v', r) -> (length r <= length l)%nat.
Proof. unfold literal. destruct (beqb _ _); [|done]. intros [= _ <-]. rewrite length_drop. lia. Qed.

(** ** Totality and independence of the fuel *)

Lemma skip_space_cons l b r : skip_space l = b :: r -> (length r < length l)%nat.
Proof. intros E. pose proof (skip_space_le l). rewrite E in *. simpl in *. lia. Qed.

(** A successful parse leaves a shorter text. *)
Lemma parse_le fuel :
  (forall depth l v r, parse_value fuel depth l = Some (Ok (v, r)) -> (length r < length l)%nat) /\
  (forall depth acc l v r, parse_members fuel depth acc l = Some (Ok (v, r)) -> (length r < length l)%nat) /\
  (forall depth acc l v r, parse_elems fuel depth acc l = Some (Ok (v, r)) -> (length r < length l)%nat).
Proof.
  induction fuel as [|fuel (IV & IM & IE)]; [done|]. split_and!.
  - intros depth l v r. cbn [parse_value]. destruct (skip_space l) as [|c k] eqn:E; [done|]. apply skip_space_cons in E.
    destruct (isb 34 c); [intros [= ([s r'] & H%(string_body_le _ _ (le_n _)) & [= _ <-])%bind_Ok]; lia|].
    destruct (isb 123 c); [|destruct (isb 91 c)].
    1,2: destruct (_ <? _); [done|]; destruct (skip_space k) as [|b k'] eqn:E'; [done|]; apply skip_space_cons in E';
         destruct (isb _ b); [intros [= _ <-]; lia|].
    + intros H%IM. lia.
    + intros H%IE. lia.
    + destruct (isb 116 c); [intros [= H%literal_le]; lia|]. destruct (isb 102 c); [intros [= H%literal_le]; lia|].
      destruct (isb 110 c); [intros [= H%literal_le]; lia|]. intros [= H%number_le]. simpl in H. lia.
  - intros depth acc l v r. cbn [parse_members]. destruct (skip_space l) as [|q k] eqn:E; [done|]. apply skip_space_cons in E.
    destruct (negb _); [done|]. intros ([key k1] & [= H1%(string_body_le _ _ (le_n _))] & H)%fbind_Ok.
    destruct (skip_space k1) as [|c k2] eqn:E2; [done|]. apply skip_space_cons in E2. destruct (negb _); [done|].
    apply fbind_Ok in H as ([v' k3] & H3%IV & H). destruct (skip_space k3) as [|b k4] eqn:E4; [done|]. apply skip_space_cons in E4.
    destruct (isb 44 b); [apply IM in H; lia|]. destruct (isb 125 b); [|done]. injection H as _ <-. lia.
  - intros depth acc l v r. cbn [parse_elems]. intros ([v' k] & H1%IV & H)%fbind_Ok.
    destruct (skip_space k) as [|b k'] eqn:E; [done|]. apply skip_space_cons in E.
    destruct (isb 44 b); [apply IE in H; lia|]. destruct (isb 93 b); [|done]. injection H as _ <-. lia.
Qed.

Lemma parse_total fuel :
  (forall depth l, (2 * length l < fuel)%nat -> parse_value fuel depth l <> None) /\
  (forall depth acc l, (2 * length l < fuel)%nat -> parse_members fuel depth acc l <> None) /\
  (forall depth acc l, (2 * length l + 1 < fuel)%nat -> parse_elems fuel depth acc l <> None).
Proof.
  induction fuel as [|fuel (IV & IM & IE)]; [split_and!; intros; lia|]. destruct (parse_le fuel) as (LV & LM & LE). split_and!.
  - intros depth l Hl. cbn [parse_value]. destruct (skip_space l) as [|c k] eqn:E; [done|]. apply skip_space_cons in E.
    destruct (isb 34 c); [done|]. destruct (isb 123 c); [|destruct (isb 91 c); [|by repeat case_match]].
    all: destruct (_ <? _); [done|]; destruct (skip_space k) as [|b k'] eqn:E'; [done|]; destruct (isb _ b); [done|].
    + apply IM. lia.
    + apply IE. lia.
  - intros depth acc l Hl. cbn [parse_members]. destruct (skip_space l) as [|q k] eqn:E; [done|]. apply skip_space_cons in E.
    destruct (negb _); [done|]. apply fbind_total; [done|]. intros [key k1] [= H1%(string_body_le _ _ (le_n _))].
    destruct (skip_space k1) as [|c k2] eqn:E2; [done|]. apply skip_space_cons in E2. destruct (negb _); [done|].
    apply fbind_total; [apply IV; lia|]. intros [v k3] H3%LV. destruct (skip_space k3) as [|b k4] eqn:E4; [done|].
    apply skip_space_cons in E4. destruct (isb 44 b); [apply IM; lia|by destruct (isb 125 b)].
  - intros depth acc l Hl. cbn [parse_elems]. apply fbind_total; [apply IV; lia|]. intros [v k] H%LV.
    destruct (skip_space k) as [|b k'] eqn:E; [done|]. apply skip_space_cons in E.
    destruct (isb 44 b); [apply IE; lia|by destruct (isb 93 b)].
Qed.

Lemma parse_fuel_le f1 : forall f2, (f1 <= f2)%nat ->
  (forall depth l r, parse_value f1 depth l = Some r -> parse_value f2 depth l = Some r) /\
  (forall depth acc l r, parse_members f1 depth acc l = Some r -> parse_members f2 depth acc l = Some r) /\
  (forall depth acc l r, parse_elems f1 depth acc l = Some r -> parse_elems f2 depth acc l = Some r).
Proof.
  induction f1 as [|f1 IH]; intros f2 Hf; [done|]. destruct f2 as [|f2]; [lia|].
  destruct (IH f2 ltac:(lia)) as (IV & IM & IE). split_and!.
  - intros depth l r. cbn [parse_value]. destruct (skip_space l); [done|]. repeat case_match; auto.
  - intros depth acc l r. cbn [parse_members]. destruct (skip_space l); [done|]. destruct (negb _); [done|].
    apply fbind_le; [done|]. intros [key k1] _. destruct (skip_space k1); [done|]. destruct (negb _); [done|].
    apply fbind_le; [apply IV|]. intros [v k2] _. repeat case_match; auto.
  - intros depth acc l r. cbn [parse_elems]. apply fbind_le; [apply IV|]. intros [v k] _. repeat case_match; auto.
Qed.

(** The fuel of [json_text] always yields an answer, and no larger one another. *)
Lemma json_text_total fuel data : (2 * length data < fuel)%nat -> json_text_fuel fuel data = Some (json_text data).
Proof.
  assert (Ht : forall f, (2 * length data < f)%nat -> json_text_fuel f data <> None).
  { intros f Hf. unfold json_text_fuel. apply fbind_total; [by apply parse_total|]. intros [v r] _. by destruct (skip_space r). }
  intros Hf. unfold json_text. pose proof (Ht (S (2 * length data)) (Nat.lt_succ_diag_r _)) as H1.
  destruct (json_text_fuel (S (2 * length data)) data) as [r|] eqn:E; [simpl|done].
  unfold json_text_fuel in *. revert E. apply fbind_le; [|by intros []]. intros a. apply (parse_fuel_le (S (2 * length data)) fuel). lia.
Qed.

(** A parse with any fuel is the document. *)
Lemma json_text_eq fuel data r : json_text_fuel fuel data = Some r -> json_text data = r.
Proof.
  intros H. pose proof (json_text_total (S (2 * length data) + fuel) data ltac:(lia)) as Ht.
  assert (H' : json_text_fuel (S (2 * length data) + fuel) data = Some r); [|congruence].
  unfold json_text_fuel in *. revert H. apply fbind_le; [|by intros []]. intros a.
  apply (parse_fuel_le fuel (S (2 * length data) + fuel)). lia.
Qed.

(** ** Literals without escapes *)

Definition plain (b : byte) : bool := between 32 127 b && negb (isb 34 b) && negb (isb 92 b).

Lemma string_body_plain s r : Forall (fun b => plain b = true) s -> string_body (s ++ x22 :: r) = Ok (s, r).
Proof.
  induction 1 as [|b s Hb _ IH]; rewrite string_body_step; [done|]. unfold plain, between in Hb. simpl. bool_prop.
  repeat match goal with H : isb _ _ = false |- _ => rewrite H end.
  rewrite (proj2 (Z.ltb_ge (Z_of_byte b) 32)), (proj2 (Z.ltb_lt (Z_of_byte b) 128)) by lia. by rewrite IH.
Qed.

(** A string value, and one member of an object, of such literals. *)
Lemma parse_plain_string fuel depth s r : Forall (fun b => plain b = true) s ->
  parse_value (S fuel) depth (x22 :: s ++ x22 :: r) = Some (Ok (JString s, r)).
Proof. intros Hs. cbn [parse_value skip_space]. simpl. by rewrite string_body_plain. Qed.

Lemma parse_plain_member fuel depth acc k vs v b r : Forall (fun c => plain c = true) k ->
  parse_value fuel depth vs = Some (Ok (v, b :: r)) -> is_space b = false ->
  parse_members (S fuel) depth acc (x22 :: k ++ x22 :: x3a :: vs) =
  if isb 44 b then parse_members fuel depth (acc ++ [(k, v)]) r
  else if isb 125 b then Some (Ok (JObject (acc ++ [(k, v)]), r)) else fail.
Proof. intros Hk Hv Hb. cbn [parse_members]. simpl. rewrite string_body_plain by done. simpl. rewrite Hv. simpl. by rewrite Hb. Qed.

(** An array of such literals; [acc] was read before. *)
Definition quoted_string (s : bytes) : bytes := x22 :: s ++ [x22].

Fixpoint more_strings (l : list bytes) : bytes :=
  match l with [] => [] | s :: l => x2c :: quoted_string s ++ more_strings l end.

Lemma parse_string_elems fuel depth ss : forall acc s, (length ss + 1 < fuel)%nat ->
  Forall (fun s => Forall (fun b => plain b = true) s) (s :: ss) ->
  parse_elems fuel depth acc (quoted_string s ++ more_strings ss ++ [x5d]) = Some (Ok (JArray (acc ++ map JString (s :: ss)), [])).
Proof.
  revert fuel. induction ss as [|s' ss IH]; intros fuel acc s Hf [Hs Hss]%Forall_cons_iff;
    (destruct fuel as [|[|fuel]]; [simpl in Hf; lia..|]); unfold quoted_string at 1; rewrite <-app_comm_cons, <-app_assoc;
    cbn [parse_elems]; cbn [app]; rewrite parse_plain_string by done; cbn [fbind].
  - done.
  - change (more_strings (s' :: ss)) with (x2c :: quoted_string s' ++ more_strings ss). rewrite <-app_comm_cons, <-app_assoc.
    cbn [skip_space]. change (is_space x2c) with false. cbn match. change (isb 44 x2c) with true. cbn match.
    trans (parse_elems (S fuel) depth (acc ++ [JString s]) (quoted_string s' ++ more_strings ss ++ [x5d])); [done|].
    rewrite IH by (done || (simpl in Hf; lia)). by rewrite <-app_assoc.
Qed.

Lemma parse_array fuel depth r : depth < maxNestingDepth ->
  parse_value (S fuel) depth (x5b :: x22 :: r) = parse_elems fuel (depth + 1) [] (x22 :: r).
Proof. intros Hd. unfold maxNestingDepth in Hd. cbn [parse_value]. simpl. unfold maxNestingDepth. by rewrite (proj2 (Z.ltb_ge _ _)) by lia. Qed.

Lemma parse_string_array s ss : Forall (fun s => Forall (fun b => plain b = true) s) (s :: ss) ->
  json_text (x5b :: quoted_string s ++ more_strings ss ++ [x5d]) = Ok (JArray (map JString (s :: ss))).
Proof.
  intros Hss. apply (json_text_eq (S (S (S (length ss))))). unfold json_text_fuel. unfold quoted_string at 1. rewrite <-app_comm_cons.
  rewrite parse_array by done. pose proof (parse_string_elems (S (S (length ss))) (0 + 1) ss [] s ltac:(lia) Hss) as E.
  unfold quoted_string at 1 in E. rewrite <-app_comm_cons in E. by rewrite E.
Qed.

Lemma parse_object fuel depth r : depth < maxNestingDepth ->
  parse_value (S fuel) depth (x7b :: x22 :: r) = parse_members fuel (depth + 1) [] (x22 :: r).
Proof. intros Hd. unfold maxNestingDepth in Hd. cbn [parse_value]. simpl. unfold maxNestingDepth. by rewrite (proj2 (Z.ltb_ge _ _)) by lia. Qed.

(** ** base64url *)

Definition b64_table_ok (v : Z) : bool :=
  bool_decide (b64_val (b64_char v) = Some v) && plain (b64_char v) && negb (isb 10 (b64_char v) || isb 13 (b64_char v)).

Lemma b64_table v : 0 <= v < 64 ->
  b64_val (b64_char v) = Some v /\ plain (b64_char v) = true /\ negb (isb 10 (b64_char v) || isb 13 (b64_char v)) = true.
Proof.
  intros Hv. assert (H : forallb b64_table_ok (seqZ 0 64) = true) by (vm_compute; reflexivity).
  rewrite forallb_forall in H. specialize (H v). assert (Hin : In v (seqZ 0 64)) by (apply list_elem_of_In, elem_of_seqZ; lia).
  apply H in Hin. unfold b64_table_ok in Hin.
  apply andb_true_iff in Hin as [[H1%bool_decide_eq_true H2]%andb_true_iff H3]. done.
Qed.

Ltac b64_arith := repeat constructor; try apply byte_of_Z_mod; Z.to_euclidean_division_equations; lia.

(** The encoding as 6-bit codes, and the quanta they decode to. *)
Lemma b64_codes n : forall l, (length l <= n)%nat ->
  exists vs, Forall (fun v => 0 <= v < 64) vs /\ b64_encode l = map b64_char vs /\ b64_quanta vs = Ok l.
Proof.
  induction n as [|n IH]; intros [|a [|b [|c l]]] Hl; simpl in Hl; try lia; try (by exists []).
  - pose proof (Z_of_byte_range a). eexists [_; _]. split_and!; [|done|].
    + b64_arith.
    + simpl. do 2 f_equal. b64_arith.
  - pose proof (Z_of_byte_range a). pose proof (Z_of_byte_range b). eexists [_; _; _]. split_and!; [|done|].
    + b64_arith.
    + simpl. f_equal. f_equal; [b64_arith|]. f_equal. b64_arith.
  - pose proof (Z_of_byte_range a). pose proof (Z_of_byte_range b). pose proof (Z_of_byte_range c).
    destruct (IH l ltac:(lia)) as (vs & Hvs & E & Q). eexists (_ :: _ :: _ :: _ :: vs). split_and!.
    2: { cbn [b64_encode map]. rewrite E. done. }
    + repeat (constructor; [b64_arith|]). done.
    + cbn [b64_quanta]. rewrite Q. simpl. f_equal. f_equal; [b64_arith|]. f_equal; [b64_arith|]. f_equal. b64_arith.
Qed.

Lemma b64_decode_encode l : b64_decode (b64_encode l) = Ok l.
Proof.
  destruct (b64_codes (length l) l (le_n _)) as (vs & Hvs & -> & Q). unfold b64_decode.
  assert (Ef : List.filter (fun b => negb (isb 10 b || isb 13 b)) (map b64_char vs) = map b64_char vs).
  { clear Q. induction Hvs as [|v vs Hv _ IH]; [done|]. simpl. destruct (b64_table v Hv) as (_ & _ & ->). by rewrite IH. }
  rewrite Ef. rewrite (proj2 (mapR_Ok _ _ vs)); [done|].
  apply Forall2_fmap_l. clear Q Ef. induction Hvs as [|v vs Hv _ IH]; constructor; [simpl|done]. by destruct (b64_table v Hv) as (-> & _).
Qed.

Lemma b64_encode_plain l : Forall (fun b => plain b = true) (b64_encode l).
Proof.
  destruct (b64_codes (length l) l (le_n _)) as (vs & Hvs & -> & _). apply Forall_fmap.
  eapply Forall_impl; [|exact Hvs]; cbv beta. intros v Hv. simpl. by destruct (b64_table v Hv) as (_ & -> & _).
Qed.
