(* ===== verification/WebAuthn.v ===== *)
(** * Passkeys: [src/internal/webauthn] ([assert.go], [create.go], [p256.go], [synth.go])

    [Validate] accepts an assertion for a registered key, [ValidateCreate] a create
    ceremony.  [Synth…] and [Encode…] build such messages; they are the references
    the validators are held to.  The randomised [ecdsa.Sign] is an argument. *)

From S2P Require Import Prelude Crypto P256 Der Cbor Json.
From Stdlib Require Import Strings.Byte Strings.Ascii Strings.String.
From stdpp Require Import base decidable list strings option.
From Stdlib Require Import ZArith Lia.
Open Scope string_scope.
Open Scope list_scope.
Open Scope Z_scope.

#[local] Arguments be_bytes : simpl never.
#[local] Arguments sha256 : simpl never.

(** ** Keys and signatures *)

Definition uncompressed (x y : Z) : bytes := x04 :: be_bytes 32 x ++ be_bytes 32 y.

Definition ParseCompressedP256 (b : bytes) : result (Z * Z) :=
  require (zlen b =? 33) (Errorf "p256 must be 33-byte compressed");;
  require (beqb (take 1 b) [x02] || beqb (take 1 b) [x03]) (Errorf "p256 compressed prefix");;
  match UnmarshalCompressed b with
  | None => Err (Errorf "p256 point is off-curve")
  | Some (x, y) =>
      match ParseUncompressedPublicKey (uncompressed x y) with
      | None => Err (Errorf "p256 point is off-curve")
      | Some pub => Ok pub
      end
  end.

(** The range and low-S checks of a compact signature. *)
Definition compact_scalars (compact : bytes) : result (Z * Z) :=
  require (zlen compact =? 64) (Errorf "compact signature must be 64 bytes");;
  let r := be_val (take 32 compact) in
  let s := be_val (drop 32 compact) in
  require (negb ((r <=? 0) || (s <=? 0) || (p256_n <=? r) || (p256_n <=? s))) (Errorf "compact signature out of range");;
  require (negb (half_order <? s)) (Errorf "compact signature is not low-S");;
  Ok (r, s).

Definition SignedMessage (authenticatorData clientDataJSON : bytes) : bytes := authenticatorData ++ sha256 clientDataJSON.
Definition Digest (authenticatorData clientDataJSON : bytes) : bytes := sha256 (SignedMessage authenticatorData clientDataJSON).

Definition VerifyES256 (pub : option (Z * Z)) (authenticatorData clientDataJSON compact : bytes) : result unit :=
  match pub with
  | None => Err (Errorf "nil p256 public key")
  | Some pub =>
      '(r, s) ← compact_scalars compact;
      require (ecdsa_verify pub (Digest authenticatorData clientDataJSON) r s) (Errorf "es256 signature invalid")
  end.

Definition VerifyDigestLowS (pub : option (Z * Z)) (digest compact : bytes) : result unit :=
  match pub with
  | None => Err (Errorf "nil p256 public key")
  | Some pub =>
      require (zlen digest =? 32) (Errorf "digest must be 32 bytes");;
      '(r, s) ← compact_scalars compact;
      require (ecdsa_verify pub digest r s) (Errorf "direct p256 signature invalid")
  end.

(** [sign] is [ecdsa.Sign] with the given key, [None] a nil key. *)
Definition SignDigestLowS (sign : option (bytes -> result (Z * Z))) (digest : bytes) : result bytes :=
  match sign with
  | None => Err (Errorf "nil p256 private key")
  | Some sign =>
      require (zlen digest =? 32) (Errorf "digest must be 32 bytes");;
      '(r, s) ← sign digest;
      let s := if half_order <? s then p256_n - s else s in
      Ok (be_bytes 32 r ++ be_bytes 32 s)
  end.

(** ** Client data *)

Record ClientData := MkClientData {
  cd_Type : string; cd_Challenge : string; cd_Origin : string; cd_CrossOrigin : option bool
}.

(** One member of the object into the struct; unknown names are ignored. *)
Definition clientDataMember (cd : ClientData) (m : bytes * json) : result ClientData :=
  let '(key, v) := m in
  if names_field "type" key then t ← into_string v (cd_Type cd); Ok (MkClientData t (cd_Challenge cd) (cd_Origin cd) (cd_CrossOrigin cd))
  else if names_field "challenge" key then c ← into_string v (cd_Challenge cd); Ok (MkClientData (cd_Type cd) c (cd_Origin cd) (cd_CrossOrigin cd))
  else if names_field "origin" key then o ← into_string v (cd_Origin cd); Ok (MkClientData (cd_Type cd) (cd_Challenge cd) o (cd_CrossOrigin cd))
  else if names_field "crossOrigin" key then x ← into_bool_pointer v; Ok (MkClientData (cd_Type cd) (cd_Challenge cd) (cd_Origin cd) x)
  else Ok cd.

Definition noClientData : ClientData := MkClientData "" "" "" None.

Definition unmarshalClientData (data : bytes) : result ClientData :=
  doc ← json_text data;
  match doc with
  | JObject ms => foldR clientDataMember noClientData ms
  | JNull => Ok noClientData
  | _ => Err type_error
  end.

Definition EncodeChallenge (raw : bytes) : string := string_of_list_byte (b64_encode raw).
Definition decodeChallenge (s : string) : result bytes := wrap "challenge encoding" (b64_decode (bytes_of s)).

Definition ChallengeFromClientDataJSON (clientDataJSON : bytes) : result bytes :=
  cd ← wrap "clientDataJSON" (unmarshalClientData clientDataJSON);
  raw ← decodeChallenge (cd_Challenge cd);
  require (zlen raw =? 32) (Errorf "challenge must be 32 bytes");;
  Ok raw.

Definition ContainsPRFField (raw : bytes) : bool :=
  match (doc ← json_text raw; into_raw_map doc) with
  | Err _ => false
  | Ok obj =>
      match raw_lookup obj "prf" with
      | Some _ => true
      | None =>
          match raw_lookup obj "clientExtensionResults" with
          | Some ext => match into_raw_map ext with
                        | Ok extObj => bool_decide (is_Some (raw_lookup extObj "prf"))
                        | Err _ => false
                        end
          | None => false
          end
      end
  end.

(** ** Assertions *)

Definition flagUP := 1.
Definition flagUV := 4.
Definition maxClientDataJSON := 4096.

Record Assertion := MkAssertion { a_CredentialID : bytes; a_ClientDataJSON : bytes; a_AuthenticatorData : bytes; a_DERSignature : bytes }.
Record Expected := MkExpected { x_CredentialID : bytes; x_WebAuthnP256 : bytes; x_Challenge : bytes; x_Origin : string; x_RPID : string }.
Record Verified := MkVerified { vr_Assertion : Assertion; vr_CompactSig : bytes; vr_ClientData : ClientData; vr_SignCount : Z }.

Definition SignCount (authData : bytes) : Z := if zlen authData <? 37 then 0 else be_val (take 4 (drop 33 authData)).

(** [authenticatorData\[32\]]; the callers have checked the length. *)
Definition auth_flags (authData : bytes) : Z := Z_of_byte (nth 32 authData x00).
Definition has_flag (flags flag : Z) : bool := negb (Z.land flags flag =? 0).

Definition Validate (a : Assertion) (exp : Expected) : result Verified :=
  require (beqb (a_CredentialID a) (x_CredentialID exp)) (Errorf "unknown credential");;
  require (zlen (x_WebAuthnP256 exp) =? 33) (Errorf "registered webauthn p256 key must be 33-byte compressed");;
  require (zlen (x_Challenge exp) =? 32) (Errorf "challenge must be 32-byte arkade sighash");;
  require (negb (zlen (a_AuthenticatorData a) <? 37)) (Errorf "authenticatorData too short");;
  require (negb ((zlen (a_ClientDataJSON a) =? 0) || (maxClientDataJSON <? zlen (a_ClientDataJSON a)))) (Errorf "clientDataJSON too large");;
  cd ← wrap "clientDataJSON" (unmarshalClientData (a_ClientDataJSON a));
  require (seqb (cd_Type cd) "webauthn.get") (Errorf "clientDataJSON type");;
  require (seqb (cd_Origin cd) (x_Origin exp)) (Errorf "origin");;
  require (bool_decide (cd_CrossOrigin cd = Some false)) (Errorf "crossOrigin must be false");;
  gotChallenge ← decodeChallenge (cd_Challenge cd);
  require (beqb gotChallenge (x_Challenge exp)) (Errorf "challenge mismatch");;
  require (beqb (take 32 (a_AuthenticatorData a)) (sha256 (bytes_of (x_RPID exp)))) (Errorf "rpIdHash mismatch");;
  let flags := auth_flags (a_AuthenticatorData a) in
  require (has_flag flags flagUP) (Errorf "user presence required");;
  require (has_flag flags flagUV) (Errorf "user verification required");;
  compact ← CompactLowS (a_DERSignature a);
  pub ← ParseCompressedP256 (x_WebAuthnP256 exp);
  VerifyES256 (Some pub) (a_AuthenticatorData a) (a_ClientDataJSON a) compact;;
  Ok (MkVerified a compact cd (SignCount (a_AuthenticatorData a))).

(** ** Synthesized assertions *)

Definition quoted (s : bytes) : bytes := x22 :: s ++ [x22].

(** [{type: webauthn.get, challenge: …, origin: …, crossOrigin: false}] *)
Definition synthClientData (challenge : bytes) (origin : string) : bytes :=
  [x7b] ++ quoted (bytes_of "type") ++ [x3a] ++ quoted (bytes_of "webauthn.get") ++
  [x2c] ++ quoted (bytes_of "challenge") ++ [x3a] ++ quoted (bytes_of (EncodeChallenge challenge)) ++
  [x2c] ++ quoted (bytes_of "origin") ++ [x3a] ++ quoted (bytes_of origin) ++
  [x2c] ++ quoted (bytes_of "crossOrigin") ++ [x3a] ++ bytes_of "false" ++ [x7d].

Definition synthAuthenticatorData (rpID : string) (uv up : bool) (signCount : Z) : bytes :=
  sha256 (bytes_of rpID) ++ [byte_of_Z (Z.lor (if up then flagUP else 0) (if uv then flagUV else 0))] ++ be_bytes 4 signCount.

Definition SynthWithSignCount (sign : bytes -> result (Z * Z)) (credID challenge : bytes) (origin rpID : string) (uv up : bool) (signCount : Z)
    : result Assertion :=
  let cd := synthClientData challenge origin in
  let auth := synthAuthenticatorData rpID uv up signCount in
  '(r, s) ← sign (Digest auth cd);
  Ok (MkAssertion credID cd auth (marshalECDSA r s)).

Definition Synth (sign : bytes -> result (Z * Z)) (credID challenge : bytes) (origin rpID : string) (uv up : bool) : result Assertion :=
  SynthWithSignCount sign credID challenge origin rpID uv up 0.

(** ** Create ceremonies *)

Definition flagAT := 64.
Definition flagED := 128.
Definition coseKtyEC2 := 2.
Definition coseAlgES256 := -7.
Definition coseCrvP256 := 1.

Record CreateResult := MkCreateResult { cr_CredentialID : bytes; cr_WebAuthnP256 : bytes }.

(** The compressed form of a point. *)
Definition compress (x y : bytes) : bytes := (if Z.odd (be_val y) then x03 else x02) :: x.

Definition compressedP256XY (x y : bytes) : result bytes :=
  require (negb (negb (zlen x =? 32) || negb (zlen y =? 32))) (Errorf "p256 coordinates");;
  match ParseUncompressedPublicKey (x04 :: x ++ y) with
  | None => Err (Errorf "p256 point is off-curve")
  | Some _ =>
      let out := compress x y in
      ParseCompressedP256 out;;
      Ok out
  end.

Definition cose_int (v : option cborValue) (want : Z) (e : string) : result unit :=
  match v with Some (cborInt n) => require (n =? want) (Errorf e) | _ => Err (Errorf e) end.
Definition cose_bytes32 (v : option cborValue) (e : string) : result bytes :=
  match v with Some (cborBytes b) => require (zlen b =? 32) (Errorf e);; Ok b | _ => Err (Errorf e) end.

Definition parseCOSEES256 (raw : bytes) : result (bytes * bytes) :=
  '(val, rest) ← wrap "cose key" (decodeCBOR raw);
  cose_int (mapInt val 1) coseKtyEC2 "cose kty must be EC2";;
  cose_int (mapInt val 3) coseAlgES256 "cose alg must be ES256";;
  cose_int (mapInt val (-1)) coseCrvP256 "cose curve must be P-256";;
  x ← cose_bytes32 (mapInt val (-2)) "cose x must be 32 bytes";
  y ← cose_bytes32 (mapInt val (-3)) "cose y must be 32 bytes";
  compressed ← compressedP256XY x y;
  Ok (compressed, rest).

(** After the COSE key: extensions exactly when the flag says so, then the end. *)
Definition check_extensions (auth rest : bytes) : result unit :=
  if has_flag (auth_flags auth) flagED then
    require (negb (zlen rest =? 0)) (Errorf "authenticator extensions required");;
    '(ext, rest) ← wrap "authenticator extensions" (decodeCBOR rest);
    require match ext with cborMap (_ :: _) => true | _ => false end (Errorf "authenticator extensions must be a non-empty map");;
    require (zlen rest =? 0) (Errorf "trailing authenticator extension data")
  else require (zlen rest =? 0) (Errorf "unexpected trailing authenticator data").

Definition attested_header : Z := 37 + 16 + 2.

Definition extractAttestedCredential (auth : bytes) : result CreateResult :=
  require (negb (zlen auth <? attested_header)) (Errorf "attested credential data truncated");;
  let credLen := be_val (take 2 (drop 53 auth)) in
  require (negb ((credLen =? 0) || (zlen auth <=? attested_header + credLen))) (Errorf "attested credential id truncated");;
  let credID := take (Z.to_nat credLen) (drop 55 auth) in
  '(compressed, rest) ← parseCOSEES256 (drop (Z.to_nat credLen) (drop 55 auth));
  check_extensions auth rest;;
  Ok (MkCreateResult credID compressed).

Definition ValidateCreate (clientDataJSON authenticatorData challenge : bytes) (origin rpID : string) : result CreateResult :=
  require (zlen challenge =? 32) (Errorf "challenge must be 32 bytes");;
  require (negb (zlen authenticatorData <? 37)) (Errorf "authenticatorData too short");;
  require (negb ((zlen clientDataJSON =? 0) || (maxClientDataJSON <? zlen clientDataJSON))) (Errorf "clientDataJSON too large");;
  cd ← wrap "clientDataJSON" (unmarshalClientData clientDataJSON);
  require (seqb (cd_Type cd) "webauthn.create") (Errorf "clientDataJSON type");;
  require (seqb (cd_Origin cd) origin) (Errorf "origin");;
  require (bool_decide (cd_CrossOrigin cd = Some false)) (Errorf "crossOrigin must be false");;
  gotChallenge ← decodeChallenge (cd_Challenge cd);
  require (beqb gotChallenge challenge) (Errorf "challenge mismatch");;
  require (beqb (take 32 authenticatorData) (sha256 (bytes_of rpID))) (Errorf "rpIdHash mismatch");;
  let flags := auth_flags authenticatorData in
  require (has_flag flags flagUP) (Errorf "user presence required");;
  require (has_flag flags flagUV) (Errorf "user verification required");;
  require (has_flag flags flagAT) (Errorf "attested credential data required");;
  extractAttestedCredential authenticatorData.

Definition ParseAttestationObject (raw : bytes) : result bytes :=
  '(val, rest) ← wrap "attestationObject" (decodeCBOR raw);
  require (zlen rest =? 0) (Errorf "attestationObject trailing data");;
  match mapText val "fmt" with
  | Some (cborText f) =>
      require (seqb f "none") (Errorf "unsupported attestation format");;
      match mapText val "authData" with
      | Some (cborBytes b) => require (negb (zlen b <? 37)) (Errorf "attestationObject authData required");; Ok b
      | _ => Err (Errorf "attestationObject authData required")
      end
  | _ => Err (Errorf "attestationObject fmt required")
  end.

(** ** Synthesized ceremonies *)

Definition EncodeCOSEES256 (compressed : bytes) : result bytes :=
  '(x, y) ← ParseCompressedP256 compressed;
  Ok (encodeCBORMap [
    encodeCBORUnsigned 1 ++ encodeCBORUnsigned coseKtyEC2;
    encodeCBORUnsigned 3 ++ encodeCBORNegative coseAlgES256;
    encodeCBORNegative (-1) ++ encodeCBORUnsigned coseCrvP256;
    encodeCBORNegative (-2) ++ encodeCBORBytes (be_bytes 32 x);
    encodeCBORNegative (-3) ++ encodeCBORBytes (be_bytes 32 y)]).

Definition EncodeNoneAttestationObject (authData : bytes) : bytes :=
  encodeCBORMap [
    encodeCBORText "fmt" ++ encodeCBORText "none";
    encodeCBORText "authData" ++ encodeCBORBytes authData;
    encodeCBORText "attStmt" ++ encodeCBORMap []].

Definition attestedAuthenticatorData (rpID : string) (credID compressedP256 extensions : bytes) : result bytes :=
  cose ← EncodeCOSEES256 compressedP256;
  require (negb ((zlen credID =? 0) || (1024 <? zlen credID))) (Errorf "credential id required");;
  let flags := Z.lor (Z.lor flagUP flagUV) flagAT in
  let flags := if 0 <? zlen extensions then Z.lor flags flagED else flags in
  Ok (sha256 (bytes_of rpID) ++ [byte_of_Z flags] ++ [x00; x00; x00; x00] ++ replicate 16 x00 ++
      be_bytes 2 (zlen credID) ++ credID ++ cose ++ extensions).

Definition AttestedAuthenticatorData (rpID : string) (credID compressedP256 : bytes) : result bytes :=
  attestedAuthenticatorData rpID credID compressedP256 [].

Definition prf_extensions : bytes :=
  encodeCBORMap [
    encodeCBORText "hmac-secret" ++ encodeCBORBool true;
    encodeCBORText "prf" ++ encodeCBORMap [encodeCBORText "enabled" ++ encodeCBORBool true]].

Definition AttestedAuthenticatorDataPRF (rpID : string) (credID compressedP256 : bytes) : result bytes :=
  attestedAuthenticatorData rpID credID compressedP256 prf_extensions.

(** [CompressedP256] of the public point of a key. *)
Definition CompressedP256 (pub : Z * Z) : bytes := byte_of_Z (Z.lor 2 (Z.land pub.2 1)) :: be_bytes 32 pub.1.

(** ** Client data of a synthesized assertion *)

Definition plain_string (s : string) : Prop := Forall (fun b => plain b = true) (bytes_of s).

#[export] Instance plain_string_dec s : Decision (plain_string s).
Proof. unfold plain_string. apply _. Defined.

Lemma quoted_app s l : quoted s ++ l = x22 :: s ++ x22 :: l.
Proof. unfold quoted. simpl. by rewrite <-app_assoc. Qed.

Lemma EncodeChallenge_bytes raw : bytes_of (EncodeChallenge raw) = b64_encode raw.
Proof. unfold EncodeChallenge, bytes_of. apply list_byte_of_string_of_list_byte. Qed.

Lemma challenge_round_trip raw : decodeChallenge (EncodeChallenge raw) = Ok raw.
Proof. unfold decodeChallenge. by rewrite EncodeChallenge_bytes, b64_decode_encode. Qed.

Definition plain_word (w : string) : bool := forallb plain (bytes_of w).
Lemma plain_word_plain w : plain_word w = true -> plain_string w.
Proof. unfold plain_word, plain_string. rewrite forallb_forall, Forall_forall. intros H b Hb. by apply H. Qed.

Ltac next_member value :=
  erewrite parse_plain_member; [|by apply plain_word_plain|value|done]; change (isb 44 x2c) with true; cbv iota.

Lemma synth_document challenge origin : plain_string origin ->
  json_text (synthClientData challenge origin) =
  Ok (JObject [(bytes_of "type", JString (bytes_of "webauthn.get")); (bytes_of "challenge", JString (b64_encode challenge));
               (bytes_of "origin", JString (bytes_of origin)); (bytes_of "crossOrigin", JBool false)]).
Proof.
  intros Ho. apply (json_text_eq 6). unfold json_text_fuel, synthClientData. rewrite EncodeChallenge_bytes, !quoted_app. cbn [app].
  rewrite parse_object by done.
  next_member ltac:(by apply parse_plain_string, plain_word_plain).
  next_member ltac:(apply parse_plain_string, b64_encode_plain).
  next_member ltac:(by apply parse_plain_string).
  erewrite (parse_plain_member _ _ _ _ _ (JBool false) x7d []); [reflexivity|by apply plain_word_plain|reflexivity|done].
Qed.

Lemma synth_client_data challenge origin : plain_string origin ->
  unmarshalClientData (synthClientData challenge origin) = Ok (MkClientData "webauthn.get" (EncodeChallenge challenge) origin (Some false)).
Proof.
  intros Ho. unfold unmarshalClientData. rewrite synth_document by done. cbn [mbind result_bind].
  rewrite <-(string_of_list_byte_of_string origin) at 2. reflexivity.
Qed.

(** ** Reading authenticator data back *)

Lemma has_flag_bit flags k : 0 <= k -> has_flag flags (2 ^ k) = Z.testbit flags k.
Proof.
  intros Hk. unfold has_flag. destruct (Z.testbit flags k) eqn:E.
  - rewrite (proj2 (Z.eqb_neq _ 0)); [done|]. intros H. apply (f_equal (fun z => Z.testbit z k)) in H.
    rewrite Z.land_spec, E, Z.pow2_bits_true, Z.bits_0 in H by done. done.
  - rewrite (proj2 (Z.eqb_eq _ 0)); [done|]. apply Z.bits_inj'. intros n Hn. rewrite Z.land_spec, Z.bits_0.
    destruct (Z.eq_dec n k) as [->|]; [by rewrite E|]. rewrite Z.pow2_bits_false by lia. apply andb_false_r.
Qed.

Lemma take_app_exact {A} n (l1 l2 : list A) : length l1 = n -> take n (l1 ++ l2) = l1.
Proof. intros <-. apply take_app_length. Qed.
Lemma drop_app_exact {A} n (l1 l2 : list A) : length l1 = n -> drop n (l1 ++ l2) = l2.
Proof. intros <-. apply drop_app_length. Qed.

Lemma auth_flags_at h f rest : length h = 32%nat -> auth_flags (h ++ f :: rest) = Z_of_byte f.
Proof. intros Hh. unfold auth_flags. by rewrite app_nth2, Hh by lia. Qed.

(** ** What the signature checks amount to *)

Lemma compact_scalars_of r s : scalar r -> scalar s -> s <= half_order -> compact_scalars (be_bytes 32 r ++ be_bytes 32 s) = Ok (r, s).
Proof.
  intros Hr Hs Hlow. pose proof p256_n_bits as [_ Hn]. assert (E : 256 ^ Z.of_nat 32 = 2 ^ 256) by reflexivity. unfold scalar in *.
  unfold compact_scalars. rewrite zlen_app. unfold zlen. rewrite !length_be_bytes. cbn [require mbind result_bind].
  rewrite take_app_exact, drop_app_exact, !be_val_be_bytes_small by (apply length_be_bytes || rewrite E; lia).
  rewrite (proj2 (Z.leb_gt r 0)), (proj2 (Z.leb_gt s 0)), (proj2 (Z.leb_gt p256_n r)), (proj2 (Z.leb_gt p256_n s)), (proj2 (Z.ltb_ge half_order s)) by lia.
  done.
Qed.

(** The compact form of a DER signature always passes the range and low-S checks. *)
Lemma VerifyES256_compact pub auth cd r s : scalar r -> scalar s ->
  VerifyES256 (Some pub) auth cd (be_bytes 32 r ++ be_bytes 32 (low_s s)) =
  require (ecdsa_verify pub (Digest auth cd) r (low_s s)) (Errorf "es256 signature invalid").
Proof. intros Hr Hs. destruct (low_s_scalar s Hs). unfold VerifyES256. by rewrite compact_scalars_of. Qed.

(** Runs the sequence of checks up to the next one that is not evaluated. *)
Ltac step := cbn [require mbind result_bind wrap negb andb orb Z.eqb Pos.eqb cd_Type cd_Challenge cd_Origin cd_CrossOrigin].

(** ** Theorems on assertions *)

(** [C22] Exactly the genuine assertions are accepted: the registered credential,
    client data of type get that carry the expected challenge and origin and deny
    cross-origin use, authenticator data of the expected relying party with user
    presence (bit 0) and user verification (bit 2), and a DER signature of in-range
    scalars whose low-S form verifies under the registered key over the digest of
    these very bytes. *)
Theorem validate_exact a exp v :
  Validate a exp = Ok v <->
  exists cd r s pub,
    a_CredentialID a = x_CredentialID exp /\ zlen (x_WebAuthnP256 exp) = 33 /\ zlen (x_Challenge exp) = 32 /\
    37 <= zlen (a_AuthenticatorData a) /\ 0 < zlen (a_ClientDataJSON a) <= maxClientDataJSON /\
    unmarshalClientData (a_ClientDataJSON a) = Ok cd /\ cd_Type cd = "webauthn.get" /\ cd_Origin cd = x_Origin exp /\
    cd_CrossOrigin cd = Some false /\ b64_decode (bytes_of (cd_Challenge cd)) = Ok (x_Challenge exp) /\
    take 32 (a_AuthenticatorData a) = sha256 (bytes_of (x_RPID exp)) /\
    Z.testbit (auth_flags (a_AuthenticatorData a)) 0 = true /\ Z.testbit (auth_flags (a_AuthenticatorData a)) 2 = true /\
    unmarshalECDSA (a_DERSignature a) = Ok (r, s, []) /\ scalar r /\ scalar s /\
    ParseCompressedP256 (x_WebAuthnP256 exp) = Ok pub /\
    ecdsa_verify pub (Digest (a_AuthenticatorData a) (a_ClientDataJSON a)) r (low_s s) = true /\
    v = MkVerified a (be_bytes 32 r ++ be_bytes 32 (low_s s)) cd (SignCount (a_AuthenticatorData a)).
Proof.
  rewrite <-!has_flag_bit by lia. change (2 ^ 0) with flagUP. change (2 ^ 2) with flagUV. unfold Validate, decodeChallenge. split.
  - intros H. inv_ok.
    repeat match goal with
    | H : beqb _ _ = true |- _ => apply beqb_true in H
    | H : seqb _ _ = true |- _ => apply seqb_true in H
    | H : CompactLowS _ = Ok _ |- _ => apply CompactLowS_Ok in H as (r & s & ? & ? & ? & ->)
    end.
    rewrite VerifyES256_compact in * by done. inv_ok. bool_prop. subst. pose proof (zlen_nonneg (a_ClientDataJSON a)).
    eexists _, r, s, _. split_and!; try done; lia.
  - intros (cd & r & s & pub & Hid & Hk & Hc & Ha & Hj & Hcd & Ht & Ho & Hx & Hch & Hrp & Hup & Huv & Hd & Hr & Hs & Hp & Hv & ->).
    rewrite Hid, Hk, Hc, Hcd, Hrp, Hup, Huv. unfold beqb, seqb. rewrite !bool_decide_eq_true_2 by done.
    rewrite (proj2 (Z.ltb_ge _ 37)), (proj2 (Z.eqb_neq _ 0)), (proj2 (Z.ltb_ge maxClientDataJSON _)) by lia. step.
    rewrite Ht, Ho, Hx, Hch. rewrite !bool_decide_eq_true_2 by done. step. rewrite bool_decide_eq_true_2 by done. step.
    rewrite (proj2 (CompactLowS_Ok _ _)) by eauto 10. step. rewrite Hp. cbn [mbind result_bind].
    rewrite VerifyES256_compact, Hv by done. done.
Qed.

Lemma synth_auth_data rpID count : 0 <= count < 2 ^ 32 ->
  zlen (synthAuthenticatorData rpID true true count) = 37 /\
  take 32 (synthAuthenticatorData rpID true true count) = sha256 (bytes_of rpID) /\
  auth_flags (synthAuthenticatorData rpID true true count) = 5 /\
  SignCount (synthAuthenticatorData rpID true true count) = count.
Proof.
  intros Hn. assert (Hl : zlen (synthAuthenticatorData rpID true true count) = 37).
  { unfold synthAuthenticatorData. rewrite !zlen_app, zlen_sha256. unfold zlen. by rewrite length_be_bytes. }
  split; [done|]. unfold SignCount. rewrite Hl. cbn [Z.ltb Z.compare Pos.compare Pos.compare_cont]. unfold synthAuthenticatorData.
  pose proof (length_sha256 (bytes_of rpID)) as Hs. split; [by apply take_app_exact|]. split; [cbn [app]; by rewrite auth_flags_at|].
  rewrite app_assoc, drop_app_exact by (rewrite length_app, Hs; done). rewrite take_ge by (rewrite length_be_bytes; lia).
  apply be_val_be_bytes_small. lia.
Qed.

Lemma b64_encode_length n : forall l, (length l <= n)%nat -> (3 * length (b64_encode l) <= 4 * length l + 2 * 2)%nat.
Proof.
  induction n as [|n IH]; intros [|a [|b [|c l]]] Hl; simpl in *; try lia. specialize (IH l ltac:(lia)). lia.
Qed.

Lemma synth_length challenge origin : zlen challenge = 32 -> slen origin <= 2000 ->
  0 < zlen (synthClientData challenge origin) <= maxClientDataJSON.
Proof.
  intros Hc Ho. unfold synthClientData, quoted. rewrite EncodeChallenge_bytes.
  pose proof (b64_encode_length (length challenge) challenge (le_n _)). unfold slen, zlen, maxClientDataJSON in *.
  pose proof (zlen_nonneg (bytes_of origin)). unfold zlen in *.
  repeat (rewrite length_app || (cbn [length])). change (length (bytes_of "type")) with 4%nat. change (length (bytes_of "webauthn.get")) with 12%nat.
  change (length (bytes_of "challenge")) with 9%nat. change (length (bytes_of "origin")) with 6%nat.
  change (length (bytes_of "crossOrigin")) with 11%nat. change (length (bytes_of "false")) with 5%nat. lia.
Qed.

(** A genuine assertion gets through: the message [Synth…] builds for a
    challenge and an origin, with user presence and verification, is accepted for
    that challenge, origin and relying party exactly if the key parses and the
    low-S signature verifies, and the counter it was built with is reported. *)
Theorem synth_assertion_validates sign credID key challenge origin rpID count r s a :
  plain_string origin -> slen origin <= 2000 -> zlen challenge = 32 -> zlen key = 33 -> 0 <= count < 2 ^ 32 ->
  sign (Digest (synthAuthenticatorData rpID true true count) (synthClientData challenge origin)) = Ok (r, s) -> scalar r -> scalar s ->
  SynthWithSignCount sign credID challenge origin rpID true true count = Ok a ->
  Validate a (MkExpected credID key challenge origin rpID) =
  (pub ← ParseCompressedP256 key;
   if ecdsa_verify pub (Digest (a_AuthenticatorData a) (a_ClientDataJSON a)) r (low_s s)
   then Ok (MkVerified a (be_bytes 32 r ++ be_bytes 32 (low_s s))
              (MkClientData "webauthn.get" (EncodeChallenge challenge) origin (Some false)) count)
   else Err (Errorf "es256 signature invalid")).
Proof.
  intros Ho Hl Hc Hk Hn Hsign Hr Hs H. unfold SynthWithSignCount in H. rewrite Hsign in H. injection H as <-.
  unfold Validate. cbn [a_CredentialID a_ClientDataJSON a_AuthenticatorData a_DERSignature x_CredentialID x_WebAuthnP256 x_Challenge x_Origin x_RPID].
  destruct (synth_auth_data rpID count Hn) as (Hla & Hrp & Hf & Hsc).
  rewrite Hk, Hc, (synth_client_data challenge origin Ho), Hrp. unfold beqb, seqb.
  rewrite (proj2 (Z.ltb_ge _ 37)) by (rewrite Hla; lia). pose proof (synth_length challenge origin Hc).
  rewrite (proj2 (Z.eqb_neq (zlen (synthClientData challenge origin)) 0)), (proj2 (Z.ltb_ge maxClientDataJSON (zlen (synthClientData challenge origin)))) by lia.
  rewrite !bool_decide_eq_true_2 by done. step. rewrite !bool_decide_eq_true_2 by done. step.
  rewrite challenge_round_trip. step. rewrite bool_decide_eq_true_2 by done. step. rewrite Hf. step.
  change (has_flag 5 flagUP) with true. change (has_flag 5 flagUV) with true. step.
  rewrite (proj2 (CompactLowS_Ok _ _) (ex_intro _ r (ex_intro _ s (conj (unmarshal_marshal r s Hr Hs) (conj Hr (conj Hs eq_refl)))))). step.
  destruct (ParseCompressedP256 key) as [pub|e]; [step|done]. rewrite VerifyES256_compact, Hsc by done.
  by destruct (ecdsa_verify _ _ _ _).
Qed.

Definition example_sign : bytes -> result (Z * Z) := fun _ => Ok (1, 2).
Definition example_challenge : bytes := replicate 32 x07.
Definition example_passkey : bytes := replicate 33 x02.
Definition example_assertion : Assertion :=
  MkAssertion [x01] (synthClientData example_challenge "https://vault.example") (synthAuthenticatorData "vault.example" true true 7) (marshalECDSA 1 2).

Lemma example_plain : plain_string "https://vault.example".
Proof. by apply plain_word_plain. Qed.

Lemma synth_assertion_validates_witness :
  Validate example_assertion (MkExpected [x01] example_passkey example_challenge "https://vault.example" "vault.example") =
  (pub ← ParseCompressedP256 example_passkey;
   if ecdsa_verify pub (Digest (a_AuthenticatorData example_assertion) (a_ClientDataJSON example_assertion)) 1 (low_s 2)
   then Ok (MkVerified example_assertion (be_bytes 32 1 ++ be_bytes 32 (low_s 2))
              (MkClientData "webauthn.get" (EncodeChallenge example_challenge) "https://vault.example" (Some false)) 7)
   else Err (Errorf "es256 signature invalid")).
Proof.
  apply (synth_assertion_validates example_sign [x01] example_passkey example_challenge "https://vault.example" "vault.example" 7 1 2 example_assertion
    example_plain); [discriminate|reflexivity|reflexivity|split; [discriminate|reflexivity]|reflexivity|split; reflexivity|split; reflexivity|reflexivity].
Defined.

(** ** The compressed key *)

Lemma powm_range m b e : 0 < m -> 0 <= powm m b e < m.
Proof. intros Hm. destruct e as [|e|]; [|rewrite powm_words; destruct e|]; simpl; apply Z.mod_pos_bound; lia. Qed.

Lemma p256_p_bits : 0 < p256_p < 256 ^ 32 /\ Z.odd p256_p = true.
Proof. by vm_compute. Qed.

Lemma ParseCompressedP256_Ok key x y : ParseCompressedP256 key = Ok (x, y) -> 0 < y ->
  compress (be_bytes 32 x) (be_bytes 32 y) = key /\ on_curve x y = true.
Proof.
  unfold ParseCompressedP256. intros ([] & Hl%require_Ok & ([] & Hp%require_Ok & H)%bind_Ok)%bind_Ok Hy.
  destruct (UnmarshalCompressed key) as [[x0 y0]|] eqn:EU; [|done]. destruct p256_p_bits as [Hp1 Hp2].
  destruct key as [|prefix xs]; [done|]. unfold UnmarshalCompressed in EU. destruct (negb _ || _ || _) eqn:EG; [done|].
  apply orb_false_iff in EG as [[EG1 EG2]%orb_false_iff EG3]. apply negb_false_iff, Z.eqb_eq in EG1. apply negb_false_iff, Z.ltb_lt in EG3.
  destruct (_ =? curve_rhs _); [|done].
  assert (Hroot : 0 <= sqrtm p256_p (curve_rhs (be_val xs)) < p256_p) by (apply powm_range; lia).
  revert EU Hroot. generalize (sqrtm p256_p (curve_rhs (be_val xs))). intros root EU Hroot.
  injection EU as EX EY. subst x0. pose proof (be_val_range xs) as Hx. rewrite EG1 in Hx.
  assert (Ry : 0 <= y0 < p256_p) by (subst y0; destruct (eqb _ _); [done|apply Z.mod_pos_bound; lia]).
  unfold ParseUncompressedPublicKey, uncompressed in H.
  rewrite take_app_exact, drop_app_exact, !be_val_be_bytes_small in H by (apply length_be_bytes || (change (Z.of_nat 32) with 32; lia)).
  rewrite zlen_app in H. unfold zlen at 1 2 in H. rewrite !length_be_bytes in H. cbn [Z.of_nat] in H.
  destruct (on_curve _ _) eqn:EC; [|by rewrite andb_false_r in H]. destruct (_ =? 64); [|done]. injection H as <- <-. split; [|done].
  unfold compress. rewrite be_val_be_bytes_small by (change (Z.of_nat 32) with 32; lia).
  rewrite be_bytes_val by (unfold zlen in EG1; lia). f_equal.
  assert (Hodd : Z.odd y0 = Z.odd (Z_of_byte prefix)).
  { subst y0. destruct (eqb (Z.odd root) (Z.odd (Z_of_byte prefix))) eqn:Eo; [by apply eqb_prop in Eo|].
    destruct (Z.eq_dec root 0) as [E0|]; [rewrite E0, Z.sub_0_r, Z_mod_same_full in Hy; lia|].
    rewrite Z.mod_small, Z.odd_sub, Hp2 by lia. by destruct (Z.odd root), (Z.odd (Z_of_byte prefix)). }
  rewrite Hodd. apply orb_true_iff in Hp as [Hp|Hp]; apply beqb_true in Hp; injection Hp as ->; reflexivity.
Qed.

(** ** COSE keys and attestation objects as CBOR values *)

Definition cose_value (x y : bytes) : cborValue :=
  cborMap [(cborInt 1, cborInt coseKtyEC2); (cborInt 3, cborInt coseAlgES256); (cborInt (-1), cborInt coseCrvP256);
           (cborInt (-2), cborBytes x); (cborInt (-3), cborBytes y)].

Definition attestation_value (authData : bytes) : cborValue :=
  cborMap [(cborText "fmt", cborText "none"); (cborText "authData", cborBytes authData); (cborText "attStmt", cborMap [])].

(** Distinct literal keys. *)
Ltac distinct_literals :=
  unfold distinct_keys; simpl map;
  repeat (constructor; [let H := fresh in intros H; repeat (apply elem_of_cons in H as [H|H]; [discriminate H|]); by apply not_elem_of_nil in H|]);
  constructor.

Lemma cose_wf x y : zlen x = 32 -> zlen y = 32 -> cbor_wf (cose_value x y).
Proof.
  intros Hx Hy. unfold cose_value. apply cbor_wf_map. split; [done|]. split; [distinct_literals|].
  repeat (constructor; [split_and!; simpl; try done; lia|]). constructor.
Qed.

Lemma attestation_wf authData : zlen authData <= 65535 -> cbor_wf (attestation_value authData).
Proof.
  intros Ha. unfold attestation_value. apply cbor_wf_map. split; [done|]. split; [distinct_literals|].
  assert (W : cbor_wf (cborMap [])) by (apply cbor_wf_map; split_and!; [done|constructor|constructor]).
  repeat (constructor; [split_and!; try done; simpl; unfold slen; try (vm_compute; discriminate); lia|]). constructor.
Qed.

Lemma zlen_head major n : 0 <= n <= 65535 -> 1 <= zlen (head_of major n) <= 3.
Proof. intros Hn. unfold head_of, encodeCBORUnsigned. destruct (n <? 24), (n <? 256); simpl; unfold zlen; simpl; lia. Qed.

Lemma zlen_encode_bytes b : zlen b <= 65535 -> zlen (encodeCBORBytes b) <= 3 + zlen b.
Proof.
  intros Hb. pose proof (zlen_nonneg b). unfold encodeCBORBytes. fold (head_of 2 (zlen b)). rewrite zlen_app.
  pose proof (zlen_head 2 (zlen b)). lia.
Qed.

(** An attestation object of format none carries its authenticator data
    through: what [EncodeNoneAttestationObject] wraps is what
    [ParseAttestationObject] returns. *)
Theorem attestation_round_trip authData : 37 <= zlen authData <= 4000 ->
  ParseAttestationObject (EncodeNoneAttestationObject authData) = Ok authData.
Proof.
  intros Ha. change (EncodeNoneAttestationObject authData) with (encodeCBOR (attestation_value authData)).
  assert (Hz : zlen (encodeCBOR (attestation_value authData)) <= maxCBORBytes).
  { change (encodeCBOR (attestation_value authData)) with
      (([xa3] ++ encodeCBORText "fmt" ++ encodeCBORText "none" ++ encodeCBORText "authData") ++ encodeCBORBytes authData ++
       encodeCBORText "attStmt" ++ encodeCBORMap [] ++ []).
    rewrite !zlen_app. pose proof (zlen_encode_bytes authData ltac:(lia)).
    change (zlen [xa3]) with 1. change (zlen (encodeCBORText "fmt")) with 4. change (zlen (encodeCBORText "none")) with 5.
    change (zlen (encodeCBORText "authData")) with 9. change (zlen (encodeCBORText "attStmt")) with 8. change (zlen (encodeCBORMap [])) with 1.
    change (zlen (@nil byte)) with 0. unfold maxCBORBytes. lia. }
  pose proof (decodeCBOR_encode (attestation_value authData) [] (attestation_wf authData ltac:(lia))) as H. rewrite app_nil_r in H.
  unfold ParseAttestationObject. rewrite (H Hz). cbn [wrap mbind result_bind].
  change (mapText (attestation_value authData) "fmt") with (Some (cborText "none")).
  change (mapText (attestation_value authData) "authData") with (Some (cborBytes authData)).
  cbv iota. rewrite (proj2 (Z.ltb_ge (zlen authData) 37)) by lia. reflexivity.
Qed.

Lemma attestation_round_trip_witness : ParseAttestationObject (EncodeNoneAttestationObject (replicate 40 x01)) = Ok (replicate 40 x01).
Proof. apply (attestation_round_trip (replicate 40 x01)). split; discriminate. Defined.

(** ** Attested credentials *)

Lemma parse_cose key x y rest : ParseCompressedP256 key = Ok (x, y) -> 0 < y -> zlen rest <= 4000 ->
  parseCOSEES256 (encodeCBOR (cose_value (be_bytes 32 x) (be_bytes 32 y)) ++ rest) = Ok (key, rest).
Proof.
  intros Hk Hy Hr. destruct (ParseCompressedP256_Ok key x y Hk Hy) as [Hc Ho].
  assert (Lx : forall z, zlen (be_bytes 32 z) = 32) by (intros; unfold zlen; by rewrite length_be_bytes).
  assert (Hz : zlen (encodeCBOR (cose_value (be_bytes 32 x) (be_bytes 32 y)) ++ rest) <= maxCBORBytes).
  { change (encodeCBOR (cose_value (be_bytes 32 x) (be_bytes 32 y))) with
      ([xa5; x01; x02; x03; x26; x20; x01; x21] ++ encodeCBORBytes (be_bytes 32 x) ++ [x22] ++ encodeCBORBytes (be_bytes 32 y) ++ []).
    rewrite !zlen_app. pose proof (zlen_encode_bytes (be_bytes 32 x)). pose proof (zlen_encode_bytes (be_bytes 32 y)). rewrite !Lx in *.
    change (zlen [xa5; x01; x02; x03; x26; x20; x01; x21]) with 8. change (zlen [x22]) with 1. change (zlen (@nil byte)) with 0.
    unfold maxCBORBytes. lia. }
  unfold parseCOSEES256. rewrite (decodeCBOR_encode _ rest (cose_wf _ _ (Lx x) (Lx y)) Hz). cbn [wrap mbind result_bind].
  unfold cose_value. cbn [mapInt List.find fst snd option_fmap option_map Z.eqb Pos.eqb fmap cose_int require mbind result_bind cose_bytes32].
  rewrite !Lx. change (32 =? 32) with true. cbn [require mbind result_bind].
  change (coseKtyEC2 =? coseKtyEC2) with true. change (coseAlgES256 =? coseAlgES256) with true. change (coseCrvP256 =? coseCrvP256) with true.
  cbn [require mbind result_bind]. unfold compressedP256XY. rewrite !Lx. change (32 =? 32) with true. cbn [negb orb require mbind result_bind].
  unfold ParseUncompressedPublicKey. pose proof p256_p_bits as [Hp _]. pose proof Ho as Ho'. unfold on_curve in Ho'. bool_prop.
  rewrite zlen_app, !Lx, take_app_exact, drop_app_exact, !be_val_be_bytes_small by (apply length_be_bytes || (change (Z.of_nat 32) with 32; lia)).
  rewrite Ho. change (64 =? 64) with true. cbn [andb]. cbv iota. rewrite Hc, Hk. reflexivity.
Qed.

(** Extension data a ceremony may append: nothing, or one non-empty map. *)
Definition extension_data (ext : bytes) : Prop :=
  ext = [] \/ exists p ps, cbor_wf (cborMap (p :: ps)) /\ ext = encodeCBOR (cborMap (p :: ps)).

Lemma EncodeCOSE_Ok key cose : EncodeCOSEES256 key = Ok cose ->
  exists x y, ParseCompressedP256 key = Ok (x, y) /\ cose = encodeCBOR (cose_value (be_bytes 32 x) (be_bytes 32 y)).
Proof. unfold EncodeCOSEES256. intros ([x y] & H & [= <-])%bind_Ok. by exists x, y. Qed.

Lemma zlen_pos {A} (l : list A) : l <> [] -> 0 < zlen l.
Proof. destruct l; [done|]. unfold zlen. simpl. lia. Qed.

(** The parts of attested authenticator data, at their offsets. *)
Lemma attested_layout h f zeros aaguid len cred tail :
  length h = 32%nat -> length zeros = 4%nat -> length aaguid = 16%nat -> length len = 2%nat -> be_val len = zlen cred ->
  let auth := h ++ [f] ++ zeros ++ aaguid ++ len ++ cred ++ tail in
  zlen auth = 55 + zlen cred + zlen tail /\ auth_flags auth = Z_of_byte f /\ be_val (take 2 (drop 53 auth)) = zlen cred /\
  take (Z.to_nat (zlen cred)) (drop 55 auth) = cred /\ drop (Z.to_nat (zlen cred)) (drop 55 auth) = tail.
Proof.
  intros Hh Hz Ha Hl Hv auth.
  assert (D53 : drop 53 auth = len ++ cred ++ tail).
  { assert (E : auth = (h ++ [f] ++ zeros ++ aaguid) ++ len ++ cred ++ tail) by (unfold auth; by rewrite <-!app_assoc).
    rewrite E. apply drop_app_exact. by rewrite !length_app, Hh, Hz, Ha. }
  assert (D55 : drop 55 auth = cred ++ tail).
  { change 55%nat with (53 + 2)%nat. rewrite <-drop_drop, D53. by apply drop_app_exact. }
  split_and!.
  - unfold auth, zlen. rewrite !length_app, Hh, Hz, Ha, Hl. simpl. lia.
  - by apply auth_flags_at.
  - by rewrite D53, take_app_exact.
  - rewrite D55. unfold zlen. rewrite Nat2Z.id. apply take_app_length.
  - rewrite D55. unfold zlen. rewrite Nat2Z.id. apply drop_app_length.
Qed.

Lemma check_extensions_data auth ext : zlen ext <= 4000 -> extension_data ext ->
  has_flag (auth_flags auth) flagED = (0 <? zlen ext) -> check_extensions auth ext = Ok tt.
Proof.
  intros Hz [->|(p & ps & W & ->)] Hf; unfold check_extensions; rewrite Hf; [done|].
  assert (0 < zlen (encodeCBOR (cborMap (p :: ps)))) by apply zlen_pos, encode_nonempty.
  rewrite (proj2 (Z.ltb_lt 0 _)), (proj2 (Z.eqb_neq _ 0)) by lia. cbn [negb require mbind result_bind].
  pose proof (decodeCBOR_encode (cborMap (p :: ps)) [] W) as H1. rewrite app_nil_r in H1.
  rewrite H1 by (unfold maxCBORBytes; lia). reflexivity.
Qed.

Lemma extract_attested rpID cred key x y ext auth :
  ParseCompressedP256 key = Ok (x, y) -> 0 < y -> extension_data ext -> zlen ext <= 2000 ->
  attestedAuthenticatorData rpID cred key ext = Ok auth -> extractAttestedCredential auth = Ok (MkCreateResult cred key).
Proof.
  intros Hk Hy He Hz H. unfold attestedAuthenticatorData in H.
  apply bind_Ok in H as (cose & (x' & y' & Hk' & ->)%EncodeCOSE_Ok & H). rewrite Hk in Hk'. injection Hk' as <- <-.
  apply bind_Ok in H as ([] & Hc%require_Ok & <-%Ok_inj). bool_prop. pose proof (zlen_nonneg cred).
  set (cose := encodeCBOR (cose_value (be_bytes 32 x) (be_bytes 32 y))).
  set (f := byte_of_Z (if 0 <? zlen ext then _ else _)).
  destruct (attested_layout (sha256 (bytes_of rpID)) f [x00; x00; x00; x00] (replicate 16 x00) (be_bytes 2 (zlen cred)) cred (cose ++ ext))
    as (L1 & L2 & L3 & L4 & L5); [apply length_sha256|done|done|apply length_be_bytes|apply be_val_be_bytes_small; change (256 ^ Z.of_nat 2) with 65536; lia|].
  cbv zeta in L1, L2, L3, L4, L5. unfold extractAttestedCredential. rewrite L1, L3, L4, L5. unfold attested_header.
  pose proof (zlen_nonneg (cose ++ ext)). assert (0 < zlen cose) by apply zlen_pos, encode_nonempty.
  rewrite (proj2 (Z.ltb_ge _ _)), (proj2 (Z.eqb_neq (zlen cred) 0)), (proj2 (Z.leb_gt _ _)) by (rewrite ?zlen_app; pose proof (zlen_nonneg ext); lia).
  cbn [negb orb require mbind result_bind]. pose proof (parse_cose key x y ext Hk Hy ltac:(lia)) as HP. fold cose in HP. rewrite HP. cbn [mbind result_bind].
  rewrite check_extensions_data; [done|lia|done|]. rewrite L2. unfold f. by destruct (0 <? zlen ext).
Qed.

(** Registration data round-trips: the credential id and the key that attested
    authenticator data is built from are the ones extracted from it, with or
    without extension data. *)
Theorem attested_credential_round_trip rpID cred key x y ext auth :
  ParseCompressedP256 key = Ok (x, y) -> 0 < y -> extension_data ext -> zlen ext <= 2000 ->
  attestedAuthenticatorData rpID cred key ext = Ok auth -> extractAttestedCredential auth = Ok (MkCreateResult cred key).
Proof. apply extract_attested. Qed.

(** A point of the curve with ordinate 1. *)
Definition example_abscissa : Z := 0x6916fac45e568b6b9e2e2ecd611b282e5fcc40a3067d601057f879ce5a8a73cc.
Definition example_key : bytes := x03 :: be_bytes 32 example_abscissa.

Lemma example_key_parses : ParseCompressedP256 example_key = Ok (example_abscissa, 1).
Proof. vm_compute. reflexivity. Qed.

Lemma prf_extension_data : extension_data prf_extensions.
Proof.
  right. exists (cborText "hmac-secret", cborBool true), [(cborText "prf", cborMap [(cborText "enabled", cborBool true)])].
  split; [|reflexivity]. apply cbor_wf_map. split; [done|]. split; [distinct_literals|].
  assert (W : cbor_wf (cborMap [(cborText "enabled", cborBool true)])).
  { apply cbor_wf_map. split; [done|]. split; [distinct_literals|]. repeat (constructor; [split_and!; by vm_compute|]). constructor. }
  constructor; [split_and!; by vm_compute|]. constructor; [|constructor]. split_and!; [done|by vm_compute|exact W].
Qed.

Lemma example_attested : exists auth, AttestedAuthenticatorDataPRF "vault.example" [x01; x02] example_key = Ok auth.
Proof.
  unfold AttestedAuthenticatorDataPRF, attestedAuthenticatorData, EncodeCOSEES256. rewrite example_key_parses. eexists. reflexivity.
Qed.

Lemma attested_credential_round_trip_witness :
  exists auth, AttestedAuthenticatorDataPRF "vault.example" [x01; x02] example_key = Ok auth /\
    extractAttestedCredential auth = Ok (MkCreateResult [x01; x02] example_key).
Proof.
  destruct example_attested as [auth H]. exists auth. split; [exact H|].
  exact (attested_credential_round_trip "vault.example" [x01; x02] example_key example_abscissa 1 prf_extensions auth
    example_key_parses eq_refl prf_extension_data (proj1 (Z.leb_le (zlen prf_extensions) 2000) eq_refl) H).
Defined.

Lemma cose_bytes32_Ok v e b : cose_bytes32 v e = Ok b <-> v = Some (cborBytes b) /\ zlen b = 32.
Proof.
  unfold cose_bytes32. split.
  - destruct v as [[]|]; try done. intros ([] & H%require_Ok & [= <-])%bind_Ok. by apply Z.eqb_eq in H.
  - intros [-> Hb]. by rewrite Hb.
Qed.

Lemma cose_int_Ok v want e u : cose_int v want e = Ok u <-> v = Some (cborInt want).
Proof.
  unfold cose_int. destruct u. split; [destruct v as [[]|]; try done; intros H%require_Ok; by apply Z.eqb_eq in H as ->|].
  intros ->. by rewrite Z.eqb_refl.
Qed.

(** What a COSE key that is accepted says. *)
Definition cose_key (v : cborValue) (key : bytes) : Prop :=
  mapInt v 1 = Some (cborInt coseKtyEC2) /\ mapInt v 3 = Some (cborInt coseAlgES256) /\ mapInt v (-1) = Some (cborInt coseCrvP256) /\
  exists x y, mapInt v (-2) = Some (cborBytes x) /\ mapInt v (-3) = Some (cborBytes y) /\ zlen x = 32 /\ zlen y = 32 /\
    on_curve (be_val x) (be_val y) = true /\ key = compress x y.

Lemma parseCOSE_Ok raw key rest : parseCOSEES256 raw = Ok (key, rest) -> exists v, cose_key v key /\ raw = encodeCBOR v ++ rest.
Proof.
  unfold parseCOSEES256. intros ([v r] & (_ & _ & ->)%wrap_Ok%decodeCBOR_sound & H)%bind_Ok. exists v. inv_ok.
  repeat match goal with H : cose_int _ _ _ = Ok _ |- _ => apply cose_int_Ok in H | H : cose_bytes32 _ _ = Ok _ |- _ => apply cose_bytes32_Ok in H as [? ?] end.
  match goal with H : compressedP256XY ?x ?y = Ok _ |- _ => rename H into HC end. unfold compressedP256XY in HC.
  apply bind_Ok in HC as ([] & _ & HC). destruct (ParseUncompressedPublicKey _) as [pt|] eqn:EP; [|done].
  apply bind_Ok in HC as (? & _ & <-%Ok_inj). injection H as <- <-. split; [|done]. unfold cose_key. split_and!; try done.
  eexists _, _. split_and!; try done. unfold ParseUncompressedPublicKey in EP.
  rewrite take_app_exact, drop_app_exact in EP by (unfold zlen in *; lia).
  destruct (on_curve _ _); [done|by rewrite andb_false_r in EP].
Qed.

(** Registration accounts for every byte: accepted authenticator data is a
    53-byte header, the length and the non-empty id of the credential, the one
    encoding of an EC2 / ES256 / P-256 key on the curve, and then one non-empty map
    of extensions if bit 7 of the flags is set and nothing if it is not. *)
Theorem attested_data_exact auth res : extractAttestedCredential auth = Ok res ->
  exists header cose ext,
    auth = header ++ be_bytes 2 (zlen (cr_CredentialID res)) ++ cr_CredentialID res ++ encodeCBOR cose ++ ext /\
    length header = 53%nat /\ 0 < zlen (cr_CredentialID res) /\ cose_key cose (cr_WebAuthnP256 res) /\
    if Z.testbit (auth_flags auth) 7 then exists p ps, ext = encodeCBOR (cborMap (p :: ps)) else ext = [].
Proof.
  unfold extractAttestedCredential, check_extensions. rewrite <-has_flag_bit by lia. change (2 ^ 7) with flagED. intros H.
  apply bind_Ok in H as ([] & Hl%require_Ok & ([] & Hc%require_Ok & ([key rest] & HP & ([] & He & [= <-])%bind_Ok)%bind_Ok)%bind_Ok).
  unfold attested_header, zlen in *. bool_prop. set (n := be_val (take 2 (drop 53 auth))) in *.
  apply parseCOSE_Ok in HP as (v & Hk & Hraw). pose proof (be_val_range (take 2 (drop 53 auth))) as [Hn _]. fold n in Hn.
  assert (L2 : length (take 2 (drop 53 auth)) = 2%nat) by (rewrite length_take, length_drop; lia).
  assert (Ln : length (take (Z.to_nat n) (drop 55 auth)) = Z.to_nat n) by (rewrite length_take, length_drop; lia).
  exists (take 53 auth), v, rest. cbn [cr_CredentialID cr_WebAuthnP256]. rewrite Ln, Z2Nat.id by lia. split_and!.
  - rewrite <-Hraw, (app_assoc (be_bytes 2 n)), <-(app_assoc (be_bytes 2 n)), take_drop. unfold n. rewrite be_bytes_val by done.
    change 55%nat with (53 + 2)%nat. by rewrite <-drop_drop, take_drop, take_drop.
  - rewrite length_take. lia.
  - lia.
  - done.
  - destruct (has_flag _ _).
    + apply bind_Ok in He as ([] & _ & ([ext r] & (_ & _ & ->)%wrap_Ok%decodeCBOR_sound & ([] & Hm%require_Ok & Hr%require_Ok)%bind_Ok)%bind_Ok).
      apply Z.eqb_eq, zlen_nil_inv in Hr as ->. destruct ext as [| | |[|p ps]|]; try done. exists p, ps. by rewrite app_nil_r.
    + apply require_Ok, Z.eqb_eq in He. by apply zlen_nil_inv in He.
Qed.

Lemma attested_data_exact_witness : exists auth, AttestedAuthenticatorDataPRF "vault.example" [x01; x02] example_key = Ok auth /\
  exists header cose ext, auth = header ++ be_bytes 2 2 ++ [x01; x02] ++ encodeCBOR cose ++ ext /\ length header = 53%nat /\ cose_key cose example_key.
Proof.
  destruct example_attested as [auth H]. exists auth. split; [exact H|].
  destruct (attested_data_exact auth (MkCreateResult [x01; x02] example_key)) as (header & cose & ext & E & Hh & _ & Hk & _).
  - exact (extract_attested "vault.example" [x01; x02] example_key example_abscissa 1 prf_extensions auth
      example_key_parses eq_refl prf_extension_data (proj1 (Z.leb_le (zlen prf_extensions) 2000) eq_refl) H).
  - exists header, cose, ext. exact (conj E (conj Hh Hk)).
Defined.
