(* ===== verification/Cosigner.v ===== *)
(** * Per-vault cosigner keys: [src/internal/policy/cosigner.go]

    Three families of secp256k1 scalars are derived from one master by HKDF-SHA256
    with a counter that is advanced until the output is a valid scalar.  The curve
    is a library of its own ([btcec]): public keys are an argument, with the facts
    of [secp256k1] the code relies on as hypotheses of the section that uses them.

    A private key is its scalar; [master = None] is the nil key. *)

From S2P Require Import Prelude Crypto Codec Program Tenant.
From Stdlib Require Import Strings.Byte Strings.Ascii Strings.String.
From stdpp Require Import base decidable list strings option.
From Stdlib Require Import ZArith Lia.
Open Scope string_scope.
Open Scope list_scope.
Open Scope Z_scope.

Definition vaultCosignerHKDFSalt := "arkade-2fa-vault/vault-cosigner/hkdf-sha256-v1".
Definition vaultCosignerHKDFInfo := "vault-cosigner/v1".
Definition vtxoVaultCosignerHKDFSalt := "arkade-2fa-vault/vtxo-vault-cosigner/hkdf-sha256-v1".
Definition vtxoVaultCosignerHKDFInfo := "vtxo-vault-cosigner/v1".
Definition vaultBoardCosignerHKDFSalt := "arkade-vault/vault-board-v1-cosigner/hkdf-sha256-v1".
Definition vaultBoardCosignerHKDFInfo := "vault-board-cosigner/v1".

(** ** The counter loop *)

(** The order of secp256k1. *)
Definition secp256k1_n : Z := 0xfffffffffffffffffffffffffffffffebaaedce6af48a03bbfd25e8cd0364141.

Definition scalarInRange (raw : bytes) : bool :=
  (zlen raw =? 32) && (be_val raw <? secp256k1_n) && negb (be_val raw =? 0).

(** One-block HKDF: extract under the salt, expand [info || 01]. *)
Definition hkdf_okm (salt : string) (master : Z) (info : bytes) : bytes :=
  hmac_sha256 (hmac_sha256 (bytes_of salt) (be_bytes 32 master)) (info ++ [x01]).

(** [for counter := 0; counter <= 255; counter++]: [rounds] rounds are left. *)
Fixpoint first_scalar (rounds : nat) (counter : Z) (okm : Z -> bytes) : option Z :=
  match rounds with
  | O => None
  | S rounds => if scalarInRange (okm counter) then Some (be_val (okm counter)) else first_scalar rounds (counter + 1) okm
  end.

Definition vaultCosignerInfo (vaultID : string) (counter : Z) : bytes :=
  bytes_of vaultCosignerHKDFInfo ++ [x00] ++ bytes_of vaultID ++ [x00; byte_of_Z counter].

Definition vtxoVaultCosignerInfo (vaultID policyVersion network : string) (advertisedServerPub : bytes) (counter : Z) : bytes :=
  bytes_of vtxoVaultCosignerHKDFInfo ++ [x00] ++ bytes_of vaultID ++ [x00] ++ bytes_of policyVersion ++ [x00] ++ bytes_of network ++ [x00] ++
  advertisedServerPub ++ [x00; byte_of_Z counter].

(** Every field is followed by a zero byte. *)
Definition terminated (fields : list bytes) : bytes := concat (map (fun f => f ++ [x00]) fields).

Definition vaultBoardCosignerInfo (vaultID network : string) (operatorPub : bytes) (counter : Z) : bytes :=
  terminated [bytes_of vaultBoardCosignerHKDFInfo; bytes_of vaultID; bytes_of VaultBoardV1; bytes_of network; operatorPub] ++ [byte_of_Z counter].

Definition deriveHKDFVaultCosigner (master : Z) (vaultID : string) : result Z :=
  match first_scalar 256 0 (fun c => hkdf_okm vaultCosignerHKDFSalt master (vaultCosignerInfo vaultID c)) with
  | Some k => Ok k
  | None => Err (Errorf "hkdf-sha256-v1 produced no valid secp256k1 scalar")
  end.

Definition DeriveVaultCosignerScalar (master : option Z) (vaultID mode : string) : result Z :=
  match master with
  | None => Err (Errorf "vault cosigner master required")
  | Some master =>
      require (negb (seqb vaultID "")) (Errorf "vault id required");;
      require (seqb mode CosignerModeHKDFSHA256V1) (Errorf "unknown cosigner mode");;
      deriveHKDFVaultCosigner master vaultID
  end.

Section curve.
(** [PubKey().SerializeCompressed()] of a scalar, and [btcec.ParsePubKey] succeeding. *)
Context (pubkey : Z -> bytes) (ParsePubKey : bytes -> bool).

Definition evenYPrivateKey (priv : Z) : Z :=
  if negb (beqb (take 1 (pubkey priv)) [x03]) then priv else secp256k1_n - priv.

Definition compressed_prefix (pub : bytes) : bool := beqb (take 1 pub) [x02] || beqb (take 1 pub) [x03].

Definition deriveVtxoHKDFVaultCosigner (master : Z) (vaultID policyVersion network : string) (advertisedServerPub : bytes) : result Z :=
  match first_scalar 256 0 (fun c => hkdf_okm vtxoVaultCosignerHKDFSalt master (vtxoVaultCosignerInfo vaultID policyVersion network advertisedServerPub c)) with
  | Some k => Ok (evenYPrivateKey k)
  | None => Err (Errorf "vtxo-hkdf-sha256-v1 produced no valid secp256k1 scalar")
  end.

Definition DeriveVtxoVaultCosignerScalar (master : option Z) (vaultID policyVersion network : string) (advertisedServerPub : bytes) : result Z :=
  match master with
  | None => Err (Errorf "vault cosigner master required")
  | Some master =>
      require (negb (seqb vaultID "")) (Errorf "vault id required");;
      require (negb (seqb policyVersion "")) (Errorf "policy version required");;
      require (seqb network NetworkMutinynet || seqb network NetworkMainnet) (Errorf "unsupported network");;
      require ((zlen advertisedServerPub =? 33) && compressed_prefix advertisedServerPub)
        (Errorf "advertised server pub must be 33-byte compressed secp256k1");;
      require (ParsePubKey advertisedServerPub) (Errorf "advertised server pub must be 33-byte compressed secp256k1");;
      deriveVtxoHKDFVaultCosigner master vaultID policyVersion network advertisedServerPub
  end.

Definition DeriveVaultBoardCosignerScalar (master : option Z) (vaultID network : string) (operatorPub : bytes) : result Z :=
  match master with
  | None => Err (Errorf "vault cosigner master required")
  | Some master =>
      require (negb (seqb vaultID "")) (Errorf "vault id required");;
      match PinsFor network with
      | Err _ => Err (Errorf "vault-board-v1 is not enabled for this network")
      | Ok _ =>
          require ((zlen operatorPub =? 33) && compressed_prefix operatorPub) (Errorf "Operator pub must be compressed secp256k1");;
          require (ParsePubKey operatorPub) (Errorf "Operator pub must be compressed secp256k1");;
          match first_scalar 256 0 (fun c => hkdf_okm vaultBoardCosignerHKDFSalt master (vaultBoardCosignerInfo vaultID network operatorPub c)) with
          | Some k => Ok (evenYPrivateKey k)
          | None => Err (Errorf "vault-board-v1 HKDF produced no valid secp256k1 scalar")
          end
      end
  end.

Definition VerifyVaultCosignerPub (master : option Z) (rec : VaultRecord) : result unit :=
  derived ← DeriveVaultCosignerScalar master (v_VaultID rec) (v_CosignerMode rec);
  require (beqb (pubkey derived) (v_VaultCosignerBase rec)) (Errorf "stored vault cosigner pubkey does not match derivation").
End curve.

(** ** The loop *)

#[local] Opaque hmac_sha256.

Lemma first_scalar_Some rounds : forall counter okm k, first_scalar rounds counter okm = Some k <->
  exists i, 0 <= i < Z.of_nat rounds /\ scalarInRange (okm (counter + i)) = true /\ be_val (okm (counter + i)) = k /\
    forall j, 0 <= j < i -> scalarInRange (okm (counter + j)) = false.
Proof.
  induction rounds as [|rounds IH]; intros counter okm k; cbn [first_scalar]; [split; [done|intros (? & ? & _); lia]|].
  destruct (scalarInRange (okm counter)) eqn:E.
  - split.
    + intros [= <-]. exists 0. rewrite Z.add_0_r. split_and!; [lia|lia|done|done|lia].
    + intros (i & Hi & _ & <- & Hj). destruct (Z.eq_dec i 0) as [->|]; [by rewrite Z.add_0_r|].
      specialize (Hj 0). rewrite Z.add_0_r in Hj. rewrite Hj in E; [done|lia].
  - rewrite IH. split; intros (i & Hi & Hs & Hk & Hj).
    + exists (i + 1). replace (counter + (i + 1)) with (counter + 1 + i) by lia. split_and!; [lia|lia|done|done|].
      intros j Hij. destruct (Z.eq_dec j 0) as [->|]; [by rewrite Z.add_0_r|].
      replace (counter + j) with (counter + 1 + (j - 1)) by lia. apply Hj. lia.
    + destruct (Z.eq_dec i 0) as [->|]; [rewrite Z.add_0_r in Hs; congruence|].
      exists (i - 1). replace (counter + 1 + (i - 1)) with (counter + i) by lia. split_and!; [lia|lia|done|done|].
      intros j Hij. replace (counter + 1 + j) with (counter + (j + 1)) by lia. apply Hj. lia.
Qed.

Lemma first_scalar_None rounds : forall counter okm, first_scalar rounds counter okm = None <->
  forall i, 0 <= i < Z.of_nat rounds -> scalarInRange (okm (counter + i)) = false.
Proof.
  induction rounds as [|rounds IH]; intros counter okm; cbn [first_scalar]; [split; [intros; lia|done]|].
  destruct (scalarInRange (okm counter)) eqn:E.
  - split; [done|]. intros H. specialize (H 0). rewrite Z.add_0_r in H. rewrite H in E; [done|lia].
  - rewrite IH. split; intros H i Hi.
    + destruct (Z.eq_dec i 0) as [->|]; [by rewrite Z.add_0_r|]. replace (counter + i) with (counter + 1 + (i - 1)) by lia. apply H. lia.
    + replace (counter + 1 + i) with (counter + (i + 1)) by lia. apply H. lia.
Qed.

Lemma scalarInRange_true raw : scalarInRange raw = true -> zlen raw = 32 /\ 0 < be_val raw < secp256k1_n.
Proof. unfold scalarInRange. intros H. pose proof (be_val_range raw). bool_prop. lia. Qed.

Lemma first_scalar_range rounds counter okm k : first_scalar rounds counter okm = Some k -> 0 < k < secp256k1_n.
Proof. intros (i & _ & H & <- & _)%first_scalar_Some. by apply scalarInRange_true. Qed.

#[local] Opaque first_scalar.

(** ** The preimages *)

Definition no_nul (b : bytes) : Prop := x00 ∉ b.

(** A field without zero bytes ends at its terminator. *)
Lemma terminated_head a b ra rb : no_nul a -> no_nul b -> a ++ x00 :: ra = b ++ x00 :: rb -> a = b /\ ra = rb.
Proof.
  unfold no_nul. revert b. induction a as [|x a IH]; intros [|y b] Ha Hb H; simpl in *.
  - injection H as ->. done.
  - injection H as <- _. destruct Hb. constructor.
  - injection H as -> _. destruct Ha. constructor.
  - injection H as -> H. apply not_elem_of_cons in Ha as [_ Ha], Hb as [_ Hb]. destruct (IH b Ha Hb H) as [-> ->]. done.
Qed.

Lemma vaultCosignerInfo_inj v1 v2 c1 c2 : vaultCosignerInfo v1 c1 = vaultCosignerInfo v2 c2 -> v1 = v2 /\ byte_of_Z c1 = byte_of_Z c2.
Proof.
  unfold vaultCosignerInfo. intros H. apply app_inv_head, app_inv_head in H.
  assert (E : forall v c, bytes_of v ++ [x00; byte_of_Z c] = (bytes_of v ++ [x00]) ++ [byte_of_Z c]) by (intros; by rewrite <-app_assoc).
  rewrite !E in H. apply app_inj_tail in H as [H ->]. apply app_inj_tail in H as [H _]. by apply bytes_of_inj in H.
Qed.

Lemma hkdf_okm_collision salt m i1 i2 : hkdf_okm salt m i1 = hkdf_okm salt m i2 ->
  i1 = i2 \/ hmac_collision (hmac_sha256 (bytes_of salt) (be_bytes 32 m)) (i1 ++ [x01]) (i2 ++ [x01]).
Proof.
  unfold hkdf_okm. intros H. destruct (decide (i1 = i2)) as [|Hne]; [by left|right].
  split; [|exact H]. clear H. intros [E _]%app_inj_tail. exact (Hne E).
Qed.

Lemma DeriveVault_Ok m v mode k : DeriveVaultCosignerScalar (Some m) v mode = Ok k <->
  v <> "" /\ mode = CosignerModeHKDFSHA256V1 /\
  first_scalar 256 0 (fun c => hkdf_okm vaultCosignerHKDFSalt m (vaultCosignerInfo v c)) = Some k.
Proof.
  unfold DeriveVaultCosignerScalar, deriveHKDFVaultCosigner. destruct (first_scalar _ _ _) as [k'|].
  - split.
    + intros ([] & Hv%require_Ok & ([] & Hm%require_Ok & [= <-])%bind_Ok)%bind_Ok.
      apply negb_true_iff, seqb_false in Hv. by apply seqb_true in Hm.
    + intros (Hv & -> & [= <-]). by rewrite (seqb_neq _ _ Hv), seqb_refl.
  - split; [|by intros (_ & _ & ?)]. intros H. by inv_ok.
Qed.

(** ** Theorems *)

(** The derivation loop ends with the right key: for a vault id and the known
    mode the key is the first of the 256 HKDF outputs that is a scalar in 1..n-1,
    and the call fails only when none of them is. *)
Theorem derivation_first_valid m v : v <> "" ->
  let okm c := hkdf_okm vaultCosignerHKDFSalt m (vaultCosignerInfo v c) in
  match DeriveVaultCosignerScalar (Some m) v CosignerModeHKDFSHA256V1 with
  | Ok k => 0 < k < secp256k1_n /\ exists c, 0 <= c <= 255 /\ scalarInRange (okm c) = true /\ k = be_val (okm c) /\
              forall c', 0 <= c' < c -> scalarInRange (okm c') = false
  | Err _ => forall c, 0 <= c <= 255 -> scalarInRange (okm c) = false
  end.
Proof.
  intros Hv okm. destruct (DeriveVaultCosignerScalar (Some m) v CosignerModeHKDFSHA256V1) as [k|e] eqn:E.
  - apply DeriveVault_Ok in E as (_ & _ & E). split; [by eapply first_scalar_range|].
    apply first_scalar_Some in E as (i & Hi & Hs & Hk & Hj). exists i. split_and!; [lia|lia|done|done|exact Hj].
  - intros c Hc. assert (EN : first_scalar 256 0 okm = None).
    { destruct (first_scalar 256 0 okm) as [k|] eqn:EF; [|done].
      assert (H : DeriveVaultCosignerScalar (Some m) v CosignerModeHKDFSHA256V1 = Ok k) by (apply DeriveVault_Ok; exact (conj Hv (conj eq_refl EF))).
      rewrite H in E. discriminate E. }
    rewrite first_scalar_None in EN. apply (EN c). lia.
Qed.

(** Vaults do not share a Savings cosigner: if two vault ids derive the same
    scalar from one master they are the same id, or the two derivations' inputs, at
    the counters that gave the scalars, are an HMAC collision under the extracted
    key. *)
Theorem vault_cosigners_distinct m v1 v2 mode1 mode2 k :
  DeriveVaultCosignerScalar (Some m) v1 mode1 = Ok k -> DeriveVaultCosignerScalar (Some m) v2 mode2 = Ok k ->
  v1 = v2 \/ exists c1 c2, hmac_collision (hmac_sha256 (bytes_of vaultCosignerHKDFSalt) (be_bytes 32 m))
    (vaultCosignerInfo v1 c1 ++ [x01]) (vaultCosignerInfo v2 c2 ++ [x01]).
Proof.
  intros (_ & _ & (i1 & _ & [L1 _]%scalarInRange_true & E1 & _)%first_scalar_Some)%DeriveVault_Ok
    (_ & _ & (i2 & _ & [L2 _]%scalarInRange_true & E2 & _)%first_scalar_Some)%DeriveVault_Ok.
  rewrite <-E2 in E1. unfold zlen in *. apply (f_equal (be_bytes 32)) in E1. rewrite !be_bytes_val in E1 by lia.
  apply hkdf_okm_collision in E1 as [E1|]; [left|right; by eexists _, _]. by apply vaultCosignerInfo_inj in E1 as [? _].
Qed.

Lemma vtxoVaultCosignerInfo_inj v1 v2 p1 p2 n1 n2 s1 s2 c1 c2 :
  no_nul (bytes_of v1) -> no_nul (bytes_of v2) -> no_nul (bytes_of p1) -> no_nul (bytes_of p2) ->
  no_nul (bytes_of n1) -> no_nul (bytes_of n2) ->
  vtxoVaultCosignerInfo v1 p1 n1 s1 c1 = vtxoVaultCosignerInfo v2 p2 n2 s2 c2 -> v1 = v2 /\ p1 = p2 /\ n1 = n2 /\ s1 = s2.
Proof.
  intros Hv1 Hv2 Hp1 Hp2 Hn1 Hn2 H. unfold vtxoVaultCosignerInfo in H. apply app_inv_head, app_inv_head in H. cbn [app] in H.
  apply terminated_head in H as [->%bytes_of_inj H]; [|done..]. apply terminated_head in H as [->%bytes_of_inj H]; [|done..].
  apply terminated_head in H as [->%bytes_of_inj H]; [|done..].
  assert (E : forall s c, s ++ [x00; byte_of_Z c] = (s ++ [x00]) ++ [byte_of_Z c]) by (intros; by rewrite <-app_assoc).
  rewrite !E in H. apply app_inj_tail in H as [H _]. by apply app_inj_tail in H as [-> _].
Qed.

(** The VTXO derivation binds its context: distinct (vault id, policy version,
    network, server key) tuples have distinct HKDF inputs at every counter, so equal
    HKDF outputs mean the same tuple or an HMAC collision of those two inputs.  The text fields are
    those without zero bytes. *)
Theorem vtxo_cosigner_context_bound m v1 v2 p1 p2 n1 n2 s1 s2 c1 c2 :
  no_nul (bytes_of v1) -> no_nul (bytes_of v2) -> no_nul (bytes_of p1) -> no_nul (bytes_of p2) ->
  no_nul (bytes_of n1) -> no_nul (bytes_of n2) ->
  hkdf_okm vtxoVaultCosignerHKDFSalt m (vtxoVaultCosignerInfo v1 p1 n1 s1 c1) =
  hkdf_okm vtxoVaultCosignerHKDFSalt m (vtxoVaultCosignerInfo v2 p2 n2 s2 c2) ->
  (v1 = v2 /\ p1 = p2 /\ n1 = n2 /\ s1 = s2) \/
  hmac_collision (hmac_sha256 (bytes_of vtxoVaultCosignerHKDFSalt) (be_bytes 32 m))
    (vtxoVaultCosignerInfo v1 p1 n1 s1 c1 ++ [x01]) (vtxoVaultCosignerInfo v2 p2 n2 s2 c2 ++ [x01]).
Proof.
  intros Hv1 Hv2 Hp1 Hp2 Hn1 Hn2 [E|E]%hkdf_okm_collision; [left|by right]. by eapply vtxoVaultCosignerInfo_inj.
Qed.

Section parity.
Context (pubkey : Z -> bytes) (ParsePubKey : bytes -> bool).
(** A compressed point starts with its parity, and the negated scalar has the other one. *)
Hypothesis pubkey_prefix : forall d, 0 < d < secp256k1_n -> compressed_prefix (pubkey d) = true.
Hypothesis pubkey_negate : forall d, 0 < d < secp256k1_n -> take 1 (pubkey d) = [x03] -> take 1 (pubkey (secp256k1_n - d)) = [x02].

Lemma evenY_even k : 0 < k < secp256k1_n ->
  0 < evenYPrivateKey pubkey k < secp256k1_n /\ take 1 (pubkey (evenYPrivateKey pubkey k)) = [x02].
Proof using pubkey_prefix pubkey_negate.
  intros Hk. unfold evenYPrivateKey. destruct (beqb (take 1 (pubkey k)) [x03]) eqn:E; cbn [negb].
  - apply beqb_true in E. split; [lia|by apply pubkey_negate].
  - split; [done|]. pose proof (pubkey_prefix k Hk) as H. unfold compressed_prefix in H. rewrite E, orb_false_r in H. by apply beqb_true in H.
Qed.

(** [C25] The VTXO and the boarding cosigner are always valid scalars whose public
    point has an even ordinate, as x-only keys require. *)
Theorem cosigners_even_y m v p n s k :
  DeriveVtxoVaultCosignerScalar pubkey ParsePubKey m v p n s = Ok k \/ DeriveVaultBoardCosignerScalar pubkey ParsePubKey m v n s = Ok k ->
  0 < k < secp256k1_n /\ take 1 (pubkey k) = [x02].
Proof using pubkey_prefix pubkey_negate.
  intros [H|H]; (destruct m as [m|]; [|done]).
  - unfold DeriveVtxoVaultCosignerScalar, deriveVtxoHKDFVaultCosigner in H.
    do 5 (apply bind_Ok in H as ([] & _ & H)). destruct (first_scalar _ _ _) as [k0|] eqn:E; [|done]. apply first_scalar_range in E.
    injection H as <-. by apply evenY_even.
  - unfold DeriveVaultBoardCosignerScalar in H. apply bind_Ok in H as ([] & _ & H). destruct (PinsFor n); [|done].
    do 2 (apply bind_Ok in H as ([] & _ & H)). destruct (first_scalar _ _ _) as [k0|] eqn:E; [|done]. apply first_scalar_range in E.
    injection H as <-. by apply evenY_even.
Qed.
End parity.

(** ** Witnesses *)

(** Any map from scalars to 33 bytes with opposite prefixes for opposite scalars. *)
Definition example_pubkey (d : Z) : bytes := (if 2 * d <? secp256k1_n then x02 else x03) :: be_bytes 32 d.
Definition example_parse (b : bytes) : bool := zlen b =? 33.

Lemma example_prefix d : 0 < d < secp256k1_n -> compressed_prefix (example_pubkey d) = true.
Proof. intros _. unfold compressed_prefix, example_pubkey. by destruct (2 * d <? secp256k1_n). Qed.

Lemma example_negate d : 0 < d < secp256k1_n -> take 1 (example_pubkey d) = [x03] -> take 1 (example_pubkey (secp256k1_n - d)) = [x02].
Proof.
  intros Hd. unfold example_pubkey. destruct (Z.ltb_spec (2 * d) secp256k1_n); [done|]. intros _.
  assert (Hn : Z.odd secp256k1_n = true) by reflexivity.
  rewrite (proj2 (Z.ltb_lt (2 * (secp256k1_n - d)) secp256k1_n)); [done|].
  assert (2 * d <> secp256k1_n) by (intros E; rewrite <-E, Z.odd_mul in Hn; done). lia.
Qed.

Lemma example_derived : exists k, DeriveVaultCosignerScalar (Some 1) "vault-a" CosignerModeHKDFSHA256V1 = Ok k.
Proof.
  assert (H : match DeriveVaultCosignerScalar (Some 1) "vault-a" CosignerModeHKDFSHA256V1 with Ok _ => true | _ => false end = true)
    by (vm_compute; reflexivity).
  destruct (DeriveVaultCosignerScalar (Some 1) "vault-a" CosignerModeHKDFSHA256V1) as [k|e]; [by exists k|discriminate H].
Qed.

Lemma example_board_derived : exists k,
  DeriveVaultBoardCosignerScalar example_pubkey example_parse (Some 1) "vault-a" NetworkMutinynet (x02 :: replicate 32 x01) = Ok k.
Proof.
  assert (H : match DeriveVaultBoardCosignerScalar example_pubkey example_parse (Some 1) "vault-a" NetworkMutinynet (x02 :: replicate 32 x01) with
              Ok _ => true | _ => false end = true) by (vm_compute; reflexivity).
  destruct (DeriveVaultBoardCosignerScalar example_pubkey example_parse (Some 1) "vault-a" NetworkMutinynet (x02 :: replicate 32 x01)) as [k|e];
    [by exists k|discriminate H].
Qed.

Lemma derivation_first_valid_witness :
  match DeriveVaultCosignerScalar (Some 1) "vault-a" CosignerModeHKDFSHA256V1 with
  | Ok k => 0 < k < secp256k1_n
  | Err _ => scalarInRange (hkdf_okm vaultCosignerHKDFSalt 1 (vaultCosignerInfo "vault-a" 0)) = false
  end.
Proof.
  pose proof (derivation_first_valid 1 "vault-a" ltac:(discriminate)) as H. cbv zeta in H.
  destruct (DeriveVaultCosignerScalar (Some 1) "vault-a" CosignerModeHKDFSHA256V1) as [k|e]; [exact (proj1 H)|].
  apply H. lia.
Defined.

Lemma vault_cosigners_distinct_witness : exists k, DeriveVaultCosignerScalar (Some 1) "vault-a" CosignerModeHKDFSHA256V1 = Ok k /\
  ("vault-a" = "vault-a" \/ exists c1 c2, hmac_collision (hmac_sha256 (bytes_of vaultCosignerHKDFSalt) (be_bytes 32 1))
    (vaultCosignerInfo "vault-a" c1 ++ [x01]) (vaultCosignerInfo "vault-a" c2 ++ [x01])).
Proof.
  destruct example_derived as [k H]. exists k. split; [exact H|].
  exact (vault_cosigners_distinct 1 "vault-a" "vault-a" CosignerModeHKDFSHA256V1 CosignerModeHKDFSHA256V1 k H H).
Defined.

Lemma example_no_nul s : forallb (fun b => negb (beqb [b] [x00])) (bytes_of s) = true -> no_nul (bytes_of s).
Proof. unfold no_nul. rewrite forallb_forall. intros H Hin. specialize (H x00). by apply list_elem_of_In, H in Hin. Qed.

Lemma vtxo_cosigner_context_bound_witness :
  ("vault-a" = "vault-a" /\ "vault-policy-v1" = "vault-policy-v1" /\ NetworkMutinynet = NetworkMutinynet /\ [x02] = [x02]) \/
  (let i := vtxoVaultCosignerInfo "vault-a" "vault-policy-v1" NetworkMutinynet [x02] 0 ++ [x01] in
   hmac_collision (hmac_sha256 (bytes_of vtxoVaultCosignerHKDFSalt) (be_bytes 32 1)) i i).
Proof.
  exact (vtxo_cosigner_context_bound 1 "vault-a" "vault-a" "vault-policy-v1" "vault-policy-v1" NetworkMutinynet NetworkMutinynet [x02] [x02] 0 0
    (example_no_nul "vault-a" eq_refl) (example_no_nul "vault-a" eq_refl) (example_no_nul "vault-policy-v1" eq_refl)
    (example_no_nul "vault-policy-v1" eq_refl) (example_no_nul NetworkMutinynet eq_refl) (example_no_nul NetworkMutinynet eq_refl) eq_refl).
Defined.

Lemma cosigners_even_y_witness : exists k,
  DeriveVaultBoardCosignerScalar example_pubkey example_parse (Some 1) "vault-a" NetworkMutinynet (x02 :: replicate 32 x01) = Ok k /\
  0 < k < secp256k1_n /\ take 1 (example_pubkey k) = [x02].
Proof.
  destruct example_board_derived as [k H]. exists k. split; [exact H|].
  exact (cosigners_even_y example_pubkey example_parse example_prefix example_negate (Some 1) "vault-a" "" NetworkMutinynet
    (x02 :: replicate 32 x01) k (or_intror H)).
Defined.
