(* ===== verification/Effects.v ===== *)
(** * State, errors and fuel

    A handler that reads and writes a state, may fail, and contains loops whose
    bound is not structural is a [M S A]: [None] is "out of fuel", otherwise the
    Go result and the state it leaves.  A returned error keeps the state: Go
    does not roll back. *)

From S2P Require Import Prelude.
From Stdlib Require Import Strings.String.
From stdpp Require Import base decidable list strings option.
From Stdlib Require Import ZArith Lia.
Open Scope Z_scope.

Definition M (S A : Type) : Type := S -> option (result A * S).

#[export] Instance M_ret {S} : MRet (M S) := fun _ a s => Some (Ok a, s).
#[export] Instance M_bind {S} : MBind (M S) := fun _ _ k m s =>
  match m s with
  | Some (Ok a, s') => k a s'
  | Some (Err e, s') => Some (Err e, s')
  | None => None
  end.

(** A pure call, the state, a state change, a returned error. *)
Definition lift {S A} (r : result A) : M S A := fun s => Some (r, s).
Definition fail {S A} (e : error) : M S A := lift (Err e).
Definition get {S} : M S S := fun s => Some (Ok s, s).
Definition modify {S} (f : S -> S) : M S unit := fun s => Some (Ok tt, f s).
Definition out_of_fuel {S A} : M S A := fun _ => None.

(** [if !b { return err }] *)
Definition check {S} (b : bool) (e : error) : M S unit := lift (require b e).

(** The outcome of a call as a value: a Go [err] that is inspected. *)
Definition try {S A} (m : M S A) : M S (result A) := fun s =>
  match m s with Some (r, s') => Some (Ok r, s') | None => None end.

(** [defer f()]: runs on every return. *)
Definition defer {S A} (f : S -> S) (m : M S A) : M S A := fun s =>
  match m s with Some (r, s') => Some (r, f s') | None => None end.

Section rules.
#[local] Set Default Proof Using "Type*".
Context {S : Type}.

Lemma bindM_Ok {A B} (m : M S A) (k : A -> M S B) s b s' :
  (m ≫= k) s = Some (Ok b, s') <-> exists a s1, m s = Some (Ok a, s1) /\ k a s1 = Some (Ok b, s').
Proof. unfold mbind, M_bind. destruct (m s) as [[[a|e] s1]|]; naive_solver. Qed.

Lemma bindM_total {A B} (m : M S A) (k : A -> M S B) s :
  m s <> None -> (forall a s1, m s = Some (Ok a, s1) -> k a s1 <> None) -> (m ≫= k) s <> None.
Proof. unfold mbind, M_bind. destruct (m s) as [[[a|e] s1]|]; naive_solver. Qed.

(** A successful computation followed by another. *)
Lemma bindM_step {A B} (m : M S A) (k : A -> M S B) s a s1 :
  m s = Some (Ok a, s1) -> (m ≫= k) s = k a s1.
Proof. unfold mbind, M_bind. by intros ->. Qed.

Lemma bindM_fail {A B} (m : M S A) (k : A -> M S B) s e s1 :
  m s = Some (Err e, s1) -> (m ≫= k) s = Some (Err e, s1).
Proof. unfold mbind, M_bind. by intros ->. Qed.

(** ** Triples: what holds of every answer *)

Definition triple {A} (P : S -> Prop) (m : M S A) (Q : result A -> S -> Prop) : Prop :=
  forall s r s', P s -> m s = Some (r, s') -> Q r s'.

Lemma triple_bind {A B} (P : S -> Prop) (m : M S A) (k : A -> M S B) (R Q : result B -> S -> Prop) (Q1 : A -> S -> Prop) :
  triple P m (fun r s => match r with Ok a => Q1 a s | Err e => Q (Err e) s end) ->
  (forall a, triple (Q1 a) (k a) Q) -> triple P (m ≫= k) Q.
Proof.
  intros Hm Hk s r s' HP. unfold mbind, M_bind. destruct (m s) as [[[a|e] s1]|] eqn:E; [| |done].
  - intros H. eapply (Hk a); [|exact H]. exact (Hm _ _ _ HP E).
  - intros [= <- <-]. exact (Hm _ _ _ HP E).
Qed.

(** A relation between the states before and after that every step keeps. *)
Definition keeps {A} (R : S -> S -> Prop) (m : M S A) : Prop := forall s r s', m s = Some (r, s') -> R s s'.

Context (R : S -> S -> Prop) `{!Reflexive R, !Transitive R}.

Lemma keeps_lift {A} (r : result A) : keeps R (lift r).
Proof. intros s r' s' [= <- <-]. done. Qed.
Lemma keeps_ret {A} (a : A) : keeps R (mret a).
Proof. intros s r' s' [= <- <-]. done. Qed.
Lemma keeps_get : keeps R get.
Proof. intros s r' s' [= <- <-]. done. Qed.
Lemma keeps_check b e : keeps R (check b e).
Proof. apply keeps_lift. Qed.
Lemma keeps_fail {A} e : keeps R (fail (A := A) e).
Proof. apply keeps_lift. Qed.
Lemma keeps_fuel {A} : keeps R (out_of_fuel (A := A)).
Proof using Type. by intros s r' s'. Qed.
Lemma keeps_bind {A B} (m : M S A) (k : A -> M S B) :
  keeps R m -> (forall a, keeps R (k a)) -> keeps R (m ≫= k).
Proof.
  intros Hm Hk s r s'. unfold mbind, M_bind. destruct (m s) as [[[a|e] s1]|] eqn:E; [| |done].
  - intros H. etrans; [exact (Hm _ _ _ E)|exact (Hk _ _ _ _ H)].
  - intros [= <- <-]. exact (Hm _ _ _ E).
Qed.
Lemma keeps_try {A} (m : M S A) : keeps R m -> keeps R (try m).
Proof using Type. intros Hm s r s'. unfold try. destruct (m s) as [[r1 s1]|] eqn:E; [|done]. intros [= <- <-]. exact (Hm _ _ _ E). Qed.
Lemma keeps_if {A} (b : bool) (m1 m2 : M S A) : keeps R m1 -> keeps R m2 -> keeps R (if b then m1 else m2).
Proof using Type. by destruct b. Qed.
End rules.

(** ** Successful steps *)

Lemma lift_Ok {S A} (r : result A) (w : S) a w' : lift r w = Some (Ok a, w') -> r = Ok a /\ w' = w.
Proof. by intros [= -> ->]. Qed.

Lemma check_Ok {S} b e (w : S) u w' : check b e w = Some (Ok u, w') -> b = true /\ w' = w.
Proof. unfold check. intros [E%require_Ok ->]%lift_Ok. done. Qed.

Lemma try_Ok {S A} (m : M S A) w r w' : try m w = Some (Ok r, w') -> m w = Some (r, w').
Proof. unfold try. destruct (m w) as [[r1 w1]|]; [|done]. by intros [= -> ->]. Qed.

Create HintDb keeps.

(** Proves [keeps R m] by the structure of [m]; the known computations are in
    the hint database and in the context. *)
Ltac keeps :=
  repeat first
    [ progress intros | solve [eauto with keeps nocore | auto with keeps nocore] | progress simpl
    | simple apply keeps_bind; [apply _..| |] | simple apply keeps_if | simple apply keeps_lift; apply _
    | simple apply keeps_ret; apply _ | simple apply keeps_get; apply _ | simple apply keeps_check; apply _
    | simple apply keeps_fail; apply _ | simple apply keeps_fuel | simple apply keeps_try
    | match goal with |- keeps _ (match ?x with _ => _ end) => destruct x end ].

(** ** Computations that always answer *)

Section answers.
Context {S : Type}.

Definition answers {A} (m : M S A) : Prop := forall s, m s <> None.

Lemma answers_lift {A} (r : result A) : answers (lift r).
Proof. by intros s. Qed.
Lemma answers_try {A} (m : M S A) : answers m -> answers (try m).
Proof. intros Hm s. specialize (Hm s). unfold try. by destruct (m s) as [[r s']|]. Qed.
Lemma answers_defer {A} f (m : M S A) : answers m -> answers (defer f m).
Proof. intros Hm s. specialize (Hm s). unfold defer. by destruct (m s) as [[r s']|]. Qed.

(** The rest of a computation may rely on what the first part returned. *)
Lemma answers_bind {A B} (m : M S A) (k : A -> M S B) :
  answers m -> (forall a s s', m s = Some (Ok a, s') -> answers (k a)) -> answers (m ≫= k).
Proof. intros Hm Hk s. apply bindM_total; [done|]. intros a s1 E. by apply (Hk a s s1). Qed.
End answers.

Create HintDb answers.
#[export] Hint Resolve answers_lift : answers.

Ltac answers_step :=
  lazymatch goal with
  | |- answers (mbind _ _) => apply answers_bind; [|intros ? ? ? ?]
  | |- answers (if ?b then _ else _) => destruct b
  | |- answers (let '(_, _) := ?x in _) => destruct x
  | |- answers (match ?x with _ => _ end) => destruct x
  | |- answers (try _) => apply answers_try
  | |- answers (defer _ _) => apply answers_defer
  | |- answers (mret _) => exact (answers_lift (Ok _))
  | |- answers (fail _) => apply answers_lift
  | |- answers (check _ _) => apply answers_lift
  | |- answers (lift _) => apply answers_lift
  | |- answers _ => solve [auto with answers nocore]
  end.
Ltac answers := repeat (intros; answers_step).
