(* ===== verification/Apperr.v ===== *)
(** * Application errors and what the HTTP boundary shows of them

    [internal/apperr/apperr.go] (codes, [New], [Of], [CodeOf], the sentinels)
    and the error half of [writeJSON] with [publicErrorMessage] of
    [internal/application/http.go].  A chain of [%w] wrappings is [Wrapf]; it
    ends in at most one application error, which has no [Unwrap]. *)

From S2P Require Import Prelude.
From Stdlib Require Import Strings.String.
From stdpp Require Import base decidable list strings.
From Stdlib Require Import ZArith Lia.
Open Scope string_scope.
Open Scope list_scope.
Open Scope Z_scope.

Definition CodeRejected := "REJECTED".
Definition CodeNotFound := "NOT_FOUND".
Definition CodeBusy := "BUSY".
Definition CodeVaultIDRequired := "VAULT_ID_REQUIRED".
Definition CodeNotEnrolled := "NOT_ENROLLED".
Definition CodeEnrollmentClosed := "ENROLLMENT_CLOSED".

Definition New (code msg : string) : error := AppErr code msg.
Definition Rejected (msg : string) : error := New CodeRejected msg.

Definition ErrRejected := New CodeRejected "request rejected".
Definition ErrNotFound := New CodeNotFound "not found".
Definition ErrBusy := New CodeBusy "busy".
Definition ErrVaultIDRequired := New CodeVaultIDRequired "vault id required".
Definition ErrNotEnrolled := New CodeNotEnrolled "not enrolled".
Definition ErrEnrollmentClosed := New CodeEnrollmentClosed "not found".

(** [errors.As(err, &e)] for an application error [e]. *)
Fixpoint As (err : error) : option (string * string) :=
  match err with
  | AppErr code msg => Some (code, msg)
  | Wrapf _ e => As e
  | _ => None
  end.

(** [errors.Is(err, target)]: some error of the chain is the target, or is an
    application error whose [Is] method accepts it (same code). *)
Fixpoint Is (err target : error) : bool :=
  bool_decide (err = target) ||
  match err, target with
  | AppErr code _, AppErr code' _ => seqb code code'
  | Wrapf _ e, _ => Is e target
  | _, _ => false
  end.

(** [err.Error()] of the errors that are not application errors: texts of
    [fmt.Errorf] with their arguments, of the database and of the libraries. *)
Class ErrorText := text : error -> string.

Section texts.
Context `{ErrorText}.

(** The method [Error]. *)
Definition Error (err : error) : string :=
  match err with
  | AppErr code msg => if seqb msg "" then code else msg
  | _ => text err
  end.

Definition Of (err : option error) : option (string * string) :=
  match err with
  | None => None
  | Some e => match As e with Some a => Some a | None => Some (CodeRejected, Error e) end
  end.

Definition CodeOf (err : option error) : string :=
  match Of err with Some (code, _) => code | None => CodeRejected end.

(** [Wrap]: the cause's text is folded into the message. *)
Definition Wrap (code msg : string) (err : option error) : error :=
  match err with
  | None => New code msg
  | Some e => New code (msg ++ ": " ++ Error e)
  end.

(** ** The HTTP response of an error *)

Record ErrorResponse := MkErrorResponse {
  er_status : Z; er_code : string; er_retryAfter : bool; er_error : string
}.

(** The [switch] on the code: the messages the boundary invents. *)
Definition fixed_message (code : string) : string :=
  if seqb code CodeNotFound then "not found"
  else if seqb code CodeBusy then "busy"
  else if seqb code CodeVaultIDRequired then "vault id required"
  else if seqb code CodeNotEnrolled then "not enrolled"
  else "request rejected".

Definition publicErrorMessage (code : string) (err : option error) : string :=
  match err with
  | None => "request rejected"
  | Some e =>
      match As e with
      | Some (c, msg) => if seqb c code && negb (seqb msg "") then msg else fixed_message code
      | None => fixed_message code
      end
  end.

(** [writeJSON] with a non-nil error. *)
Definition writeJSON_error (err : error) : ErrorResponse :=
  let '(status, code, retry) :=
    if Is err ErrEnrollmentClosed || Is err ErrNotFound then (404, CodeNotFound, false)
    else if Is err ErrVerificationBusy || Is err ErrBusy then (429, CodeBusy, true)
    else if Is err ErrVaultIDRequired then (400, CodeVaultIDRequired, false)
    else if Is err ErrNotEnrolled then (400, CodeNotEnrolled, false)
    else match Of (Some err) with
         | Some (c, _) => (400, if seqb c CodeRejected then CodeRejected else c, false)
         | None => (400, CodeRejected, false)
         end in
  MkErrorResponse status code retry (publicErrorMessage code (Some err)).
End texts.

(** ** What is public *)

Lemma As_Is err code msg target_msg code' :
  As err = Some (code, msg) -> Is err (AppErr code' target_msg) = true <-> code = code'.
Proof.
  induction err; simpl; intros H; try done; [by apply IHerr|].
  injection H as -> ->. rewrite orb_true_iff, bool_decide_eq_true, seqb_true. naive_solver.
Qed.

Lemma As_None_Is err code' msg' : As err = None -> Is err (AppErr code' msg') = false.
Proof. induction err; simpl; intros H; try done. by apply IHerr. Qed.

Lemma As_verification_busy err code msg : As err = Some (code, msg) -> Is err ErrVerificationBusy = false.
Proof. induction err; simpl; intros H; try done. by apply IHerr. Qed.

(** [C31] An error that no handler classified never reaches the caller: its
    answer does not depend on its text or on its wrappings, only on whether it
    is the busy sentinel, and is one of two fixed bodies. *)
Theorem unclassified_errors_are_opaque `{ErrorText} err :
  As err = None ->
  writeJSON_error err =
    if Is err ErrVerificationBusy then MkErrorResponse 429 CodeBusy true "busy"
    else MkErrorResponse 400 CodeRejected false "request rejected".
Proof.
  intros Has. unfold writeJSON_error, Of, publicErrorMessage, ErrNotFound, ErrBusy, ErrEnrollmentClosed,
    ErrVaultIDRequired, ErrNotEnrolled, New. rewrite !As_None_Is, Has by done.
  destruct (Is err ErrVerificationBusy); simpl; by rewrite ?Has.
Qed.

(** What a classified error shows: its own code and message, except that a
    closed enrollment is answered exactly as a missing resource, and an empty
    message is replaced by the fixed one of its code. *)
Theorem classified_error_response `{ErrorText} err code msg :
  As err = Some (code, msg) ->
  writeJSON_error err =
    if seqb code CodeEnrollmentClosed then MkErrorResponse 404 CodeNotFound false "not found"
    else MkErrorResponse (if seqb code CodeNotFound then 404 else if seqb code CodeBusy then 429 else 400)
           code (seqb code CodeBusy) (if seqb msg "" then fixed_message code else msg).
Proof.
  intros Has. pose proof (As_verification_busy _ _ _ Has) as Hv.
  assert (Hi : forall c m, Is err (AppErr c m) = seqb code c).
  { intros c m. apply eq_true_iff_eq. by rewrite (As_Is _ _ _ _ _ Has), seqb_true. }
  unfold writeJSON_error, Of, publicErrorMessage, ErrNotFound, ErrBusy, ErrEnrollmentClosed,
    ErrVaultIDRequired, ErrNotEnrolled, New. rewrite !Hi, Has, Hv. clear Has Hi Hv.
  destruct (decide (code = CodeEnrollmentClosed)) as [->|N1]; [done|]. rewrite (seqb_neq _ _ N1).
  destruct (decide (code = CodeNotFound)) as [->|N2]; [simpl; by destruct (seqb msg "")|]. rewrite (seqb_neq _ _ N2).
  destruct (decide (code = CodeBusy)) as [->|N3]; [simpl; by destruct (seqb msg "")|]. rewrite (seqb_neq _ _ N3).
  destruct (decide (code = CodeVaultIDRequired)) as [->|N4]; [simpl; by destruct (seqb msg "")|]. rewrite (seqb_neq _ _ N4).
  destruct (decide (code = CodeNotEnrolled)) as [->|N5]; [simpl; by destruct (seqb msg "")|]. rewrite (seqb_neq _ _ N5).
  assert ((if seqb code CodeRejected then CodeRejected else code) = code) as ->
    by (destruct (seqb code CodeRejected) eqn:E; [by apply seqb_true in E|done]).
  simpl. rewrite seqb_refl. by destruct (seqb msg "").
Qed.

#[local] Instance example_text : ErrorText := fun _ => "leak".
Definition example_internal : error := Wrapf "spend" (Errorf "open ledger.db: permission denied").

Lemma unclassified_errors_are_opaque_witness :
  As example_internal = None /\ writeJSON_error example_internal = MkErrorResponse 400 CodeRejected false "request rejected".
Proof. split; [reflexivity|exact (unclassified_errors_are_opaque example_internal eq_refl)]. Defined.

Lemma classified_error_response_witness :
  As (Wrapf "register" ErrEnrollmentClosed) = Some (CodeEnrollmentClosed, "not found") /\
  writeJSON_error (Wrapf "register" ErrEnrollmentClosed) = MkErrorResponse 404 CodeNotFound false "not found".
Proof.
  split; [reflexivity|].
  exact (classified_error_response (Wrapf "register" ErrEnrollmentClosed) CodeEnrollmentClosed "not found" eq_refl).
Defined.
