(* ===== verification/SpendSelect.v ===== *)
(** * Choosing the inputs and the fee of a spend: [src/internal/application/vtxo.go]

    [selectSpendVtxos] with [vtxosToCoins], [solveVtxoSpendWithBudget],
    [exactFeeSats], the evaluation budget and the capacity of
    [acquireFeeSelection] ([service.go]).  The Operator's fee
    programs run in the third-party estimator ([arkfee]), which may read the
    clock: an evaluation is a function of its place in the sequence of
    evaluations and of its arguments.  The request's context can be cancelled
    at any observation. *)

From S2P Require Import Prelude Effects Crypto Codec GoTime Program Vtxo VtxoLedger Apperr.
From Stdlib Require Import Strings.Byte Strings.Ascii Strings.String Floats.SpecFloat.
From stdpp Require Import base decidable list strings gmap countable option sorting.
From Stdlib Require Import ZArith Lia.
Open Scope string_scope.
Open Scope list_scope.
Open Scope Z_scope.

(** ** The order of byte strings *)

Lemma bytes_compare_eq a b : bytes_compare a b = Eq <-> a = b.
Proof.
  revert b. induction a as [|x a IH]; intros [|y b]; simpl; [done..|].
  destruct (Z.compare_spec (Z_of_byte x) (Z_of_byte y)) as [E|E|E].
  - apply Z_of_byte_inj in E as ->. rewrite IH. naive_solver.
  - split; [done|]. intros [= -> _]. lia.
  - split; [done|]. intros [= -> _]. lia.
Qed.

Lemma bytes_compare_opp a b : bytes_compare b a = CompOpp (bytes_compare a b).
Proof.
  revert b. induction a as [|x a IH]; intros [|y b]; simpl; [done..|].
  rewrite (Z.compare_antisym (Z_of_byte x)). destruct (Z_of_byte x ?= Z_of_byte y); simpl; auto.
Qed.

Lemma bytes_compare_trans a b c : bytes_compare a b = Lt -> bytes_compare b c = Lt -> bytes_compare a c = Lt.
Proof.
  revert b c. induction a as [|x a IH]; intros [|y b] [|z c]; simpl; try done.
  destruct (Z.compare_spec (Z_of_byte x) (Z_of_byte y)), (Z.compare_spec (Z_of_byte y) (Z_of_byte z)),
    (Z.compare_spec (Z_of_byte x) (Z_of_byte z)); try done; try lia; eauto.
Qed.

(** ** Data *)

(** [ports.ResolvedVtxo], [ports.IntentFeePolicy] *)
Record ResolvedVtxo := MkResolvedVtxo {
  rv_Txid : string; rv_Vout : Z; rv_ValueSats : Z; rv_Script : bytes;
  rv_CreatedAt : Z; rv_ExpiresAt : option Z; rv_IsSwept : bool; rv_CommitmentTxids : list string
}.

Record IntentFeePolicy := MkIntentFeePolicy {
  fp_OffchainInput : string; fp_OffchainOutput : string; fp_OnchainInput : string; fp_OnchainOutput : string
}.

(** The estimator's arguments: [arkfee.Config], [OffchainInput], [Output].  A
    birth or expiry is the argument of [time.Unix(_, 0)]; an expiry that was not
    set is the zero time. *)
Inductive VtxoType := VtxoTypeVtxo | VtxoTypeRecoverable | VtxoTypeNote.

Record OffchainInput := MkOffchainInput {
  oi_Amount : Z; oi_Birth : Z; oi_Expiry : option Z; oi_Type : VtxoType; oi_Weight : spec_float
}.

Record Output := MkOutput { o_Amount : Z; o_Script : string }.

Record FeeConfig := MkFeeConfig {
  fc_OffchainInput : string; fc_OffchainOutput : string; fc_OnchainInput : string; fc_OnchainOutput : string
}.

(** The request's surroundings: the estimator, and what the context answers. *)
Class FeeEnv := {
  Estimator : Type;
  arkfee_New : FeeConfig -> option Estimator;
  EvalOffchainInput : Estimator -> nat -> OffchainInput -> option spec_float;
  Eval : Estimator -> nat -> list OffchainInput -> list Output -> option spec_float;
  ctx_Err : nat -> option error
}.

Record reservedCoin := MkCoin {
  rc_Txid : bytes; rc_Vout : Z; rc_ValueSats : Z; rc_Script : bytes;
  rc_FeeInput : OffchainInput; rc_Effective : Z
}.

(** Evaluations and context observations so far, the evaluations left in the
    budget, the occupied selection slots. *)
Record FeeState := MkFeeState { fs_evals : nat; fs_polls : nat; fs_remaining : Z; fs_slots : Z }.

Definition count_eval (s : FeeState) := MkFeeState (S (fs_evals s)) (fs_polls s) (fs_remaining s) (fs_slots s).
Definition count_poll (s : FeeState) := MkFeeState (fs_evals s) (S (fs_polls s)) (fs_remaining s) (fs_slots s).
Definition set_remaining r (s : FeeState) := MkFeeState (fs_evals s) (fs_polls s) r (fs_slots s).
Definition set_slots n (s : FeeState) := MkFeeState (fs_evals s) (fs_polls s) (fs_remaining s) n.

Abbreviation Sel := (M FeeState).

Definition maxVtxoFeeProgramEvaluations : Z := 20000.
Definition maxVtxoSpendInputs : Z := MaxVtxoOperationInputs.
Definition defaultConcurrentFeeSelections : Z := 2.

(** ** Fees as floating-point numbers *)

(** [math.Ceil] of a finite value, which is an integer a float64 represents. *)
Definition ceil_pos (m : positive) (e : Z) : Z :=
  if 0 <=? e then Z.pos m * 2 ^ e else - ((- Z.pos m) / 2 ^ (- e)).

Definition exactFeeSats (fee : spec_float) : result Z :=
  let invalid := Err (Rejected "Operator fee result invalid") in
  match fee with
  | S754_nan | S754_infinity _ => invalid
  | S754_zero _ => Ok 0
  | S754_finite true _ _ => invalid
  | S754_finite false m e =>
      let rounded := ceil_pos m e in
      if 2 ^ 63 <=? rounded then invalid else Ok rounded
  end.

Definition intentFeeEstimatorConfig (fee : IntentFeePolicy) : FeeConfig :=
  let normalize program := if seqb program "" then "0.0" else program in
  MkFeeConfig (normalize (fp_OffchainInput fee)) (normalize (fp_OffchainOutput fee))
    (normalize (fp_OnchainInput fee)) (normalize (fp_OnchainOutput fee)).

Definition resolvedArkFeeInput (v : ResolvedVtxo) : OffchainInput :=
  let kind := if rv_IsSwept v then VtxoTypeRecoverable
              else if zlen (rv_CommitmentTxids v) =? 0 then VtxoTypeNote else VtxoTypeVtxo in
  MkOffchainInput (rv_ValueSats v) (rv_CreatedAt v) (rv_ExpiresAt v) kind (S754_zero false).

Lemma ceil_pos_spec m e : 0 < ceil_pos m e /\
  if 0 <=? e then ceil_pos m e = Z.pos m * 2 ^ e
  else (ceil_pos m e - 1) * 2 ^ (- e) < Z.pos m <= ceil_pos m e * 2 ^ (- e).
Proof.
  unfold ceil_pos. destruct (Z.leb_spec 0 e) as [He|He].
  - split; [|done]. pose proof (Z.pow_pos_nonneg 2 e eq_refl He). nia.
  - assert (0 < 2 ^ (- e)) by (apply Z.pow_pos_nonneg; lia).
    pose proof (Z.div_mod (- Z.pos m) (2 ^ (- e)) ltac:(lia)). pose proof (Z.mod_pos_bound (- Z.pos m) (2 ^ (- e)) ltac:(lia)).
    nia.
Qed.

Lemma exactFeeSats_range f z : exactFeeSats f = Ok z -> 0 <= z < 2 ^ 63.
Proof.
  unfold exactFeeSats. destruct f as [| | |[] m e]; try done; [by intros [= <-]|].
  destruct (Z.leb_spec (2 ^ 63) (ceil_pos m e)); [done|]. intros [= <-]. pose proof (ceil_pos_spec m e). lia.
Qed.

(** ** Operations *)

Section selection.
Context `{FeeEnv, ErrorText}.

Definition newVtxoFeeEstimator (fee : IntentFeePolicy) : result (Estimator * bytes) :=
  match arkfee_New (intentFeeEstimatorConfig fee) with
  | None => Err (Rejected "Operator fee policy invalid")
  | Some estimator =>
      Ok (estimator, ComputeIntentFeePolicyDigest (fp_OffchainInput fee) (fp_OffchainOutput fee)
                       (fp_OnchainInput fee) (fp_OnchainOutput fee))
  end.

(** [if err := ctx.Err(); err != nil { return ... }] *)
Definition observe_ctx (wrapped : error -> error) : Sel unit := fun s =>
  (match ctx_Err (fs_polls s) with
   | Some e => fail (wrapped e) (count_poll s)
   | None => Some (Ok tt, count_poll s)
   end).

Definition fee_cancelled : error := New CodeBusy "fee selection cancelled".
Definition fee_exhausted : error := New CodeBusy "Operator fee policy exceeds evaluation limit".

(** [(b *feeEvaluationBudget) consume] on a budget that exists. *)
Definition consume : Sel unit := fun s =>
  if fs_remaining s =? 0 then fail fee_exhausted s
  else Some (Ok tt, set_remaining (fs_remaining s - 1) s).

(** One call of the estimator, its failure reported as [msg]. *)
Definition evaluated (msg : string) (call : nat -> option spec_float) : Sel spec_float := fun s =>
  match call (fs_evals s) with
  | None => fail (Rejected msg) (count_eval s)
  | Some f => Some (Ok f, count_eval s)
  end.

(** The budget is charged before every evaluation. *)
Definition metered (msg : string) (call : nat -> option spec_float) : Sel spec_float := consume;; evaluated msg call.

Definition valid_indexed (pkScript : bytes) (v : ResolvedVtxo) : option bytes :=
  raw ← hex_decode (rv_Txid v);
  if (zlen raw =? 32) && seqb (rv_Txid v) (to_lower (rv_Txid v)) && beqb (rv_Script v) pkScript
     && (rv_ValueSats v <=? int64_max)
  then Some raw else None.

Fixpoint vtxosToCoins (estimator : Estimator) (pkScript : bytes) (vtxos : list ResolvedVtxo) : Sel (list reservedCoin) :=
  match vtxos with
  | [] => mret []
  | v :: vtxos =>
      match valid_indexed pkScript v with
      | None => fail (Rejected "invalid indexed vtxo")
      | Some raw =>
          let feeInput := resolvedArkFeeInput v in
          inputFee ← metered "Operator input fee evaluation" (fun n => EvalOffchainInput estimator n feeInput);
          feeSats ← lift (exactFeeSats inputFee);
          rest ← vtxosToCoins estimator pkScript vtxos;
          mret (if rv_ValueSats v <=? feeSats then rest
                else MkCoin raw (rv_Vout v) (rv_ValueSats v) pkScript feeInput (rv_ValueSats v - feeSats) :: rest)
      end
  end.

(** The total of the inputs, refused when it does not fit a uint64. *)
Definition addCoin (total : Z) (coin : reservedCoin) : result Z :=
  require (rc_ValueSats coin <=? uint64_max - total) (Rejected "vtxo input amount overflow");;
  Ok (total + rc_ValueSats coin).

(** The search for a fee that pays for its own change output.  [change] is what
    the inputs leave after the amount: [total - amount]. *)
Fixpoint candidateLoop (fuel : nat) (estimator : Estimator) (feeInputs : list OffchainInput) (dest : Output)
    (changeScript : bytes) (change maxCandidate candidate : Z) : Sel (option (Z * Z)) :=
  match fuel with
  | O => out_of_fuel
  | S fuel =>
      if maxCandidate <? candidate then mret None
      else
        let next := if candidate =? uint64_max then mret None
                    else candidateLoop fuel estimator feeInputs dest changeScript change maxCandidate (candidate + 1) in
        observe_ctx (fun _ => fee_cancelled);;
        let candidateChange := change - candidate in
        if candidateChange <? DustSats then
          candidateLoop fuel estimator feeInputs dest changeScript change maxCandidate (uint64_of (candidate + 1))
        else
          withChange ← metered "Operator fee evaluation" (fun n =>
            Eval estimator n feeInputs [dest; MkOutput candidateChange (hex_encode changeScript)]);
          actual ← lift (exactFeeSats withChange);
          if actual =? candidate then mret (Some (candidate, candidateChange)) else next
  end.

(** [None]: these coins do not pay for the spend. *)
Definition solveVtxoSpendWithBudget (fuel : nat) (estimator : Estimator) (coins : list reservedCoin)
    (destScript changeScript : bytes) (amount feeCap : Z) : Sel (option (Z * Z)) :=
  observe_ctx (fun _ => fee_cancelled);;
  total ← lift (foldR addCoin 0 coins);
  let feeInputs := map rc_FeeInput coins in
  if total <? amount then mret None
  else
    let dest := MkOutput amount (hex_encode destScript) in
    withoutChange ← metered "Operator fee evaluation" (fun n => Eval estimator n feeInputs [dest]);
    noChangeFee ← lift (exactFeeSats withoutChange);
    if (noChangeFee <=? feeCap) && (total - amount =? noChangeFee) then mret (Some (noChangeFee, 0))
    else candidateLoop fuel estimator feeInputs dest changeScript (total - amount) (Z.min feeCap (total - amount)) 0.

Definition solveVtxoSpend (fuel : nat) (estimator : Estimator) (coins : list reservedCoin)
    (destScript changeScript : bytes) (amount feeCap : Z) : Sel (option (Z * Z)) :=
  modify (set_remaining maxVtxoFeeProgramEvaluations);;
  solveVtxoSpendWithBudget fuel estimator coins destScript changeScript amount feeCap.

(** The two comparators of [sort.Slice], as "not after". *)
Definition outpoint_leb (a b : reservedCoin) : bool :=
  match bytes_compare (rc_Txid a) (rc_Txid b) with
  | Lt => true
  | Gt => false
  | Eq => rc_Vout a <=? rc_Vout b
  end.

Definition effective_leb (a b : reservedCoin) : bool :=
  if rc_Effective a =? rc_Effective b then outpoint_leb a b else rc_Effective b <? rc_Effective a.

Definition outpoint_le (a b : reservedCoin) : Prop := outpoint_leb a b = true.
Definition effective_le (a b : reservedCoin) : Prop := effective_leb a b = true.

#[export] Instance outpoint_le_dec a b : Decision (outpoint_le a b) := _ : Decision (_ = true).
#[export] Instance effective_le_dec a b : Decision (effective_le a b) := _ : Decision (_ = true).

#[export] Instance outpoint_le_total : Total outpoint_le.
Proof using Type.
  intros a b. unfold outpoint_le, outpoint_leb. rewrite (bytes_compare_opp (rc_Txid a) (rc_Txid b)).
  destruct (bytes_compare _ _); simpl; [|by left|by right].
  destruct (Z.leb_spec (rc_Vout a) (rc_Vout b)); [by left|right]. apply Z.leb_le. lia.
Qed.

#[export] Instance outpoint_le_trans : Transitive outpoint_le.
Proof using Type.
  intros a b c. unfold outpoint_le, outpoint_leb.
  destruct (bytes_compare (rc_Txid a) (rc_Txid b)) eqn:E1; [apply bytes_compare_eq in E1 as ->| |done];
    destruct (bytes_compare (rc_Txid b) (rc_Txid c)) eqn:E2; try done.
  - rewrite !Z.leb_le. lia.
  - apply bytes_compare_eq in E2 as <-. by rewrite E1.
  - by rewrite (bytes_compare_trans _ _ _ E1 E2).
Qed.

(** Two coins neither of which is after the other are at the same outpoint. *)
Lemma outpoint_le_antisym a b : outpoint_le a b -> outpoint_le b a -> rc_Txid a = rc_Txid b /\ rc_Vout a = rc_Vout b.
Proof using Type.
  unfold outpoint_le, outpoint_leb. rewrite (bytes_compare_opp (rc_Txid a) (rc_Txid b)).
  destruct (bytes_compare (rc_Txid a) (rc_Txid b)) eqn:E; simpl; [|done..].
  apply bytes_compare_eq in E. rewrite !Z.leb_le. split; [done|lia].
Qed.

(** The smallest count of coins, best first, that pays. *)
Fixpoint tryCounts (fuel : nat) (estimator : Estimator) (coins : list reservedCoin) (pkScript destScript : bytes)
    (amount feeCap : Z) (counts : list nat) : Sel (list reservedCoin * Z * Z) :=
  match counts with
  | [] => fail (Rejected "insufficient economic vtxo funds")
  | count :: counts =>
      solved ← solveVtxoSpendWithBudget fuel estimator (take count coins) destScript pkScript amount feeCap;
      match solved with
      | None => tryCounts fuel estimator coins pkScript destScript amount feeCap counts
      | Some (fee, change) => mret (merge_sort outpoint_le (take count coins), fee, change)
      end
  end.

Definition coin_bundle (c : reservedCoin) : VtxoBundleInput := MkBundleInput (rc_Txid c) (rc_Vout c) (rc_ValueSats c).

Definition rejected_err {A} (r : result A) : result A :=
  match r with Ok a => Ok a | Err e => Err (Rejected (Error e)) end.

(** [acquireFeeSelection]: a slot of a channel of capacity [limit], without waiting. *)
Definition feeSelectionLimit (configured : Z) : Z :=
  if configured <=? 0 then defaultConcurrentFeeSelections else configured.

Definition takeSlot (limit : Z) : Sel unit := fun s =>
  if fs_slots s <? limit then Some (Ok tt, set_slots (fs_slots s + 1) s)
  else fail (New CodeBusy "fee selection capacity exhausted") s.

Definition acquireFeeSelection (configured : Z) : Sel unit :=
  observe_ctx (fun e => e);; takeSlot (feeSelectionLimit configured).

Definition releaseFeeSelection (s : FeeState) : FeeState := set_slots (fs_slots s - 1) s.

Definition selectCoins (fuel : nat) (estimator : Estimator) (vtxos : list ResolvedVtxo) (pkScript destScript : bytes)
    (amountSats feeCap : Z) : Sel (list reservedCoin * Z * Z) :=
  modify (set_remaining maxVtxoFeeProgramEvaluations);;
  coins ← vtxosToCoins estimator pkScript vtxos;
  lift (rejected_err (CanonicalVtxoBundleInputs (map coin_bundle coins)));;
  let sorted := merge_sort effective_le coins in
  let limit := Z.min (zlen sorted) maxVtxoSpendInputs in
  tryCounts fuel estimator sorted pkScript destScript amountSats feeCap (seq 1 (Z.to_nat limit)).

(** [vtxos] is the answer of the indexer. *)
Definition selectSpendVtxos (fuel : nat) (configured : Z) (estimator : Estimator) (vtxos : result (list ResolvedVtxo))
    (pkScript destScript : bytes) (amountSats feeCap : Z) : Sel (list reservedCoin * Z * Z) :=
  match vtxos with
  | Err _ => fail (Rejected "ark indexer")
  | Ok vtxos =>
      acquireFeeSelection configured;;
      defer releaseFeeSelection (selectCoins fuel estimator vtxos pkScript destScript amountSats feeCap)
  end.

(** ** Every evaluation is paid for from the budget *)

Record spends (s s' : FeeState) : Prop := {
  sp_budget : Z.of_nat (fs_evals s') + fs_remaining s' = Z.of_nat (fs_evals s) + fs_remaining s;
  sp_evals : (fs_evals s <= fs_evals s')%nat;
  sp_left : 0 <= fs_remaining s -> 0 <= fs_remaining s';
  sp_slots : fs_slots s' = fs_slots s
}.

#[export] Instance spends_refl : Reflexive spends.
Proof using Type. intros s. by split. Qed.
#[export] Instance spends_trans : Transitive spends.
Proof using Type. intros s1 s2 s3 [] []. split; first [lia|auto|congruence]. Qed.

Lemma keeps_observe f : keeps spends (observe_ctx f).
Proof using Type. intros s r s'. unfold observe_ctx. destruct (ctx_Err _); intros [= <- <-]; by split. Qed.

Lemma keeps_metered msg call : keeps spends (metered msg call).
Proof using Type.
  intros s r s'. unfold metered, consume, evaluated, mbind, M_bind. destruct (Z.eqb_spec (fs_remaining s) 0).
  - intros [= <- <-]. reflexivity.
  - destruct (call _); intros [= <- <-]; split; simpl; lia.
Qed.

#[local] Hint Resolve keeps_observe keeps_metered : keeps.

Lemma keeps_vtxosToCoins estimator pk vtxos : keeps spends (vtxosToCoins estimator pk vtxos).
Proof using Type. induction vtxos; simpl; keeps. Qed.

Lemma keeps_candidateLoop fuel estimator ins dest cs change mx c :
  keeps spends (candidateLoop fuel estimator ins dest cs change mx c).
Proof using Type.
  revert c. induction fuel as [|fuel IH]; intros c; simpl; keeps.
Qed.

Lemma keeps_solve fuel estimator coins dest cs amount cap :
  keeps spends (solveVtxoSpendWithBudget fuel estimator coins dest cs amount cap).
Proof using Type. unfold solveVtxoSpendWithBudget. pose proof keeps_candidateLoop. keeps. Qed.

Lemma keeps_tryCounts fuel estimator coins pk dest amount cap counts :
  keeps spends (tryCounts fuel estimator coins pk dest amount cap counts).
Proof using Type. pose proof keeps_solve. induction counts; simpl; keeps. Qed.

(** ** Termination *)

Lemma observe_total f s : observe_ctx f s <> None.
Proof using Type. unfold observe_ctx. by destruct (ctx_Err _). Qed.

Lemma metered_total msg call s : metered msg call s <> None.
Proof using Type.
  unfold metered, consume, evaluated, mbind, M_bind. destruct (fs_remaining s =? 0); [done|]. by destruct (call _).
Qed.

Lemma metered_Ok msg call s f s' : metered msg call s = Some (Ok f, s') ->
  call (fs_evals s) = Some f /\ fs_evals s' = S (fs_evals s) /\ fs_remaining s' = fs_remaining s - 1.
Proof using Type.
  unfold metered, consume, evaluated, mbind, M_bind. destruct (fs_remaining s =? 0); [done|]. simpl.
  destruct (call _) eqn:E; [|done]. intros [= <- <-]. done.
Qed.

(** Only candidates with an economic change are evaluated, and each evaluation
    costs one unit of the budget; at most [DustSats] candidates are skipped. *)
Definition enough_fuel (fuel : nat) (s : FeeState) (change mx c : Z) : Prop :=
  fs_remaining s + DustSats + 3 <= Z.of_nat fuel \/
  (change - c < DustSats /\ mx - c + 2 <= Z.of_nat fuel /\ 1 <= Z.of_nat fuel).

Lemma candidateLoop_total fuel estimator ins dest cs change mx c s :
  0 <= c -> mx <= change -> mx < uint64_max -> 0 <= fs_remaining s -> enough_fuel fuel s change mx c ->
  candidateLoop fuel estimator ins dest cs change mx c s <> None.
Proof using Type.
  unfold enough_fuel, DustSats. revert c s.
  induction fuel as [|fuel IH]; intros c s Hc Hmx Hu Hr Hf; [lia|]. simpl.
  destruct (Z.ltb_spec mx c); [done|].
  apply bindM_total; [apply observe_total|]. intros [] s1 E1. apply keeps_observe in E1 as [].
  destruct (Z.ltb_spec (change - c) DustSats) as [Hd|Hd]; unfold DustSats in Hd.
  - unfold uint64_of. rewrite Z.mod_small by (unfold uint64_max in *; lia). apply IH; lia.
  - apply bindM_total; [apply metered_total|]. intros f s2 E2.
    pose proof (keeps_metered _ _ _ _ _ E2) as []. apply metered_Ok in E2 as (_ & _ & Hrem).
    apply bindM_total; [done|]. intros actual s3. unfold lift. intros [= _ <-].
    destruct (actual =? c); [done|]. destruct (c =? uint64_max); [done|]. apply IH; lia.
Qed.

Lemma solve_total fuel estimator coins dest cs amount cap s :
  cap < uint64_max -> 0 <= fs_remaining s -> fs_remaining s + DustSats + 3 <= Z.of_nat fuel ->
  solveVtxoSpendWithBudget fuel estimator coins dest cs amount cap s <> None.
Proof using Type.
  intros Hcap Hr Hf. unfold solveVtxoSpendWithBudget.
  apply bindM_total; [apply observe_total|]. intros [] s1 [? ? Hs1 _]%keeps_observe.
  apply bindM_total; [done|]. unfold lift. intros total s2 [= _ <-]. destruct (total <? amount); [done|].
  apply bindM_total; [apply metered_total|]. intros f s3 E3.
  pose proof (keeps_metered _ _ _ _ _ E3) as [? ? Hs3 _]. apply metered_Ok in E3 as (_ & _ & Hrem).
  apply bindM_total; [done|]. intros fee s4 [= _ <-]. destruct (_ && _); [done|].
  apply candidateLoop_total; [lia..|auto|]. left. lia.
Qed.

Lemma tryCounts_total fuel estimator coins pk dest amount cap counts s :
  cap < uint64_max -> 0 <= fs_remaining s -> fs_remaining s + DustSats + 3 <= Z.of_nat fuel ->
  tryCounts fuel estimator coins pk dest amount cap counts s <> None.
Proof using Type.
  intros Hcap. revert s. induction counts as [|count counts IH]; intros s Hr Hf; simpl; [done|].
  apply bindM_total; [by apply solve_total|]. intros [[fee change]|] s1 E1; [done|].
  apply keeps_solve in E1 as []. apply IH; lia.
Qed.

Lemma vtxosToCoins_total estimator pk vtxos s : vtxosToCoins estimator pk vtxos s <> None.
Proof using Type.
  revert s. induction vtxos as [|v vtxos IH]; intros s; simpl; [done|]. destruct (valid_indexed pk v); [|done].
  repeat (apply bindM_total; [first [apply metered_total|apply IH|done]|intros]). done.
Qed.

(** ** What a solution is *)

Definition quote (estimator : Estimator) (n : nat) (ins : list OffchainInput) (outs : list Output) : result Z :=
  match Eval estimator n ins outs with
  | None => Err (Rejected "Operator fee evaluation")
  | Some f => exactFeeSats f
  end.

(** The outputs of a spend with this change. *)
Definition spend_outputs (dest : Output) (cs : bytes) (change : Z) : list Output :=
  dest :: if change =? 0 then [] else [MkOutput change (hex_encode cs)].

(** The fee is the Operator's own answer, at some evaluation between the two
    states, for exactly the transaction that pays it. *)
Record solution (estimator : Estimator) (ins : list OffchainInput) (dest : Output) (cs : bytes) (left cap fee change : Z)
    (s s' : FeeState) : Prop := {
  sol_value : left = fee + change;
  sol_change : change = 0 \/ DustSats <= change;
  sol_fee : 0 <= fee <= cap;
  sol_quote : exists n, (fs_evals s <= n < fs_evals s')%nat /\ quote estimator n ins (spend_outputs dest cs change) = Ok fee
}.

Lemma quote_of estimator n ins outs f fee : Eval estimator n ins outs = Some f -> exactFeeSats f = Ok fee ->
  quote estimator n ins outs = Ok fee.
Proof using Type. unfold quote. by intros ->. Qed.

Lemma candidateLoop_Ok fuel estimator ins dest cs change mx c s fee ch s' :
  0 <= c -> mx <= change -> mx < uint64_max ->
  candidateLoop fuel estimator ins dest cs change mx c s = Some (Ok (Some (fee, ch)), s') ->
  solution estimator ins dest cs change mx fee ch s s' /\ 0 < ch.
Proof using Type.
  revert c s. induction fuel as [|fuel IH]; intros c s Hc Hmx Hu; simpl; [done|].
  destruct (Z.ltb_spec mx c); [done|].
  intros ([] & s1 & [? E1 _ _]%keeps_observe & Hk)%bindM_Ok. revert Hk.
  assert (Hw : forall s1, (fs_evals s <= fs_evals s1)%nat -> solution estimator ins dest cs change mx fee ch s1 s' /\ 0 < ch ->
    solution estimator ins dest cs change mx fee ch s s' /\ 0 < ch).
  { intros t Ht [[? ? ? (n & ? & ?)] ?]. split; [split; [done..|]|done]. exists n. split; [lia|done]. }
  destruct (Z.ltb_spec (change - c) DustSats) as [Hd|Hd].
  - unfold uint64_of. rewrite Z.mod_small by (unfold uint64_max in *; lia). intros Hk. apply (Hw s1 E1). eapply IH; [..|exact Hk]; lia.
  - intros (f & s2 & E2 & (actual & s3 & E3 & Hk)%bindM_Ok)%bindM_Ok.
    pose proof (keeps_metered _ _ _ _ _ E2) as [? Hle _ _]. apply metered_Ok in E2 as (Hf & Hev & _).
    injection E3 as E3 <-. destruct (Z.eqb_spec actual c) as [->|].
    + injection Hk as <- <- <-. unfold DustSats in *. split; [|lia]. split; [lia|right; unfold DustSats; lia|lia|].
      exists (fs_evals s1). split; [lia|]. unfold spend_outputs. rewrite (proj2 (Z.eqb_neq _ _)) by lia. by eapply quote_of.
    + destruct (c =? uint64_max); [done|]. apply (Hw s2); [lia|]. eapply IH; [..|exact Hk]; lia.
Qed.

Lemma addCoin_Ok coins t total : foldR addCoin t coins = Ok total -> total = t + zsum rc_ValueSats coins.
Proof using Type.
  revert t. induction coins as [|c coins IH]; intros t; simpl; [intros [= <-]; lia|].
  intros (? & ([] & _ & [= <-])%bind_Ok & Hk)%bind_Ok. apply IH in Hk. lia.
Qed.

Lemma solve_Ok fuel estimator coins destScript cs amount cap s fee change s' :
  cap < uint64_max ->
  solveVtxoSpendWithBudget fuel estimator coins destScript cs amount cap s = Some (Ok (Some (fee, change)), s') ->
  solution estimator (map rc_FeeInput coins) (MkOutput amount (hex_encode destScript)) cs
    (zsum rc_ValueSats coins - amount) cap fee change s s'.
Proof using Type.
  intros Hcap. unfold solveVtxoSpendWithBudget.
  intros ([] & s1 & [_ Hs1 _ _]%keeps_observe & (total & s2 & [= Ht <-] & Hk)%bindM_Ok)%bindM_Ok.
  apply addCoin_Ok in Ht as ->. destruct (Z.ltb_spec (0 + zsum rc_ValueSats coins) amount); [done|].
  apply bindM_Ok in Hk as (f & s3 & E3 & (noChange & s4 & [= E4 <-] & Hk)%bindM_Ok).
  pose proof (keeps_metered _ _ _ _ _ E3) as [_ Hle _ _]. apply metered_Ok in E3 as (Hf & Hev & _).
  pose proof (exactFeeSats_range _ _ E4). destruct (_ && _) eqn:Hb.
  - bool_prop. injection Hk as <- <- <-. split; [lia|by left|lia|]. exists (fs_evals s1). split; [lia|].
    by eapply quote_of.
  - apply candidateLoop_Ok in Hk as [[? ? ? (n & ? & ?)] _]; [|lia..]. split; [lia|done|lia|].
    exists n. split; [lia|done].
Qed.

(** ** The candidates *)

(** A coin of the selection is a listed output of the right script, worth more
    than the fee of spending it. *)
Definition coin_of (pk : bytes) (v : ResolvedVtxo) (c : reservedCoin) : Prop :=
  valid_indexed pk v = Some (rc_Txid c) /\ rc_Vout c = rv_Vout v /\ rc_ValueSats c = rv_ValueSats v /\
  rc_Script c = pk /\ rc_FeeInput c = resolvedArkFeeInput v /\ 0 < rc_Effective c <= rc_ValueSats c.

Lemma valid_indexed_spec pk v raw : valid_indexed pk v = Some raw ->
  rv_Txid v = hex_encode raw /\ zlen raw = 32 /\ rv_Script v = pk /\ rv_ValueSats v <= int64_max.
Proof using Type.
  unfold valid_indexed. destruct (hex_decode (rv_Txid v)) as [r|] eqn:E; [|done]. simpl. destruct (_ && _) eqn:Hb; [|done].
  intros [= ->]. bool_prop. unfold seqb, beqb in *. bool_prop. split_and!; [|done..].
  rewrite (hex_encode_decode _ _ E). done.
Qed.

Lemma vtxosToCoins_Ok estimator pk vtxos s coins s' :
  vtxosToCoins estimator pk vtxos s = Some (Ok coins, s') ->
  exists vs, vs `sublist_of` vtxos /\ Forall2 (coin_of pk) vs coins.
Proof using Type.
  revert s coins s'. induction vtxos as [|v vtxos IH]; intros s coins s'; simpl.
  - intros [= <- _]. exists []. done.
  - destruct (valid_indexed pk v) as [raw|] eqn:Hv; [|done].
    intros (f & s1 & _ & (fee & s2 & [= Hf <-] & (rest & s3 & (vs & Hsub & Hall)%IH & [= <- _])%bindM_Ok)%bindM_Ok)%bindM_Ok.
    apply exactFeeSats_range in Hf. destruct (Z.leb_spec (rv_ValueSats v) fee).
    + exists vs. split; [by constructor|done].
    + exists (v :: vs). split; [by constructor|]. constructor; [|done]. unfold coin_of. simpl. split_and!; [done..| |]; lia.
Qed.

Definition coin_key (c : reservedCoin) : bytes * Z := (rc_Txid c, rc_Vout c).

Lemma coin_of_key vs coins pk : Forall2 (coin_of pk) vs coins -> Forall (fun c => zlen (rc_Txid c) = 32) coins.
Proof using Type.
  induction 1 as [|v c vs coins (Hv & _) _ IH]; constructor; [|done]. by apply valid_indexed_spec in Hv as (_ & ? & _).
Qed.

(** The check on the listed outpoints: none is listed twice. *)
Lemma listed_distinct coins ordered : Forall (fun c => zlen (rc_Txid c) = 32) coins ->
  CanonicalVtxoBundleInputs (map coin_bundle coins) = Ok ordered -> NoDup (map coin_key coins).
Proof using Type.
  intros Hlen (_ & ns & Hns%mapR_Ok & Hn & _)%CanonicalVtxoBundleInputs_Ok.
  apply (NoDup_fmap_1 (fun k : bytes * Z => outpoint_key (hex_encode k.1) k.2)).
  assert ((fun k : bytes * Z => outpoint_key (hex_encode k.1) k.2) <$> map coin_key coins = map bundle_key ns) as ->; [|done].
  clear Hn. revert ns Hns. induction Hlen as [|c coins Hc _ IH]; intros ns Hns; inversion Hns as [|? x ? ns' Hx Hns']; subst; [done|].
  simpl. f_equal; [|by apply IH]. revert Hx. unfold normBundleInput, coin_bundle, canonicalVtxoTxid. simpl.
  rewrite Hc. simpl. intros [= <-]. done.
Qed.

Lemma tryCounts_Ok fuel estimator coins pk dest amount cap counts s picked fee change s' :
  tryCounts fuel estimator coins pk dest amount cap counts s = Some (Ok (picked, fee, change), s') ->
  exists count s1 s2, count ∈ counts /\ picked = merge_sort outpoint_le (take count coins) /\
    solveVtxoSpendWithBudget fuel estimator (take count coins) dest pk amount cap s1 = Some (Ok (Some (fee, change)), s2).
Proof using Type.
  revert s. induction counts as [|count counts IH]; intros s; simpl; [done|].
  intros ([[f c]|] & s1 & E1 & Hk)%bindM_Ok.
  - injection Hk as <- <- <- <-. exists count, s, s1. split_and!; [left|done..].
  - apply IH in Hk as (count' & t1 & t2 & ? & ? & ?). exists count', t1, t2. split_and!; [by right|done..].
Qed.

(** What the caller of the selection relies on. *)
Record selection (estimator : Estimator) (vtxos : list ResolvedVtxo) (pk dest : bytes) (amount cap : Z)
    (picked : list reservedCoin) (fee change : Z) : Prop := {
  se_value : zsum rc_ValueSats picked = amount + fee + change;
  se_change : change = 0 \/ DustSats <= change;
  se_fee : 0 <= fee <= cap;
  se_count : 1 <= zlen picked <= MaxVtxoOperationInputs;
  se_listed : Forall (fun c => exists v, v ∈ vtxos /\ coin_of pk v c) picked;
  se_distinct : NoDup (map coin_key picked);
  se_ordered : StronglySorted outpoint_le picked;
  se_quoted : exists n ins, ins ≡ₚ map rc_FeeInput picked /\
    quote estimator n ins (spend_outputs (MkOutput amount (hex_encode dest)) pk change) = Ok fee
}.

Lemma selectCoins_Ok fuel estimator vtxos pk dest amount cap s picked fee change s' :
  cap < uint64_max ->
  selectCoins fuel estimator vtxos pk dest amount cap s = Some (Ok (picked, fee, change), s') ->
  selection estimator vtxos pk dest amount cap picked fee change.
Proof using Type.
  intros Hcap. unfold selectCoins.
  intros ([] & s1 & _ & (coins & s2 & (vs & Hsub & Hall)%vtxosToCoins_Ok & (ordered & s3 & [= Hord _] & Hk)%bindM_Ok)%bindM_Ok)%bindM_Ok.
  apply tryCounts_Ok in Hk as (count & t1 & t2 & Hin & -> & [Hv ? ? (n & _ & Hq)]%solve_Ok); [|done].
  set (sorted := merge_sort effective_le coins) in *.
  assert (Hsorted : sorted ≡ₚ coins) by apply merge_sort_Permutation.
  assert (Hp : merge_sort outpoint_le (take count sorted) ≡ₚ take count sorted) by apply merge_sort_Permutation.
  assert (Hdist : NoDup (map coin_key coins)).
  { unfold rejected_err in Hord. destruct (CanonicalVtxoBundleInputs _) as [o|] eqn:Ho; [|done].
    eapply listed_distinct; [by eapply coin_of_key|done]. }
  apply elem_of_seq in Hin. unfold maxVtxoSpendInputs in Hin.
  split.
  - rewrite (zsum_perm _ _ _ Hp). lia.
  - done.
  - done.
  - unfold zlen. rewrite (Permutation_length Hp), length_take. unfold zlen, MaxVtxoOperationInputs in *. lia.
  - rewrite Hp. apply Forall_take. rewrite Hsorted. apply Forall_forall. intros c Hc.
    apply list_elem_of_lookup_1 in Hc as [i Hi]. destruct (Forall2_lookup_r _ _ _ _ _ Hall Hi) as (v & Hvi & Hcv).
    exists v. split; [|done]. eapply sublist_subseteq; [exact Hsub|]. by eapply list_elem_of_lookup_2.
  - rewrite Hp. eapply sublist_NoDup; [|apply (fmap_sublist coin_key), sublist_take]. change (NoDup (map coin_key sorted)). by rewrite Hsorted.
  - apply StronglySorted_merge_sort; apply _.
  - exists n, (map rc_FeeInput (take count sorted)). split; [by rewrite Hp|done].
Qed.

(** ** A reference for the search *)

Section reference.
Context (estimator : Estimator).

(** The estimator does not look at the clock and gives a valid fee; the request
    is not cancelled. *)
Record steady : Prop := {
  st_eval : forall n n' ins outs, Eval estimator n ins outs = Eval estimator n' ins outs;
  st_valid : forall ins outs, exists fee, quote estimator 0 ins outs = Ok fee;
  st_ctx : forall n, ctx_Err n = None
}.

Definition fee_of (ins : list OffchainInput) (outs : list Output) : Z :=
  match quote estimator 0 ins outs with Ok fee => fee | Err _ => 0 end.

(** The least fee that is the Operator's fee for the change it leaves. *)
Definition least_fee (ins : list OffchainInput) (dest : Output) (cs : bytes) (left mx : Z) (from : Z) : option (Z * Z) :=
  c ← find (fun c => (DustSats <=? left - c) && (fee_of ins [dest; MkOutput (left - c) (hex_encode cs)] =? c))
        (seqZ from (mx + 1 - from));
  Some (c, left - c).

Definition reference_solve (coins : list reservedCoin) (destScript cs : bytes) (amount cap : Z) : option (Z * Z) :=
  let ins := map rc_FeeInput coins in
  let left := zsum rc_ValueSats coins - amount in
  let dest := MkOutput amount (hex_encode destScript) in
  let exact := fee_of ins [dest] in
  if left <? 0 then None
  else if (exact <=? cap) && (left =? exact) then Some (exact, 0)
  else least_fee ins dest cs left (Z.min cap left) 0.

Context (Hsteady : steady).

Lemma steady_observe f s : observe_ctx f s = Some (Ok tt, count_poll s).
Proof using Hsteady. unfold observe_ctx. by rewrite (st_ctx Hsteady). Qed.

Lemma steady_metered msg ins outs s :
  metered msg (fun n => Eval estimator n ins outs) s = Some (Err fee_exhausted, s) \/
  exists f s', metered msg (fun n => Eval estimator n ins outs) s = Some (Ok f, s') /\ exactFeeSats f = Ok (fee_of ins outs).
Proof using Hsteady.
  destruct (st_valid Hsteady ins outs) as [fee Hfee]. unfold metered, consume, evaluated, mbind, M_bind.
  destruct (fs_remaining s =? 0); [by left|right]. simpl. rewrite (st_eval Hsteady _ 0%nat). unfold fee_of.
  unfold quote in *. destruct (Eval estimator 0 ins outs) as [f|]; [|done]. exists f. eexists. by rewrite Hfee.
Qed.

Lemma least_fee_step ins dest cs left mx c : c <= mx ->
  least_fee ins dest cs left mx c =
    if (DustSats <=? left - c) && (fee_of ins [dest; MkOutput (left - c) (hex_encode cs)] =? c) then Some (c, left - c)
    else least_fee ins dest cs left mx (c + 1).
Proof using Type.
  intros Hc. unfold least_fee. rewrite seqZ_cons by lia. simpl.
  replace (Z.pred (mx + 1 - c)) with (mx + 1 - (c + 1)) by lia. unfold Z.succ.
  by destruct ((DustSats <=? left - c) && _).
Qed.

Lemma candidateLoop_exact fuel ins dest cs left mx c s r s' :
  0 <= c -> mx < uint64_max -> candidateLoop fuel estimator ins dest cs left mx c s = Some (r, s') ->
  r = Err fee_exhausted \/ r = Ok (least_fee ins dest cs left mx c).
Proof using Hsteady.
  revert c s. induction fuel as [|fuel IH]; intros c s Hc Hmx; simpl; [done|].
  destruct (Z.ltb_spec mx c).
  { intros [= <- _]. right. unfold least_fee. by rewrite seqZ_nil by lia. }
  rewrite (bindM_step _ _ _ _ _ (steady_observe _ _)), least_fee_step by done.
  destruct (Z.ltb_spec (left - c) DustSats) as [Hd|Hd].
  - rewrite (proj2 (Z.leb_gt _ _)) by done. unfold uint64_of. rewrite Z.mod_small by (unfold uint64_max in *; lia).
    apply IH; lia.
  - rewrite (proj2 (Z.leb_le _ _)) by done.
    destruct (steady_metered "Operator fee evaluation" ins [dest; MkOutput (left - c) (hex_encode cs)] (count_poll s))
      as [E|(f & s2 & E & Hf)].
    + rewrite (bindM_fail _ _ _ _ _ E). intros [= <- _]. by left.
    + rewrite (bindM_step _ _ _ _ _ E). unfold lift, mbind, M_bind. rewrite Hf. simpl.
      destruct (_ =? c); [intros [= <- _]; by right|].
      destruct (Z.eqb_spec c uint64_max); [lia|]. apply IH; lia.
Qed.

Lemma addCoin_total coins t : Forall (fun c => 0 <= rc_ValueSats c) coins -> t + zsum rc_ValueSats coins <= uint64_max ->
  foldR addCoin t coins = Ok (t + zsum rc_ValueSats coins).
Proof using Type.
  intros Hpos. revert t. induction Hpos as [|c coins Hc Hpos IH]; intros t Ht; [simpl; f_equal; lia|].
  rewrite foldR_cons. simpl in Ht. assert (0 <= zsum rc_ValueSats coins).
  { apply zsum_nonneg. intros a Ha. rewrite Forall_forall in Hpos. by apply Hpos. }
  assert (addCoin t c = Ok (t + rc_ValueSats c)) as -> by (unfold addCoin; by rewrite (proj2 (Z.leb_le _ _)) by lia).
  cbn [mbind result_bind]. rewrite IH by lia. f_equal. simpl. lia.
Qed.

Lemma solve_exact fuel coins dest cs amount cap s r s' :
  cap < uint64_max -> Forall (fun c => 0 <= rc_ValueSats c) coins -> zsum rc_ValueSats coins <= uint64_max ->
  solveVtxoSpendWithBudget fuel estimator coins dest cs amount cap s = Some (r, s') ->
  r = Err fee_exhausted \/ r = Ok (reference_solve coins dest cs amount cap).
Proof using Hsteady.
  intros Hcap Hpos Hsum. unfold solveVtxoSpendWithBudget, reference_solve.
  rewrite (bindM_step _ _ _ _ _ (steady_observe _ _)). unfold lift, mbind at 1, M_bind at 1.
  rewrite addCoin_total by done. rewrite Z.add_0_l.
  destruct (Z.ltb_spec (zsum rc_ValueSats coins) amount), (Z.ltb_spec (zsum rc_ValueSats coins - amount) 0); try lia;
    [intros [= <- _]; by right|].
  destruct (steady_metered "Operator fee evaluation" (map rc_FeeInput coins) [MkOutput amount (hex_encode dest)] (count_poll s))
    as [E|(f & s2 & E & Hf)].
  - rewrite (bindM_fail _ _ _ _ _ E). intros [= <- _]. by left.
  - rewrite (bindM_step _ _ _ _ _ E). unfold lift, mbind, M_bind. rewrite Hf. simpl.
    destruct (_ && _); [intros [= <- _]; by right|]. apply candidateLoop_exact; lia.
Qed.

(** The counts tried before the answer do not pay, the answer is the
    reference's, and giving up means that no count pays. *)
Definition optimal (coins : list reservedCoin) (pk dest : bytes) (amount cap : Z) (counts : list nat)
    (r : result (list reservedCoin * Z * Z)) : Prop :=
  match r with
  | Ok (picked, fee, change) => exists before k after, counts = before ++ k :: after /\
      picked = merge_sort outpoint_le (take k coins) /\
      reference_solve (take k coins) dest pk amount cap = Some (fee, change) /\
      Forall (fun j => reference_solve (take j coins) dest pk amount cap = None) before
  | Err e => e = fee_exhausted \/ e = Rejected "insufficient economic vtxo funds" /\
      Forall (fun j => reference_solve (take j coins) dest pk amount cap = None) counts
  end.

Lemma take_values coins k : Forall (fun c => 0 <= rc_ValueSats c) coins -> zsum rc_ValueSats (take k coins) <= zsum rc_ValueSats coins.
Proof using Type.
  intros Hpos. rewrite <-(take_drop k coins) at 2. rewrite zsum_app.
  assert (0 <= zsum rc_ValueSats (drop k coins)); [|lia]. apply zsum_nonneg. apply Forall_forall. by apply Forall_drop.
Qed.

Lemma tryCounts_exact fuel coins pk dest amount cap counts s r s' :
  cap < uint64_max -> Forall (fun c => 0 <= rc_ValueSats c) coins -> zsum rc_ValueSats coins <= uint64_max ->
  tryCounts fuel estimator coins pk dest amount cap counts s = Some (r, s') -> optimal coins pk dest amount cap counts r.
Proof using Hsteady.
  intros Hcap Hpos Hsum. revert s. induction counts as [|k counts IH]; intros s; simpl.
  { intros [= <- _]. simpl. right. by split. }
  unfold mbind, M_bind. destruct (solveVtxoSpendWithBudget _ _ _ _ _ _ _ s) as [[r1 s1]|] eqn:E; [|done].
  assert (Hr : r1 = Err fee_exhausted \/ r1 = Ok (reference_solve (take k coins) dest pk amount cap)).
  { eapply solve_exact; [..|exact E]; [done|by apply Forall_take|]. pose proof (take_values coins k Hpos). lia. }
  clear E. destruct Hr as [->| ->]; [intros [= <- _]; by left|].
  destruct (reference_solve (take k coins) dest pk amount cap) as [[fee change]|] eqn:Er.
  - intros [= <- _]. exists [], k, counts. done.
  - intros Hk%IH. destruct r as [[[picked fee] change]|e]; simpl in *.
    + destruct Hk as (before & k' & after & -> & ? & ? & ?). exists (k :: before), k', after.
      split_and!; [done..|]. by constructor.
    + destruct Hk as [->|[-> ?]]; [by left|right]. split; [done|]. by constructor.
Qed.
End reference.

(** ** The selection of a request *)

(** Enough rounds of the candidate loop for the whole budget. *)
Definition selection_fuel : nat := Z.to_nat (maxVtxoFeeProgramEvaluations + DustSats + 3).

Lemma acquire_Ok configured s u s' : acquireFeeSelection configured s = Some (Ok u, s') ->
  fs_evals s' = fs_evals s /\ fs_slots s' = fs_slots s + 1 /\ fs_slots s < feeSelectionLimit configured.
Proof using Type.
  unfold acquireFeeSelection. intros ([] & s1 & E & Hk)%bindM_Ok. revert E. unfold observe_ctx.
  destruct (ctx_Err _); [done|]. intros [= <-]. revert Hk. unfold takeSlot. simpl.
  destruct (Z.ltb_spec (fs_slots s) (feeSelectionLimit configured)); [|done]. by intros [= _ <-].
Qed.

Lemma selectCoins_answers fuel estimator vtxos pk dest amount cap s :
  cap < uint64_max -> (selection_fuel <= fuel)%nat ->
  exists r s', selectCoins fuel estimator vtxos pk dest amount cap s = Some (r, s') /\
    Z.of_nat (fs_evals s') <= Z.of_nat (fs_evals s) + maxVtxoFeeProgramEvaluations /\ fs_slots s' = fs_slots s.
Proof using Type.
  unfold selection_fuel, maxVtxoFeeProgramEvaluations, DustSats. intros Hcap Hf.
  unfold selectCoins. rewrite (bindM_step _ _ _ _ _ eq_refl). set (s0 := set_remaining _ s).
  set (m := x ← vtxosToCoins _ _ _; _).
  assert (Hkeep : keeps spends m) by (subst m; pose proof keeps_vtxosToCoins; pose proof keeps_tryCounts; keeps).
  assert (Htot : m s0 <> None).
  { subst m. apply bindM_total; [apply vtxosToCoins_total|]. intros coins s1 [? ? Hs1 _]%keeps_vtxosToCoins.
    apply bindM_total; [done|]. intros ordered s2 [= _ <-].
    apply tryCounts_total; [done|by apply Hs1|]. unfold DustSats. simpl in *. unfold maxVtxoFeeProgramEvaluations in *. lia. }
  destruct (m s0) as [[r s']|] eqn:E; [|done]. exists r, s'. apply Hkeep in E as [? ? Hl ?].
  split_and!; [done| |done]. simpl in *. unfold maxVtxoFeeProgramEvaluations in *. lia.
Qed.

Lemma acquire_answers configured s : exists r s', acquireFeeSelection configured s = Some (r, s') /\
  fs_evals s' = fs_evals s /\ fs_slots s' = fs_slots s + match r with Ok _ => 1 | Err _ => 0 end.
Proof using Type.
  unfold acquireFeeSelection, mbind, M_bind, observe_ctx. destruct (ctx_Err _).
  - eexists _, _. split_and!; [done..|simpl; lia].
  - unfold takeSlot. simpl. destruct (_ <? _); eexists _, _; split_and!; try done. simpl. lia.
Qed.

Lemma selection_answers fuel configured estimator vtxos pk dest amount cap s :
  cap <= int64_max -> (selection_fuel <= fuel)%nat ->
  exists r s', selectSpendVtxos fuel configured estimator vtxos pk dest amount cap s = Some (r, s') /\
    Z.of_nat (fs_evals s') <= Z.of_nat (fs_evals s) + maxVtxoFeeProgramEvaluations /\ fs_slots s' = fs_slots s.
Proof using Type.
  intros Hcap Hf. unfold selectSpendVtxos. destruct vtxos as [vtxos|e].
  2:{ eexists _, s. split_and!; [done| |done]. unfold maxVtxoFeeProgramEvaluations. lia. }
  destruct (acquire_answers configured s) as (ra & s1 & E1 & Hev & Hsl). destruct ra as [u|e].
  - rewrite (bindM_step _ _ _ _ _ E1).
    destruct (selectCoins_answers fuel estimator vtxos pk dest amount cap s1) as (r & s2 & E2 & Hb & Hs);
      [unfold int64_max, uint64_max in *; lia|done|].
    exists r, (releaseFeeSelection s2). unfold defer. rewrite E2. split_and!; [done|simpl; lia|simpl; lia].
  - rewrite (bindM_fail _ _ _ _ _ E1). exists (Err e), s1. split_and!; [done| |lia].
    unfold maxVtxoFeeProgramEvaluations. lia.
Qed.

(** [C36] Termination within the budget: with fuel for the whole budget every
    selection answers, whatever the Operator's programs return and whenever the
    request is cancelled; it makes at most 20000 evaluations of those programs
    and leaves the selection slots as it found them, errors included. *)
Theorem selection_terminates_within_budget fuel configured estimator vtxos pk dest amount cap s :
  cap <= int64_max -> (selection_fuel <= fuel)%nat ->
  exists r s', selectSpendVtxos fuel configured estimator vtxos pk dest amount cap s = Some (r, s') /\
    Z.of_nat (fs_evals s') <= Z.of_nat (fs_evals s) + maxVtxoFeeProgramEvaluations /\ fs_slots s' = fs_slots s.
Proof using Type. apply selection_answers. Qed.

(** [C28] A selection is sound: the chosen outputs are listed by the indexer for
    the vault's script, distinct, at most 50, in outpoint order; their value is
    exactly the amount, the fee and the change; the change is absent or above
    dust; the fee is within the cap and is what the Operator's programs asked
    for exactly these inputs and outputs. *)
Theorem selection_is_sound fuel configured estimator vtxos pk dest amount cap s picked fee change s' :
  cap <= int64_max ->
  selectSpendVtxos fuel configured estimator (Ok vtxos) pk dest amount cap s = Some (Ok (picked, fee, change), s') ->
  selection estimator vtxos pk dest amount cap picked fee change.
Proof using Type.
  intros Hcap. unfold selectSpendVtxos. intros (u & s1 & _ & Hk)%bindM_Ok. revert Hk. unfold defer.
  destruct (selectCoins _ _ _ _ _ _ _ s1) as [[r s2]|] eqn:E; [|done]. intros [= -> _].
  eapply selectCoins_Ok; [|exact E]. unfold int64_max, uint64_max in *. lia.
Qed.

(** [C29] Against a steady Operator the search is optimal: the answer takes the
    fewest coins (best first) that can pay and the least fee that is the
    Operator's fee for the change it leaves; "insufficient" is answered only
    when no count of coins can pay; otherwise the budget ran out. *)
Theorem selection_is_optimal fuel estimator coins pk dest amount cap n s r s' :
  steady estimator -> cap <= int64_max -> Forall (fun c => 0 <= rc_ValueSats c) coins ->
  zsum rc_ValueSats coins <= uint64_max ->
  tryCounts fuel estimator (merge_sort effective_le coins) pk dest amount cap (seq 1 n) s = Some (r, s') ->
  optimal estimator (merge_sort effective_le coins) pk dest amount cap (seq 1 n) r.
Proof using Type.
  intros Hst Hcap Hpos Hsum. apply tryCounts_exact; [done|unfold int64_max, uint64_max in *; lia| |].
  - by rewrite merge_sort_Permutation.
  - by rewrite (zsum_perm _ _ _ (merge_sort_Permutation effective_le coins)).
Qed.
End selection.

(** ** A concrete Operator: 250 sats, 500 with a change, nothing for an input *)

Definition float_of (z : Z) : spec_float := binary_normalize 53 1024 z 0 false.

#[local] Instance example_text : ErrorText := fun _ => "".
#[local] Instance example_operator : FeeEnv := {|
  Estimator := unit;
  arkfee_New := fun _ => Some tt;
  EvalOffchainInput := fun _ _ _ => Some (float_of 0);
  Eval := fun _ _ _ outs => Some (float_of (if zlen outs =? 1 then 250 else 500));
  ctx_Err := fun _ => None
|}.

Definition example_pk : bytes := [x51; x20; x01].
Definition example_dest : bytes := [x51; x20; x02].
Definition example_listed (n : nat) : list ResolvedVtxo :=
  map (fun i => MkResolvedVtxo (hex_encode (be_bytes 32 (Z.of_nat i))) 0 1000 example_pk 0 None false []) (seq 1 n).
Definition example_start : FeeState := MkFeeState 0 0 0 0.
Definition example_est : @Estimator example_operator := tt.
Definition example_run (n : nat) (amount : Z) :=
  selectSpendVtxos selection_fuel 0 tt (Ok (example_listed n)) example_pk example_dest amount 5000 example_start.

(** Fifty fragments pay 49001 with a fee of 500 and a change of 499. *)
Definition answer_shape (a : option (result (list reservedCoin * Z * Z) * FeeState)) : option (Z * Z * Z) :=
  match a with Some (Ok (picked, fee, change), _) => Some (zlen picked, fee, change) | _ => None end.

Example fragmented_selection : answer_shape (example_run 50 49001) = Some (50, 500, 499).
Proof. vm_compute. reflexivity. Qed.

Lemma selection_terminates_within_budget_witness :
  5000 <= int64_max /\
  exists r s', selectSpendVtxos selection_fuel 0 example_est (Ok (example_listed 50)) example_pk example_dest 49001 5000 example_start = Some (r, s') /\
    Z.of_nat (fs_evals s') <= 0 + maxVtxoFeeProgramEvaluations /\ fs_slots s' = 0.
Proof.
  split; [vm_compute; discriminate|].
  apply (selection_terminates_within_budget selection_fuel 0 example_est (Ok (example_listed 50)) example_pk example_dest 49001 5000 example_start);
    [vm_compute; discriminate|lia].
Defined.

Lemma selection_is_sound_witness : exists picked fee change s',
  example_run 3 1001 = Some (Ok (picked, fee, change), s') /\
  selection example_est (example_listed 3) example_pk example_dest 1001 5000 picked fee change.
Proof.
  destruct (example_run 3 1001) as [[[[[picked fee] change]|e] s']|] eqn:E; [|vm_compute in E; discriminate..].
  exists picked, fee, change, s'. split; [reflexivity|].
  apply (selection_is_sound selection_fuel 0 example_est (example_listed 3) example_pk example_dest 1001 5000 example_start picked fee change s');
    [vm_compute; discriminate|exact E].
Defined.

Lemma example_steady : steady example_est.
Proof.
  split; [done| |done]. intros ins outs. unfold quote. cbn [Eval example_operator].
  destruct (zlen outs =? 1); eexists; vm_compute; reflexivity.
Qed.

Definition example_coins : list reservedCoin :=
  map (fun i => MkCoin (be_bytes 32 i) 0 1000 example_pk (MkOffchainInput 1000 0 None VtxoTypeNote (S754_zero false)) 1000) [1; 2; 3].

Definition example_budget : FeeState := MkFeeState 0 0 20000 1.

Lemma selection_is_optimal_witness : exists r s',
  tryCounts selection_fuel example_est (merge_sort effective_le example_coins) example_pk example_dest 1001 5000 (seq 1 3) example_budget
    = Some (r, s') /\
  optimal example_est (merge_sort effective_le example_coins) example_pk example_dest 1001 5000 (seq 1 3) r.
Proof.
  destruct (tryCounts selection_fuel example_est (merge_sort effective_le example_coins) example_pk example_dest 1001 5000
    (seq 1 3) example_budget) as [[r s']|] eqn:E; [|vm_compute in E; discriminate].
  exists r, s'. split; [reflexivity|].
  apply (selection_is_optimal selection_fuel example_est example_coins example_pk example_dest 1001 5000 3 example_budget r s');
    [apply example_steady|vm_compute; discriminate|repeat constructor; done|vm_compute; discriminate|exact E].
Defined.
