(* ===== verification/Psbt.v ===== *)
(** * Partially signed transactions and the signing guard

    [internal/application/psbtguard.go], [internal/vault/prevout.go] and
    [internal/vault/schnorr.go]: what is imported from a signer, and what a
    signature is verified against.  The serialization of a packet, the
    transaction and tapscript hashes and the Schnorr group are third-party code
    (btcd, arkade) and enter through the class [Btc]; packets and transactions
    are records with the fields the source reads and the others kept aside.
    A packet a handler works on comes from a parser, so it is never nil. *)

From S2P Require Import Prelude Crypto.
From Stdlib Require Import Strings.Byte Strings.Ascii Strings.String.
From stdpp Require Import base decidable list strings gmap countable option.
From Stdlib Require Import ZArith Lia.
Open Scope string_scope.
Open Scope list_scope.
Open Scope Z_scope.

(** ** Data: [wire.MsgTx] and [psbt.Packet] *)

Definition OutPoint : Type := bytes * Z.

Record TxIn := MkTxIn { ti_PreviousOutPoint : OutPoint; ti_Sequence : Z; ti_SignatureScript : bytes; ti_Witness : list bytes }.
Record TxOut := MkTxOut { to_Value : Z; to_PkScript : bytes }.
Record MsgTx := MkMsgTx { tx_Version : Z; tx_LockTime : Z; tx_TxIn : list TxIn; tx_TxOut : list TxOut }.

Record TapLeafScript := MkTapLeafScript { tl_ControlBlock : bytes; tl_Script : bytes; tl_LeafVersion : Z }.
Record SpendSig := MkSpendSig { ss_XOnlyPubKey : bytes; ss_LeafHash : bytes; ss_Signature : bytes; ss_SigHash : Z }.

(** The pointers of the two Taproot lists may be nil.  [pi_Other] stands for the
    remaining fields of the input map. *)
Record PInput := MkPInput {
  pi_WitnessUtxo : option TxOut; pi_SighashType : Z;
  pi_TaprootLeafScript : list (option TapLeafScript); pi_TaprootScriptSpendSig : list (option SpendSig);
  pi_Other : list (bytes * bytes)
}.

Record Packet := MkPacket {
  pk_UnsignedTx : option MsgTx; pk_Inputs : list PInput; pk_Outputs : list (list (bytes * bytes));
  pk_Unknowns : list (option (bytes * bytes))
}.

#[export] Instance TxIn_eq_dec : EqDecision TxIn. Proof. solve_decision. Defined.
#[export] Instance TxOut_eq_dec : EqDecision TxOut. Proof. solve_decision. Defined.
#[export] Instance SpendSig_eq_dec : EqDecision SpendSig. Proof. solve_decision. Defined.

Definition set_sigs (sigs : list (option SpendSig)) (i : PInput) : PInput :=
  MkPInput (pi_WitnessUtxo i) (pi_SighashType i) (pi_TaprootLeafScript i) sigs (pi_Other i).
Definition set_inputs (ins : list PInput) (p : Packet) : Packet :=
  MkPacket (pk_UnsignedTx p) ins (pk_Outputs p) (pk_Unknowns p).

(** [in.TaprootScriptSpendSig = append(in.TaprootScriptSpendSig, sig)] *)
Definition add_sig (sig : SpendSig) (i : PInput) : PInput := set_sigs (pi_TaprootScriptSpendSig i ++ [Some sig]) i.

Definition SigHashDefault : Z := 0.
Definition SigHashAll : Z := 1.
Definition BaseLeafVersion : Z := 0xc0.
Definition MaxTxInSequenceNum : Z := uint32_max.
Definition PubKeyBytesLen : Z := 32.

(** A source of previous outputs: [txscript.PrevOutputFetcher]. *)
Definition Fetcher : Type := OutPoint -> option TxOut.

Class Btc := {
  PublicKey : Type;
  SchnorrSig : Type;
  NewFromRawBytes : string -> result Packet;                     (* base64 *)
  B64Encode : Packet -> result string;
  TxHash : MsgTx -> bytes;
  TapHash : bytes -> bytes;                                      (* NewBaseTapLeaf(script).TapHash() *)
  CalcTapscriptSignaturehash : Fetcher -> Z -> MsgTx -> nat -> bytes -> result bytes;
  RawTxInTapscriptSignature : Fetcher -> MsgTx -> nat -> Z -> bytes -> bytes -> Z -> Z -> result bytes;
  ParseSignature : bytes -> result SchnorrSig;
  ParseXOnly : bytes -> result PublicKey;                        (* schnorr.ParsePubKey *)
  VerifySig : SchnorrSig -> bytes -> PublicKey -> bool;
  SerializeXOnly : PublicKey -> bytes;                           (* schnorr.SerializePubKey *)
  PubKey : Z -> PublicKey;                                       (* of a private scalar *)
  PrevoutTxFields : Packet -> nat -> result (list MsgTx)         (* txutils.GetArkPsbtFields *)
}.

Section guard.
Context `{Btc}.

(** ** Reading packets *)

Definition parsePSBT (raw : string) : result Packet :=
  require (negb (seqb raw "")) (Errorf "psbt required");;
  ptx ← wrap "psbt" (NewFromRawBytes raw);
  match pk_UnsignedTx ptx with
  | None => Err (Errorf "psbt required")
  | Some tx =>
      require (zlen (pk_Inputs ptx) =? zlen (tx_TxIn tx)) (Errorf "psbt input count");;
      Ok ptx
  end.

Definition clonePacket (p : Packet) : result Packet := encoded ← B64Encode p; NewFromRawBytes encoded.

(** ** Signatures on an input *)

(** [multiWitnessFetcher]: a later input of the same outpoint wins. *)
Definition multiWitnessFetcher (ptx : Packet) (tx : MsgTx) : Fetcher := fun op =>
  fold_left (fun found io =>
    if bool_decide (ti_PreviousOutPoint io.1 = op) then
      match pi_WitnessUtxo io.2 with Some o => Some o | None => found end
    else found) (combine (tx_TxIn tx) (pk_Inputs ptx)) None.

(** [txscript.NewCannedPrevOutputFetcher] *)
Definition cannedFetcher (out : TxOut) : Fetcher := fun _ => Some out.

(** The digest, the signature and the key, and the verification. *)
Definition verifySchnorr (digest : result bytes) (sig wantXOnly : bytes) : result unit :=
  digest ← digest;
  parsed ← ParseSignature sig;
  pub ← ParseXOnly wantXOnly;
  require (VerifySig parsed digest pub) (Errorf "invalid").

Definition verifySchnorrOnInputWithSighash (ptx : Packet) (idx : nat) (sig wantXOnly leafScript : bytes) (sigHash : Z) : result unit :=
  match pk_UnsignedTx ptx, pk_Inputs ptx !! idx with
  | Some tx, Some input =>
      require (bool_decide (idx < length (tx_TxIn tx))%nat) (Errorf "input index");;
      require (zlen sig =? 64) (Errorf "signature length");;
      require (bool_decide (is_Some (pi_WitnessUtxo input))) (Errorf "witness utxo required");;
      verifySchnorr (CalcTapscriptSignaturehash (multiWitnessFetcher ptx tx) sigHash tx idx leafScript) sig wantXOnly
  | _, _ => Err (Errorf "input index")
  end.

(** [vault.VerifySchnorrOnSubmittedTx] *)
Definition VerifySchnorrOnSubmittedTx (ptx : Packet) (sig wantXOnly leafScript : bytes) : result unit :=
  match pk_UnsignedTx ptx, pk_Inputs ptx with
  | Some tx, [input] =>
      require (zlen (tx_TxIn tx) =? 1) (Errorf "exactly one submitted input required");;
      require (zlen sig =? 64) (Errorf "signature length");;
      match pi_WitnessUtxo input with
      | None => Err (Errorf "witness utxo required")
      | Some prev => verifySchnorr (CalcTapscriptSignaturehash (cannedFetcher prev) SigHashDefault tx 0 leafScript) sig wantXOnly
      end
  | _, _ => Err (Errorf "exactly one submitted input required")
  end.

(** [vault.RequireVerifiedPrevout]: the Arkade prevout field is the transaction
    the input spends and agrees with the witness output. *)
Definition RequireVerifiedPrevout (ptx : Packet) : result MsgTx :=
  match pk_UnsignedTx ptx, pk_Inputs ptx with
  | Some tx, [input] =>
      match tx_TxIn tx, pi_WitnessUtxo input with
      | [txin], Some got =>
          fields ← PrevoutTxFields ptx 0;
          match fields with
          | [prev] =>
              let op := ti_PreviousOutPoint txin in
              require (beqb (TxHash prev) op.1) (Errorf "prevout tx hash mismatch");;
              match tx_TxOut prev !! Z.to_nat op.2 with
              | None => Err (Errorf "prevout vout out of range")
              | Some want =>
                  require ((to_Value got =? to_Value want) && beqb (to_PkScript got) (to_PkScript want))
                    (Errorf "witness utxo does not match prevout");;
                  Ok prev
              end
          | _ => Err (Errorf "PrevoutTxField required")
          end
      | [_], None => Err (Errorf "witness utxo required")
      | _, _ => Err (Errorf "exactly one input required")
      end
  | _, _ => Err (Errorf "exactly one input required")
  end.

Definition parseAndVerifyPrevout (raw : string) : result (Packet * MsgTx) :=
  ptx ← wrap "psbt" (NewFromRawBytes raw);
  prev ← RequireVerifiedPrevout ptx;
  Ok (ptx, prev).

(** [signTapLeafAtWithSighash]; a 65-byte signature drops its sighash byte. *)
Definition signTapLeafAtWithSighash (ptx : Packet) (idx : nat) (priv : Z) (leafScript : bytes) (sigHash : Z) : result SpendSig :=
  match pk_UnsignedTx ptx, pk_Inputs ptx !! idx with
  | Some tx, Some input =>
      require (bool_decide (idx < length (tx_TxIn tx))%nat) (Errorf "input index");;
      match pi_WitnessUtxo input with
      | None => Err (Errorf "witness utxo required")
      | Some prev =>
          sig ← RawTxInTapscriptSignature (multiWitnessFetcher ptx tx) tx idx (to_Value prev) (to_PkScript prev) leafScript sigHash priv;
          let sig := if zlen sig =? 65 then take 64 sig else sig in
          Ok (MkSpendSig (SerializeXOnly (PubKey priv)) (TapHash leafScript) sig sigHash)
      end
  | _, _ => Err (Errorf "input index")
  end.

(** ** Our own signatures *)

(** One input of the stage: exactly the expected leaf and sighash, signed on the
    working copy, verified on the submitted packet, added to the outgoing one. *)
Definition signArkInput (submitted work : Packet) (priv : Z) (expectedXOnly expectedLeaf : bytes) (wantSigHash : Z)
    (out : Packet) (i : nat) : result Packet :=
  match pk_Inputs work !! i with
  | None => Err (Errorf "input index")
  | Some input =>
      match pi_TaprootLeafScript input with
      | [Some leaf] =>
          require (beqb (tl_Script leaf) expectedLeaf) (Errorf "unexpected tapleaf");;
          require (pi_SighashType input =? wantSigHash) (Errorf "unexpected input sighash");;
          added ← signTapLeafAtWithSighash work i priv expectedLeaf wantSigHash;
          match verifySchnorrOnInputWithSighash submitted i (ss_Signature added) expectedXOnly expectedLeaf wantSigHash with
          | Err _ => Err (Errorf "vtxo vault signature invalid")
          | Ok _ => Ok (set_inputs (alter (add_sig added) i (pk_Inputs out)) out)
          end
      | _ => Err (Errorf "exactly one tapleaf required")
      end
  end.

(** [ctx] is what [ctx.Err()] answers. *)
Definition signExactArkStageWithSighash (ctx : option error) (stored : string) (priv : option Z)
    (expectedXOnly expectedLeaf : bytes) (wantSigHash : Z) : result string :=
  match ctx, priv with
  | Some e, _ => Err e
  | None, None => Err (Errorf "vtxo vault cosigner required")
  | None, Some priv =>
      require (zlen expectedXOnly =? 32) (Errorf "expected signer x-only key");;
      require (beqb (SerializeXOnly (PubKey priv)) expectedXOnly) (Errorf "signer key mismatch");;
      submitted ← parsePSBT stored;
      require (negb (zlen (pk_Inputs submitted) =? 0)) (Errorf "psbt input required");;
      work ← clonePacket submitted;
      out ← clonePacket submitted;
      require (negb (zlen expectedLeaf =? 0)) (Errorf "expected leaf required");;
      out ← foldR (signArkInput submitted work priv expectedXOnly expectedLeaf wantSigHash) out (seq 0 (length (pk_Inputs work)));
      require (negb (zlen (pk_Inputs work) =? 0)) (Errorf "collaborative leaf missing");;
      B64Encode out
  end.

Definition signExactArkStage (ctx : option error) (stored : string) (priv : option Z) (expectedXOnly expectedLeaf : bytes) : result string :=
  signExactArkStageWithSighash ctx stored priv expectedXOnly expectedLeaf SigHashDefault.

(** The boarding stage signs only the named inputs, each once. *)
Definition signBoardInput (submitted work : Packet) (priv : Z) (expectedXOnly expectedLeaf : bytes) (wantSigHash : Z)
    (st : Packet * list Z) (idx : Z) : result (Packet * list Z) :=
  let '(out, seen) := st in
  match pk_UnsignedTx work, (if idx <? 0 then None else pk_Inputs work !! Z.to_nat idx) with
  | Some tx, Some input =>
      require (idx <? zlen (tx_TxIn tx)) (Errorf "vault-board-v1 input index");;
      require (negb (bool_decide (idx ∈ seen))) (Errorf "vault-board-v1 duplicate input index");;
      match pi_TaprootLeafScript input with
      | [Some leaf] =>
          require (beqb (tl_Script leaf) expectedLeaf && (pi_SighashType input =? wantSigHash)) (Errorf "vault-board-v1 collaborative leaf");;
          require (negb (existsb (fun s => match s with Some s => beqb (ss_XOnlyPubKey s) expectedXOnly | None => false end)
                           (pi_TaprootScriptSpendSig input))) (Errorf "vault-board-v1 signature already present");;
          added ← signTapLeafAtWithSighash work (Z.to_nat idx) priv expectedLeaf wantSigHash;
          match verifySchnorrOnInputWithSighash submitted (Z.to_nat idx) (ss_Signature added) expectedXOnly expectedLeaf wantSigHash with
          | Err _ => Err (Errorf "vault-board-v1 signature invalid")
          | Ok _ => Ok (set_inputs (alter (add_sig added) (Z.to_nat idx) (pk_Inputs out)) out, idx :: seen)
          end
      | _ => Err (Errorf "vault-board-v1 collaborative leaf")
      end
  | _, _ => Err (Errorf "vault-board-v1 input index")
  end.

Definition signExactVaultBoardStage (ctx : option error) (stored : string) (priv : option Z)
    (expectedXOnly expectedLeaf : bytes) (inputIndexes : list Z) (wantSigHash : Z) : result string :=
  match ctx, priv with
  | Some e, _ => Err e
  | None, None => Err (Errorf "vault-board-v1 signer key mismatch")
  | None, Some priv =>
      require ((zlen expectedXOnly =? PubKeyBytesLen) && beqb (SerializeXOnly (PubKey priv)) expectedXOnly)
        (Errorf "vault-board-v1 signer key mismatch");;
      require (negb ((zlen expectedLeaf =? 0) || (zlen inputIndexes =? 0))) (Errorf "vault-board-v1 authorization required");;
      submitted ← parsePSBT stored;
      work ← clonePacket submitted;
      out ← clonePacket submitted;
      '(out, _) ← foldR (signBoardInput submitted work priv expectedXOnly expectedLeaf wantSigHash) (out, []) inputIndexes;
      B64Encode out
  end.

(** ** Importing a signature from a signer's answer *)

Definition same_sig (s want : SpendSig) : bool :=
  beqb (ss_XOnlyPubKey s) (ss_XOnlyPubKey want) && beqb (ss_LeafHash s) (ss_LeafHash want) &&
  beqb (ss_Signature s) (ss_Signature want) && (ss_SigHash s =? ss_SigHash want).

(** The first index of an equal original signature. *)
Fixpoint indexOriginalSig (before : list (option SpendSig)) (s : SpendSig) (i : nat) : option nat :=
  match before with
  | [] => None
  | Some want :: before => if same_sig s want then Some i else indexOriginalSig before s (S i)
  | None :: before => indexOriginalSig before s (S i)
  end.

(** The signatures of the answer that are not originals (each original matches once). *)
Fixpoint extraSigs (before : list (option SpendSig)) (matched : list nat) (answer : list (option SpendSig)) : list (option SpendSig) :=
  match answer with
  | [] => []
  | s :: answer =>
      match (s ← s; indexOriginalSig before s 0) with
      | Some i => if bool_decide (i ∈ matched) then s :: extraSigs before matched answer
                  else extraSigs before (i :: matched) answer
      | None => s :: extraSigs before matched answer
      end
  end.

(** What the loop does not skip. *)
Definition acceptable_sig (submitted : Packet) (leaf expectedXOnly : bytes) (extra : SpendSig) : bool :=
  (zlen (ss_Signature extra) =? 64) && beqb (ss_XOnlyPubKey extra) expectedXOnly && beqb (ss_LeafHash extra) (TapHash leaf)
  && (ss_SigHash extra =? SigHashDefault)
  && match VerifySchnorrOnSubmittedTx submitted (ss_Signature extra) expectedXOnly leaf with Ok _ => true | Err _ => false end.

Definition takeSig (submitted : Packet) (leaf expectedXOnly : bytes) (found : option SpendSig) (extra : option SpendSig)
  : result (option SpendSig) :=
  match extra with
  | Some extra =>
      if acceptable_sig submitted leaf expectedXOnly extra then
        require (negb (bool_decide (is_Some found))) (Errorf "expected exactly one new signer signature, got extra");;
        Ok (Some extra)
      else Ok found
  | None => Ok found
  end.

Definition one_input (p : Packet) (msg : string) : result PInput :=
  match pk_UnsignedTx p, pk_Inputs p with
  | Some tx, [input] => require (zlen (tx_TxIn tx) =? 1) (Errorf msg);; Ok input
  | _, _ => Err (Errorf msg)
  end.

Definition extractVerifiedSignerSig (submitted response : Packet) (expectedXOnly : bytes) : result SpendSig :=
  input ← one_input submitted "exactly one submitted input required";
  answer ← one_input response "malformed signed psbt";
  require (zlen expectedXOnly =? 32) (Errorf "expected signer x-only key");;
  match pi_WitnessUtxo input, pi_TaprootLeafScript input with
  | Some _, [Some leaf] =>
      found ← foldR (takeSig submitted (tl_Script leaf) expectedXOnly) None
                (extraSigs (pi_TaprootScriptSpendSig input) [] (pi_TaprootScriptSpendSig answer));
      match found with
      | None => Err (Errorf "expected exactly one new signer signature")
      | Some sig => Ok sig
      end
  | _, _ => Err (Errorf "submitted input missing leaf commitment")
  end.

(** [signer] is any function: the public Emulator is not trusted. *)
Definition signExactStage (stored : string) (signer : option (Packet -> result Packet)) (expectedXOnly : bytes) (role : string)
  : result string :=
  match signer with
  | None => Err (Errorf (role ++ " signer required"))
  | Some Sign =>
      '(submitted, _) ← wrap (role ++ " stored stage") (parseAndVerifyPrevout stored);
      work ← clonePacket submitted;
      response ← wrap role (Sign work);
      added ← wrap (role ++ " response") (extractVerifiedSignerSig submitted response expectedXOnly);
      out ← clonePacket submitted;
      B64Encode (set_inputs (alter (add_sig added) 0%nat (pk_Inputs out)) out)
  end.

(** ** What the stages produce *)

(** [out] is [c] with one more signature on each input of [named]: nothing else
    of the packet differs. *)
Record signed_at (sig_ok : nat -> SpendSig -> Prop) (named : gset nat) (c out : Packet) : Prop := {
  sa_tx : pk_UnsignedTx out = pk_UnsignedTx c;
  sa_outputs : pk_Outputs out = pk_Outputs c;
  sa_unknowns : pk_Unknowns out = pk_Unknowns c;
  sa_length : length (pk_Inputs out) = length (pk_Inputs c);
  sa_named : forall i input, i ∈ named -> pk_Inputs c !! i = Some input ->
    exists sig, sig_ok i sig /\ pk_Inputs out !! i = Some (add_sig sig input);
  sa_others : forall i, i ∉ named -> pk_Inputs out !! i = pk_Inputs c !! i
}.

Lemma signed_at_empty ok c : signed_at ok ∅ c c.
Proof using Type. by split; [done..|set_solver|]. Qed.

Lemma signed_at_add (ok : nat -> SpendSig -> Prop) named c out i sig : signed_at ok named c out -> i ∉ named -> ok i sig ->
  signed_at ok ({[i]} ∪ named) c (set_inputs (alter (add_sig sig) i (pk_Inputs out)) out).
Proof using Type.
  intros [Htx Ho Hu Hl Hn Hr] Hi Hok. split; simpl; try done.
  - by rewrite length_alter.
  - intros j input [->%elem_of_singleton|Hj]%elem_of_union Hc.
    + exists sig. split; [done|]. by rewrite list_lookup_alter_eq, Hr, Hc.
    + destruct (Hn j input Hj Hc) as (s & ? & E). exists s. split; [done|].
      rewrite list_lookup_alter_ne; [done|]. intros <-. done.
  - intros j Hj. rewrite list_lookup_alter_ne by set_solver. apply Hr. set_solver.
Qed.

(** A signature the guard lets out: of the expected key, for the expected leaf
    and sighash, verified on the submitted packet. *)
Definition guarded_sig (submitted : Packet) (xonly leaf : bytes) (sighash : Z) (i : nat) (sig : SpendSig) : Prop :=
  ss_XOnlyPubKey sig = xonly /\ ss_LeafHash sig = TapHash leaf /\ ss_SigHash sig = sighash /\
  verifySchnorrOnInputWithSighash submitted i (ss_Signature sig) xonly leaf sighash = Ok tt.

Lemma signTapLeaf_Ok ptx i priv leaf sighash sig : signTapLeafAtWithSighash ptx i priv leaf sighash = Ok sig ->
  ss_XOnlyPubKey sig = SerializeXOnly (PubKey priv) /\ ss_LeafHash sig = TapHash leaf /\ ss_SigHash sig = sighash.
Proof using Type.
  unfold signTapLeafAtWithSighash. destruct (pk_UnsignedTx ptx) as [tx|]; [|done]. destruct (pk_Inputs ptx !! i) as [input|]; [|done].
  intros ([] & _ & Hk)%bind_Ok. destruct (pi_WitnessUtxo input); [|done].
  apply bind_Ok in Hk as (raw & _ & [= <-]). done.
Qed.

Lemma signArkInput_Ok submitted work priv xonly leaf sighash out i out' :
  SerializeXOnly (PubKey priv) = xonly ->
  signArkInput submitted work priv xonly leaf sighash out i = Ok out' ->
  exists sig, guarded_sig submitted xonly leaf sighash i sig /\ out' = set_inputs (alter (add_sig sig) i (pk_Inputs out)) out.
Proof using Type.
  intros Hx. unfold signArkInput. destruct (pk_Inputs work !! i) as [input|]; [|done].
  destruct (pi_TaprootLeafScript input) as [|[l|] [|? ?]]; try done.
  intros ([] & _ & ([] & _ & (sig & Hs & Hk)%bind_Ok)%bind_Ok)%bind_Ok.
  destruct (verifySchnorrOnInputWithSighash _ _ _ _ _ _) as [[]|] eqn:Ev; [|done]. injection Hk as <-.
  exists sig. split; [|done]. apply signTapLeaf_Ok in Hs as (E1 & E2 & E3). unfold guarded_sig. rewrite E1. done.
Qed.

Lemma signArk_loop submitted work priv xonly leaf sighash n : forall a named c out out',
  SerializeXOnly (PubKey priv) = xonly -> (forall i, i ∈ named -> (i < a)%nat) ->
  signed_at (guarded_sig submitted xonly leaf sighash) named c out ->
  foldR (signArkInput submitted work priv xonly leaf sighash) out (seq a n) = Ok out' ->
  signed_at (guarded_sig submitted xonly leaf sighash) (list_to_set (seq a n) ∪ named) c out'.
Proof using Type.
  induction n as [|n IH]; intros a named c out out' Hx Hlt Hsa; simpl.
  - intros [= <-]. by rewrite union_empty_l_L.
  - intros (o1 & (sig & Hg & ->)%signArkInput_Ok & Hk)%bind_Ok; [|done].
    apply (IH _ ({[a]} ∪ named) c) in Hk; [|done| |].
    + replace ({[a]} ∪ list_to_set (seq (S a) n) ∪ named : gset nat) with (list_to_set (seq (S a) n) ∪ ({[a]} ∪ named) : gset nat) by set_solver.
      done.
    + intros i [->%elem_of_singleton|Hi]%elem_of_union; [lia|]. apply Hlt in Hi. lia.
    + apply signed_at_add; [done| |done]. intros Ha%Hlt. lia.
Qed.

(** [encoded] is the stage [stored] with one guarded signature on every input. *)
Definition ark_stage (stored encoded : string) (xonly leaf : bytes) (sighash : Z) : Prop :=
  exists submitted c out, parsePSBT stored = Ok submitted /\ clonePacket submitted = Ok c /\ B64Encode out = Ok encoded /\
    pk_Inputs c <> [] /\
    signed_at (guarded_sig submitted xonly leaf sighash) (list_to_set (seq 0 (length (pk_Inputs c)))) c out.

Lemma ark_stage_of ctx stored priv xonly leaf sighash encoded :
  signExactArkStageWithSighash ctx stored priv xonly leaf sighash = Ok encoded -> ark_stage stored encoded xonly leaf sighash.
Proof using Type.
  unfold ark_stage, signExactArkStageWithSighash. destruct ctx as [e|]; [done|]. destruct priv as [priv|]; [|done].
  intros ([] & _ & ([] & Hx%require_Ok & (submitted & Hp & ([] & _ & (work & Hw & (c & Hc & Hk)%bind_Ok)%bind_Ok)%bind_Ok)%bind_Ok)%bind_Ok)%bind_Ok.
  apply beqb_true in Hx. rewrite Hw in Hc. injection Hc as ->.
  apply bind_Ok in Hk as ([] & _ & (out & Hl & ([] & Hne%require_Ok & Hb)%bind_Ok)%bind_Ok).
  exists submitted, c, out. split_and!; [done..| |].
  - intros E. by rewrite E in Hne.
  - apply (signArk_loop _ _ _ _ _ _ _ 0 ∅ c c) in Hl; [|done|set_solver|apply signed_at_empty].
    by rewrite union_empty_r_L in Hl.
Qed.

(** A stage of boarding: the same on the named inputs, no input twice. *)
Lemma signBoard_loop submitted work priv xonly leaf sighash idxs : forall seen c out out' seen',
  SerializeXOnly (PubKey priv) = xonly -> Forall (fun i => 0 <= i) seen ->
  signed_at (guarded_sig submitted xonly leaf sighash) (list_to_set (map Z.to_nat seen)) c out ->
  foldR (signBoardInput submitted work priv xonly leaf sighash) (out, seen) idxs = Ok (out', seen') ->
  signed_at (guarded_sig submitted xonly leaf sighash) (list_to_set (map Z.to_nat idxs) ∪ list_to_set (map Z.to_nat seen)) c out' /\
  NoDup idxs /\ (forall i, i ∈ idxs -> i ∉ seen).
Proof using Type.
  induction idxs as [|idx idxs IH]; intros seen c out out' seen' Hx Hpos Hsa.
  - intros [= <- <-]. simpl. rewrite union_empty_l_L. split_and!; [done|constructor|set_solver].
  - rewrite foldR_cons. intros ([o1 s1] & Hs & Hk)%bind_Ok. unfold signBoardInput in Hs.
    destruct (pk_UnsignedTx work) as [tx|]; [|done]. destruct (Z.ltb_spec idx 0) as [|Hi]; [done|].
    destruct (pk_Inputs work !! Z.to_nat idx) as [input|]; [|done].
    apply bind_Ok in Hs as ([] & _ & ([] & Hseen%require_Ok & Hs)%bind_Ok).
    destruct (pi_TaprootLeafScript input) as [|[l|] [|? ?]]; try done.
    apply bind_Ok in Hs as ([] & _ & ([] & _ & (sig & Hs & Hv)%bind_Ok)%bind_Ok).
    destruct (verifySchnorrOnInputWithSighash _ _ _ _ _ _) as [[]|] eqn:Ev; [|done]. injection Hv as <- <-.
    bool_prop. apply signTapLeaf_Ok in Hs as (E1 & E2 & E3).
    apply (IH _ c) in Hk as (Hr & Hnd & Hout); [|done|by constructor|].
    + split_and!.
      * replace (list_to_set (map Z.to_nat (idx :: idxs)) ∪ list_to_set (map Z.to_nat seen) : gset nat)
          with (list_to_set (map Z.to_nat idxs) ∪ list_to_set (map Z.to_nat (idx :: seen)) : gset nat) by (simpl; set_solver). done.
      * constructor; [|done]. intros Hin. specialize (Hout idx Hin). set_solver.
      * intros i [->|Hin]%elem_of_cons; [done|]. specialize (Hout i Hin). set_solver.
    + simpl. apply signed_at_add; [done| |by unfold guarded_sig; rewrite E1].
      intros (j & E & Hj)%elem_of_list_to_set%list_elem_of_fmap_1. rewrite list.Forall_forall in Hpos. specialize (Hpos j Hj).
      apply Z2Nat.inj in E; [|done|done]. subst. done.
Qed.

Definition board_stage (stored encoded : string) (xonly leaf : bytes) (idxs : list Z) (sighash : Z) : Prop :=
  exists submitted c out, parsePSBT stored = Ok submitted /\ clonePacket submitted = Ok c /\ B64Encode out = Ok encoded /\ NoDup idxs /\
    signed_at (guarded_sig submitted xonly leaf sighash) (list_to_set (map Z.to_nat idxs)) c out.

Lemma board_stage_of ctx stored priv xonly leaf idxs sighash encoded :
  signExactVaultBoardStage ctx stored priv xonly leaf idxs sighash = Ok encoded -> board_stage stored encoded xonly leaf idxs sighash.
Proof using Type.
  unfold board_stage, signExactVaultBoardStage. destruct ctx as [e|]; [done|]. destruct priv as [priv|]; [|done].
  intros ([] & Hx%require_Ok & ([] & _ & (submitted & Hp & (work & Hw & (c & Hc & ([out seen] & Hl & Hb)%bind_Ok)%bind_Ok)%bind_Ok)%bind_Ok)%bind_Ok)%bind_Ok.
  bool_prop. apply signBoard_loop with (c := c) in Hl as (Hs & Hn & _); [|by apply beqb_true|constructor|apply signed_at_empty].
  exists submitted, c, out. simpl in Hs. rewrite union_empty_r_L in Hs. done.
Qed.

(** The cosigner's stage adds exactly one signature to every input, of the
    expected key, for exactly the expected leaf and sighash and verified on the
    packet that was submitted; nothing else of the packet changes. *)
Theorem ark_stage_adds_one_signature ctx stored priv xonly leaf sighash encoded :
  signExactArkStageWithSighash ctx stored priv xonly leaf sighash = Ok encoded ->
  exists submitted c out, parsePSBT stored = Ok submitted /\ clonePacket submitted = Ok c /\ B64Encode out = Ok encoded /\
    pk_Inputs c <> [] /\
    signed_at (guarded_sig submitted xonly leaf sighash) (list_to_set (seq 0 (length (pk_Inputs c)))) c out.
Proof using Type. apply ark_stage_of. Qed.

Lemma takeSig_loop submitted leaf xonly extras found sig :
  (forall s, found = Some s -> acceptable_sig submitted leaf xonly s = true) ->
  foldR (takeSig submitted leaf xonly) found extras = Ok (Some sig) -> acceptable_sig submitted leaf xonly sig = true.
Proof using Type.
  revert found. induction extras as [|extra extras IH]; intros found Hf; [intros [= ->]; by apply Hf|].
  rewrite foldR_cons. intros (o & Ho & Hk)%bind_Ok. apply IH in Hk; [done|]. revert Ho. unfold takeSig.
  destruct extra as [extra|]; [|by intros [= <-]].
  destruct (acceptable_sig submitted leaf xonly extra) eqn:Ea; [|by intros [= <-]].
  intros ([] & _ & [= <-])%bind_Ok. by intros s [= <-].
Qed.

Lemma one_input_Ok p msg input : one_input p msg = Ok input -> pk_Inputs p = [input].
Proof using Type.
  unfold one_input. destruct (pk_UnsignedTx p); [|done]. destruct (pk_Inputs p) as [|i [|? ?]]; try done.
  by intros ([] & _ & [= ->])%bind_Ok.
Qed.

(** [C30] A signer's answer can only contribute one signature: whatever an
    untrusted signer returns, the outgoing stage is the submitted packet with one
    signature of the expected key added to its only input, verified on the
    submitted packet, for the leaf it committed to. *)
Theorem hostile_signer_contributes_one_signature stored Sign xonly role encoded :
  signExactStage stored (Some Sign) xonly role = Ok encoded ->
  exists submitted prev c sig input leaf, parseAndVerifyPrevout stored = Ok (submitted, prev) /\ clonePacket submitted = Ok c /\
    pk_Inputs submitted = [input] /\ pi_TaprootLeafScript input = [Some leaf] /\
    ss_XOnlyPubKey sig = xonly /\ ss_LeafHash sig = TapHash (tl_Script leaf) /\ ss_SigHash sig = SigHashDefault /\
    VerifySchnorrOnSubmittedTx submitted (ss_Signature sig) xonly (tl_Script leaf) = Ok tt /\
    B64Encode (set_inputs (alter (add_sig sig) 0%nat (pk_Inputs c)) c) = Ok encoded.
Proof using Type.
  unfold signExactStage.
  intros ([submitted prev] & Hs%wrap_Ok & (work & Hw & (response & _ & (sig & Hsig%wrap_Ok & (c & Hc & Hk)%bind_Ok)%bind_Ok)%bind_Ok)%bind_Ok)%bind_Ok.
  apply bind_Ok in Hsig as (input & Hin%one_input_Ok & (answer & _ & ([] & _ & Hf)%bind_Ok)%bind_Ok).
  destruct (pi_WitnessUtxo input); [|done]. destruct (pi_TaprootLeafScript input) as [|[leaf|] [|? ?]] eqn:Hleaf; try done.
  apply bind_Ok in Hf as (found & Hl & Hf). destruct found as [found|]; [|done]. injection Hf as ->.
  apply takeSig_loop in Hl as Hok; [|done].
  unfold acceptable_sig in Hok. bool_prop.
  destruct (VerifySchnorrOnSubmittedTx _ _ _ _) as [[]|] eqn:Ev; [|done]. unfold beqb in *. bool_prop.
  exists submitted, prev, c, sig, input, leaf. split_and!; done.
Qed.
End guard.

(** ** A toy library for examples

    A signature is the key followed by the digest, a packet is encoded by
    whether it carries a signature. *)

Definition example_digest : bytes := replicate 32 x01.
Definition example_leaf : bytes := [x20; x51].
Definition example_prev : TxOut := MkTxOut 1000 [x51].
Definition example_prevtx : MsgTx := MkMsgTx 2 0 [] [example_prev].
Definition example_input (sigs : list (option SpendSig)) : PInput :=
  MkPInput (Some example_prev) SigHashDefault [Some (MkTapLeafScript [xc0] example_leaf BaseLeafVersion)] sigs [].
Definition example_tx : MsgTx := MkMsgTx 2 0 [MkTxIn (replicate 32 x09, 0) MaxTxInSequenceNum [] []] [MkTxOut 900 [x52]].
Definition example_packet (sigs : list (option SpendSig)) : Packet := MkPacket (Some example_tx) [example_input sigs] [[]] [].
Definition example_key (k : Z) : bytes := be_bytes 32 k.

#[local] Instance example_btc : Btc := {|
  PublicKey := bytes;
  SchnorrSig := bytes;
  NewFromRawBytes := fun s => if seqb s "cHNidP8=" then Ok (example_packet []) else Err (Errorf "invalid psbt");
  B64Encode := fun p => Ok (if existsb (fun i => negb (zlen (pi_TaprootScriptSpendSig i) =? 0)) (pk_Inputs p) then "c2lnbmVk" else "cHNidP8=");
  TxHash := fun _ => replicate 32 x09;
  TapHash := fun leaf => sha256 leaf;
  CalcTapscriptSignaturehash := fun _ _ _ _ _ => Ok example_digest;
  RawTxInTapscriptSignature := fun _ _ _ _ _ _ _ k => Ok (example_key k ++ example_digest);
  ParseSignature := fun b => Ok b;
  ParseXOnly := fun b => Ok b;
  VerifySig := fun sig digest key => beqb sig (key ++ digest);
  SerializeXOnly := fun k => k;
  PubKey := example_key;
  PrevoutTxFields := fun _ _ => Ok [example_prevtx]
|}.

Lemma ark_stage_adds_one_signature_witness : exists encoded,
  signExactArkStageWithSighash None "cHNidP8=" (Some 7) (example_key 7) example_leaf SigHashDefault = Ok encoded /\
  exists submitted c out, parsePSBT "cHNidP8=" = Ok submitted /\ clonePacket submitted = Ok c /\ B64Encode out = Ok encoded /\
    pk_Inputs c <> [] /\
    signed_at (guarded_sig submitted (example_key 7) example_leaf SigHashDefault) (list_to_set (seq 0 (length (pk_Inputs c)))) c out.
Proof.
  destruct (signExactArkStageWithSighash None "cHNidP8=" (Some 7) (example_key 7) example_leaf SigHashDefault) as [encoded|e] eqn:E;
    [|vm_compute in E; discriminate].
  exists encoded. split; [reflexivity|].
  exact (ark_stage_adds_one_signature None "cHNidP8=" (Some 7) (example_key 7) example_leaf SigHashDefault encoded E).
Defined.

(** A signer that also rewrites the amounts: its edits are dropped. *)
Definition example_hostile (p : Packet) : result Packet :=
  Ok (MkPacket (Some (MkMsgTx 9 9 (tx_TxIn example_tx) [])) [example_input [Some (MkSpendSig (example_key 7) (sha256 example_leaf)
    (example_key 7 ++ example_digest) SigHashDefault)]] [] []).

Lemma hostile_signer_contributes_one_signature_witness : exists encoded,
  signExactStage "cHNidP8=" (Some example_hostile) (example_key 7) "ArkadeCosigner" = Ok encoded /\
  exists submitted prev c sig input leaf, parseAndVerifyPrevout "cHNidP8=" = Ok (submitted, prev) /\ clonePacket submitted = Ok c /\
    pk_Inputs submitted = [input] /\ pi_TaprootLeafScript input = [Some leaf] /\
    ss_XOnlyPubKey sig = example_key 7 /\ ss_LeafHash sig = TapHash (tl_Script leaf) /\ ss_SigHash sig = SigHashDefault /\
    VerifySchnorrOnSubmittedTx submitted (ss_Signature sig) (example_key 7) (tl_Script leaf) = Ok tt /\
    B64Encode (set_inputs (alter (add_sig sig) 0%nat (pk_Inputs c)) c) = Ok encoded.
Proof.
  destruct (signExactStage "cHNidP8=" (Some example_hostile) (example_key 7) "ArkadeCosigner") as [encoded|e] eqn:E;
    [|vm_compute in E; discriminate].
  exists encoded. split; [reflexivity|].
  exact (hostile_signer_contributes_one_signature "cHNidP8=" example_hostile (example_key 7) "ArkadeCosigner" encoded E).
Defined.
