(* ===== verification/SpendVerify.v ===== *)
(** * What the server signs: the spend, its checkpoints and the pending proof

    [internal/application/vtxo_verify.go] and [vtxo_pending_proof.go], with
    [matchReservedOutpoint] and [outpointKey] of [vtxo.go].  Tapscript closures,
    control blocks, trees and the intent verification are third-party (arkade);
    they enter through the class [Ark]. *)

From S2P Require Import Prelude Crypto Codec Program Vtxo Json Psbt.
From Stdlib Require Import Strings.Byte Strings.Ascii Strings.String.
From stdpp Require Import base decidable list strings gmap countable option.
From Stdlib Require Import ZArith Lia.
Open Scope string_scope.
Open Scope list_scope.
Open Scope Z_scope.

Class Ark `{Btc} := {
  Closure : Type;
  ControlBlock : Type;
  TapKeyT : Type;
  TapTreeT : Type;
  DecodeClosure : bytes -> result Closure;
  MultisigKeys : Closure -> option (list (option PublicKey));           (* the type switch on *MultisigClosure *)
  ParseControlBlock : bytes -> result ControlBlock;
  OutputKey : ControlBlock -> bytes -> TapKeyT;                         (* root hash under the unspendable key *)
  P2TRScript : TapKeyT -> result bytes;
  TapTree : list Closure -> result (TapKeyT * TapTreeT);
  MerkleProofControl : TapTreeT -> bytes -> result bytes;
  ANCHOR_PKSCRIPT : bytes;
  intent_Verify : string -> string -> list PublicKey -> result unit
}.

(** [vtxoPolicyTree] *)
Record PolicyTree `{Ark} := MkPolicyTree {
  vt_CosignerPub : option PublicKey; vt_DelegatePub : option PublicKey; vt_ArkdPub : option PublicKey; vt_TapKey : bytes;
  vt_PkScript : bytes; vt_SpendLeaf : bytes; vt_DelegateLeaf : bytes; vt_SpendControl : bytes; vt_DelegateControl : bytes;
  vt_RevealedScripts : list string; vt_ArkAddress : string; vt_OnchainAddress : string
}.

Section verify.
Context `{Ark}.

Definition outpointKey (txid : bytes) (vout : Z) : string := hex_encode txid ++ ":" ++ fmt_int vout.

Definition uint32_of (z : Z) : Z := z mod 2 ^ 32.

(** [op.Hash.String()] is the hexadecimal of the reversed bytes. *)
Definition matchReservedOutpoint (seen : gmap string VtxoOperationInput) (op : OutPoint) : option VtxoOperationInput :=
  seen !! outpointKey (rev op.1) op.2.

Definition reserved_at (i : VtxoOperationInput) : gmap string VtxoOperationInput :=
  {[ outpointKey (in_Txid i) (uint32_of (in_Vout i)) := i ]}.

(** ** Leaves and signatures *)

Definition controlBlockMatches (pkScript leafScript control : bytes) : result unit :=
  require (negb ((zlen pkScript =? 0) || (zlen leafScript =? 0) || (zlen control =? 0))) (Errorf "control block");;
  cb ← wrap "control block" (ParseControlBlock control);
  want ← P2TRScript (OutputKey cb leafScript);
  require (beqb want pkScript) (Errorf "control block does not match prevout").

(** A nil result is the empty key. *)
Definition firstLeafPub (leaf : bytes) : bytes :=
  match DecodeClosure leaf with
  | Ok c => match MultisigKeys c with Some (Some k :: _) => SerializeXOnly k | _ => [] end
  | Err _ => []
  end.

Definition allowed_sig (leafHash : bytes) (wantSigHash : Z) (allowed : list bytes) (sig : option SpendSig) : result unit :=
  match sig with
  | None => Err (Errorf "nil signature")
  | Some sig =>
      require (ss_SigHash sig =? wantSigHash) (Errorf "unexpected sighash");;
      require (beqb (ss_LeafHash sig) leafHash) (Errorf "signature leaf hash");;
      require (bool_decide (ss_XOnlyPubKey sig ∈ allowed)) (Errorf "unexpected signature")
  end.

Definition requireExactLeafWithSighash (input : PInput) (pkScript wantLeaf wantControl : bytes) (allowed : list bytes) (wantSigHash : Z)
  : result unit :=
  match pi_WitnessUtxo input with
  | None => Err (Errorf "witness utxo required")
  | Some wu =>
      require (beqb (to_PkScript wu) pkScript) (Errorf "input script");;
      match pi_TaprootLeafScript input with
      | [Some leaf] =>
          require (pi_SighashType input =? wantSigHash) (Errorf "unexpected input sighash");;
          require (tl_LeafVersion leaf =? BaseLeafVersion) (Errorf "tapleaf version");;
          require (beqb (tl_Script leaf) wantLeaf) (Errorf "unexpected tapleaf");;
          controlBlockMatches pkScript (tl_Script leaf) (tl_ControlBlock leaf);;
          require (negb ((0 <? zlen wantControl) && negb (beqb (tl_ControlBlock leaf) wantControl))) (Errorf "unexpected control block");;
          foldR (fun _ sig => allowed_sig (TapHash (tl_Script leaf)) wantSigHash allowed sig) tt (pi_TaprootScriptSpendSig input)
      | _ => Err (Errorf "exactly one tapleaf required")
      end
  end.

Definition requireExactLeaf (input : PInput) (pkScript wantLeaf wantControl : bytes) (allowed : list bytes) : result unit :=
  requireExactLeafWithSighash input pkScript wantLeaf wantControl allowed SigHashDefault.

(** One signature of the loop: of a wanted signer, not seen before, valid. *)
Definition verifiedSigner (ptx : Packet) (idx : nat) (leaf : bytes) (wantSigHash : Z) (want found : gset bytes) (sig : option SpendSig)
  : result (gset bytes) :=
  match sig with
  | None => Err (Errorf "nil signature")
  | Some sig =>
      let key := ss_XOnlyPubKey sig in
      require (bool_decide (key ∈ want)) (Errorf "unexpected signature");;
      require (negb (bool_decide (key ∈ found))) (Errorf "duplicate signature");;
      require ((ss_SigHash sig =? wantSigHash) && beqb (ss_LeafHash sig) (TapHash leaf)) (Errorf "unexpected sighash");;
      match verifySchnorrOnInputWithSighash ptx idx (ss_Signature sig) (ss_XOnlyPubKey sig) leaf wantSigHash with
      | Err _ => Err (Errorf "signature invalid")
      | Ok _ => Ok ({[key]} ∪ found)
      end
  end.

Definition requireVerifiedSignersWithSighash (ptx : Packet) (idx : nat) (signers : list bytes) (leaf : bytes) (wantSigHash : Z) : result unit :=
  match pk_Inputs ptx !! idx with
  | None => Err (Errorf "required signatures missing")
  | Some input =>
      require (forallb (fun s => zlen s =? 32) signers) (Errorf "signer pubkey");;
      let want : gset bytes := list_to_set signers in
      match pi_TaprootLeafScript input with
      | [Some _] =>
          found ← foldR (verifiedSigner ptx idx leaf wantSigHash want) ∅ (pi_TaprootScriptSpendSig input);
          require (bool_decide (size found = size want)) (Errorf "required signatures missing")
      | _ => Err (Errorf "required signatures missing")
      end
  end.

Definition requireVerifiedUserSignature (ptx : Packet) (idx : nat) (user leaf : bytes) : result unit :=
  requireVerifiedSignersWithSighash ptx idx [user] leaf SigHashDefault.

(** ** Checkpoints *)

Definition checkpointDestScript (unroll spendLeaf : bytes) : result (bytes * bytes) :=
  match DecodeClosure unroll with
  | Err _ => Err (Errorf "checkpoint tapscript")
  | Ok unrollClosure =>
      match DecodeClosure spendLeaf with
      | Err _ => Err (Errorf "spend leaf")
      | Ok spendClosure =>
          '(tapKey, tapTree) ← TapTree [unrollClosure; spendClosure];
          pk ← P2TRScript tapKey;
          control ← MerkleProofControl tapTree (TapHash spendLeaf);
          Ok (pk, control)
      end
  end.

(** [uint64(x)] of an int64. *)
Definition uint64 (z : Z) : Z := z mod 2 ^ 64.

Definition verifyUnsignedCheckpointPSBT (ptx : Packet) (input : VtxoOperationInput) (op : VtxoOperation) (tree : PolicyTree) : result unit :=
  match pk_UnsignedTx ptx with
  | None => Err (Errorf "checkpoint psbt")
  | Some tx =>
      require ((tx_Version tx =? 3) && (tx_LockTime tx =? 0)) (Errorf "checkpoint version/locktime");;
      match tx_TxIn tx, pk_Inputs ptx with
      | [txin], [pin] =>
          require (ti_Sequence txin =? MaxTxInSequenceNum) (Errorf "checkpoint sequence");;
          require (bool_decide (is_Some (matchReservedOutpoint (reserved_at input) (ti_PreviousOutPoint txin)))) (Errorf "checkpoint outpoint");;
          match pi_WitnessUtxo pin with
          | None => Err (Errorf "checkpoint value")
          | Some wu =>
              require (uint64 (to_Value wu) =? uint64 (in_ValueSats input)) (Errorf "checkpoint value");;
              require (beqb (to_PkScript wu) (vt_PkScript tree) && negb ((0 <? zlen (in_Script input)) && negb (beqb (to_PkScript wu) (in_Script input))))
                (Errorf "checkpoint script");;
              require (negb (zlen (op_CheckpointTapscript op) =? 0)) (Errorf "checkpoint tapscript required");;
              requireExactLeaf pin (vt_PkScript tree) (vt_SpendLeaf tree) (vt_SpendControl tree) [firstLeafPub (vt_SpendLeaf tree)];;
              require (zlen (pi_TaprootScriptSpendSig pin) =? 0) (Errorf "checkpoint must be unsigned before submit");;
              '(dest, _) ← checkpointDestScript (op_CheckpointTapscript op) (vt_SpendLeaf tree);
              match tx_TxOut tx with
              | [out; anchor] =>
                  require (beqb (to_PkScript out) dest && (uint64 (to_Value out) =? uint64 (in_ValueSats input))) (Errorf "checkpoint dest");;
                  require (beqb (to_PkScript anchor) ANCHOR_PKSCRIPT && (to_Value anchor =? 0)) (Errorf "checkpoint p2a")
              | _ => Err (Errorf "checkpoint output count")
              end
          end
      | _, _ => Err (Errorf "checkpoint must spend one reserved input")
      end
  end.

(** The packet without its signatures, as its clone. *)
Definition strip_first (p : Packet) : Packet :=
  set_inputs (match pk_Inputs p with i :: ins => set_sigs [] i :: ins | [] => [] end) p.

Definition verifyCheckpointShape (ptx : Packet) (input : VtxoOperationInput) (op : VtxoOperation) (tree : PolicyTree) : result unit :=
  match pk_UnsignedTx ptx, pk_Inputs ptx with
  | Some _, [_] =>
      match clonePacket ptx with
      | Err _ => Err (Errorf "checkpoint psbt")
      | Ok clone => verifyUnsignedCheckpointPSBT (strip_first clone) input op tree
      end
  | _, _ => Err (Errorf "checkpoint psbt")
  end.

Definition verifySubmittedCheckpointPSBT (ptx : Packet) (input : VtxoOperationInput) (op : VtxoOperation) (tree : PolicyTree) : result unit :=
  verifyCheckpointShape ptx input op tree;;
  match vt_ArkdPub tree, pk_Inputs ptx with
  | Some arkd, pin :: _ =>
      let user := firstLeafPub (vt_SpendLeaf tree) in
      let operator := SerializeXOnly arkd in
      requireExactLeaf pin (vt_PkScript tree) (vt_SpendLeaf tree) (vt_SpendControl tree) [user; operator];;
      requireVerifiedSignersWithSighash ptx 0 [user; operator] (vt_SpendLeaf tree) SigHashDefault
  | _, _ => Err (Errorf "Operator pubkey required")
  end.

(** ** Equality of unsigned stages *)

Definition same_sig_opt (a b : option SpendSig) : bool :=
  match a, b with Some a, Some b => same_sig a b | _, _ => false end.

(** Two lists of the same length, compared element by element. *)
Fixpoint same_all {A B} (f : A -> B -> bool) (l1 : list A) (l2 : list B) : bool :=
  match l1, l2 with
  | [], [] => true
  | a :: l1, b :: l2 => f a b && same_all f l1 l2
  | _, _ => false
  end.

Definition same_input (a b : TxIn * PInput) : bool :=
  (ti_Sequence a.1 =? ti_Sequence b.1) && (pi_SighashType a.2 =? pi_SighashType b.2) &&
  match pi_WitnessUtxo a.2, pi_WitnessUtxo b.2 with
  | Some aw, Some bw => (to_Value aw =? to_Value bw) && beqb (to_PkScript aw) (to_PkScript bw)
  | _, _ => false
  end &&
  match pi_TaprootLeafScript a.2, pi_TaprootLeafScript b.2 with
  | [Some al], [Some bl] => (tl_LeafVersion al =? tl_LeafVersion bl) && beqb (tl_Script al) (tl_Script bl) && beqb (tl_ControlBlock al) (tl_ControlBlock bl)
  | _, _ => false
  end &&
  same_all same_sig_opt (pi_TaprootScriptSpendSig a.2) (pi_TaprootScriptSpendSig b.2).

Definition unsignedPSBTEqual (a b : Packet) : bool :=
  match pk_UnsignedTx a, pk_UnsignedTx b with
  | Some atx, Some btx =>
      (tx_Version atx =? tx_Version btx) && (tx_LockTime atx =? tx_LockTime btx) && beqb (TxHash atx) (TxHash btx) &&
      (zlen (pk_Inputs a) =? zlen (pk_Inputs b)) && (zlen (tx_TxIn atx) =? zlen (tx_TxIn btx)) &&
      same_all same_input (combine (tx_TxIn atx) (pk_Inputs a)) (combine (tx_TxIn btx) (pk_Inputs b))
  | _, _ => false
  end.

Definition strip_all (p : Packet) : Packet := set_inputs (map (set_sigs []) (pk_Inputs p)) p.

Definition sameUnsignedPSBT (a b : Packet) : bool :=
  match clonePacket a, clonePacket b with
  | Ok ac, Ok bc => unsignedPSBTEqual (strip_all ac) (strip_all bc)
  | _, _ => false
  end.

(** ** The spend *)

(** One input of the spend: it spends output 0 of its checkpoint, holds the
    reserved value under the checkpoint script, and is signed by the user only. *)
Definition spendInput (ptx : Packet) (tree : PolicyTree) (destScript arkControl user : bytes)
    (inSum : Z) (x : nat * (TxIn * PInput) * (VtxoOperationInput * Packet)) : result Z :=
  let '(i, (txin, pin), (input, cp)) := x in
  require (ti_Sequence txin =? MaxTxInSequenceNum) (Errorf "ark input sequence");;
  match pk_UnsignedTx cp with
  | None => Err (Errorf "checkpoint psbt")
  | Some cptx =>
      require (bool_decide (ti_PreviousOutPoint txin = (TxHash cptx, 0))) (Errorf "ark input is not checkpoint");;
      match pi_WitnessUtxo pin with
      | None => Err (Errorf "ark prevout")
      | Some wu =>
          require ((0 <=? to_Value wu) && (uint64 (to_Value wu) =? uint64 (in_ValueSats input)) && beqb (to_PkScript wu) destScript)
            (Errorf "ark prevout");;
          require (uint64 (to_Value wu) <=? uint64_max - inSum) (Errorf "input amount overflow");;
          let inSum := uint64 (inSum + uint64 (to_Value wu)) in
          requireExactLeaf pin destScript (vt_SpendLeaf tree) arkControl [user];;
          requireVerifiedUserSignature ptx i user (vt_SpendLeaf tree);;
          Ok inSum
      end
  end.

Definition spendChange (tree : PolicyTree) (op : VtxoOperation) (outs : list TxOut) : result Z :=
  if op_ChangeSats op =? 0 then
    require (bool_decide (op_ChangeVout op = None) && (zlen (op_ChangeScript op) =? 0)) (Errorf "invalid no-change shape");;
    Ok 0
  else
    require (bool_decide (op_ChangeVout op = Some 1) && (DustSats <=? op_ChangeSats op)) (Errorf "invalid change shape");;
    match outs with
    | _ :: change :: _ =>
        require (beqb (to_PkScript change) (vt_PkScript tree) && beqb (to_PkScript change) (op_ChangeScript op))
          (Errorf "change must be vault-policy-v1");;
        require (to_Value change =? op_ChangeSats op) (Errorf "change amount");;
        Ok (uint64 (to_Value change))
    | _ => Err (Errorf "ark output count")
    end.

Definition verifySpendPSBT (ptx : Packet) (op : VtxoOperation) (inputs : list VtxoOperationInput) (tree : PolicyTree)
    (checkpoints : list Packet) : result unit :=
  match pk_UnsignedTx ptx with
  | None => Err (Errorf "psbt required")
  | Some tx =>
      require (negb ((zlen inputs =? 0) || (MaxVtxoOperationInputs <? zlen inputs) || negb (zlen checkpoints =? zlen inputs)))
        (Errorf "ark input count");;
      require ((tx_Version tx =? 3) && (tx_LockTime tx =? 0)) (Errorf "ark tx version/locktime");;
      require ((zlen (tx_TxIn tx) =? zlen inputs) && (zlen (pk_Inputs ptx) =? zlen inputs)) (Errorf "ark input count");;
      '(destScript, arkControl) ← checkpointDestScript (op_CheckpointTapscript op) (vt_SpendLeaf tree);
      let user := firstLeafPub (vt_SpendLeaf tree) in
      inSum ← foldR (spendInput ptx tree destScript arkControl user) 0
                (combine (combine (seq 0 (length inputs)) (combine (tx_TxIn tx) (pk_Inputs ptx))) (combine inputs checkpoints));
      let wantOutputs := if 0 <? op_ChangeSats op then 3 else 2 in
      require (zlen (tx_TxOut tx) =? wantOutputs) (Errorf "ark output count");;
      match tx_TxOut tx, rev (tx_TxOut tx) with
      | dest :: _, anchor :: _ =>
          require ((uint64 (to_Value dest) =? uint64 (op_AmountSats op)) && beqb (to_PkScript dest) (op_DestScript op)) (Errorf "dest");;
          require (DustSats <=? to_Value dest) (Errorf "dest amount");;
          changeValue ← spendChange tree op (tx_TxOut tx);
          require (beqb (to_PkScript anchor) ANCHOR_PKSCRIPT && (to_Value anchor =? 0)) (Errorf "p2a output");;
          let outSum := uint64 (uint64 (to_Value dest) + changeValue) in
          require ((0 <=? op_FeeSats op) && (uint64 (op_FeeSats op) <=? uint64_max - outSum)
                   && (inSum =? uint64 (outSum + uint64 (op_FeeSats op)))) (Errorf "input/output conservation")
      | _, _ => Err (Errorf "ark output count")
      end
  end.

(** ** The pending proof *)

Definition canonicalGetPendingTxMessage : bytes :=
  let q := x22 in
  x7b :: (q :: bytes_of "type" ++ [q]) ++ x3a :: (q :: bytes_of "get-pending-tx" ++ [q]) ++ x2c :: (q :: bytes_of "expire_at" ++ [q])
    ++ bytes_of ":0}".

(** [base64.StdEncoding.DecodeString]: line breaks dropped, padding required. *)
Definition std_b64_char (b : byte) : result byte :=
  if isb 43 b then Ok x2d else if isb 47 b then Ok x5f
  else if isb 45 b || isb 95 b then Err b64_error else Ok b.

Definition std_b64_decode (l : bytes) : result bytes :=
  let l := List.filter (fun b => negb (isb 10 b || isb 13 b)) l in
  require (zlen l mod 4 =? 0) b64_error;;
  let body := match rev l with
              | a :: b :: r => if isb 61 a then if isb 61 b then rev r else rev (b :: r) else l
              | _ => l
              end in
  url ← mapR std_b64_char body;
  b64_decode url.

Definition pendingProofDigest (raw : string) : result bytes :=
  packet ← parsePSBT raw;
  canonical ← B64Encode packet;
  require (seqb canonical raw) (Errorf "pending proof must use canonical base64 PSBT encoding");;
  match std_b64_decode (bytes_of canonical) with
  | Err _ => Err (Errorf "pending proof encoding")
  | Ok decoded => Ok (sha256 decoded)
  end.

Definition requirePendingProofMessage (packet : Packet) : result unit :=
  match pk_Unknowns packet with
  | [Some (key, value)] =>
      require (beqb key [x09]) (Errorf "pending proof canonical message required");;
      require (beqb value canonicalGetPendingTxMessage) (Errorf "pending proof message")
  | _ => Err (Errorf "pending proof canonical message required")
  end.

(** Input 0 is the message input; input [i + 1] proves the i-th reserved output. *)
Definition pendingInput (packet : Packet) (tree : PolicyTree) (requiredXOnly : list bytes)
    (x : nat * (TxIn * PInput) * option VtxoOperationInput) : result unit :=
  let '(i, (txin, pin), stored) := x in
  require (ti_Sequence txin =? MaxTxInSequenceNum) (Errorf "pending proof sequence");;
  require (match stored with
           | Some stored => bool_decide (is_Some (matchReservedOutpoint (reserved_at stored) (ti_PreviousOutPoint txin)))
           | None => true
           end) (Errorf "pending proof input order");;
  let wantValue := match stored with Some stored => in_ValueSats stored | None => 0 end in
  let wantScript := match stored with Some stored => in_Script stored | None => vt_PkScript tree end in
  match pi_WitnessUtxo pin with
  | None => Err (Errorf "pending proof input prevout")
  | Some witness =>
      require ((to_Value witness =? wantValue) && beqb (to_PkScript witness) (vt_PkScript tree) && beqb (to_PkScript witness) wantScript)
        (Errorf "pending proof input prevout");;
      wrap "pending proof input" (requireExactLeafWithSighash pin (vt_PkScript tree) (vt_SpendLeaf tree) (vt_SpendControl tree) requiredXOnly SigHashAll);;
      wrap "pending proof input" (requireVerifiedSignersWithSighash packet i requiredXOnly (vt_SpendLeaf tree) SigHashAll)
  end.

Definition OP_RETURN : byte := x6a.

Definition verifyPendingProof (raw : string) (inputs : list VtxoOperationInput) (tree : PolicyTree)
    (required skipped : list PublicKey) : result unit :=
  require (negb ((zlen inputs =? 0) || (zlen (vt_PkScript tree) =? 0) || (zlen (vt_SpendLeaf tree) =? 0))) (Errorf "pending proof policy inputs required");;
  packet ← parsePSBT raw;
  require (match B64Encode packet with Ok canonical => seqb canonical raw | Err _ => false end)
    (Errorf "pending proof must use canonical base64 PSBT encoding");;
  requirePendingProofMessage packet;;
  match pk_UnsignedTx packet with
  | None => Err (Errorf "psbt required")
  | Some tx =>
      require ((tx_Version tx =? 2) && (tx_LockTime tx =? 0)) (Errorf "pending proof version/locktime");;
      require ((zlen (tx_TxIn tx) =? zlen inputs + 1) && (zlen (pk_Inputs packet) =? zlen inputs + 1)) (Errorf "pending proof input count");;
      match tx_TxOut tx, pk_Outputs packet with
      | [out], [_] => require ((to_Value out =? 0) && beqb (to_PkScript out) [OP_RETURN]) (Errorf "pending proof outputs")
      | _, _ => Err (Errorf "pending proof outputs")
      end;;
      let requiredXOnly := map SerializeXOnly required in
      foldR (fun _ x => pendingInput packet tree requiredXOnly x) tt
        (combine (combine (seq 0 (length (pk_Inputs packet))) (combine (tx_TxIn tx) (pk_Inputs packet))) (None :: map Some inputs));;
      wrap "pending proof invalid" (intent_Verify raw (string_of_list_byte canonicalGetPendingTxMessage) skipped)
  end.

Definition verifyPhonePendingProof (raw : string) (inputs : list VtxoOperationInput) (tree : PolicyTree) (phone : option PublicKey) : result unit :=
  match phone, vt_CosignerPub tree, vt_ArkdPub tree with
  | Some phone, Some cosigner, Some arkd => verifyPendingProof raw inputs tree [phone] [cosigner; arkd]
  | _, _, _ => Err (Errorf "pending proof signer policy required")
  end.

Definition verifyDualSignedPendingProof (raw : string) (inputs : list VtxoOperationInput) (tree : PolicyTree) (phone : option PublicKey) : result unit :=
  match phone, vt_CosignerPub tree, vt_ArkdPub tree with
  | Some phone, Some cosigner, Some arkd => verifyPendingProof raw inputs tree [phone; cosigner] [arkd]
  | _, _, _ => Err (Errorf "pending proof signer policy required")
  end.

(** The signatures of an input that are not the vault's. *)
Definition is_sig_of (key : bytes) (sig : option SpendSig) : bool :=
  match sig with Some sig => beqb (ss_XOnlyPubKey sig) key | None => false end.

Definition removeVaultSig (expectedVault : bytes) (input : PInput) : result PInput :=
  require (zlen (List.filter (is_sig_of expectedVault) (pi_TaprootScriptSpendSig input)) =? 1)
    (Errorf "expected one VaultCosigner signature on pending proof input");;
  Ok (set_sigs (List.filter (fun s => negb (is_sig_of expectedVault s)) (pi_TaprootScriptSpendSig input)) input).

Definition requireOnlyVaultSignatureAdded (beforeRaw afterRaw : string) (expectedVault : bytes) : result unit :=
  before ← parsePSBT beforeRaw;
  after ← parsePSBT afterRaw;
  require ((zlen (pk_Inputs before) =? zlen (pk_Inputs after)) && (zlen expectedVault =? 32)) (Errorf "authorized pending proof shape");;
  ins ← mapR (removeVaultSig expectedVault) (pk_Inputs after);
  stripped ← B64Encode (set_inputs ins after);
  require (seqb stripped beforeRaw) (Errorf "authorized pending proof mutated phone proof").

(** ** Signatures *)

Definition valid_sig (ptx : Packet) (idx : nat) (leaf : bytes) (sighash : Z) (sig : SpendSig) : Prop :=
  ss_SigHash sig = sighash /\ ss_LeafHash sig = TapHash leaf /\
  verifySchnorrOnInputWithSighash ptx idx (ss_Signature sig) (ss_XOnlyPubKey sig) leaf sighash = Ok tt.

Lemma verifiedSigner_Ok ptx idx leaf sighash want found sig found' :
  verifiedSigner ptx idx leaf sighash want found sig = Ok found' <->
  exists s, sig = Some s /\ ss_XOnlyPubKey s ∈ want /\ ss_XOnlyPubKey s ∉ found /\ valid_sig ptx idx leaf sighash s /\
    found' = {[ss_XOnlyPubKey s]} ∪ found.
Proof using Type.
  unfold verifiedSigner, valid_sig. destruct sig as [s|]; [|split; [done|naive_solver]]. rewrite bind_Ok. split.
  - intros ([] & Hw%require_Ok & ([] & Hf%require_Ok & ([] & Hg%require_Ok & Hk)%bind_Ok)%bind_Ok). unfold beqb in Hg. bool_prop.
    destruct (verifySchnorrOnInputWithSighash _ _ _ _ _ _) as [[]|] eqn:E; [|done]. injection Hk as <-.
    exists s. split_and!; done.
  - intros (s' & [= <-] & Hw & Hf & (-> & -> & Hv) & ->). exists tt. rewrite bool_decide_eq_true_2 by done. split; [done|].
    rewrite bool_decide_eq_false_2 by done. cbn [negb require mbind result_bind]. rewrite Z.eqb_refl.
    unfold beqb. rewrite bool_decide_eq_true_2 by done. cbn [andb require mbind result_bind]. by rewrite Hv.
Qed.

Lemma verifiedSigner_loop ptx idx leaf sighash want sigs found found' :
  foldR (verifiedSigner ptx idx leaf sighash want) found sigs = Ok found' <->
  exists ss, sigs = map Some ss /\ NoDup (map ss_XOnlyPubKey ss) /\
    Forall (fun s => ss_XOnlyPubKey s ∈ want /\ ss_XOnlyPubKey s ∉ found /\ valid_sig ptx idx leaf sighash s) ss /\
    found' = list_to_set (map ss_XOnlyPubKey ss) ∪ found.
Proof using Type.
  revert found. induction sigs as [|sig sigs IH]; intros found.
  - simpl. split.
    + intros [= <-]. exists []. split_and!; [done|constructor|constructor|set_solver].
    + intros ([|? ?] & E & _ & _ & ->); [|done]. f_equal. set_solver.
  - rewrite foldR_cons, bind_Ok. split.
    + intros (f1 & (s & -> & Hw & Hf & Hv & ->)%verifiedSigner_Ok & (ss & -> & Hn & Hall & ->)%IH).
      exists (s :: ss). split_and!; [done| | |set_solver].
      * constructor; [|done]. intros (s' & E & Hin)%list_elem_of_fmap_1. rewrite list.Forall_forall in Hall.
        destruct (Hall s' Hin) as (_ & Hnf & _). rewrite E in Hnf. set_solver.
      * constructor; [done|]. eapply list.Forall_impl; [exact Hall|]. intros s' (? & ? & ?). split_and!; [done|set_solver|done].
    + intros ([|s ss] & E & Hn & Hall & ->); [done|]. injection E as -> ->. inversion Hn as [|? ? Hns Hn']; subst.
      inversion Hall as [|? ? (Hw & Hf & Hv) Hall']; subst. eexists. split.
      * apply verifiedSigner_Ok. exists s. split_and!; done.
      * apply IH. exists ss. split_and!; [done|done| |set_solver]. apply list.Forall_forall. intros s' Hin.
        rewrite list.Forall_forall in Hall'. destruct (Hall' s' Hin) as (? & ? & ?). split_and!; [done| |done].
        intros [E%elem_of_singleton|?]%elem_of_union; [|done]. destruct Hns. rewrite <-E. by apply list_elem_of_fmap_2.
Qed.

(** The signatures of an input are exactly the required ones. *)
Definition signed_by (ptx : Packet) (idx : nat) (signers : list bytes) (leaf : bytes) (sighash : Z) : Prop :=
  exists input l ss, pk_Inputs ptx !! idx = Some input /\ pi_TaprootLeafScript input = [Some l] /\
    pi_TaprootScriptSpendSig input = map Some ss /\ NoDup (map ss_XOnlyPubKey ss) /\
    (forall key, key ∈ map ss_XOnlyPubKey ss <-> key ∈ signers) /\ Forall (valid_sig ptx idx leaf sighash) ss.

Lemma required_signers ptx idx signers leaf sighash :
  requireVerifiedSignersWithSighash ptx idx signers leaf sighash = Ok tt <->
  Forall (fun s => zlen s = 32) signers /\ signed_by ptx idx signers leaf sighash.
Proof using Type.
  unfold requireVerifiedSignersWithSighash, signed_by. destruct (pk_Inputs ptx !! idx) as [input|]; [|split; [done|naive_solver]].
  rewrite bind_Ok. split.
  - intros ([] & H32%require_Ok & Hk). rewrite forallb_forall in H32. split; [apply list.Forall_forall; intros s Hs%list_elem_of_In; apply Z.eqb_eq; by apply H32|].
    destruct (pi_TaprootLeafScript input) as [|[l|] [|? ?]] eqn:El; try done.
    apply bind_Ok in Hk as (found & (ss & Hss & Hn & Hall & ->)%verifiedSigner_loop & Hsz%require_Ok). bool_prop.
    exists input, l, ss. rewrite union_empty_r_L in Hsz. split_and!; [done..| |].
    + assert (E : list_to_set (map ss_XOnlyPubKey ss) = (list_to_set signers : gset bytes)).
      { apply set_subseteq_size_eq; [|lia]. intros key Hk%elem_of_list_to_set.
        apply list_elem_of_fmap_1 in Hk as (s & -> & Hs). rewrite list.Forall_forall in Hall. by apply Hall. }
      intros key. split; intros Hk; apply (elem_of_list_to_set (C := gset bytes)); [rewrite <-E|rewrite E]; by apply elem_of_list_to_set.
    + eapply list.Forall_impl; [exact Hall|]. by intros s (_ & _ & ?).
  - intros (H32 & input' & l & ss & [= <-] & El & Ess & Hn & Hkeys & Hall). exists tt. split.
    + apply require_Ok, forallb_forall. intros s Hs. apply Z.eqb_eq. rewrite list.Forall_forall in H32. apply H32. by apply list_elem_of_In.
    + rewrite El, bind_Ok. exists (list_to_set (map ss_XOnlyPubKey ss) ∪ ∅). split.
      * apply verifiedSigner_loop. exists ss. split_and!; [done|done| |done]. apply list.Forall_forall. intros s Hs. split_and!.
        -- apply elem_of_list_to_set, Hkeys. by apply list_elem_of_fmap_2.
        -- set_solver.
        -- rewrite list.Forall_forall in Hall. by apply Hall.
      * apply require_Ok, bool_decide_eq_true. rewrite union_empty_r_L. f_equal. apply set_eq. intros key.
        rewrite !elem_of_list_to_set. apply Hkeys.
Qed.

(** ** Outpoints *)

Lemma bytes_of_hex_length b : length (bytes_of (hex_encode b)) = (2 * length b)%nat.
Proof using Type. pose proof (slen_hex_encode b). unfold slen, zlen in *. lia. Qed.

Lemma outpointKey_inj t1 v1 t2 v2 : length t1 = length t2 -> 0 <= v1 -> 0 <= v2 ->
  outpointKey t1 v1 = outpointKey t2 v2 -> t1 = t2 /\ v1 = v2.
Proof using Type.
  unfold outpointKey. intros Hl H1 H2 E%(f_equal bytes_of). rewrite !bytes_of_app in E.
  apply app_inj_len in E as [E1 E2]; [|by rewrite !bytes_of_hex_length, Hl].
  apply bytes_of_inj, hex_encode_inj in E1. split; [done|].
  apply app_inv_head, bytes_of_inj in E2. revert E2. unfold fmt_int.
  rewrite !(proj2 (Z.ltb_ge _ _)) by done. by apply fmt_uint_inj.
Qed.

(** Values of their Go types: a 32-byte hash and a uint32 index, int64 amounts. *)
Definition outpoint_typed (op : OutPoint) : Prop := length op.1 = 32%nat /\ 0 <= op.2 < 2 ^ 32.
Definition int64_typed (z : Z) : Prop := - 2 ^ 63 <= z < 2 ^ 63.

Definition tx_typed (tx : MsgTx) : Prop :=
  Forall (fun i => outpoint_typed (ti_PreviousOutPoint i)) (tx_TxIn tx) /\ Forall (fun o => int64_typed (to_Value o)) (tx_TxOut tx).

Definition packet_typed (p : Packet) : Prop :=
  (forall tx, pk_UnsignedTx p = Some tx -> tx_typed tx) /\
  Forall (fun i => match pi_WitnessUtxo i with Some o => int64_typed (to_Value o) | None => True end) (pk_Inputs p).

Definition reserved_typed (i : VtxoOperationInput) : Prop :=
  length (in_Txid i) = 32%nat /\ 0 <= in_Vout i < 2 ^ 32 /\ 0 <= in_ValueSats i < 2 ^ 63.

(** The outpoint of a reserved input, in transaction byte order. *)
Definition reserved_outpoint (i : VtxoOperationInput) : OutPoint := (rev (in_Txid i), in_Vout i).

Lemma matched_outpoint i op : reserved_typed i -> outpoint_typed op ->
  is_Some (matchReservedOutpoint (reserved_at i) op) -> op = reserved_outpoint i.
Proof using Type.
  intros (Ht & Hv & _) [Hl Ho] [x Hx]. unfold matchReservedOutpoint, reserved_at in Hx.
  apply lookup_singleton_Some in Hx as [E _]. unfold uint32_of in E. rewrite Z.mod_small in E by lia.
  apply outpointKey_inj in E as [E1 E2]; [|by rewrite length_rev, Ht, Hl|lia..].
  destruct op as [h n]. simpl in *. unfold reserved_outpoint. by rewrite E1, rev_involutive, E2.
Qed.

Lemma uint64_small a : 0 <= a < 2 ^ 64 -> uint64 a = a.
Proof using Type. apply Z.mod_small. Qed.

Lemma uint64_inj a b : int64_typed a -> int64_typed b -> 0 <= b -> uint64 a = uint64 b -> a = b.
Proof using Type.
  unfold int64_typed, uint64. intros Ha Hb Hz E. rewrite (Z.mod_small b) in E by lia.
  pose proof (Z.mod_pos_bound a (2 ^ 64) ltac:(lia)). pose proof (Z.div_mod a (2 ^ 64) ltac:(lia)). nia.
Qed.

(** ** What an accepted checkpoint is *)

(** It spends the reserved outpoint, and nothing else, into the checkpoint
    script: the whole value, with a zero-value anchor. *)
Record checkpoints_input (tree : PolicyTree) (op : VtxoOperation) (input : VtxoOperationInput) (cp : Packet) (tx : MsgTx) : Prop := {
  ci_tx : pk_UnsignedTx cp = Some tx;
  ci_spends : map ti_PreviousOutPoint (tx_TxIn tx) = [reserved_outpoint input];
  ci_outs : exists script control, checkpointDestScript (op_CheckpointTapscript op) (vt_SpendLeaf tree) = Ok (script, control) /\
    tx_TxOut tx = [MkTxOut (in_ValueSats input) script; MkTxOut 0 ANCHOR_PKSCRIPT];
  ci_unsigned : map pi_TaprootScriptSpendSig (pk_Inputs cp) = [[]]
}.

Lemma TxOut_eta o v s : to_Value o = v -> to_PkScript o = s -> o = MkTxOut v s.
Proof using Type. by destruct o as [? ?]; simpl; intros -> ->. Qed.

Lemma unsigned_checkpoint cp input op tree : packet_typed cp -> reserved_typed input ->
  verifyUnsignedCheckpointPSBT cp input op tree = Ok tt -> exists tx, checkpoints_input tree op input cp tx.
Proof using Type.
  intros [Htx Hin] Hr. unfold verifyUnsignedCheckpointPSBT.
  destruct (pk_UnsignedTx cp) as [tx|] eqn:Etx; [|done]. destruct (Htx tx eq_refl) as [Hti Hto].
  intros ([] & _ & Hk)%bind_Ok. revert Hk.
  destruct (tx_TxIn tx) as [|txin [|? ?]] eqn:Eti; try done. destruct (pk_Inputs cp) as [|pin [|? ?]] eqn:Epi; try done.
  intros ([] & _ & ([] & Hm%require_Ok & Hk)%bind_Ok)%bind_Ok. revert Hk.
  destruct (pi_WitnessUtxo pin) as [wu|] eqn:Ewu; [|done].
  intros ([] & _ & ([] & _ & ([] & _ & ([] & _ & ([] & Hns%require_Ok & ([script control] & Hd & Hk)%bind_Ok)%bind_Ok)%bind_Ok)%bind_Ok)%bind_Ok)%bind_Ok.
  revert Hk. destruct (tx_TxOut tx) as [|out [|anchor [|? ?]]] eqn:Eto; try done.
  intros ([] & Ho%require_Ok & Ha%require_Ok)%bind_Ok. unfold beqb in *. bool_prop.
  apply Forall_cons_iff in Hti as [Hop _]. apply Forall_cons_iff in Hto as [Hov _].
  exists tx. split; [done| |exists script, control; split; [done|]|].
  - rewrite Eti. simpl. f_equal. by apply matched_outpoint.
  - rewrite Eto. f_equal; [|f_equal]; apply TxOut_eta; try done. destruct Hr as (_ & _ & Hv).
    apply uint64_inj; [done|unfold int64_typed; lia|lia|done].
  - rewrite Epi. simpl. by rewrite (zlen_nil_inv (pi_TaprootScriptSpendSig pin)) by done.
Qed.

(** ** What an accepted spend is *)

Definition user_key (tree : PolicyTree) : bytes := firstLeafPub (vt_SpendLeaf tree).

(** One input: output 0 of its checkpoint, the reserved value under the
    checkpoint script, signed by the user and nobody else. *)
Record spends_checkpoint (ptx : Packet) (tree : PolicyTree) (destScript : bytes)
    (x : nat * (TxIn * PInput) * (VtxoOperationInput * Packet)) : Prop := {
  sc_spends : exists cptx, pk_UnsignedTx x.2.2 = Some cptx /\ ti_PreviousOutPoint x.1.2.1 = (TxHash cptx, 0);
  sc_value : pi_WitnessUtxo x.1.2.2 = Some (MkTxOut (in_ValueSats x.2.1) destScript);
  sc_signed : signed_by ptx x.1.1 [user_key tree] (vt_SpendLeaf tree) SigHashDefault
}.

Lemma spendInput_Ok ptx tree destScript arkControl inSum x inSum' :
  0 <= inSum <= uint64_max -> reserved_typed x.2.1 ->
  match pi_WitnessUtxo x.1.2.2 with Some o => int64_typed (to_Value o) | None => True end ->
  spendInput ptx tree destScript arkControl (user_key tree) inSum x = Ok inSum' ->
  spends_checkpoint ptx tree destScript x /\ inSum' = inSum + in_ValueSats x.2.1 /\ inSum' <= uint64_max.
Proof using Type.
  destruct x as [[i [txin pin]] [input cp]]. simpl. intros Hs (_ & _ & Hv) Hw. unfold spendInput.
  intros ([] & _ & Hk)%bind_Ok. revert Hk. destruct (pk_UnsignedTx cp) as [cptx|] eqn:Ecp; [|done].
  intros ([] & Hop%require_Ok & Hk)%bind_Ok. revert Hk. destruct (pi_WitnessUtxo pin) as [wu|] eqn:Ewu; [|done].
  intros ([] & Hwu%require_Ok & ([] & Hsum%require_Ok & ([] & _ & ([] & Hsig & [= <-])%bind_Ok)%bind_Ok)%bind_Ok)%bind_Ok.
  unfold beqb in *. bool_prop.
  assert (Ev : to_Value wu = in_ValueSats input) by (apply uint64_inj; [done|unfold int64_typed; lia|lia|done]).
  assert (Eu : uint64 (in_ValueSats input) = in_ValueSats input) by (apply Z.mod_small; lia).
  rewrite Ev, Eu in *. split; [split; simpl|].
  - exists cptx. by rewrite Ecp.
  - rewrite Ewu. f_equal. by apply TxOut_eta.
  - by apply required_signers in Hsig as [_ ?].
  - unfold uint64. rewrite Z.mod_small by (unfold uint64_max in *; lia). lia.
Qed.

Lemma spendInput_loop ptx tree destScript arkControl xs : forall inSum inSum', 0 <= inSum <= uint64_max ->
  Forall (fun x => reserved_typed x.2.1 /\ match pi_WitnessUtxo x.1.2.2 with Some o => int64_typed (to_Value o) | None => True end) xs ->
  foldR (spendInput ptx tree destScript arkControl (user_key tree)) inSum xs = Ok inSum' ->
  Forall (spends_checkpoint ptx tree destScript) xs /\ inSum' = inSum + zsum (fun x => in_ValueSats x.2.1) xs /\ inSum' <= uint64_max.
Proof using Type.
  induction xs as [|x xs IH]; intros inSum inSum' Hs Ht; [intros [= <-]; simpl; split_and!; [constructor|lia|lia]|].
  apply Forall_cons_iff in Ht as [[Hx Hp] Ht]. rewrite foldR_cons.
  intros (s1 & (Hc & E1 & Hle)%spendInput_Ok & Hk)%bind_Ok; [|done..]. pose proof Hx as (_ & _ & ?).
  apply IH in Hk as (Hall & -> & ?); [|lia|done]. simpl. split_and!; [by constructor|lia|done].
Qed.

Definition change_outputs (tree : PolicyTree) (op : VtxoOperation) : list TxOut :=
  if op_ChangeSats op =? 0 then [] else [MkTxOut (op_ChangeSats op) (vt_PkScript tree)].

Lemma spendChange_Ok tree op outs v : Forall (fun o => int64_typed (to_Value o)) outs ->
  spendChange tree op outs = Ok v ->
  v = op_ChangeSats op /\ (op_ChangeSats op = 0 \/ DustSats <= op_ChangeSats op < 2 ^ 63) /\
  (op_ChangeSats op <> 0 -> exists dest rest, outs = dest :: change_outputs tree op ++ rest).
Proof using Type.
  unfold spendChange, change_outputs. intros Ht. destruct (Z.eqb_spec (op_ChangeSats op) 0) as [->|Hne].
  - intros ([] & _ & [= <-])%bind_Ok. split_and!; [done|by left|done].
  - intros ([] & Hc%require_Ok & Hk)%bind_Ok. destruct outs as [|dest [|change rest]]; try done.
    apply bind_Ok in Hk as ([] & Hs%require_Ok & ([] & Hv%require_Ok & [= <-])%bind_Ok). unfold beqb in *. bool_prop.
    apply Forall_cons_iff in Ht as [_ Ht]. apply Forall_cons_iff in Ht as [Hi _]. unfold int64_typed, DustSats in *.
    split_and!.
    + unfold uint64. rewrite Z.mod_small; lia.
    + right. lia.
    + intros _. exists dest, rest. simpl. do 2 f_equal. by apply TxOut_eta.
Qed.

(** The transaction the server signs moves exactly the reserved value: to the
    authorized destination, the vault's own script and the fee. *)
Record spend_transaction (ptx : Packet) (op : VtxoOperation) (inputs : list VtxoOperationInput) (tree : PolicyTree)
    (checkpoints : list Packet) (tx : MsgTx) : Prop := {
  sp_tx : pk_UnsignedTx ptx = Some tx;
  sp_outputs : tx_TxOut tx = MkTxOut (op_AmountSats op) (op_DestScript op) :: change_outputs tree op ++ [MkTxOut 0 ANCHOR_PKSCRIPT];
  sp_value : zsum in_ValueSats inputs = op_AmountSats op + op_ChangeSats op + op_FeeSats op;
  sp_amounts : DustSats <= op_AmountSats op /\ (op_ChangeSats op = 0 \/ DustSats <= op_ChangeSats op) /\ 0 <= op_FeeSats op;
  sp_count : length (tx_TxIn tx) = length inputs /\ length checkpoints = length inputs /\ 1 <= zlen inputs <= MaxVtxoOperationInputs;
  sp_inputs : exists script control, checkpointDestScript (op_CheckpointTapscript op) (vt_SpendLeaf tree) = Ok (script, control) /\
    Forall (spends_checkpoint ptx tree script)
      (combine (combine (seq 0 (length inputs)) (combine (tx_TxIn tx) (pk_Inputs ptx))) (combine inputs checkpoints))
}.

Lemma combine_values (inputs : list VtxoOperationInput) (checkpoints : list Packet) {A} (l : list A) :
  length l = length inputs -> length checkpoints = length inputs ->
  zsum (fun x => in_ValueSats x.2.1) (combine l (combine inputs checkpoints)) = zsum in_ValueSats inputs.
Proof using Type.
  revert checkpoints l. induction inputs as [|i inputs IH]; intros [|c cs] [|a l] H1 H2; try done. simpl in *. rewrite IH by lia. done.
Qed.

Lemma combine_typed (inputs : list VtxoOperationInput) (checkpoints : list Packet) (ns : list nat) (ins : list TxIn) (pins : list PInput) :
  Forall reserved_typed inputs ->
  Forall (fun i => match pi_WitnessUtxo i with Some o => int64_typed (to_Value o) | None => True end) pins ->
  Forall (fun x => reserved_typed x.2.1 /\ match pi_WitnessUtxo x.1.2.2 with Some o => int64_typed (to_Value o) | None => True end)
    (combine (combine ns (combine ins pins)) (combine inputs checkpoints)).
Proof using Type.
  intros Hr Hp. apply list.Forall_forall. intros [[n [txin pin]] [i c]] Hin%list_elem_of_In.
  apply in_combine_l in Hin as H1. apply in_combine_r in Hin as H2. apply in_combine_r, in_combine_r in H1. apply in_combine_l in H2.
  rewrite list.Forall_forall in Hr. rewrite list.Forall_forall in Hp. split; simpl; [apply Hr|apply (Hp pin)]; by apply list_elem_of_In.
Qed.

(** The outputs between the destination and the anchor. *)
Lemma last_output tree op dest outs anchor before out :
  zlen (dest :: outs) = (if 0 <? op_ChangeSats op then 3 else 2) -> rev (dest :: outs) = anchor :: before ->
  (op_ChangeSats op = 0 \/ DustSats <= op_ChangeSats op < 2 ^ 63) ->
  (op_ChangeSats op <> 0 -> exists d rest, dest :: outs = d :: change_outputs tree op ++ rest) -> anchor = out ->
  outs = change_outputs tree op ++ [out].
Proof using Type.
  intros Hl Hr Hc Ho ->. unfold change_outputs, zlen, DustSats in *. destruct Hc as [Hc|Hc].
  - rewrite Hc in *. simpl in *. destruct outs as [|o [|? ?]]; simpl in Hl; try lia. by injection Hr as -> _.
  - rewrite (proj2 (Z.eqb_neq _ _)) in * by lia. rewrite (proj2 (Z.ltb_lt _ _)) in Hl by lia.
    destruct (Ho ltac:(lia)) as (d & rest & E). injection E as -> ->. simpl in *.
    destruct rest as [|o [|? ?]]; simpl in Hl; try lia. by injection Hr as -> _.
Qed.

Lemma spend_transaction_of ptx op inputs tree checkpoints : packet_typed ptx -> Forall reserved_typed inputs ->
  int64_typed (op_AmountSats op) -> int64_typed (op_FeeSats op) ->
  verifySpendPSBT ptx op inputs tree checkpoints = Ok tt -> exists tx, spend_transaction ptx op inputs tree checkpoints tx.
Proof using Type.
  intros [Htx Hpin] Hr Ha Hf. unfold verifySpendPSBT. destruct (pk_UnsignedTx ptx) as [tx|] eqn:Etx; [|done].
  destruct (Htx tx eq_refl) as [_ Hto].
  intros ([] & Hn%require_Ok & ([] & _ & ([] & Hl%require_Ok & ([script control] & Hd & (inSum & Hloop & Hk)%bind_Ok)%bind_Ok)%bind_Ok)%bind_Ok)%bind_Ok.
  apply spendInput_loop in Hloop as (Hall & -> & Hle); [|unfold uint64_max; lia|by apply combine_typed].
  apply bind_Ok in Hk as ([] & Hout%require_Ok & Hk).
  destruct (tx_TxOut tx) as [|dest outs] eqn:Eto; [done|]. destruct (rev (dest :: outs)) as [|anchor before] eqn:Erev; [done|].
  apply bind_Ok in Hk as ([] & Hdest%require_Ok & ([] & Hdust%require_Ok & (v & Hc & ([] & Hanchor%require_Ok & Hk%require_Ok)%bind_Ok)%bind_Ok)%bind_Ok).
  unfold beqb in *. bool_prop. apply Forall_cons_iff in Hto as Hto'. destruct Hto' as [Hdt _].
  assert (Eamount : to_Value dest = op_AmountSats op).
  { symmetry. apply uint64_inj; [done|done|unfold DustSats in *; lia|done]. }
  apply spendChange_Ok in Hc as (-> & Hch & Houts); [|done].
  rewrite combine_values in *; [|unfold zlen in *; rewrite ?length_combine, ?length_seq; lia..].
  assert (Hdv : 0 <= to_Value dest < 2 ^ 63) by (unfold int64_typed, DustSats in *; lia).
  exists tx. split; [done| | | | |].
  - rewrite Eto, (TxOut_eta dest _ _ Eamount) by done. f_equal. eapply last_output; [done..|].
    apply TxOut_eta; done.
  - rewrite (uint64_small (to_Value dest)) in * by lia.
    rewrite (uint64_small (to_Value dest + op_ChangeSats op)) in * by (unfold DustSats in *; lia).
    rewrite (uint64_small (op_FeeSats op)) in * by (unfold int64_typed in *; lia).
    rewrite (uint64_small (to_Value dest + op_ChangeSats op + op_FeeSats op)) in * by (unfold uint64_max, DustSats in *; lia). lia.
  - unfold DustSats in *. rewrite <-Eamount. split_and!; [lia|lia|done].
  - unfold zlen in *. lia.
  - exists script, control. done.
Qed.

(** [C26] Value conservation of what is signed: when the checkpoints and the spend
    are accepted, the spend's outputs are exactly the authorized amount to the
    authorized script, the change back to the vault's script, and a worthless
    anchor; the reserved values are exactly amount, change and fee; every input
    spends output 0 of its checkpoint, which spends the reserved outpoint of the
    same position and nothing else; and only the user has signed. *)
Theorem signed_spend_conserves_value ptx op inputs tree checkpoints :
  packet_typed ptx -> Forall packet_typed checkpoints -> Forall reserved_typed inputs ->
  int64_typed (op_AmountSats op) -> int64_typed (op_FeeSats op) ->
  Forall2 (fun input cp => verifyUnsignedCheckpointPSBT cp input op tree = Ok tt) inputs checkpoints ->
  verifySpendPSBT ptx op inputs tree checkpoints = Ok tt ->
  (exists tx, spend_transaction ptx op inputs tree checkpoints tx) /\
  Forall2 (fun input cp => exists cptx, checkpoints_input tree op input cp cptx) inputs checkpoints.
Proof using Type.
  intros Hp Hcp Hr Ha Hf Hall Hv. split; [by apply spend_transaction_of|]. clear Hv.
  induction Hall as [|input cp inputs checkpoints Hic _ IH]; constructor.
  - apply Forall_cons_iff in Hcp as [? _]. apply Forall_cons_iff in Hr as [? _]. by apply unsigned_checkpoint.
  - apply Forall_cons_iff in Hcp as [_ ?]. apply Forall_cons_iff in Hr as [_ ?]. by apply IH.
Qed.

(** The signatures that count are exactly the required ones: an input passes
    when its signatures are one per required signer, without a duplicate or a
    foreign key, each valid for this leaf and sighash; and only then. *)
Theorem required_signers_exact ptx idx signers leaf sighash :
  requireVerifiedSignersWithSighash ptx idx signers leaf sighash = Ok tt <->
  Forall (fun s => zlen s = 32) signers /\ signed_by ptx idx signers leaf sighash.
Proof using Type. apply required_signers. Qed.

(** ** The pending proof *)

Lemma foldR_unit {A} (f : A -> result unit) l : foldR (fun _ x => f x) tt l = Ok tt <-> Forall (fun x => f x = Ok tt) l.
Proof using Type.
  induction l as [|a l IH]; [by split|]. rewrite foldR_cons, bind_Ok, Forall_cons_iff, <-IH. split.
  - intros ([] & ? & ?). done.
  - intros [? ?]. by exists tt.
Qed.

Lemma pendingInput_Ok packet tree req i txin pin stored : outpoint_typed (ti_PreviousOutPoint txin) ->
  pendingInput packet tree req (i, (txin, pin), stored) = Ok tt ->
  match stored with Some s => reserved_typed s -> ti_PreviousOutPoint txin = reserved_outpoint s | None => True end /\
  signed_by packet i req (vt_SpendLeaf tree) SigHashAll.
Proof using Type.
  intros Hop. unfold pendingInput. intros ([] & _ & ([] & Hm%require_Ok & Hk)%bind_Ok)%bind_Ok.
  destruct (pi_WitnessUtxo pin); [|done].
  apply bind_Ok in Hk as ([] & _ & ([] & _ & Hs%wrap_Ok)%bind_Ok). apply required_signers in Hs as [_ Hs]. split; [|done].
  destruct stored as [s|]; [|done]. bool_prop. intros Hr. by apply matched_outpoint.
Qed.

Lemma combine_lookup {A B} (xs : list A) : forall (ys : list B) k x y, combine xs ys !! k = Some (x, y) -> xs !! k = Some x /\ ys !! k = Some y.
Proof using Type. induction xs as [|a xs IH]; intros [|b ys] [|k] x y; simpl; try done; [by intros [= -> ->]|apply IH]. Qed.

Lemma combined_seq {A B} (P : nat * A * B -> Prop) (xs : list A) (ys : list B) a : length xs = length ys ->
  Forall P (combine (combine (seq a (length xs)) xs) ys) ->
  forall k, (k < length xs)%nat -> exists x y, xs !! k = Some x /\ ys !! k = Some y /\ P ((a + k)%nat, x, y).
Proof using Type.
  revert ys a. induction xs as [|x xs IH]; intros [|y ys] a Hl; simpl; try done; [lia|].
  intros [Hx Hxs]%Forall_cons_iff k Hk. destruct k as [|k].
  - exists x, y. by rewrite Nat.add_0_r.
  - destruct (IH ys (S a) ltac:(simpl in Hl; lia) Hxs k ltac:(lia)) as (x' & y' & ? & ? & ?). exists x', y'.
    by replace (a + S k)%nat with (S a + k)%nat by lia.
Qed.

(** [C27] A pending proof moves nothing: an accepted proof is a transaction whose
    only output is a worthless OP_RETURN, whose inputs after the message are the
    reserved outpoints in order, each signed with SIGHASH_ALL by exactly the
    required keys. *)
Theorem pending_proof_moves_nothing raw inputs tree required skipped :
  (forall p, NewFromRawBytes raw = Ok p -> packet_typed p) -> Forall reserved_typed inputs ->
  verifyPendingProof raw inputs tree required skipped = Ok tt ->
  exists packet tx, parsePSBT raw = Ok packet /\ pk_UnsignedTx packet = Some tx /\
    map (fun o => (to_Value o, to_PkScript o)) (tx_TxOut tx) = [(0, [OP_RETURN])] /\
    map ti_PreviousOutPoint (tail (tx_TxIn tx)) = map reserved_outpoint inputs /\
    forall i, (i <= length inputs)%nat -> signed_by packet i (map SerializeXOnly required) (vt_SpendLeaf tree) SigHashAll.
Proof using Type.
  intros Hty Hr. unfold verifyPendingProof.
  intros ([] & _ & (packet & Hp & ([] & _ & ([] & _ & Hk)%bind_Ok)%bind_Ok)%bind_Ok)%bind_Ok. revert Hk.
  destruct (pk_UnsignedTx packet) as [tx|] eqn:Etx; [|done].
  intros ([] & _ & ([] & Hl%require_Ok & ([] & Ho & ([] & Hloop%foldR_unit & _)%bind_Ok)%bind_Ok)%bind_Ok)%bind_Ok.
  assert (Htyped : packet_typed packet).
  { apply Hty. revert Hp. unfold parsePSBT. intros ([] & _ & (p & Hn%wrap_Ok & Hk)%bind_Ok)%bind_Ok.
    destruct (pk_UnsignedTx p); [|done]. by apply bind_Ok in Hk as ([] & _ & [= <-]). }
  destruct Htyped as [Htt _]. destruct (Htt tx Etx) as [Hti _]. bool_prop. unfold zlen in *.
  assert (Hall : forall k, (k <= length inputs)%nat -> exists txin pin stored, tx_TxIn tx !! k = Some txin /\
    (None :: map Some inputs) !! k = Some stored /\ pendingInput packet tree (map SerializeXOnly required) (k, (txin, pin), stored) = Ok tt).
  { intros k Hk. assert (Hlen : length (pk_Inputs packet) = length (combine (tx_TxIn tx) (pk_Inputs packet))) by (rewrite length_combine; lia).
    assert (Hcl : length (combine (tx_TxIn tx) (pk_Inputs packet)) = length (None :: map Some inputs)) by (simpl; rewrite length_map, length_combine; lia).
    rewrite Hlen in Hloop. destruct (combined_seq _ _ _ 0 Hcl Hloop k) as ([txin pin] & stored & Hx & ? & ?); [rewrite length_combine; lia|]. exists txin, pin, stored. split_and!; [|done..].
    by apply combine_lookup in Hx as [? _]. }
  exists packet, tx. split_and!; [done..| | |].
  - destruct (tx_TxOut tx) as [|out [|? ?]]; try done. destruct (pk_Outputs packet) as [|? [|? ?]]; try done.
    apply require_Ok in Ho. unfold beqb in Ho. bool_prop. simpl. by repeat f_equal.
  - apply list_eq. intros k. rewrite !list_lookup_fmap, lookup_tail.
    destruct (decide (k < length inputs)%nat) as [Hk|Hk].
    + destruct (Hall (S k) ltac:(lia)) as (txin & pin & stored & Ht & Hs & Hok). rewrite Ht. simpl in Hs.
      rewrite list_lookup_fmap in Hs. destruct (inputs !! k) as [s|] eqn:Es; [|done]. injection Hs as <-. simpl. f_equal.
      assert (Hop : outpoint_typed (ti_PreviousOutPoint txin)).
      { rewrite list.Forall_forall in Hti. apply Hti. by eapply list_elem_of_lookup_2. }
      apply pendingInput_Ok in Hok as [Hm _]; [|done]. apply Hm. rewrite list.Forall_forall in Hr. apply Hr. by eapply list_elem_of_lookup_2.
    + rewrite (lookup_ge_None_2 inputs) by lia. rewrite (lookup_ge_None_2 (tx_TxIn tx)) by lia. done.
  - intros k Hk. destruct (Hall k Hk) as (txin & pin & stored & Ht & _ & Hok).
    apply pendingInput_Ok in Hok as [_ ?]; [done|]. rewrite list.Forall_forall in Hti. apply Hti. by eapply list_elem_of_lookup_2.
Qed.
End verify.

Example std_b64 : std_b64_decode (bytes_of "cHNidP8=") = Ok [x70; x73; x62; x74; xff].
Proof. vm_compute. reflexivity. Qed.

(** ** A toy library for examples

    A signature is the key followed by the digest; a control block is the output
    key it opens, and a tree's output key is its leaves one after the other. *)

Definition sample_key (k : Z) : bytes := be_bytes 32 k.
Definition sample_digest : bytes := replicate 32 x01.
Definition sample_leaf : bytes := [x20; x51].
Definition sample_unroll : bytes := [x51; x52].
Definition sample_vault : bytes := [x51; x20].

Definition sample_pinput (value : Z) (script control : bytes) (sighash : Z) (signers : list bytes) : PInput :=
  MkPInput (Some (MkTxOut value script)) sighash [Some (MkTapLeafScript control sample_leaf BaseLeafVersion)]
    (map (fun k => Some (MkSpendSig k (sha256 sample_leaf) (k ++ sample_digest) sighash)) signers) [].
Definition sample_txin (op : OutPoint) : TxIn := MkTxIn op MaxTxInSequenceNum [] [].

(** A pending proof of one reserved output, signed by the phone. *)
Definition sample_pending : Packet :=
  MkPacket (Some (MkMsgTx 2 0 [sample_txin (replicate 32 x00, 0); sample_txin (replicate 32 x07, 1)] [MkTxOut 0 [OP_RETURN]]))
    [sample_pinput 0 sample_vault sample_vault SigHashAll [sample_key 7]; sample_pinput 1000 sample_vault sample_vault SigHashAll [sample_key 7]]
    [[]] [Some ([x09], canonicalGetPendingTxMessage)].

#[local] Instance sample_btc : Btc := {|
  PublicKey := bytes;
  SchnorrSig := bytes;
  NewFromRawBytes := fun s => if seqb s "cHNidP8=" then Ok sample_pending else Err (Errorf "invalid psbt");
  B64Encode := fun _ => Ok "cHNidP8=";
  TxHash := fun _ => replicate 32 x09;
  TapHash := sha256;
  CalcTapscriptSignaturehash := fun _ _ _ _ _ => Ok sample_digest;
  RawTxInTapscriptSignature := fun _ _ _ _ _ _ _ k => Ok (sample_key k ++ sample_digest);
  ParseSignature := fun b => Ok b;
  ParseXOnly := fun b => Ok b;
  VerifySig := fun sig digest key => beqb sig (key ++ digest);
  SerializeXOnly := fun k => k;
  PubKey := sample_key;
  PrevoutTxFields := fun _ _ => Ok []
|}.

#[local] Instance sample_ark : Ark := {|
  Closure := bytes;
  ControlBlock := bytes;
  TapKeyT := bytes;
  TapTreeT := bytes;
  DecodeClosure := fun b => Ok b;
  MultisigKeys := fun _ => Some [Some (sample_key 7); Some (sample_key 8)];
  ParseControlBlock := fun b => Ok b;
  OutputKey := fun control _ => control;
  P2TRScript := fun key => Ok key;
  TapTree := fun leaves => Ok (concat leaves, concat leaves);
  MerkleProofControl := fun tree _ => Ok tree;
  ANCHOR_PKSCRIPT := [x51; x02; x4e; x73];
  intent_Verify := fun _ _ _ => Ok tt
|}.

Definition sample_tree : PolicyTree :=
  MkPolicyTree _ _ (Some (sample_key 8)) (Some (sample_key 10)) (Some (sample_key 9)) (sample_key 11)
    sample_vault sample_leaf [] sample_vault [] [] "tark1" "tb1".

(** 1000 reserved: 600 to the destination, 350 back, 50 of fee. *)
Definition sample_reserved : VtxoOperationInput := MkVtxoOperationInput "op" (replicate 32 x07) 1 1000 sample_vault [].
Definition sample_op : VtxoOperation :=
  MkVtxoOperation "op" "vault" "spend" [] "reserved" 600 50 [] [x52] sample_vault 350 (Some 1) "" "" [] "" "" "" sample_unroll "" "" "" [] [].
Definition sample_dest : bytes := sample_unroll ++ sample_leaf.
Definition sample_checkpoint : Packet :=
  MkPacket (Some (MkMsgTx 3 0 [sample_txin (replicate 32 x07, 1)] [MkTxOut 1000 sample_dest; MkTxOut 0 [x51; x02; x4e; x73]]))
    [sample_pinput 1000 sample_vault sample_vault SigHashDefault []] [[]; []] [].
Definition sample_spend : Packet :=
  MkPacket (Some (MkMsgTx 3 0 [sample_txin (replicate 32 x09, 0)]
      [MkTxOut 600 [x52]; MkTxOut 350 sample_vault; MkTxOut 0 [x51; x02; x4e; x73]]))
    [sample_pinput 1000 sample_dest sample_dest SigHashDefault [sample_key 7]] [[]; []; []] [].

Ltac sample_types := unfold packet_typed, tx_typed, reserved_typed, outpoint_typed, int64_typed, sample_pending, sample_checkpoint, sample_spend, sample_reserved; simpl;
  repeat match goal with
  | |- _ /\ _ => split; cbn [pk_Inputs]
  | |- Forall _ [] => constructor
  | |- Forall _ (_ :: _) => constructor
  | |- forall tx, _ = Some tx -> _ => intros ? [= <-]
  | |- _ => first [done | lia | progress simpl]
  end.

Lemma sample_pending_typed : packet_typed sample_pending.
Proof.
  sample_types.
Qed.

Lemma signed_spend_conserves_value_witness :
  verifySpendPSBT sample_spend sample_op [sample_reserved] sample_tree [sample_checkpoint] = Ok tt /\
  (exists tx, spend_transaction sample_spend sample_op [sample_reserved] sample_tree [sample_checkpoint] tx) /\
  Forall2 (fun input cp => exists cptx, checkpoints_input sample_tree sample_op input cp cptx) [sample_reserved] [sample_checkpoint].
Proof.
  split; [vm_compute; reflexivity|].
  apply (signed_spend_conserves_value sample_spend sample_op [sample_reserved] sample_tree [sample_checkpoint]).
  - sample_types.
  - sample_types.
  - sample_types.
  - sample_types.
  - sample_types.
  - constructor; [vm_compute; reflexivity|constructor].
  - vm_compute. reflexivity.
Defined.

Lemma pending_proof_moves_nothing_witness :
  verifyPendingProof "cHNidP8=" [sample_reserved] sample_tree [sample_key 7] [] = Ok tt /\
  exists packet tx, parsePSBT "cHNidP8=" = Ok packet /\ pk_UnsignedTx packet = Some tx /\
    map (fun o => (to_Value o, to_PkScript o)) (tx_TxOut tx) = [(0, [OP_RETURN])] /\
    map ti_PreviousOutPoint (tail (tx_TxIn tx)) = map reserved_outpoint [sample_reserved] /\
    forall i, (i <= length [sample_reserved])%nat -> signed_by packet i (map SerializeXOnly [sample_key 7]) (vt_SpendLeaf sample_tree) SigHashAll.
Proof.
  split; [vm_compute; reflexivity|].
  apply (pending_proof_moves_nothing "cHNidP8=" [sample_reserved] sample_tree [sample_key 7] []).
  - cbn. intros p [= <-]. exact sample_pending_typed.
  - sample_types.
  - vm_compute. reflexivity.
Defined.

(** A spend that keeps part of the reserved value is refused. *)
Example leaking_spend : verifySpendPSBT sample_spend (MkVtxoOperation "op" "vault" "spend" [] "reserved" 600 40 [] [x52] sample_vault 350 (Some 1)
    "" "" [] "" "" "" sample_unroll "" "" "" [] []) [sample_reserved] sample_tree [sample_checkpoint] = Err (Errorf "input/output conservation").
Proof. vm_compute. reflexivity. Qed.
