(* ===== verification/KeyProvider.v ===== *)
(** * Scoped keys: what the one secret may sign

    [internal/application/key_provider.go] and [signer.go].  The file-backed
    keys are one shared cell holding the master scalar; every capability reads
    that cell when it is used, so wiping it disables all of them.  The Arkade
    script machine and the parsing of curve points are third-party and enter
    through the class [Arkade]. *)

From S2P Require Import Prelude Crypto Codec Program Tenant Cosigner Psbt.
From Stdlib Require Import Strings.Byte Strings.Ascii Strings.String.
From stdpp Require Import base decidable list strings gmap option.
From Stdlib Require Import ZArith Lia.
Open Scope string_scope.
Open Scope list_scope.
Open Scope Z_scope.

Class Arkade `{Btc} := {
  SerializeCompressed : PublicKey -> bytes;
  ParsePubKey : bytes -> result PublicKey;                              (* btcec.ParsePubKey *)
  EmulatorEntry : Type;
  ArkadeScript : Type;
  FindEmulatorPacket : MsgTx -> result (list EmulatorEntry);
  ReadArkadeScript : Packet -> PublicKey -> EmulatorEntry -> result ArkadeScript;
  script_Execute : ArkadeScript -> MsgTx -> OutPoint -> TxOut -> MsgTx -> result unit;
  script_Hash : ArkadeScript -> bytes;
  ComputeArkadeScriptPrivateKey : Z -> bytes -> option Z;
  VerifyTaprootLeafCommitment : bytes -> TapLeafScript -> result unit
}.

Section keys.
Context `{Arkade}.

(** The two views of the curve agree: the compressed encoding of a scalar, and
    whether an encoding is a point. *)
Definition compressed_of (priv : Z) : bytes := SerializeCompressed (PubKey priv).
Definition is_point (raw : bytes) : bool := match ParsePubKey raw with Ok _ => true | Err _ => false end.

(** ** [LocalSigner] *)

Definition LocalSigner (priv : option Z) (ptx : Packet) : result Packet :=
  match priv with
  | None => Err (Errorf "local signer missing private key")
  | Some priv =>
      match pk_UnsignedTx ptx, pk_Inputs ptx with
      | Some tx, [input] =>
          match tx_TxIn tx with
          | [txin] =>
              match pi_WitnessUtxo input with
              | None => Err (Errorf "witness utxo required")
              | Some prev =>
                  match pi_TaprootLeafScript input with
                  | Some leaf :: _ =>
                      packet ← FindEmulatorPacket tx;
                      match packet with
                      | [entry] =>
                          script ← ReadArkadeScript ptx (PubKey priv) entry;
                          prevTx ← RequireVerifiedPrevout ptx;
                          wrap "arkade script" (script_Execute script tx (ti_PreviousOutPoint txin) prev prevTx);;
                          match ComputeArkadeScriptPrivateKey priv (script_Hash script) with
                          | None => Err (Errorf "arkade tweak is degenerate")
                          | Some key =>
                              require (pi_SighashType input =? SigHashDefault) (Errorf "unsupported sighash");;
                              VerifyTaprootLeafCommitment (to_PkScript prev) leaf;;
                              sig ← RawTxInTapscriptSignature (cannedFetcher prev) tx 0 (to_Value prev) (to_PkScript prev)
                                      (tl_Script leaf) SigHashDefault key;
                              let sig := if zlen sig =? 65 then take 64 sig else sig in
                              Ok (set_inputs [add_sig (MkSpendSig (SerializeXOnly (PubKey key)) (TapHash (tl_Script leaf)) sig SigHashDefault) input] ptx)
                          end
                      | _ => Err (Errorf "expected one emulator entry")
                      end
                  | _ => Err (Errorf "taproot leaf script required")
                  end
              end
          | _ => Err (Errorf "exactly one input required")
          end
      | _, _ => Err (Errorf "exactly one input required")
      end
  end.

(** ** The shared cell: [fileBackedVaultKeys] *)

(** [None]: the master was wiped. *)
Definition fileBackedVaultKeys : Type := option Z.

Definition withMaster {A} (k : fileBackedVaultKeys) (fn : Z -> result A) : result A :=
  match k with None => Err (Errorf "VaultCosigner IKM required") | Some master => fn master end.

Definition wipe (_ : fileBackedVaultKeys) : fileBackedVaultKeys := None.

Definition vaultCosignerPublic (k : fileBackedVaultKeys) (vaultID : string) : result PublicKey :=
  require (negb (seqb vaultID "")) (Errorf "tenant vault id required");;
  withMaster k (fun master =>
    child ← DeriveVaultCosignerScalar (Some master) vaultID CosignerModeHKDFSHA256V1;
    Ok (PubKey child)).

(** *** Savings recovery *)

Record savingsRecoveryAuthorization := MkSavingsRecovery {
  sr_record : VaultRecord; sr_unsignedPSBT : string; sr_vaultExpectedXOnly : bytes; sr_arkadeExpectedXOnly : bytes
}.

Definition newSavingsRecoveryAuthorization (record : option VaultRecord) (unsignedPSBT : string) (vaultXOnly arkadeXOnly : bytes)
  : result savingsRecoveryAuthorization :=
  match record with
  | None => Err (Errorf "vault cosigner mode is not supported")
  | Some record =>
      require (negb (seqb (v_VaultID record) "") && seqb (v_CosignerMode record) CosignerModeHKDFSHA256V1)
        (Errorf "vault cosigner mode is not supported");;
      require (negb (seqb unsignedPSBT "")) (Errorf "Savings recovery PSBT required");;
      require ((zlen vaultXOnly =? PubKeyBytesLen) && (zlen arkadeXOnly =? PubKeyBytesLen)) (Errorf "Savings recovery signer keys required");;
      Ok (MkSavingsRecovery record unsignedPSBT vaultXOnly arkadeXOnly)
  end.

(** [pinnedPublicEmulatorOperation] over its signer, nil or any function. *)
Definition authorizeSavingsRecoveryStage (signer : option (Packet -> result Packet)) (vaultSignedPSBT : string) (expectedXOnly : bytes)
  : result string :=
  require (bool_decide (is_Some signer) && negb (seqb vaultSignedPSBT "") && (zlen expectedXOnly =? PubKeyBytesLen))
    (Errorf "ArkadeCosigner signer required");;
  signExactStage vaultSignedPSBT signer expectedXOnly "ArkadeCosigner".

Definition authorizeSavingsRecovery (k : fileBackedVaultKeys) (emulator : option (Packet -> result Packet)) (req : savingsRecoveryAuthorization)
  : result string :=
  require (negb (seqb (v_VaultID (sr_record req)) "") && seqb (v_CosignerMode (sr_record req)) CosignerModeHKDFSHA256V1 &&
           negb (seqb (sr_unsignedPSBT req) "") && (zlen (sr_vaultExpectedXOnly req) =? PubKeyBytesLen) &&
           (zlen (sr_arkadeExpectedXOnly req) =? PubKeyBytesLen)) (Errorf "invalid Savings recovery authorization");;
  vaultStage ← withMaster k (fun master =>
    VerifyVaultCosignerPub compressed_of (Some master) (sr_record req);;
    child ← DeriveVaultCosignerScalar (Some master) (v_VaultID (sr_record req)) (v_CosignerMode (sr_record req));
    signExactStage (sr_unsignedPSBT req) (Some (LocalSigner (Some child))) (sr_vaultExpectedXOnly req) "VaultCosigner");
  authorizeSavingsRecoveryStage emulator vaultStage (sr_arkadeExpectedXOnly req).

(** *** VTXO spends *)

Record vtxoKeyContext := MkVtxoKeyContext { kx_vaultID : string; kx_network : string; kx_operatorPub : bytes; kx_expectedXOnly : bytes }.

Definition PubKeyBytesLenCompressed : Z := 33.

Definition set_expectedXOnly (x : bytes) (k : vtxoKeyContext) : vtxoKeyContext :=
  MkVtxoKeyContext (kx_vaultID k) (kx_network k) (kx_operatorPub k) x.

Definition newVtxoKeyContext (vaultID network : string) (operatorPub : bytes) : result vtxoKeyContext :=
  require (negb (seqb vaultID "") && negb (seqb network "") && (zlen operatorPub =? PubKeyBytesLenCompressed))
    (Errorf "vault-policy-v1 key context required");;
  Ok (MkVtxoKeyContext vaultID network operatorPub []).

Definition validateVtxoKeyContext (req : vtxoKeyContext) (requireExpected : bool) : result unit :=
  require (negb (seqb (kx_vaultID req) "") && negb (seqb (kx_network req) "") && (zlen (kx_operatorPub req) =? PubKeyBytesLenCompressed))
    (Errorf "vault-policy-v1 key context required");;
  require (negb requireExpected || (zlen (kx_expectedXOnly req) =? PubKeyBytesLen)) (Errorf "vault-policy-v1 expected signer required").

Definition is_ok {A} (r : result A) : bool := match r with Ok _ => true | Err _ => false end.

Definition deriveVtxoKey (master : option Z) (req : vtxoKeyContext) : result Z :=
  require (bool_decide (is_Some master) && is_ok (validateVtxoKeyContext req false)) (Errorf "vault-policy-v1 key context required");;
  DeriveVtxoVaultCosignerScalar compressed_of is_point master (kx_vaultID req) VaultPolicyV1 (kx_network req) (kx_operatorPub req).

Definition vtxoVaultCosignerPublic (k : fileBackedVaultKeys) (req : vtxoKeyContext) : result PublicKey :=
  withMaster k (fun master => priv ← deriveVtxoKey (Some master) req; Ok (PubKey priv)).

Record vtxoTransactionAuthorization := MkVtxoTransactionAuthorization {
  ta_key : vtxoKeyContext; ta_unsignedArk : string; ta_pendingProof : string; ta_spendLeaf : bytes
}.

Definition newVtxoTransactionAuthorization (key : vtxoKeyContext) (unsignedArk pendingProof : string) (spendLeaf expectedXOnly : bytes)
  : result vtxoTransactionAuthorization :=
  require (negb (seqb unsignedArk "") && negb (seqb pendingProof "") && negb (zlen spendLeaf =? 0) && (zlen expectedXOnly =? PubKeyBytesLen))
    (Errorf "vault-policy-v1 transaction authorization required");;
  Ok (MkVtxoTransactionAuthorization (set_expectedXOnly expectedXOnly key) unsignedArk pendingProof spendLeaf).

(** The scoped key of a context, refused when it is not the expected one. *)
Definition scopedKey (master : Z) (key : vtxoKeyContext) : result Z :=
  priv ← deriveVtxoKey (Some master) key;
  require (beqb (SerializeXOnly (PubKey priv)) (kx_expectedXOnly key)) (Errorf "vault-policy-v1 signer key mismatch");;
  Ok priv.

(** [ctx n] is what [ctx.Err()] answers at the n-th stage of the call. *)
Definition authorizeVtxoTransaction (k : fileBackedVaultKeys) (ctx : nat -> option error) (req : vtxoTransactionAuthorization)
  : result (string * string) :=
  require (negb (seqb (ta_unsignedArk req) "") && negb (seqb (ta_pendingProof req) "") && negb (zlen (ta_spendLeaf req) =? 0) &&
           is_ok (validateVtxoKeyContext (ta_key req) true)) (Errorf "invalid vault-policy-v1 transaction authorization");;
  withMaster k (fun master =>
    priv ← scopedKey master (ta_key req);
    ark ← signExactArkStage (ctx 0%nat) (ta_unsignedArk req) (Some priv) (kx_expectedXOnly (ta_key req)) (ta_spendLeaf req);
    proof ← signExactArkStageWithSighash (ctx 1%nat) (ta_pendingProof req) (Some priv) (kx_expectedXOnly (ta_key req)) (ta_spendLeaf req) SigHashAll;
    Ok (ark, proof)).

Record vtxoCheckpointAuthorization := MkVtxoCheckpointAuthorization {
  ka_key : vtxoKeyContext; ka_checkpoints : list string; ka_spendLeaf : bytes
}.

Definition newVtxoCheckpointAuthorization (key : vtxoKeyContext) (checkpoints : list string) (spendLeaf expectedXOnly : bytes)
  : result vtxoCheckpointAuthorization :=
  require (negb (zlen checkpoints =? 0) && negb (zlen spendLeaf =? 0) && (zlen expectedXOnly =? PubKeyBytesLen))
    (Errorf "vault-policy-v1 checkpoint authorization required");;
  require (negb (existsb (fun c => seqb c "") checkpoints)) (Errorf "vault-policy-v1 checkpoint PSBT required");;
  Ok (MkVtxoCheckpointAuthorization (set_expectedXOnly expectedXOnly key) checkpoints spendLeaf).

Definition authorizeVtxoCheckpoints (k : fileBackedVaultKeys) (ctx : nat -> option error) (req : vtxoCheckpointAuthorization)
  : result (list string) :=
  require (negb (zlen (ka_checkpoints req) =? 0) && negb (zlen (ka_spendLeaf req) =? 0) && is_ok (validateVtxoKeyContext (ka_key req) true))
    (Errorf "invalid vault-policy-v1 checkpoint authorization");;
  withMaster k (fun master =>
    priv ← scopedKey master (ka_key req);
    mapR (fun x => signExactArkStage (ctx x.1) x.2 (Some priv) (kx_expectedXOnly (ka_key req)) (ka_spendLeaf req))
      (imap pair (ka_checkpoints req))).

(** *** Boarding *)

Record vaultBoardKeyContext := MkVaultBoardKeyContext { bx_vaultID : string; bx_network : string; bx_operatorPub : bytes; bx_expectedXOnly : bytes }.

Definition newVaultBoardKeyContext (vaultID network : string) (operatorPub : bytes) : result vaultBoardKeyContext :=
  require (negb (seqb vaultID "") && (zlen operatorPub =? PubKeyBytesLenCompressed)) (Errorf "vault-board-v1 key context required");;
  match PinsFor network with
  | Err _ => Err (Errorf "vault-board-v1 key context required")
  | Ok _ =>
      require (is_point operatorPub) (Errorf "vault-board-v1 Operator key");;
      Ok (MkVaultBoardKeyContext vaultID network operatorPub [])
  end.

Definition deriveVaultBoardKey (master : option Z) (req : vaultBoardKeyContext) : result Z :=
  require (bool_decide (is_Some master) && negb (seqb (bx_vaultID req) "") && (zlen (bx_operatorPub req) =? PubKeyBytesLenCompressed))
    (Errorf "vault-board-v1 key context required");;
  match PinsFor (bx_network req) with
  | Err _ => Err (Errorf "vault-board-v1 key context required")
  | Ok _ => DeriveVaultBoardCosignerScalar compressed_of is_point master (bx_vaultID req) (bx_network req) (bx_operatorPub req)
  end.

Definition vaultBoardCosignerPublic (k : fileBackedVaultKeys) (req : vaultBoardKeyContext) : result PublicKey :=
  withMaster k (fun master => priv ← deriveVaultBoardKey (Some master) req; Ok (PubKey priv)).

Record vaultBoardAuthorization := MkVaultBoardAuthorization {
  va_key : vaultBoardKeyContext; va_psbt : string; va_leaf : bytes; va_inputIndexes : list Z; va_phase : string
}.

Definition phase_sighash (phase : string) : result Z :=
  if seqb phase "register" || seqb phase "delete" then Ok SigHashAll
  else if seqb phase "finalize" then Ok SigHashDefault
  else Err (Errorf "vault-board-v1 signature phase").

(** The loop over the indexes, with the set of those seen. *)
Definition freshIndex (seen : list Z) (idx : Z) : result (list Z) :=
  require (0 <=? idx) (Errorf "vault-board-v1 input index");;
  require (negb (bool_decide (idx ∈ seen))) (Errorf "vault-board-v1 duplicate input index");;
  Ok (idx :: seen).

Definition newVaultBoardAuthorization (key : vaultBoardKeyContext) (encoded : string) (leaf expectedXOnly : bytes)
    (inputIndexes : list Z) (phase : string) : result vaultBoardAuthorization :=
  require (negb (seqb encoded "") && negb (zlen leaf =? 0) && (zlen expectedXOnly =? PubKeyBytesLen) && negb (zlen inputIndexes =? 0))
    (Errorf "vault-board-v1 authorization required");;
  phase_sighash phase;;
  foldR freshIndex [] inputIndexes;;
  Ok (MkVaultBoardAuthorization (MkVaultBoardKeyContext (bx_vaultID key) (bx_network key) (bx_operatorPub key) expectedXOnly)
        encoded leaf inputIndexes phase).

Definition authorizeVaultBoard (k : fileBackedVaultKeys) (ctx : option error) (req : vaultBoardAuthorization) : result string :=
  require (negb (seqb (va_psbt req) "") && negb (zlen (va_leaf req) =? 0) && negb (zlen (va_inputIndexes req) =? 0) &&
           (zlen (bx_expectedXOnly (va_key req)) =? PubKeyBytesLen)) (Errorf "invalid vault-board-v1 authorization");;
  withMaster k (fun master =>
    priv ← deriveVaultBoardKey (Some master) (va_key req);
    require (beqb (SerializeXOnly (PubKey priv)) (bx_expectedXOnly (va_key req))) (Errorf "vault-board-v1 signer key mismatch");;
    sighash ← phase_sighash (va_phase req);
    signExactVaultBoardStage ctx (va_psbt req) (Some priv) (bx_expectedXOnly (va_key req)) (va_leaf req) (va_inputIndexes req) sighash).

(** ** [KeyCapabilities]

    Seven interfaces, each nil or the one compiled implementation over the
    shared cell. *)
Record KeyCapabilities := MkKeyCapabilities {
  kc_enrollment : bool; kc_savingsRecovery : bool; kc_vtxoTransaction : bool; kc_vtxoCheckpoint : bool;
  kc_vaultBoard : bool; kc_publicEmulator : option (Packet -> result Packet); kc_lifecycle : bool
}.

Definition no_capabilities : KeyCapabilities := MkKeyCapabilities false false false false false None false.

Definition Validate (k : KeyCapabilities) : result unit :=
  require (kc_enrollment k) (Errorf "arkade-vault-v1 enrollment derivation required");;
  require (kc_savingsRecovery k) (Errorf "arkade-vault-v1 Savings recovery authorization required");;
  require (kc_vtxoTransaction k) (Errorf "arkade-vault-v1 VTXO transaction authorization required");;
  require (kc_vtxoCheckpoint k) (Errorf "arkade-vault-v1 VTXO checkpoint authorization required");;
  require (kc_vaultBoard k) (Errorf "vault-board-v1 authorization required");;
  require (bool_decide (is_Some (kc_publicEmulator k))) (Errorf "arkade-vault-v1 public Emulator operation required");;
  require (kc_lifecycle k) (Errorf "arkade-vault-v1 key lifecycle required").

(** The capabilities and the cell they share. *)
Definition NewFileBackedKeyCapabilities (master : option Z) (emulator : option (Packet -> result Packet))
  : result (KeyCapabilities * fileBackedVaultKeys) :=
  require (bool_decide (is_Some master)) (Errorf "VaultCosigner IKM required");;
  require (bool_decide (is_Some emulator)) (Errorf "public Emulator operation required");;
  let capabilities := MkKeyCapabilities true true true true true emulator true in
  Validate capabilities;;
  Ok (capabilities, master).

(** [Wipe]: the cell through the lifecycle, then this copy of the record. *)
Definition Wipe (k : KeyCapabilities) (cell : fileBackedVaultKeys) : KeyCapabilities * fileBackedVaultKeys :=
  (no_capabilities, if kc_lifecycle k then wipe cell else cell).

Definition enrollmentPublic (k : KeyCapabilities) (cell : fileBackedVaultKeys) (vaultID : string) : result PublicKey :=
  require (kc_enrollment k) (Errorf "arkade-vault-v1 enrollment derivation required");;
  vaultCosignerPublic cell vaultID.

Definition savingsRecoveryAuthorize (k : KeyCapabilities) (cell : fileBackedVaultKeys) (req : savingsRecoveryAuthorization) : result string :=
  require (kc_savingsRecovery k) (Errorf "both VaultCosigner and ArkadeCosigner signers are required");;
  authorizeSavingsRecovery cell (kc_publicEmulator k) req.

Definition vtxoPublic (k : KeyCapabilities) (cell : fileBackedVaultKeys) (req : vtxoKeyContext) : result PublicKey :=
  require (kc_vtxoTransaction k) (Errorf "arkade-vault-v1 VTXO transaction authorization required");;
  vtxoVaultCosignerPublic cell req.

Definition vtxoTransactionAuthorize (k : KeyCapabilities) (cell : fileBackedVaultKeys) (ctx : nat -> option error)
    (req : vtxoTransactionAuthorization) : result (string * string) :=
  require (kc_vtxoTransaction k) (Errorf "arkade-vault-v1 VTXO transaction authorization required");;
  authorizeVtxoTransaction cell ctx req.

Definition vtxoCheckpointAuthorize (k : KeyCapabilities) (cell : fileBackedVaultKeys) (ctx : nat -> option error)
    (req : vtxoCheckpointAuthorization) : result (list string) :=
  require (kc_vtxoCheckpoint k) (Errorf "arkade-vault-v1 VTXO checkpoint authorization required");;
  authorizeVtxoCheckpoints cell ctx req.

Definition vaultBoardPublic (k : KeyCapabilities) (cell : fileBackedVaultKeys) (req : vaultBoardKeyContext) : result PublicKey :=
  require (kc_vaultBoard k) (Errorf "vault-board-v1 authorization required");;
  vaultBoardCosignerPublic cell req.

Definition vaultBoardAuthorize (k : KeyCapabilities) (cell : fileBackedVaultKeys) (ctx : option error) (req : vaultBoardAuthorization)
  : result string :=
  require (kc_vaultBoard k) (Errorf "vault-board-v1 authorization required");;
  authorizeVaultBoard cell ctx req.

(** ** What a capability can do *)

Lemma withMaster_Ok {A} (k : fileBackedVaultKeys) (fn : Z -> result A) a :
  withMaster k fn = Ok a -> exists master, k = Some master /\ fn master = Ok a.
Proof using Type. destruct k as [m|]; [|done]. simpl. eauto. Qed.

(** The key of a context: a scalar of that vault, network and Operator whose
    x-only public key is the expected one. *)
Definition key_of (master : Z) (key : vtxoKeyContext) (priv : Z) : Prop :=
  DeriveVtxoVaultCosignerScalar compressed_of is_point (Some master) (kx_vaultID key) VaultPolicyV1 (kx_network key) (kx_operatorPub key) = Ok priv /\
  SerializeXOnly (PubKey priv) = kx_expectedXOnly key.

Lemma scopedKey_Ok master key priv : scopedKey master key = Ok priv -> key_of master key priv.
Proof using Type.
  unfold scopedKey, deriveVtxoKey. intros (p & ([] & _ & Hd)%bind_Ok & ([] & Hx%require_Ok & [= <-])%bind_Ok)%bind_Ok.
  split; [done|]. by apply beqb_true.
Qed.

Lemma board_key_Ok master key priv : deriveVaultBoardKey (Some master) key = Ok priv ->
  DeriveVaultBoardCosignerScalar compressed_of is_point (Some master) (bx_vaultID key) (bx_network key) (bx_operatorPub key) = Ok priv.
Proof using Type. unfold deriveVaultBoardKey. intros ([] & _ & Hk)%bind_Ok. by destruct (PinsFor _). Qed.

(** [C32] A transaction authorization signs its two packets and nothing else:
    with the key derived for the request's vault, network and Operator, the
    spend on every input with the default sighash, the proof on every input with
    SIGHASH_ALL. *)
Theorem transaction_authorization_scoped k cell ctx req ark proof :
  vtxoTransactionAuthorize k cell ctx req = Ok (ark, proof) ->
  exists master priv, cell = Some master /\ key_of master (ta_key req) priv /\
    ark_stage (ta_unsignedArk req) ark (kx_expectedXOnly (ta_key req)) (ta_spendLeaf req) SigHashDefault /\
    ark_stage (ta_pendingProof req) proof (kx_expectedXOnly (ta_key req)) (ta_spendLeaf req) SigHashAll.
Proof using Type.
  unfold vtxoTransactionAuthorize, authorizeVtxoTransaction.
  intros ([] & _ & ([] & _ & (master & -> & (priv & Hk%scopedKey_Ok & (a & Ha%ark_stage_of & (p & Hp%ark_stage_of & [= <- <-])%bind_Ok)%bind_Ok)%bind_Ok)%withMaster_Ok)%bind_Ok)%bind_Ok.
  by exists master, priv.
Qed.

(** A checkpoint authorization signs every checkpoint of the request, in
    order, with the key derived for its vault, network and Operator. *)
Theorem checkpoint_authorization_scoped k cell ctx req authorized :
  vtxoCheckpointAuthorize k cell ctx req = Ok authorized ->
  exists master priv, cell = Some master /\ key_of master (ka_key req) priv /\
    Forall2 (fun raw out => ark_stage raw out (kx_expectedXOnly (ka_key req)) (ka_spendLeaf req) SigHashDefault)
      (ka_checkpoints req) authorized.
Proof using Type.
  unfold vtxoCheckpointAuthorize, authorizeVtxoCheckpoints.
  intros ([] & _ & ([] & _ & (master & -> & (priv & Hk%scopedKey_Ok & Hm%mapR_Ok)%bind_Ok)%withMaster_Ok)%bind_Ok)%bind_Ok.
  exists master, priv. split_and!; [done..|]. apply Forall2_same_length_lookup in Hm as [Hl Hm].
  apply Forall2_same_length_lookup. rewrite length_imap in Hl. split; [done|]. intros i raw out Hr Ho.
  eapply ark_stage_of, (Hm i (i, raw) out); [|done]. by rewrite list_lookup_imap, Hr.
Qed.

(** A boarding authorization signs exactly the named inputs, none twice,
    and fixes the sighash by the phase: registering and deleting an intent
    commit to the whole proof, only finalizing signs a transaction. *)
Theorem board_authorization_scoped k cell ctx req signed :
  vaultBoardAuthorize k cell ctx req = Ok signed ->
  exists master priv sighash, cell = Some master /\
    DeriveVaultBoardCosignerScalar compressed_of is_point (Some master) (bx_vaultID (va_key req)) (bx_network (va_key req))
      (bx_operatorPub (va_key req)) = Ok priv /\
    SerializeXOnly (PubKey priv) = bx_expectedXOnly (va_key req) /\
    phase_sighash (va_phase req) = Ok sighash /\ (sighash = SigHashDefault <-> va_phase req = "finalize") /\
    board_stage (va_psbt req) signed (bx_expectedXOnly (va_key req)) (va_leaf req) (va_inputIndexes req) sighash.
Proof using Type.
  unfold vaultBoardAuthorize, authorizeVaultBoard.
  intros ([] & _ & ([] & _ & (master & -> & (priv & Hk%board_key_Ok & ([] & Hx%require_Ok & (sighash & Hs & Hb%board_stage_of)%bind_Ok)%bind_Ok)%bind_Ok)%withMaster_Ok)%bind_Ok)%bind_Ok.
  apply beqb_true in Hx. exists master, priv, sighash. split_and!; [done..| |done].
  unfold phase_sighash in Hs. destruct (seqb (va_phase req) "register" || seqb (va_phase req) "delete") eqn:E.
  - injection Hs as <-. split; [done|]. intros Ef. rewrite Ef in E. by vm_compute in E.
  - destruct (seqb (va_phase req) "finalize") eqn:Ef; [|done]. injection Hs as <-. apply seqb_true in Ef. done.
Qed.

(** Wiping is final: after it no capability derives a key or signs, not even
    through a copy of the record made before. *)
Theorem wiped_keys_authorize_nothing k cell k' cell' : kc_lifecycle k = true -> Wipe k cell = (k', cell') ->
  (forall k2 vaultID, exists e, enrollmentPublic k2 cell' vaultID = Err e) /\
  (forall k2 key, exists e, vtxoPublic k2 cell' key = Err e) /\
  (forall k2 ctx req, exists e, vtxoTransactionAuthorize k2 cell' ctx req = Err e) /\
  (forall k2 ctx req, exists e, vtxoCheckpointAuthorize k2 cell' ctx req = Err e) /\
  (forall k2 key, exists e, vaultBoardPublic k2 cell' key = Err e) /\
  (forall k2 ctx req, exists e, vaultBoardAuthorize k2 cell' ctx req = Err e) /\
  (forall k2 req, exists e, savingsRecoveryAuthorize k2 cell' req = Err e).
Proof using Type.
  unfold Wipe, wipe. intros -> [= _ <-].
  unfold enrollmentPublic, vtxoPublic, vtxoTransactionAuthorize, vtxoCheckpointAuthorize, vaultBoardPublic, vaultBoardAuthorize,
    savingsRecoveryAuthorize, vaultCosignerPublic, vtxoVaultCosignerPublic, authorizeVtxoTransaction, authorizeVtxoCheckpoints,
    vaultBoardCosignerPublic, authorizeVaultBoard, authorizeSavingsRecovery, withMaster, require.
  split_and!; intros; cbn [mbind result_bind]; repeat (case_match; cbn [mbind result_bind]; try by eexists).
Qed.
End keys.

(** ** A toy curve for examples

    A public key is its scalar, a signature the key followed by the digest. *)

Definition toy_digest : bytes := replicate 32 x01.
Definition toy_leaf : bytes := [x20; x51].
Definition toy_packet (sighash : Z) : Packet :=
  MkPacket (Some (MkMsgTx 3 0 [MkTxIn (replicate 32 x09, 0) MaxTxInSequenceNum [] []] [MkTxOut 900 [x52]]))
    [MkPInput (Some (MkTxOut 1000 [x51])) sighash [Some (MkTapLeafScript [xc0] toy_leaf BaseLeafVersion)] [] []] [[]] [].

#[local] Instance toy_btc : Btc := {|
  PublicKey := Z;
  SchnorrSig := bytes;
  NewFromRawBytes := fun s => if seqb s "YXJr" then Ok (toy_packet SigHashDefault)
                              else if seqb s "cHJvb2Y=" then Ok (toy_packet SigHashAll) else Err (Errorf "invalid psbt");
  B64Encode := fun p => Ok (match pk_Inputs p with
                            | i :: _ => if negb (zlen (pi_TaprootScriptSpendSig i) =? 0) then "c2lnbmVk"
                                        else if pi_SighashType i =? SigHashDefault then "YXJr" else "cHJvb2Y="
                            | [] => "" end);
  TxHash := fun _ => replicate 32 x09;
  TapHash := fun leaf => leaf;
  CalcTapscriptSignaturehash := fun _ _ _ _ _ => Ok toy_digest;
  RawTxInTapscriptSignature := fun _ _ _ _ _ _ _ k => Ok (be_bytes 32 k ++ toy_digest);
  ParseSignature := fun b => Ok b;
  ParseXOnly := fun b => Ok (be_val b);
  VerifySig := fun sig digest key => beqb sig (be_bytes 32 key ++ digest);
  SerializeXOnly := be_bytes 32;
  PubKey := fun k => k;
  PrevoutTxFields := fun _ _ => Ok []
|}.

#[local] Instance toy_arkade : Arkade := {|
  SerializeCompressed := fun k => x02 :: be_bytes 32 k;
  ParsePubKey := fun raw => Ok (be_val (drop 1 raw));
  EmulatorEntry := unit;
  ArkadeScript := unit;
  FindEmulatorPacket := fun _ => Ok [tt];
  ReadArkadeScript := fun _ _ _ => Ok tt;
  script_Execute := fun _ _ _ _ _ => Ok tt;
  script_Hash := fun _ => toy_digest;
  ComputeArkadeScriptPrivateKey := fun k _ => Some k;
  VerifyTaprootLeafCommitment := fun _ _ => Ok tt
|}.

Definition toy_operator : bytes := x02 :: be_bytes 32 9.
Definition toy_context : vtxoKeyContext := MkVtxoKeyContext "vault-a" NetworkMutinynet toy_operator [].
Definition toy_vtxo_key : bytes :=
  Eval vm_compute in match deriveVtxoKey (Some 1) toy_context with Ok k => be_bytes 32 k | Err _ => [] end.
Definition toy_board_context : vaultBoardKeyContext := MkVaultBoardKeyContext "vault-a" NetworkMutinynet toy_operator [].
Definition toy_board_key : bytes :=
  Eval vm_compute in match deriveVaultBoardKey (Some 1) toy_board_context with Ok k => be_bytes 32 k | Err _ => [] end.
Definition toy_caps : KeyCapabilities := MkKeyCapabilities true true true true true (Some (fun p => Ok p)) true.
Definition toy_key := set_expectedXOnly toy_vtxo_key toy_context.
Definition toy_transaction := MkVtxoTransactionAuthorization toy_key "YXJr" "cHJvb2Y=" toy_leaf.
Definition toy_checkpoints := MkVtxoCheckpointAuthorization toy_key ["YXJr"; "YXJr"] toy_leaf.
Definition toy_boarding :=
  MkVaultBoardAuthorization (MkVaultBoardKeyContext "vault-a" NetworkMutinynet toy_operator toy_board_key) "cHJvb2Y=" toy_leaf [0] "register".

Lemma transaction_authorization_scoped_witness : exists ark proof,
  vtxoTransactionAuthorize toy_caps (Some 1) (fun _ => None) toy_transaction = Ok (ark, proof) /\
  exists master priv, Some 1 = Some master /\ key_of master toy_key priv /\
    ark_stage "YXJr" ark toy_vtxo_key toy_leaf SigHashDefault /\ ark_stage "cHJvb2Y=" proof toy_vtxo_key toy_leaf SigHashAll.
Proof.
  destruct (vtxoTransactionAuthorize toy_caps (Some 1) (fun _ => None) toy_transaction) as [[ark proof]|e] eqn:E; [|vm_compute in E; discriminate].
  exists ark, proof. split; [reflexivity|]. exact (transaction_authorization_scoped toy_caps (Some 1) (fun _ => None) toy_transaction ark proof E).
Defined.

Lemma checkpoint_authorization_scoped_witness : exists authorized,
  vtxoCheckpointAuthorize toy_caps (Some 1) (fun _ => None) toy_checkpoints = Ok authorized /\
  exists master priv, Some 1 = Some master /\ key_of master toy_key priv /\
    Forall2 (fun raw out => ark_stage raw out toy_vtxo_key toy_leaf SigHashDefault) ["YXJr"; "YXJr"] authorized.
Proof.
  destruct (vtxoCheckpointAuthorize toy_caps (Some 1) (fun _ => None) toy_checkpoints) as [authorized|e] eqn:E; [|vm_compute in E; discriminate].
  exists authorized. split; [reflexivity|]. exact (checkpoint_authorization_scoped toy_caps (Some 1) (fun _ => None) toy_checkpoints authorized E).
Defined.

Lemma board_authorization_scoped_witness : exists signed,
  vaultBoardAuthorize toy_caps (Some 1) None toy_boarding = Ok signed /\
  exists master priv sighash, Some 1 = Some master /\
    DeriveVaultBoardCosignerScalar compressed_of is_point (Some master) "vault-a" NetworkMutinynet toy_operator = Ok priv /\
    SerializeXOnly (PubKey priv) = toy_board_key /\ phase_sighash "register" = Ok sighash /\
    (sighash = SigHashDefault <-> "register" = "finalize") /\ board_stage "cHJvb2Y=" signed toy_board_key toy_leaf [0] sighash.
Proof.
  destruct (vaultBoardAuthorize toy_caps (Some 1) None toy_boarding) as [signed|e] eqn:E; [|vm_compute in E; discriminate].
  exists signed. split; [reflexivity|]. exact (board_authorization_scoped toy_caps (Some 1) None toy_boarding signed E).
Defined.

Lemma wiped_keys_authorize_nothing_witness :
  Wipe toy_caps (Some 1) = (no_capabilities, None) /\ exists e, vtxoTransactionAuthorize toy_caps None (fun _ => None) toy_transaction = Err e.
Proof.
  split; [reflexivity|].
  destruct (wiped_keys_authorize_nothing toy_caps (Some 1) no_capabilities None eq_refl eq_refl) as (_ & _ & Ht & _). apply Ht.
Defined.
