(* ===== verification/Trees.v ===== *)
(** * Taproot trees of a vault

    [internal/policy/vtxo_script.go] and [internal/application/vtxo_tree.go]:
    which keys stand in which leaf of the spending and boarding trees, and which
    destinations are refused.  Closure encodings, addresses and the Arkade
    address codec are third-party and enter through the class [ArkLib]. *)

From S2P Require Import Prelude Crypto Codec Program Recovery Apperr Tenant Cosigner Psbt SpendVerify KeyProvider.
From Stdlib Require Import Strings.Byte Strings.Ascii Strings.String.
From stdpp Require Import base decidable list strings gmap option.
From Stdlib Require Import ZArith Lia.
Open Scope string_scope.
Open Scope list_scope.
Open Scope Z_scope.

(** A decoded Arkade address: its HRP, its Operator key, its script. *)
Record ArkAddress `{Btc} := MkArkAddress { aa_HRP : string; aa_Signer : option PublicKey; aa_PkScript : result bytes }.

Class ArkLib `{Ark} := {
  MultisigClosure : list PublicKey -> Closure;
  CSVMultisigClosure : list PublicKey -> Z -> Closure;                  (* the lock time in seconds *)
  NewDefaultVtxoScript : PublicKey -> PublicKey -> Z -> list Closure;
  ExitClosures : list Closure -> nat;
  Script : Closure -> result bytes;
  Encode : list Closure -> result (list string);
  SerializeTapKey : TapKeyT -> bytes;                                   (* schnorr.SerializePubKey *)
  AddrHRP : bool -> string;                                             (* Bitcoin.Addr, BitcoinMutinyNet.Addr *)
  EncodeV0 : string -> PublicKey -> bytes -> result string;
  DecodeAddressV0 : string -> result ArkAddress;
  NewAddressTaproot : bytes -> string -> result string
}.

Section trees.
Context `{Btc, !Arkade, !Ark, !ArkLib}.

(** ** [policy/vtxo_script.go] *)

Record VaultPolicyV1Params := MkVaultPolicyV1Params {
  vp_UserPub : bytes; vp_VtxoVaultCosignerPub : bytes; vp_ArkdServerPub : bytes; vp_DelegatePub : bytes;
  vp_ExitDevicePub : bytes; vp_ExitHardwarePub : bytes; vp_ExitRecoveryPub : bytes; vp_Network : string
}.

Record VaultPolicyV1Tree := MkVaultPolicyV1Tree {
  pt_SpendScript : bytes; pt_ExitScript : bytes; pt_DelegateScript : bytes; pt_SpendControlBlock : bytes; pt_DelegateControlBlock : bytes;
  pt_RevealedScripts : list string; pt_TapKey : bytes; pt_PkScript : bytes
}.

Definition networkOr (network : string) : string := if seqb network "" then NetworkMutinynet else network.

Definition parsePolicyPub (raw : bytes) (name : string) : result PublicKey :=
  if zlen raw =? 32 then wrap name (ParseXOnly raw)
  else if zlen raw =? 33 then wrap name (ParsePubKey raw)
  else Err (Errorf (name ++ " must be 32-byte x-only or 33-byte compressed")).

Definition PinnedDelegateXOnlyFor (network : string) : result bytes :=
  pins ← PinsFor (networkOr network);
  match hex_decode (pin_DelegatePub pins) with
  | Some raw =>
      require (zlen raw =? 33) (Errorf "pinned public delegate");;
      pub ← wrap "pinned public delegate" (ParsePubKey raw);
      Ok (SerializeXOnly pub)
  | None => Err (Errorf "pinned public delegate")
  end.

Definition PinnedDelegateXOnly : result bytes := PinnedDelegateXOnlyFor NetworkMutinynet.

(** The guardian exit: device and hardware, or hardware and recovery. *)
Definition exitKeys (device hardware : PublicKey) (p : VaultPolicyV1Params) : result (list PublicKey) :=
  if 0 <? zlen (vp_ExitRecoveryPub p) then
    recovery ← parsePolicyPub (vp_ExitRecoveryPub p) "exitRecoveryPub";
    Ok [hardware; recovery]
  else Ok [device; hardware].

Definition BuildVaultPolicyV1Tree (p : VaultPolicyV1Params) : result VaultPolicyV1Tree :=
  let network := networkOr (vp_Network p) in
  pins ← PinsFor network;
  ValidateVaultPolicyV1ExitDelayFor network (pin_PolicyExitDelay pins) VaultPolicyV1ExitDelayUnit;;
  user ← parsePolicyPub (vp_UserPub p) "userPub";
  vtxoVault ← parsePolicyPub (vp_VtxoVaultCosignerPub p) "vtxoVaultCosignerPub";
  arkd ← parsePolicyPub (vp_ArkdServerPub p) "arkdServerPub";
  delegate ← parsePolicyPub (vp_DelegatePub p) "delegatePub";
  device ← parsePolicyPub (vp_ExitDevicePub p) "exitDevicePub";
  hardware ← parsePolicyPub (vp_ExitHardwarePub p) "exitHardwarePub";
  exitPubs ← exitKeys device hardware p;
  let spend := MultisigClosure [user; vtxoVault; arkd] in
  let exit := CSVMultisigClosure exitPubs (pin_PolicyExitDelay pins) in
  wantDelegate ← PinnedDelegateXOnlyFor network;
  require (beqb (SerializeXOnly delegate) wantDelegate) (Errorf "delegatePub must be the pinned public delegate");;
  let del := MultisigClosure [user; vtxoVault; delegate; arkd] in
  let tree := [spend; exit; del] in
  require (bool_decide (ExitClosures tree = 1%nat)) (Errorf "vault-policy-v1 requires exactly one guardian exit");;
  '(tapKey, tapTree) ← TapTree tree;
  pkScript ← P2TRScript tapKey;
  spendScript ← Script spend;
  exitScript ← Script exit;
  delegateScript ← Script del;
  spendProof ← MerkleProofControl tapTree (TapHash spendScript);
  delProof ← MerkleProofControl tapTree (TapHash delegateScript);
  revealed ← Encode tree;
  Ok (MkVaultPolicyV1Tree spendScript exitScript delegateScript spendProof delProof revealed (SerializeTapKey tapKey) pkScript).

(** ** [application/vtxo_tree.go] *)

(** A vault's published keys, nil until enrolled. *)
Record enrolledKeys := MkEnrolledKeys {
  ek_PhoneBIP340 : option PublicKey; ek_ExternalOwnerWallet : option PublicKey; ek_RecoveryKey : option PublicKey
}.

(** What the service holds to build trees: its network, the capabilities and
    their cell, and the resolver's Operator key (nil: no resolver). *)
Record TreeEnv := MkTreeEnv {
  te_Network : string; te_keys : KeyCapabilities; te_cell : fileBackedVaultKeys; te_operator : option bytes
}.

Definition operatorSignerPub (e : TreeEnv) : bytes := default [] (te_operator e).

Definition vtxoKeyContextFor (e : TreeEnv) (vaultID : string) : result vtxoKeyContext :=
  newVtxoKeyContext vaultID (te_Network e) (operatorSignerPub e).

Definition vtxoAddrHRP (e : TreeEnv) : string := AddrHRP (seqb (te_Network e) NetworkMainnet).

Definition mustDecodeCompressed (hex33 : string) : bytes :=
  match hex_decode hex33 with Some raw => if zlen raw =? 33 then raw else [] | None => [] end.

(** The chain parameters are named by their network. *)
Definition vtxoNetworkParams (name : string) : result string :=
  require (seqb name NetworkMutinynet || seqb name NetworkMainnet) (Errorf ("unsupported network " ++ name));; Ok name.

Definition buildVtxoPolicyTree (e : TreeEnv) (vaultID : string) (snap : enrolledKeys) : result PolicyTree :=
  match ek_PhoneBIP340 snap, ek_ExternalOwnerWallet snap with
  | Some phone, Some owner =>
      keyContext ← vtxoKeyContextFor e vaultID;
      cosigner ← vtxoPublic (te_keys e) (te_cell e) keyContext;
      match ParsePubKey (operatorSignerPub e) with
      | Err _ => Err (Errorf "Operator signer pubkey")
      | Ok arkd =>
          pins ← PinsFor (te_Network e);
          match ParsePubKey (mustDecodeCompressed (pin_DelegatePub pins)) with
          | Err _ => Err (Errorf "pinned public delegate")
          | Ok delegate =>
              encoded ← BuildVaultPolicyV1Tree (MkVaultPolicyV1Params (SerializeXOnly phone) (SerializeXOnly cosigner) (SerializeXOnly arkd)
                (SerializeXOnly delegate) (SerializeXOnly phone) (SerializeXOnly owner)
                (match ek_RecoveryKey snap with Some r => SerializeXOnly r | None => [] end) (te_Network e));
              _ ← ParseXOnly (pt_TapKey encoded);
              addr ← EncodeV0 (vtxoAddrHRP e) arkd (pt_TapKey encoded);
              net ← vtxoNetworkParams (te_Network e);
              onchain ← NewAddressTaproot (pt_TapKey encoded) net;
              Ok (MkPolicyTree _ _ (Some cosigner) (Some delegate) (Some arkd) (pt_TapKey encoded)
                    (pt_PkScript encoded) (pt_SpendScript encoded) (pt_DelegateScript encoded) (pt_SpendControlBlock encoded)
                    (pt_DelegateControlBlock encoded) (pt_RevealedScripts encoded) addr onchain)
          end
      end
  | _, _ => Err (Errorf "enrolled keys required")
  end.

Definition defaultVtxoPkScript (user arkd : option PublicKey) (exitDelay : Z) : bytes :=
  match user, arkd with
  | Some user, Some arkd =>
      match TapTree (NewDefaultVtxoScript user arkd exitDelay) with
      | Ok (tap, _) => match P2TRScript tap with Ok pk => pk | Err _ => [] end
      | Err _ => []
      end
  | _, _ => []
  end.

(** [None]: accepted. *)
Definition refuseDefaultVtxoChange (e : TreeEnv) (snap : enrolledKeys) (dest : bytes) : result unit :=
  match ek_PhoneBIP340 snap with
  | None => Ok tt
  | Some phone =>
      if negb (zlen (operatorSignerPub e) =? 33) then Ok tt else
      match ParsePubKey (operatorSignerPub e) with
      | Err _ => Ok tt
      | Ok arkd =>
          pins ← PinsFor (te_Network e);
          require (negb (beqb dest (defaultVtxoPkScript (Some phone) (Some arkd) (pin_ArkdMinExitDelay pins)))) (Errorf "DefaultVtxo change refused")
      end
  end.

(** [decodeVtxoDest]: the script of a pinned-Operator Arkade address. *)
Definition decodeVtxoDest (e : TreeEnv) (addr : string) : result bytes :=
  let addr := trim_space addr in
  require (negb (seqb addr "")) (Rejected "destAddress required");;
  match DecodeAddressV0 addr with
  | Err _ => Err (Rejected "destAddress must be a pinned-Operator Arkade address")
  | Ok decoded =>
      require (seqb (aa_HRP decoded) (vtxoAddrHRP e)) (Rejected "destAddress network");;
      match ParsePubKey (operatorSignerPub e), aa_Signer decoded with
      | Ok operator, Some signer =>
          require (beqb (SerializeXOnly signer) (SerializeXOnly operator)) (Rejected "destAddress Operator");;
          match aa_PkScript decoded with
          | Err _ => Err (Rejected "destAddress")
          | Ok script => Ok script
          end
      | _, _ => Err (Rejected "destAddress Operator")
      end
  end.

(** ** The boarding tree *)

Record vtxoBoardTree := MkVtxoBoardTree {
  bt_BoardingPub : PublicKey; bt_CosignerPub : PublicKey; bt_OperatorPub : PublicKey; bt_PkScript : bytes; bt_Collaborative : bytes;
  bt_ControlBlock : bytes; bt_RevealedScripts : list string; bt_OnchainAddress : string
}.

(** Each role against the roles before it. *)
Fixpoint distinctRoles (before : list (string * PublicKey)) (roles : list (string * option PublicKey)) : result unit :=
  match roles with
  | [] => Ok tt
  | (name, None) :: _ => Err (Errorf ("vault-board-v1 " ++ name ++ " key required"))
  | (name, Some pub) :: rest =>
      match List.find (fun r => beqb (SerializeXOnly pub) (SerializeXOnly r.2)) before with
      | Some (first, _) => Err (Errorf ("vault-board-v1 " ++ first ++ " and " ++ name ++ " keys must be distinct"))
      | None => distinctRoles (before ++ [(name, pub)]) rest
      end
  end.

Definition requireDistinctVaultBoardRoles (boarding cosigner phone operator : option PublicKey) : result unit :=
  distinctRoles [] [("boarding", boarding); ("VaultBoardCosigner", cosigner); ("phone recovery", phone); ("Operator", operator)].

Definition buildVtxoBoardTree (e : TreeEnv) (vaultID : string) (snap : enrolledKeys) (boarding : option PublicKey) : result vtxoBoardTree :=
  pins ← wrap "vault-board-v1" (PinsFor (te_Network e));
  match ek_PhoneBIP340 snap, boarding with
  | Some phone, Some boarding =>
      require (negb (seqb vaultID "")) (Errorf "vault-board-v1 enrolled phone and boarding keys required");;
      match ParsePubKey (operatorSignerPub e) with
      | Err _ => Err (Errorf "Operator signer pubkey")
      | Ok operator =>
          keyContext ← newVaultBoardKeyContext vaultID (te_Network e) (SerializeCompressed operator);
          cosigner ← vaultBoardPublic (te_keys e) (te_cell e) keyContext;
          requireDistinctVaultBoardRoles (Some boarding) (Some cosigner) (Some phone) (Some operator);;
          let exit := CSVMultisigClosure [phone] (pin_BoardExitDelay pins) in
          let cooperative := MultisigClosure [boarding; cosigner; operator] in
          let board := [cooperative; exit] in
          '(tapKey, tapTree) ← wrap "vault-board-v1 tree" (TapTree board);
          pkScript ← wrap "vault-board-v1 script" (P2TRScript tapKey);
          leaf ← Script cooperative;
          proof ← MerkleProofControl tapTree (TapHash leaf);
          revealed ← Encode board;
          net ← vtxoNetworkParams (te_Network e);
          address ← NewAddressTaproot (drop 2 pkScript) net;
          Ok (MkVtxoBoardTree boarding cosigner operator pkScript leaf proof revealed address)
      end
  | _, _ => Err (Errorf "vault-board-v1 enrolled phone and boarding keys required")
  end.

(** ** Who can spend *)

(** The three leaves of a vault: the user with the cosigner and the Operator, the
    delayed guardians, and the same three with the pinned delegate. *)
Record policy_leaves (p : VaultPolicyV1Params) (t : VaultPolicyV1Tree) (pins : NetworkPins)
    (user cosigner arkd delegate device hardware : PublicKey) (guardians : list PublicKey) : Prop := {
  pl_pins : PinsFor (networkOr (vp_Network p)) = Ok pins;
  pl_user : parsePolicyPub (vp_UserPub p) "userPub" = Ok user;
  pl_cosigner : parsePolicyPub (vp_VtxoVaultCosignerPub p) "vtxoVaultCosignerPub" = Ok cosigner;
  pl_arkd : parsePolicyPub (vp_ArkdServerPub p) "arkdServerPub" = Ok arkd;
  pl_delegate : PinnedDelegateXOnlyFor (networkOr (vp_Network p)) = Ok (SerializeXOnly delegate);
  pl_device : parsePolicyPub (vp_ExitDevicePub p) "exitDevicePub" = Ok device;
  pl_hardware : parsePolicyPub (vp_ExitHardwarePub p) "exitHardwarePub" = Ok hardware;
  pl_guardians : exitKeys device hardware p = Ok guardians;
  pl_spend : Script (MultisigClosure [user; cosigner; arkd]) = Ok (pt_SpendScript t);
  pl_exit : Script (CSVMultisigClosure guardians (pin_PolicyExitDelay pins)) = Ok (pt_ExitScript t);
  pl_forfeit : Script (MultisigClosure [user; cosigner; delegate; arkd]) = Ok (pt_DelegateScript t);
  pl_output : exists tapKey tapTree,
    TapTree [MultisigClosure [user; cosigner; arkd]; CSVMultisigClosure guardians (pin_PolicyExitDelay pins);
             MultisigClosure [user; cosigner; delegate; arkd]] = Ok (tapKey, tapTree) /\
    P2TRScript tapKey = Ok (pt_PkScript t) /\ SerializeTapKey tapKey = pt_TapKey t /\
    MerkleProofControl tapTree (TapHash (pt_SpendScript t)) = Ok (pt_SpendControlBlock t)
}.

Lemma policy_leaves_of p t : BuildVaultPolicyV1Tree p = Ok t ->
  exists pins user cosigner arkd delegate device hardware guardians,
    policy_leaves p t pins user cosigner arkd delegate device hardware guardians.
Proof using Type.
  unfold BuildVaultPolicyV1Tree.
  intros (pins & Hp & ([] & _ & (user & Hu & (cosigner & Hc & (arkd & Ha & (delegate & Hd & (device & Hv & (hardware & Hh & Hk)%bind_Ok)%bind_Ok)%bind_Ok)%bind_Ok)%bind_Ok)%bind_Ok)%bind_Ok)%bind_Ok.
  apply bind_Ok in Hk as (guardians & Hg & (want & Hw & ([] & Hx%require_Ok & ([] & _ & ([tapKey tapTree] & Ht & Hk)%bind_Ok)%bind_Ok)%bind_Ok)%bind_Ok).
  apply bind_Ok in Hk as (pk & Hpk & (ss & Hss & (es & Hes & (ds & Hds & (sp & Hsp & (dp & _ & (rv & _ & [= <-])%bind_Ok)%bind_Ok)%bind_Ok)%bind_Ok)%bind_Ok)%bind_Ok).
  apply beqb_true in Hx as <-. exists pins, user, cosigner, arkd, delegate, device, hardware, guardians. split; try done.
  by exists tapKey, tapTree.
Qed.

(** [C33] Who can spend from a vault: its output commits to exactly three scripts.
    Two need the user, the vault's cosigner and the Operator together, one of
    them with the delegate pinned for the network as well; the third needs both
    guardians and waits for the pinned exit delay. *)
Theorem policy_tree_leaves p t : BuildVaultPolicyV1Tree p = Ok t ->
  exists pins user cosigner arkd delegate device hardware guardians,
    policy_leaves p t pins user cosigner arkd delegate device hardware guardians /\
    (guardians = [device; hardware] \/ exists recovery, guardians = [hardware; recovery]).
Proof using Type.
  intros (pins & user & cosigner & arkd & delegate & device & hardware & guardians & Hl)%policy_leaves_of.
  exists pins, user, cosigner, arkd, delegate, device, hardware, guardians. split; [done|].
  pose proof (pl_guardians _ _ _ _ _ _ _ _ _ _ Hl) as Hg. unfold exitKeys in Hg. destruct (0 <? _).
  - apply bind_Ok in Hg as (recovery & _ & [= <-]). right. by exists recovery.
  - injection Hg as <-. by left.
Qed.

Lemma find_xonly_None pub (before : list (string * PublicKey)) :
  List.find (fun r => beqb (SerializeXOnly pub) (SerializeXOnly r.2)) before = None <->
  SerializeXOnly pub ∉ map (fun r => SerializeXOnly r.2) before.
Proof using Type.
  induction before as [|[n q] before IH]; simpl; [set_solver|]. rewrite not_elem_of_cons.
  destruct (beqb (SerializeXOnly pub) (SerializeXOnly q)) eqn:E.
  - apply beqb_true in E. naive_solver.
  - rewrite IH. unfold beqb in E. apply bool_decide_eq_false in E. naive_solver.
Qed.

Lemma distinctRoles_Ok (pubs : list (string * PublicKey)) : forall before,
  NoDup (map (fun r => SerializeXOnly r.2) before) ->
  distinctRoles before (map (fun r => (r.1, Some r.2)) pubs) = Ok tt <-> NoDup (map (fun r => SerializeXOnly r.2) (before ++ pubs)).
Proof using Type.
  induction pubs as [|[name pub] pubs IH]; intros before Hb; simpl; [by rewrite app_nil_r|].
  pose proof (find_xonly_None pub before) as Hf.
  assert (Hsplit : before ++ (name, pub) :: pubs = (before ++ [(name, pub)]) ++ pubs) by (by rewrite <-app_assoc).
  destruct (List.find _ before) as [[first q]|] eqn:E.
  - split; [done|]. intros Hn. exfalso. rewrite Hsplit, map_app, map_app in Hn. apply list.NoDup_app in Hn as [Hn _].
    apply list.NoDup_app in Hn as (_ & Hd & _). destruct (decide (SerializeXOnly pub ∈ map (fun r => SerializeXOnly r.2) before)) as [Hin|Hin].
    + apply (Hd _ Hin). simpl. set_solver.
    + apply Hf in Hin. done.
  - rewrite Hsplit. apply IH. rewrite map_app. apply list.NoDup_app. split_and!; [done| |simpl; apply NoDup_singleton].
    intros x Hx ->%list_elem_of_singleton. apply (proj1 Hf); done.
Qed.

(** The boarding roles are accepted exactly when all four are present and no
    two of them have the same x-only key. *)
Theorem board_roles_distinct boarding cosigner phone operator :
  requireDistinctVaultBoardRoles boarding cosigner phone operator = Ok tt <->
  exists b c p o, boarding = Some b /\ cosigner = Some c /\ phone = Some p /\ operator = Some o /\
    NoDup (map SerializeXOnly [b; c; p; o]).
Proof using Type.
  unfold requireDistinctVaultBoardRoles.
  destruct boarding as [b|]; [|split; [done|naive_solver]].
  destruct cosigner as [c|]; [|split; [simpl; repeat case_match; done|naive_solver]].
  destruct phone as [p|]; [|split; [simpl; repeat case_match; done|naive_solver]].
  destruct operator as [o|]; [|split; [simpl; repeat case_match; done|naive_solver]].
  pose proof (distinctRoles_Ok [("boarding", b); ("VaultBoardCosigner", c); ("phone recovery", p); ("Operator", o)] [] (NoDup_nil_2)) as E.
  cbn [map app fst snd] in E. rewrite E. split; [intros Hn; by exists b, c, p, o|].
  by intros (? & ? & ? & ? & [= <-] & [= <-] & [= <-] & [= <-] & ?).
Qed.
End trees.

(** ** A concrete tree over the toy curve

    A closure is the keys it needs and its delay; its script lists them. *)

#[local] Existing Instance toy_btc.
#[local] Existing Instance toy_arkade.

Definition toy_script (c : list Z * Z) : bytes := concat (map (be_bytes 32) c.1) ++ be_bytes 4 c.2.

#[local] Instance toy_ark : Ark := {|
  Closure := list Z * Z;
  ControlBlock := bytes;
  TapKeyT := bytes;
  TapTreeT := bytes;
  DecodeClosure := fun _ => Err (Errorf "closure");
  MultisigKeys := fun c => Some (map Some c.1);
  ParseControlBlock := fun b => Ok b;
  OutputKey := fun control _ => control;
  P2TRScript := fun key => Ok (x51 :: x20 :: key);
  TapTree := fun leaves => Ok (sha256 (concat (map toy_script leaves)), concat (map toy_script leaves));
  MerkleProofControl := fun _ leaf => Ok leaf;
  ANCHOR_PKSCRIPT := [x51; x02; x4e; x73];
  intent_Verify := fun _ _ _ => Ok tt
|}.

#[local] Instance toy_arklib : ArkLib := {|
  MultisigClosure := fun keys => (keys, 0);
  CSVMultisigClosure := fun keys delay => (keys, delay);
  NewDefaultVtxoScript := fun user arkd delay => [([user], delay); ([user; arkd], 0)];
  ExitClosures := fun leaves => length (List.filter (fun c => 0 <? c.2) leaves);
  Script := fun c => Ok (toy_script c);
  Encode := fun leaves => Ok (map (fun c => hex_encode (toy_script c)) leaves);
  SerializeTapKey := fun k => k;
  AddrHRP := fun mainnet => if mainnet then "ark" else "tark";
  EncodeV0 := fun hrp _ key => Ok (hrp ++ "1" ++ hex_encode key)%string;
  DecodeAddressV0 := fun addr => if seqb addr "tark1dest" then Ok (MkArkAddress _ "tark" (Some 9) (Ok [x52])) else Err (Errorf "address");
  NewAddressTaproot := fun key _ => Ok (hex_encode key)
|}.

Definition toy_params (recovery : bytes) : VaultPolicyV1Params :=
  MkVaultPolicyV1Params (be_bytes 32 5) (be_bytes 32 6) toy_operator (default [] (hex_decode VaultPolicyV1PinnedDelegate))
    (be_bytes 32 5) (be_bytes 32 7) recovery "".

Definition toy_tree : VaultPolicyV1Tree :=
  match BuildVaultPolicyV1Tree (toy_params []) with Ok t => t | Err _ => MkVaultPolicyV1Tree [] [] [] [] [] [] [] [] end.

Lemma policy_tree_leaves_witness : BuildVaultPolicyV1Tree (toy_params []) = Ok toy_tree /\
  exists pins user cosigner arkd delegate device hardware guardians,
    policy_leaves (toy_params []) toy_tree pins user cosigner arkd delegate device hardware guardians /\
    (guardians = [device; hardware] \/ exists recovery, guardians = [hardware; recovery]).
Proof.
  split; [vm_compute; reflexivity|]. apply (policy_tree_leaves (toy_params []) toy_tree). vm_compute. reflexivity.
Defined.

(** With a recovery key the phone leaves the guardians. *)
Example recovery_guardians : exitKeys 5 7 (toy_params (be_bytes 32 8)) = Ok [7; 8].
Proof. vm_compute. reflexivity. Qed.

Example same_key_boarding : requireDistinctVaultBoardRoles (Some 5) (Some 6) (Some 5) (Some 9)
  = Err (Errorf "vault-board-v1 boarding and phone recovery keys must be distinct").
Proof. vm_compute. reflexivity. Qed.
