(* ===== verification/Savings.v ===== *)
(** * The Savings program

    [internal/vault/savings]: the internal key of a tree, the leaves of the
    Savings, pending and quarantine trees, the transition script a cosigner key
    is tweaked by, the family of trees of a vault and its hashed descriptor.
    Tapscript assembly, the taproot tweaks and the Arkade packet are third-party
    code: the classes [ArkLib] and [SavingsLib].  A script is given to the
    builder as the list of its pushes and opcodes. *)

From S2P Require Import Prelude Crypto Program P256 Recovery Psbt SpendVerify KeyProvider Trees.
From Stdlib Require Import Strings.Byte Strings.Ascii Strings.String.
From stdpp Require Import base decidable list strings gmap option.
From Stdlib Require Import ZArith Lia.
Open Scope string_scope.
Open Scope list_scope.
Open Scope Z_scope.

(** ** Scripts *)

Inductive Opcode :=
  | OP_0 | OP_ADD | OP_SUB | OP_MUL | OP_DIV | OP_DUP | OP_DROP | OP_SWAP | OP_CAT | OP_SHA256 | OP_VERIFY | OP_EQUALVERIFY
  | OP_GREATERTHANOREQUAL | OP_LESSTHANOREQUAL | OP_INSPECTVERSION | OP_INSPECTLOCKTIME | OP_INSPECTNUMINPUTS | OP_INSPECTNUMOUTPUTS
  | OP_INSPECTINPUTSEQUENCE | OP_INSPECTINPUTVALUE | OP_INSPECTOUTPUTSCRIPTPUBKEY | OP_INSPECTOUTPUTVALUE | OP_INSPECTPACKET
  | OP_TXWEIGHT | OP_SIGHASH | OP_CHECKSIGFROMSTACK.

Inductive ScriptItem := AddOp (op : Opcode) | AddInt64 (z : Z) | AddData (b : bytes).

Class SavingsLib `{Btc, !Ark} := {
  CSVBlocksClosure : list PublicKey -> Z -> Closure;                    (* CSVMultisigClosure, LocktimeTypeBlock *)
  DecompressEven : bytes -> PublicKey;                                  (* DecompressY with an even ordinate *)
  ComputeTaprootOutputKey : PublicKey -> bytes -> PublicKey;
  ScriptTreeRoot : list bytes -> bytes;                                 (* AssembleTaprootScriptTree(...).RootNode.TapHash() *)
  PayToTaprootScript : PublicKey -> result bytes;
  builder_Script : list ScriptItem -> result bytes;                     (* txscript.ScriptBuilder *)
  PacketType : Z;                                                       (* arkade.PacketType *)
  EmulatorPacket : Type;
  NewPacket : bytes -> list bytes -> result EmulatorPacket;             (* script and witness of the entry for input 0 *)
  packet_Serialize : EmulatorPacket -> result bytes;
  extension_Serialize : EmulatorPacket -> result bytes;
  ArkadeScriptHash : bytes -> bytes;
  ComputeArkadeScriptPublicKey : PublicKey -> bytes -> option PublicKey
}.

Section savings.
Context `{Btc, !Arkade, !Ark, !ArkLib, !SavingsLib}.

(** ** The internal key: context.go *)

Definition Schema := "arkade-vault/savings-v1".
Definition Template := "phone-hww-recovery-savings-v1".
Definition InternalTag := "arkade-vault/savings-v1/internal".
Definition numsXOnlyHex := "50929b74c1a04954b78b4b6035e97a5e078a5a0f28ec96d547bfee9ace803ac0".
Definition numsXOnly : bytes := default [] (hex_decode numsXOnlyHex).

Definition appendText (dst : bytes) (value name : string) : result bytes :=
  require (negb (seqb value "") && seqb value (to_lower (trim_space value)) && seqb value (trim_space value))
    (Errorf (name ++ " must be non-empty canonical lowercase"));;
  Ok (dst ++ be_bytes 4 (slen value) ++ bytes_of value).

Definition encodeTreeContext (vaultID kind claimant template : string) : result bytes :=
  let claimant := if seqb claimant "" then "-" else claimant in
  let template := if seqb template "" then Template else template in
  dst ← appendText [] vaultID "vaultId";
  dst ← appendText dst kind "kind";
  dst ← appendText dst claimant "claimant";
  appendText dst template "templateVersion".

Definition numsPub : PublicKey := DecompressEven numsXOnly.

Definition ContextInternalKeyTemplate (vaultID kind claimant template : string) : result PublicKey :=
  ctx ← encodeTreeContext vaultID kind claimant template;
  Ok (ComputeTaprootOutputKey numsPub (taggedSHA256 InternalTag ctx)).

Definition ContextInternalKey (vaultID kind claimant : string) : result PublicKey := ContextInternalKeyTemplate vaultID kind claimant Template.

Definition networkParams (name : string) : result string :=
  require (seqb name "mainnet" || seqb name "mutinynet") (Errorf ("unsupported network " ++ name));; Ok name.

Definition payAddr (pub : PublicKey) (params : string) : result (string * bytes) :=
  script ← PayToTaprootScript pub;
  addr ← NewAddressTaproot (SerializeXOnly pub) params;
  Ok (addr, script).

Definition taprootFromScripts (internal : PublicKey) (scripts : list bytes) (network : string) : result (string * bytes) :=
  params ← networkParams network;
  let merkle := match scripts with [leaf] => TapHash leaf | _ => ScriptTreeRoot scripts end in
  payAddr (ComputeTaprootOutputKey internal merkle) params.

Definition parseCompressed (hexPub : string) : result PublicKey :=
  match hex_decode hexPub with Some raw => ParsePubKey raw | None => Err (Errorf "hex") end.

(** ** The trees: trees.go *)

Definition HardwareRecoveryCSVBlocks : Z := 6.
Definition PhoneRecoveryCSVBlocks : Z := 144.
Definition RecoveryCSVBlocks : Z := 288.

Definition padScript : bytes := [x6a].

Definition checksig (pubs : list PublicKey) : result bytes := Script (MultisigClosure pubs).
Definition Checksig (pubs : list PublicKey) : result bytes := checksig pubs.
Definition csvChecksig (blocks : Z) (pub : PublicKey) : result bytes := Script (CSVBlocksClosure [pub] blocks).

Definition pendingDelay (claimant : string) : Z :=
  if seqb claimant "hardware" then HardwareRecoveryCSVBlocks
  else if seqb claimant "phone" then PhoneRecoveryCSVBlocks else RecoveryCSVBlocks.

Definition familyClaimants (hasRecovery : bool) : list string :=
  if hasRecovery then ["phone"; "hardware"; "recovery"] else ["phone"; "hardware"].

Definition quarantineGuardians (claimant : string) (hasRecovery : bool) : list string :=
  if seqb claimant "phone" then (if hasRecovery then ["hardware"; "recovery"] else ["hardware"])
  else if seqb claimant "hardware" then (if hasRecovery then ["phone"; "recovery"] else ["phone"])
  else ["phone"; "hardware"].

(** The roles of a vault; the recovery key may be absent. *)
Record Roles := MkRoles { r_phone : PublicKey; r_hardware : PublicKey; r_recovery : option PublicKey }.

Definition has_recovery (r : Roles) : bool := bool_decide (is_Some (r_recovery r)).

Definition role_of (r : Roles) (name : string) : option PublicKey :=
  if seqb name "phone" then Some (r_phone r) else if seqb name "hardware" then Some (r_hardware r)
  else if seqb name "recovery" then r_recovery r else None.

Definition rolePub (r : Roles) (name : string) : result PublicKey :=
  match role_of r name with Some pub => Ok pub | None => Err (Errorf ("missing " ++ name)) end.

Definition BuildQuarantineTemplate (vaultID kind claimant network template : string) (r : Roles) : result (string * bytes) :=
  internal ← ContextInternalKeyTemplate vaultID kind claimant template;
  pubs ← mapR (rolePub r) (quarantineGuardians claimant (has_recovery r));
  script ← checksig pubs;
  taprootFromScripts internal [script] network.

Definition guardiansOf (r : Roles) (claimant : string) : list string :=
  List.filter (fun g => negb (seqb g claimant)) (familyClaimants (has_recovery r)).

(** One guardian's key and its clawback leaf. *)
Definition clawbackLeaf (r : Roles) (vaultTweak arkadeTweak : PublicKey) (g : string) : result (PublicKey * bytes) :=
  gp ← rolePub r g; cb ← checksig [gp; vaultTweak; arkadeTweak]; Ok (gp, cb).

Definition BuildPendingTemplate (vaultID kind claimant network template : string) (serverFree : bool) (r : Roles)
    (vaultTweak arkadeTweak : PublicKey) : result (string * bytes) :=
  internal ← ContextInternalKeyTemplate vaultID kind claimant template;
  claimantPub ← rolePub r claimant;
  claim ← csvChecksig (pendingDelay claimant) claimantPub;
  gs ← mapR (clawbackLeaf r vaultTweak arkadeTweak) (guardiansOf r claimant);
  free ← (if serverFree then
            require (negb (zlen gs =? 0)) (Errorf "server-free clawback requires a remaining key");;
            free ← checksig (map fst gs); Ok [free]
          else Ok []);
  taprootFromScripts internal ([claim] ++ map snd gs ++ free ++ [padScript]) network.

Definition BuildQuarantine (vaultID kind claimant network : string) (r : Roles) : result (string * bytes) :=
  BuildQuarantineTemplate vaultID kind claimant network Template r.
Definition BuildPending (vaultID kind claimant network : string) (r : Roles) (vaultTweak arkadeTweak : PublicKey) : result (string * bytes) :=
  BuildPendingTemplate vaultID kind claimant network Template false r vaultTweak arkadeTweak.

(** ** The transition script: transition.go *)

Definition P2AScriptHex := "51024e73".
Definition P2AValueSats : Z := 240.
Definition P2AOutputIndex : Z := 1.
Definition PacketOutputIndex : Z := 2.
Definition TransitionOutputCount : Z := 3.
Definition TransitionSequence : Z := 0xfffffffd.
Definition WitnessBytes399 : Z := 399.
Definition WitnessBytes431 : Z := 431.
Definition WitnessBytes367 : Z := 367.
Definition DirectP256CSFSPrefix : byte := x11.
Definition p2aProgram : bytes := [x4e; x73].

Definition InitiateWitnessBytes (claimant : string) (hasRecovery : bool) : Z :=
  if hasRecovery then WitnessBytes399 else if seqb claimant "hardware" then WitnessBytes367 else WitnessBytes399.
Definition ClawbackWitnessBytes : Z := WitnessBytes399.
Definition clawbackWitnessForServerFree (hasRecovery : bool) : Z := if hasRecovery then WitnessBytes431 else WitnessBytes399.

Definition p2trProgram (script : bytes) : result bytes :=
  match script with
  | x51 :: x20 :: program => require (zlen script =? 34) (Errorf "dest must be a 34-byte p2tr script");; Ok program
  | _ => Err (Errorf "dest must be a 34-byte p2tr script")
  end.

(** The point is decoded and encoded again. *)
Definition MarshalCompressed (x y : Z) : bytes := (if Z.odd y then x03 else x02) :: be_bytes 32 x.

Definition parseCanonicalCompressedP256 (compressed : bytes) : result unit :=
  require (zlen compressed =? 33) (Errorf "compressed p256 key must be 33 bytes");;
  require (match compressed with b :: _ => beqb [b] [x02] || beqb [b] [x03] | [] => false end) (Errorf "direct p256 compressed prefix");;
  match UnmarshalCompressed compressed with
  | None => Err (Errorf "direct p256 point is off-curve")
  | Some (x, y) => require (beqb (MarshalCompressed x y) compressed) (Errorf "direct p256 compressed encoding is not canonical")
  end.

(** The pushes of the script, in the order of the builder's calls. *)
Definition equals (z : Z) : list ScriptItem := [AddInt64 z; AddOp OP_EQUALVERIFY].
Definition of_output (i : Z) (op : Opcode) : list ScriptItem := [AddInt64 i; AddOp op].

Definition transition_items (dest prefix phone : bytes) (witnessBytes absoluteFeeCapSats feerateCapSatPerV : Z) : list ScriptItem :=
  [AddOp OP_INSPECTVERSION] ++ equals 2 ++ [AddOp OP_INSPECTLOCKTIME] ++ equals 0 ++ [AddOp OP_INSPECTNUMINPUTS] ++ equals 1 ++
  of_output 0 OP_INSPECTINPUTSEQUENCE ++ equals TransitionSequence ++ [AddOp OP_INSPECTNUMOUTPUTS] ++ equals TransitionOutputCount ++
  of_output 0 OP_INSPECTOUTPUTSCRIPTPUBKEY ++ equals 1 ++ [AddData dest; AddOp OP_EQUALVERIFY] ++
  of_output 0 OP_INSPECTOUTPUTVALUE ++ [AddInt64 DustSats; AddOp OP_GREATERTHANOREQUAL; AddOp OP_VERIFY] ++
  of_output P2AOutputIndex OP_INSPECTOUTPUTSCRIPTPUBKEY ++ equals 1 ++ [AddData p2aProgram; AddOp OP_EQUALVERIFY] ++
  of_output P2AOutputIndex OP_INSPECTOUTPUTVALUE ++ equals P2AValueSats ++
  of_output PacketOutputIndex OP_INSPECTOUTPUTVALUE ++ equals 0 ++
  [AddInt64 PacketType; AddOp OP_INSPECTPACKET; AddOp OP_VERIFY; AddData prefix; AddOp OP_SWAP; AddOp OP_CAT; AddOp OP_SHA256] ++
  of_output PacketOutputIndex OP_INSPECTOUTPUTSCRIPTPUBKEY ++ equals (-1) ++ [AddOp OP_EQUALVERIFY] ++
  of_output 0 OP_INSPECTINPUTVALUE ++ of_output 0 OP_INSPECTOUTPUTVALUE ++ [AddOp OP_SUB] ++
  of_output P2AOutputIndex OP_INSPECTOUTPUTVALUE ++ [AddOp OP_SUB] ++
  [AddOp OP_DUP; AddInt64 0; AddOp OP_GREATERTHANOREQUAL; AddOp OP_VERIFY] ++
  [AddOp OP_DUP; AddInt64 absoluteFeeCapSats; AddOp OP_LESSTHANOREQUAL; AddOp OP_VERIFY] ++
  [AddOp OP_DUP; AddOp OP_TXWEIGHT; AddInt64 witnessBytes; AddOp OP_ADD; AddInt64 3; AddOp OP_ADD; AddInt64 4; AddOp OP_DIV;
   AddInt64 feerateCapSatPerV; AddOp OP_MUL; AddOp OP_LESSTHANOREQUAL; AddOp OP_VERIFY; AddOp OP_DROP] ++
  (if 0 <? zlen phone then [AddOp OP_0; AddOp OP_SIGHASH; AddData (DirectP256CSFSPrefix :: phone); AddOp OP_CHECKSIGFROMSTACK]
   else [AddInt64 1]).

Definition assembleTransitionScript (dest prefix phone : bytes) (witnessBytes absoluteFeeCapSats feerateCapSatPerV : Z) : result bytes :=
  builder_Script (transition_items dest prefix phone witnessBytes absoluteFeeCapSats feerateCapSatPerV).

Definition exactPacketOutputPrefix (authScriptLen : Z) (phoneBound : bool) : result bytes :=
  require (0 <? authScriptLen) (Errorf "authorization script length required");;
  packet ← NewPacket (replicate (Z.to_nat authScriptLen) x00) (if phoneBound then [replicate 64 x00] else []);
  content ← packet_Serialize packet;
  outputScript ← extension_Serialize packet;
  let n := (length outputScript - length content)%nat in
  require ((zlen content <? zlen outputScript) && beqb (drop n outputScript) content) (Errorf "canonical packet output envelope");;
  Ok (take n outputScript).

(** The script commits to an envelope whose length depends on the script's: the
    loop looks for the fixed point. *)
Fixpoint envelope_loop (rounds : nat) (dest prefix phone : bytes) (witnessBytes absoluteFeeCapSats feerateCapSatPerV : Z) : result bytes :=
  match rounds with
  | O => Err (Errorf "authorization script packet envelope did not converge")
  | S rounds =>
      script ← assembleTransitionScript dest prefix phone witnessBytes absoluteFeeCapSats feerateCapSatPerV;
      next ← exactPacketOutputPrefix (zlen script) (0 <? zlen phone);
      if beqb next prefix then Ok script
      else envelope_loop rounds dest next phone witnessBytes absoluteFeeCapSats feerateCapSatPerV
  end.

Definition BuildTransitionScript (destScript phoneDirect : bytes) (witnessBytes absoluteFeeCapSats feerateCapSatPerV : Z) : result bytes :=
  dest ← p2trProgram destScript;
  require (0 <? witnessBytes) (Errorf "witness bytes required");;
  require (negb ((absoluteFeeCapSats <? MinAbsoluteFeeCapSats) || (MaxAbsoluteFeeCapSats <? absoluteFeeCapSats)))
    (Errorf "absolute fee cap outside vault-spending-policy-v1 bounds");;
  require (negb ((feerateCapSatPerV <? MinFeerateCapSatPerV) || (MaxFeerateCapSatPerV <? feerateCapSatPerV)))
    (Errorf "feerate cap outside vault-spending-policy-v1 bounds");;
  (if 0 <? zlen phoneDirect then parseCanonicalCompressedP256 phoneDirect else Ok tt);;
  envelope_loop 8 dest [] phoneDirect witnessBytes absoluteFeeCapSats feerateCapSatPerV.

(** ** Tweaked keys: tweak.go *)

Definition tweakByArkScript (base : PublicKey) (script : bytes) : result PublicKey :=
  match ComputeArkadeScriptPublicKey base (ArkadeScriptHash script) with
  | None => Err (Errorf "Arkade tweak is degenerate")
  | Some pub => Ok pub
  end.

Record TweakPair := MkTweakPair { tp_Vault : PublicKey; tp_Arkade : PublicKey }.

Definition tweakPair (vaultBase arkadeBase : PublicKey) (script : bytes) : result TweakPair :=
  vault ← tweakByArkScript vaultBase script;
  ark ← tweakByArkScript arkadeBase script;
  Ok (MkTweakPair vault ark).

(** ** The family: family.go *)

Record Tree := MkTree { t_Address : string; t_PkScript : bytes }.

Definition FamilyKey (claimant : string) : string := "savings-" ++ claimant.
Definition familyKeyList (hasRecovery : bool) : list string := map FamilyKey (familyClaimants hasRecovery).

Record Family := MkFamily {
  f_Savings : Tree; f_Quarantine : gmap string Tree; f_Pending : gmap string Tree; f_InitiateAuth : gmap string bytes;
  f_ClawbackAuth : gmap string bytes; f_Initiate : gmap string TweakPair; f_PendingTweaks : gmap string TweakPair
}.

Record FamilyInput := MkFamilyInput {
  i_VaultID : string; i_Network : string; i_Phone : option PublicKey; i_Hardware : option PublicKey; i_Recovery : option PublicKey;
  i_PhoneDirectP256 : bytes; i_VaultCosignerBase : option PublicKey; i_ArkadeCosignerBase : option PublicKey; i_TemplateVersion : string;
  i_ServerFreeClawback : bool; i_ProtectionTier : string; i_SpendingPolicy : SpendingPolicy
}.

Definition ProgramTemplate (i : FamilyInput) : string := if seqb (i_TemplateVersion i) "" then Template else i_TemplateVersion i.

(** The initiate leaf of one claimant. *)
Definition initiateLeaf (r : Roles) (initiate : gmap string TweakPair) (claimant : string) : result bytes :=
  match initiate !! claimant with
  | None => Err (Errorf ("missing " ++ claimant ++ " initiate tweaks"))
  | Some tw => pub ← rolePub r claimant; checksig [pub; tp_Vault tw; tp_Arkade tw]
  end.

Definition BuildSavings (vaultID network template : string) (r : Roles) (initiate : gmap string TweakPair) : result (string * bytes) :=
  internal ← ContextInternalKeyTemplate vaultID "savings" "" template;
  admin ← checksig [r_phone r; r_hardware r];
  scripts ← mapR (initiateLeaf r initiate) (familyClaimants (has_recovery r));
  taprootFromScripts internal (admin :: scripts) network.

Definition forbiddenXOnly (x : bytes) : bool :=
  let same hex := match parseCompressed hex with Ok pub => beqb x (SerializeXOnly pub) | Err _ => false end in
  beqb x numsXOnly || same "0279be667ef9dcbbac55a06295ce870b07029bfcdb2dce28d959f2815b16f81798"
  || same "02c6047f9441ed7d6d3045406e95c07cd85c778e4b8cef3ca7abac09b95c709ee5".

Definition distinctKey (name : string) (seen : list bytes) (pub : option PublicKey) : result (list bytes) :=
  match pub with
  | None => Err (Errorf (name ++ " key required"))
  | Some pub =>
      let x := SerializeXOnly pub in
      require (negb (bool_decide (x ∈ seen))) (Errorf (name ++ " keys must be x-only distinct"));;
      require (negb (forbiddenXOnly x)) (Errorf "family key is a forbidden point");;
      Ok (x :: seen)
  end.

Definition requireDistinctRoleSet (pubs : list (option PublicKey)) (name : string) : result unit :=
  foldR (distinctKey name) [] pubs;; Ok tt.

(** The role keys and the cosigner bases, the recovery key if there is one. *)
Definition base_keys (i : FamilyInput) : list (option PublicKey) :=
  [i_Phone i; i_Hardware i] ++ (match i_Recovery i with Some r => [Some r] | None => [] end) ++ [i_VaultCosignerBase i; i_ArkadeCosignerBase i].

Definition assertFamilyBases (i : FamilyInput) : result unit :=
  require (bool_decide (is_Some (i_Phone i)) && bool_decide (is_Some (i_Hardware i))) (Errorf "phone and hardware required");;
  require (bool_decide (is_Some (i_VaultCosignerBase i)) && bool_decide (is_Some (i_ArkadeCosignerBase i))) (Errorf "cosigner bases required");;
  parseCanonicalCompressedP256 (i_PhoneDirectP256 i);;
  requireDistinctRoleSet (base_keys i) "family bases".

Definition pair_keys (p : option TweakPair) : list (option PublicKey) := [tp_Vault <$> p; tp_Arkade <$> p].

Definition family_keys (i : FamilyInput) (fam : Family) : list (option PublicKey) :=
  base_keys i ++ concat (map (fun claimant =>
    pair_keys (f_Initiate fam !! claimant) ++ pair_keys (f_PendingTweaks fam !! FamilyKey claimant))
    (familyClaimants (bool_decide (is_Some (i_Recovery i))))).

Definition assertFamilyDistinct (i : FamilyInput) (fam : Family) : result unit := requireDistinctRoleSet (family_keys i fam) "family".

(** One claimant: the quarantine tree, the clawback script that leads to it, the
    pending tree under the keys tweaked by that script, and the initiate script
    that leads to the pending tree. *)
Definition familyClaimant (i : FamilyInput) (r : Roles) (vaultBase arkadeBase : PublicKey) (clawWitness : Z) (fam : Family) (claimant : string)
  : result Family :=
  let key := FamilyKey claimant in
  let template := ProgramTemplate i in
  let p := i_SpendingPolicy i in
  '(qAddr, qScript) ← wrap ("quarantine " ++ key) (BuildQuarantineTemplate (i_VaultID i) "savings" claimant (i_Network i) template r);
  claw ← wrap ("clawback auth " ++ key) (BuildTransitionScript qScript [] clawWitness (sp_AbsoluteFeeCapSats p) (sp_FeerateCapSatPerV p));
  pending ← wrap ("pending tweak " ++ key) (tweakPair vaultBase arkadeBase claw);
  '(pAddr, pScript) ← wrap ("pending " ++ key)
    (BuildPendingTemplate (i_VaultID i) "savings" claimant (i_Network i) template (i_ServerFreeClawback i) r (tp_Vault pending) (tp_Arkade pending));
  let phoneDirect := if seqb claimant "phone" then i_PhoneDirectP256 i else [] in
  initAuth ← wrap ("initiate auth " ++ key)
    (BuildTransitionScript pScript phoneDirect (InitiateWitnessBytes claimant (has_recovery r)) (sp_AbsoluteFeeCapSats p) (sp_FeerateCapSatPerV p));
  initiate ← tweakPair vaultBase arkadeBase initAuth;
  Ok (MkFamily (f_Savings fam) (<[key := MkTree qAddr qScript]> (f_Quarantine fam)) (<[key := MkTree pAddr pScript]> (f_Pending fam))
        (<[key := initAuth]> (f_InitiateAuth fam)) (<[key := claw]> (f_ClawbackAuth fam)) (<[claimant := initiate]> (f_Initiate fam))
        (<[key := pending]> (f_PendingTweaks fam))).

Definition set_Savings (t : Tree) (fam : Family) : Family :=
  MkFamily t (f_Quarantine fam) (f_Pending fam) (f_InitiateAuth fam) (f_ClawbackAuth fam) (f_Initiate fam) (f_PendingTweaks fam).

Definition BuildFamily (i : FamilyInput) : result Family :=
  assertFamilyBases i;;
  wrap "protection tier" (ValidateProtectionTierRecovery (i_ProtectionTier i) (bool_decide (is_Some (i_Recovery i))));;
  wrap "spending policy" (ValidateSpendingPolicyFor (i_Network i) (i_SpendingPolicy i));;
  match i_Phone i, i_Hardware i, i_VaultCosignerBase i, i_ArkadeCosignerBase i with
  | Some phone, Some hardware, Some vaultBase, Some arkadeBase =>
      let r := MkRoles phone hardware (i_Recovery i) in
      let clawWitness := if i_ServerFreeClawback i then clawbackWitnessForServerFree (has_recovery r) else ClawbackWitnessBytes in
      fam ← foldR (familyClaimant i r vaultBase arkadeBase clawWitness) (MkFamily (MkTree "" []) ∅ ∅ ∅ ∅ ∅ ∅) (familyClaimants (has_recovery r));
      '(sAddr, sScript) ← wrap "savings" (BuildSavings (i_VaultID i) (i_Network i) (ProgramTemplate i) r (f_Initiate fam));
      let fam := set_Savings (MkTree sAddr sScript) fam in
      assertFamilyDistinct i fam;;
      Ok fam
  | _, _, _, _ => Err (Errorf "phone and hardware required")
  end.

(** ** The descriptor: descriptor.go *)

Record PublicKeys := MkPublicKeys {
  k_PhoneBip340 : string; k_PhoneDirectP256 : string; k_Hardware : string; k_Recovery : string; k_VaultCosignerBase : string;
  k_ArkadeCosignerBase : string
}.
Record PublicPair := MkPublicPair { pp_Vault : string; pp_Arkade : string }.
Record PublicPolicy := MkPublicPolicy {
  d_Program : string; d_PolicySchema : string; d_Period : string; d_Digest : string; d_RecipientDustSats : Z; d_RecipientCapSats : Z;
  d_PeriodAllowanceSats : Z; d_AbsoluteFeeCapSats : Z; d_FeerateCapSatVb : Z
}.
Record PendingRef := MkPendingRef { pr_Script : string; pr_Address : string; pr_Delay : Z }.
Record QuarantineRef := MkQuarantineRef { qr_Script : string; qr_Address : string; qr_Guardians : list string }.

(** [PublicArkade], [PublicCSV], [PublicP2A] and [TreeRef] are their fields. *)
Record PublicDescriptor := MkPublicDescriptor {
  d_Schema : string; d_Network : string; d_VaultID : string; d_TemplateVersion : string; d_PolicyVersion : string; d_ProtectionTier : string;
  d_Keys : PublicKeys; d_Initiate : gmap string PublicPair; d_PendingTweaks : gmap string PublicPair;
  d_ArkadeOrigin : string; d_ArkadeVersion : string; d_CSVHardware : Z; d_CSVPhone : Z; d_CSVRecovery : Z; d_Policy : PublicPolicy;
  d_P2AScript : string; d_P2AValueSats : Z; d_P2AOutputIndex : Z; d_TransitionSequence : Z; d_SavingsScript : string; d_SavingsAddress : string;
  d_Pending : gmap string PendingRef; d_Quarantine : gmap string QuarantineRef
}.

Definition hex_key (pub : PublicKey) : string := hex_encode (SerializeCompressed pub).
Definition pairMap (m : gmap string TweakPair) : gmap string PublicPair :=
  (fun p => MkPublicPair (hex_key (tp_Vault p)) (hex_key (tp_Arkade p))) <$> m.

Definition no_tree : Tree := MkTree "" [].

Definition BuildPublicDescriptor (i : FamilyInput) (origin version : string) : result (PublicDescriptor * Family) :=
  require (negb (seqb (trim_space origin) "" || seqb (trim_space version) "")) (Errorf "arkade cosigner origin and version required");;
  fam ← BuildFamily i;
  let p := i_SpendingPolicy i in
  policyDigest ← SpendingPolicyDigestHexFor (i_Network i) p;
  let hex_opt k := match k with Some pub => hex_key pub | None => "" end in
  let hasRecovery := bool_decide (is_Some (i_Recovery i)) in
  let roles := familyClaimants hasRecovery in
  Ok (MkPublicDescriptor Schema (to_lower (i_Network i)) (i_VaultID i) (ProgramTemplate i) PolicyVersion (i_ProtectionTier i)
        (MkPublicKeys (hex_opt (i_Phone i)) (hex_encode (i_PhoneDirectP256 i)) (hex_opt (i_Hardware i)) (hex_opt (i_Recovery i))
           (hex_opt (i_VaultCosignerBase i)) (hex_opt (i_ArkadeCosignerBase i)))
        (pairMap (f_Initiate fam)) (pairMap (f_PendingTweaks fam)) (trim_space origin) (trim_space version)
        HardwareRecoveryCSVBlocks PhoneRecoveryCSVBlocks RecoveryCSVBlocks
        (MkPublicPolicy (sp_Program p) (sp_Schema p) (sp_Period p) policyDigest DustSats (sp_TxRecipientCapSats p) (sp_PeriodAllowanceSats p)
           (sp_AbsoluteFeeCapSats p) (sp_FeerateCapSatPerV p))
        P2AScriptHex P2AValueSats P2AOutputIndex TransitionSequence (hex_encode (t_PkScript (f_Savings fam))) (t_Address (f_Savings fam))
        (list_to_map (map (fun c => let t := default no_tree (f_Pending fam !! FamilyKey c) in
           (FamilyKey c, MkPendingRef (hex_encode (t_PkScript t)) (t_Address t) (pendingDelay c))) roles))
        (list_to_map (map (fun c => let t := default no_tree (f_Quarantine fam !! FamilyKey c) in
           (FamilyKey c, MkQuarantineRef (hex_encode (t_PkScript t)) (t_Address t) (quarantineGuardians c hasRecovery))) roles)), fam).

(** The parts of the encoding: a length-prefixed value, a uint32, an int64. *)
Inductive part := PBytes (b : bytes) | PU32 (z : Z) | PI64 (z : Z).

Definition part_bytes (p : part) : bytes :=
  match p with PBytes b => be_bytes 4 (zlen b) ++ b | PU32 z => be_bytes 4 z | PI64 z => be_bytes 8 z end.
Definition concatParts (parts : list part) : bytes := concat (map part_bytes parts).

Definition canonText (value name : string) : result part :=
  require (negb (seqb value "") && seqb value (trim_space value) && seqb value (to_lower value))
    (Errorf (name ++ " must be non-empty canonical lowercase"));;
  Ok (PBytes (bytes_of value)).
Definition rawText (value name : string) : result part :=
  require (negb (seqb value "") && seqb value (trim_space value)) (Errorf (name ++ " required"));; Ok (PBytes (bytes_of value)).
Definition exactHex (value name : string) (n : Z) : result part :=
  require (seqb value (to_lower value)) (Errorf (name ++ " must be lowercase hex"));;
  match hex_decode value with
  | Some raw => require (zlen raw =? n) (Errorf (name ++ " want bytes"));; Ok (PBytes raw)
  | None => Err (Errorf (name ++ " want bytes"))
  end.
Definition text (value : string) : result part := Ok (PBytes (bytes_of value)).

(** A list of parts, the first error returned. *)
Definition parts (l : list (result part)) : result (list part) := mapR (fun x => x) l.

Definition no_pair : PublicPair := MkPublicPair "" "".

Definition pair_parts (m : gmap string PublicPair) (prefix key : string) : list (result part) :=
  let pp := default no_pair (m !! key) in
  [exactHex (pp_Vault pp) (prefix ++ key ++ ".vault") 33; exactHex (pp_Arkade pp) (prefix ++ key ++ ".arkade") 33].

Definition pending_parts (m : gmap string PendingRef) (key : string) : list (result part) :=
  let p := default (MkPendingRef "" "" 0) (m !! key) in
  [exactHex (pr_Script p) (key ++ ".pending.script") (slen (pr_Script p) / 2); canonText (pr_Address p) (key ++ ".pending.address");
   Ok (PU32 (pr_Delay p))].

(** [q.Guardians[0]] of an empty list would panic; the address before it is
    empty then. *)
Definition quarantine_parts (m : gmap string QuarantineRef) (key : string) : list (result part) :=
  let q := default (MkQuarantineRef "" "" []) (m !! key) in
  [exactHex (qr_Script q) (key ++ ".quarantine.script") (slen (qr_Script q) / 2); canonText (qr_Address q) (key ++ ".quarantine.address")] ++
  match qr_Guardians q with
  | [] => [Err (Errorf "index out of range")]
  | [g0] => [canonText g0 (key ++ ".guardian0")]
  | g0 :: g1 :: _ => [canonText g0 (key ++ ".guardian0"); canonText g1 (key ++ ".guardian1")]
  end.

Definition descriptor_parts (d : PublicDescriptor) : list (result part) :=
  let hasRecovery := negb (seqb (k_Recovery (d_Keys d)) "") in
  let k := d_Keys d in
  let p := d_Policy d in
  [canonText (d_Schema d) "schema"; canonText (d_Network d) "network"; canonText (d_VaultID d) "vaultId"; text (d_TemplateVersion d);
   text (d_PolicyVersion d); canonText (d_ProtectionTier d) "protectionTier"; exactHex (k_PhoneBip340 k) "phone" 33;
   exactHex (k_PhoneDirectP256 k) "phoneDirectP256" 33; exactHex (k_Hardware k) "hardware" 33] ++
  (if hasRecovery then [exactHex (k_Recovery k) "recovery" 33] else []) ++
  [exactHex (k_VaultCosignerBase k) "vaultCosignerBase" 33; exactHex (k_ArkadeCosignerBase k) "arkadeCosignerBase" 33] ++
  concat (map (pair_parts (d_Initiate d) "initiate.") (familyClaimants hasRecovery)) ++
  concat (map (pair_parts (d_PendingTweaks d) "pending.") (familyKeyList hasRecovery)) ++
  [rawText (d_ArkadeOrigin d) "arkade origin"; rawText (d_ArkadeVersion d) "arkade version"; Ok (PU32 (d_CSVHardware d));
   Ok (PU32 (d_CSVPhone d)); Ok (PU32 (d_CSVRecovery d)); text (d_Program p); text (d_PolicySchema p); text (d_Period p);
   exactHex (d_Digest p) "policy.digest" sha256_size; Ok (PI64 (d_RecipientDustSats p)); Ok (PI64 (d_RecipientCapSats p));
   Ok (PI64 (d_PeriodAllowanceSats p)); Ok (PI64 (d_AbsoluteFeeCapSats p)); Ok (PI64 (d_FeerateCapSatVb p));
   exactHex (d_P2AScript d) "p2a.script" (slen (d_P2AScript d) / 2); Ok (PI64 (d_P2AValueSats d)); Ok (PU32 (d_P2AOutputIndex d));
   Ok (PU32 (d_TransitionSequence d)); exactHex (d_SavingsScript d) "savings.script" (slen (d_SavingsScript d) / 2);
   canonText (d_SavingsAddress d) "savings.address"] ++
  concat (map (pending_parts (d_Pending d)) (familyKeyList hasRecovery)) ++
  concat (map (quarantine_parts (d_Quarantine d)) (familyKeyList hasRecovery)).

Definition encodePublicDescriptor (d : PublicDescriptor) : result bytes :=
  wrap "protection tier" (ValidateProtectionTierRecovery (d_ProtectionTier d) (negb (seqb (k_Recovery (d_Keys d)) "")));;
  ps ← parts (descriptor_parts d);
  Ok (concatParts ps).

Definition HashPublicDescriptor (d : PublicDescriptor) : result string := raw ← encodePublicDescriptor d; Ok (hex_encode (sha256 raw)).
End savings.
