(* ===== verification/SavingsFamily.v ===== *)
(** * The Savings program: what the trees let a key do

    The trees of a family as lists of spending conditions, the theorem that a
    single role key cannot spend without waiting, and the theorem that the hash
    of a descriptor binds it. *)

From S2P Require Import Prelude Crypto Codec Program P256 Recovery Psbt SpendVerify KeyProvider Trees Savings.
From Stdlib Require Import Strings.Byte Strings.Ascii Strings.String.
From stdpp Require Import base decidable list strings gmap option.
From Stdlib Require Import ZArith Lia.
Open Scope string_scope.
Open Scope list_scope.
Open Scope Z_scope.

Section family.
Context `{Btc, !Arkade, !Ark, !ArkLib, !SavingsLib}.

(** ** Spending conditions *)

(** All of the keys; one key after a number of blocks; nobody. *)
Inductive Leaf := LMulti (keys : list PublicKey) | LDelayed (blocks : Z) (key : PublicKey) | LPad.

Definition leaf_script (l : Leaf) : result bytes :=
  match l with LMulti keys => checksig keys | LDelayed blocks key => csvChecksig blocks key | LPad => Ok padScript end.

(** The condition is met by signatures of the one key [x] alone, now or later. *)
Definition opens (x : bytes) (l : Leaf) : Prop :=
  match l with
  | LMulti keys => Forall (fun k => SerializeXOnly k = x) keys
  | LDelayed _ key => SerializeXOnly key = x
  | LPad => False
  end.

Definition role_list (r : Roles) : list (string * PublicKey) :=
  [("phone", r_phone r); ("hardware", r_hardware r)] ++ match r_recovery r with Some k => [("recovery", k)] | None => [] end.

Definition guardians (r : Roles) (c : string) : list PublicKey := map snd (List.filter (fun x => negb (seqb x.1 c)) (role_list r)).

Definition savings_leaves (r : Roles) (init : string -> TweakPair) : list Leaf :=
  LMulti [r_phone r; r_hardware r] :: map (fun x => LMulti [x.2; tp_Vault (init x.1); tp_Arkade (init x.1)]) (role_list r).
Definition pending_leaves (r : Roles) (free : bool) (c : string) (pub : PublicKey) (tw : TweakPair) : list Leaf :=
  [LDelayed (pendingDelay c) pub] ++ map (fun g => LMulti [g; tp_Vault tw; tp_Arkade tw]) (guardians r c) ++
  (if free then [LMulti (guardians r c)] else []) ++ [LPad].
Definition quarantine_leaves (r : Roles) (c : string) : list Leaf := [LMulti (guardians r c)].

(** A tree commits to exactly these leaves under its own internal key. *)
Definition commits (i : FamilyInput) (c : string) (leaves : list Leaf) (t : Tree) : Prop := exists internal scripts,
  ContextInternalKeyTemplate (i_VaultID i) "savings" c (ProgramTemplate i) = Ok internal /\ mapR leaf_script leaves = Ok scripts /\
  taprootFromScripts internal scripts (i_Network i) = Ok (t_Address t, t_PkScript t).

(** The trees of one claimant and the scripts that lead from one to the next. *)
Record claimant_trees (i : FamilyInput) (r : Roles) (vaultBase arkadeBase : PublicKey) (clawWitness : Z) (fam : Family) (c : string) (pub : PublicKey)
    (init pend : TweakPair) : Prop := {
  ct_quarantine : exists q claw, f_Quarantine fam !! FamilyKey c = Some q /\ commits i c (quarantine_leaves r c) q /\
    BuildTransitionScript (t_PkScript q) [] clawWitness (sp_AbsoluteFeeCapSats (i_SpendingPolicy i)) (sp_FeerateCapSatPerV (i_SpendingPolicy i)) = Ok claw /\
    tweakPair vaultBase arkadeBase claw = Ok pend;
  ct_pending : exists p auth, f_Pending fam !! FamilyKey c = Some p /\ commits i c (pending_leaves r (i_ServerFreeClawback i) c pub pend) p /\
    BuildTransitionScript (t_PkScript p) (if seqb c "phone" then i_PhoneDirectP256 i else []) (InitiateWitnessBytes c (has_recovery r))
      (sp_AbsoluteFeeCapSats (i_SpendingPolicy i)) (sp_FeerateCapSatPerV (i_SpendingPolicy i)) = Ok auth /\
    tweakPair vaultBase arkadeBase auth = Ok init;
  ct_init : f_Initiate fam !! c = Some init;
  ct_pend : f_PendingTweaks fam !! FamilyKey c = Some pend
}.

(** ** Roles *)

Lemma claimants_roles r : familyClaimants (has_recovery r) = map fst (role_list r).
Proof using Type. unfold role_list, has_recovery. by destruct (r_recovery r). Qed.

Lemma NoDup_claimants b : NoDup (familyClaimants b).
Proof using Type. destruct b; repeat constructor; set_solver. Qed.

Lemma rolePub_Ok r name pub : rolePub r name = Ok pub <-> (name, pub) ∈ role_list r.
Proof using Type.
  unfold rolePub, role_of, role_list. rewrite elem_of_app, !elem_of_cons, elem_of_nil.
  unfold seqb. repeat case_bool_decide; subst; destruct (r_recovery r); rewrite ?list_elem_of_singleton, ?elem_of_nil; naive_solver.
Qed.

Lemma mapR_fst {A B} (f : string -> result B) (g : string * A -> B) l :
  (forall x, x ∈ l -> f x.1 = Ok (g x)) -> mapR f (map fst l) = Ok (map g l).
Proof using Type.
  induction l as [|x l IH]; intros Hf; [done|]. simpl. rewrite (Hf x) by set_solver. simpl. rewrite IH by set_solver. done.
Qed.

Lemma filter_fst {A} c (l : list (string * A)) :
  List.filter (fun g => negb (seqb g c)) (map fst l) = map fst (List.filter (fun x => negb (seqb x.1 c)) l).
Proof using Type. induction l as [|x l IH]; [done|]. simpl. rewrite IH. by destruct (negb _). Qed.

(** The names of a quarantine's guardians are those of the other roles. *)
Lemma quarantine_guardians r c : c ∈ familyClaimants (has_recovery r) ->
  quarantineGuardians c (has_recovery r) = map fst (List.filter (fun x => negb (seqb x.1 c)) (role_list r)).
Proof using Type.
  unfold has_recovery, role_list. destruct (r_recovery r); simpl; rewrite !elem_of_cons, elem_of_nil; intros Hc;
    repeat destruct Hc as [->|Hc]; done.
Qed.

Lemma guardian_role r c x : x ∈ List.filter (fun x => negb (seqb x.1 c)) (role_list r) -> x ∈ role_list r /\ x.1 <> c.
Proof using Type. rewrite list_elem_of_In, filter_In, <-list_elem_of_In, negb_true_iff, seqb_false. done. Qed.

Lemma guardians_pubs r c : mapR (rolePub r) (map fst (List.filter (fun x => negb (seqb x.1 c)) (role_list r))) = Ok (guardians r c).
Proof using Type. apply mapR_fst. intros [n k] [Hx _]%guardian_role. by apply rolePub_Ok. Qed.

(** ** One claimant *)

Lemma quarantine_commits i r c t : c ∈ familyClaimants (has_recovery r) ->
  BuildQuarantineTemplate (i_VaultID i) "savings" c (i_Network i) (ProgramTemplate i) r = Ok (t_Address t, t_PkScript t) ->
  commits i c (quarantine_leaves r c) t.
Proof using Type.
  intros Hc (internal & Hi & (pubs & Hp & (script & Hs & Ht)%bind_Ok)%bind_Ok)%bind_Ok.
  rewrite quarantine_guardians, guardians_pubs in Hp by done. injection Hp as <-.
  exists internal, [script]. split; [done|]. split; [|done]. simpl. by rewrite Hs.
Qed.

Lemma clawback_leaves r tw l gs : (forall x, x ∈ l -> x ∈ role_list r) ->
  mapR (clawbackLeaf r (tp_Vault tw) (tp_Arkade tw)) (map fst l) = Ok gs ->
  map fst gs = map snd l /\ mapR leaf_script (map (fun g => LMulti [g; tp_Vault tw; tp_Arkade tw]) (map snd l)) = Ok (map snd gs).
Proof using Type.
  revert gs. induction l as [|[n k] l IH]; intros gs Hl; [by intros [= <-]|].
  intros (g & Hg & (gs' & Hm & [= <-])%bind_Ok)%bind_Ok. destruct (IH gs') as [E1 E2]; [set_solver|done|].
  cbn [fst] in Hg. apply bind_Ok in Hg as (gp & Hr & (cb & Hc & [= <-])%bind_Ok). rewrite (proj2 (rolePub_Ok r n k)) in Hr by set_solver. injection Hr as <-.
  simpl. rewrite E1, Hc, E2. done.
Qed.

Lemma pending_commits i r c pub tw t : (c, pub) ∈ role_list r ->
  BuildPendingTemplate (i_VaultID i) "savings" c (i_Network i) (ProgramTemplate i) (i_ServerFreeClawback i) r (tp_Vault tw) (tp_Arkade tw) =
    Ok (t_Address t, t_PkScript t) ->
  commits i c (pending_leaves r (i_ServerFreeClawback i) c pub tw) t.
Proof using Type.
  intros Hc (internal & Hi & (cp & Hp & (claim & Hcl & (gs & Hg & (free & Hf & Ht)%bind_Ok)%bind_Ok)%bind_Ok)%bind_Ok)%bind_Ok.
  rewrite (proj2 (rolePub_Ok r c pub) Hc) in Hp. injection Hp as <-. unfold guardiansOf in Hg. rewrite claimants_roles, filter_fst in Hg.
  apply clawback_leaves in Hg as [E1 E2]; [|by intros x [? _]%guardian_role].
  exists internal, ([claim] ++ map snd gs ++ free ++ [padScript]). split; [done|]. split; [|done].
  unfold pending_leaves. simpl. rewrite Hcl. simpl. fold (guardians r c) in E1, E2.
  assert (Happ : forall l1 l2 s1 s2, mapR leaf_script l1 = Ok s1 -> mapR leaf_script l2 = Ok s2 -> mapR leaf_script (l1 ++ l2) = Ok (s1 ++ s2)).
  { intros l1 l2 s1 s2 Hl1%mapR_Ok Hl2%mapR_Ok. apply mapR_Ok. by apply Forall2_app. }
  erewrite Happ; [done|exact E2|]. apply Happ; [|done]. destruct (i_ServerFreeClawback i); [|by injection Hf as <-].
  apply bind_Ok in Hf as ([] & _ & (f & Hf & [= <-])%bind_Ok). rewrite E1 in Hf. simpl. by rewrite Hf.
Qed.

Lemma familyClaimant_built i r vb ab cw fam c pub fam' : (c, pub) ∈ role_list r ->
  familyClaimant i r vb ab cw fam c = Ok fam' -> exists init pend, claimant_trees i r vb ab cw fam' c pub init pend.
Proof using Type.
  intros Hc. unfold familyClaimant. intros ([qa qs] & Hq%wrap_Ok & (claw & Hw%wrap_Ok & (pend & Hp%wrap_Ok & E)%bind_Ok)%bind_Ok)%bind_Ok.
  apply bind_Ok in E as ([pa ps] & Hps%wrap_Ok & (auth & Ha%wrap_Ok & (init & Hi & [= <-])%bind_Ok)%bind_Ok). exists init, pend.
  assert (c ∈ familyClaimants (has_recovery r)) by (rewrite claimants_roles; by apply (list_elem_of_fmap_2 fst _ (c, pub))).
  constructor; cbn [f_Quarantine f_Pending f_Initiate f_PendingTweaks]; rewrite ?lookup_insert_eq; [| |done..].
  - exists (MkTree qa qs), claw. split_and!; [done| |done|done]. by apply quarantine_commits.
  - exists (MkTree pa ps), auth. split_and!; [done| |done|done]. by apply pending_commits.
Qed.

Lemma FamilyKey_inj a b : FamilyKey a = FamilyKey b -> a = b.
Proof using Type. unfold FamilyKey. intros E. by injection E. Qed.

Lemma familyClaimant_other i r vb ab cw fam c c' pub init pend fam' : c' <> c -> familyClaimant i r vb ab cw fam c = Ok fam' ->
  claimant_trees i r vb ab cw fam c' pub init pend -> claimant_trees i r vb ab cw fam' c' pub init pend.
Proof using Type.
  intros Hne. unfold familyClaimant. intros ([qa qs] & _ & (claw & _ & (pend' & _ & E)%bind_Ok)%bind_Ok)%bind_Ok.
  apply bind_Ok in E as ([pa ps] & _ & (auth & _ & (init' & _ & [= <-])%bind_Ok)%bind_Ok).
  assert (FamilyKey c <> FamilyKey c') by (intros ?%FamilyKey_inj; done).
  intros [Hq Hp Hi Hw]. constructor; simpl; rewrite ?lookup_insert_ne by done; done.
Qed.

Lemma claimants_built i r vb ab cw l fam fam' : (forall x, x ∈ l -> x ∈ role_list r) -> NoDup (map fst l) ->
  foldR (familyClaimant i r vb ab cw) fam (map fst l) = Ok fam' ->
  Forall (fun x => exists init pend, claimant_trees i r vb ab cw fam' x.1 x.2 init pend) l /\
  forall c pub init pend, c ∉ map fst l -> claimant_trees i r vb ab cw fam c pub init pend -> claimant_trees i r vb ab cw fam' c pub init pend.
Proof using Type.
  revert fam. induction l as [|[c k] l IH]; intros fam Hl Hn; [by intros [= <-]|]. inversion Hn as [|? ? Hc Hn']; subst.
  intros (fam1 & Hf1 & Hf2)%bind_Ok. destruct (IH fam1) as [IH1 IH2]; [set_solver|done|done|]. split.
  - constructor; [|done]. destruct (familyClaimant_built i r vb ab cw fam c k fam1) as (init & pend & Ht); [set_solver|done|].
    exists init, pend. by apply IH2.
  - intros c' pub init pend [Hne Hni]%not_elem_of_cons Ht. apply IH2; [done|]. by eapply familyClaimant_other.
Qed.

(** ** Distinct keys *)

Lemma distinct_fold name pubs seen seen' : foldR (distinctKey name) seen pubs = Ok seen' ->
  exists ks, pubs = map Some ks /\ NoDup (map SerializeXOnly ks) /\
    Forall (fun k => SerializeXOnly k ∉ seen /\ forbiddenXOnly (SerializeXOnly k) = false) ks.
Proof using Type.
  revert seen. induction pubs as [|p pubs IH]; intros seen; [intros _; exists []; split_and!; [done|constructor|constructor]|].
  rewrite foldR_cons. intros (seen1 & Hp & (ks & -> & Hn & Hf)%IH)%bind_Ok. destruct p as [k|]; [|done].
  unfold distinctKey in Hp. inv_ok. bool_prop. exists (k :: ks). rewrite list.Forall_forall in Hf. split_and!; [done| |].
  - simpl. constructor; [|done]. intros (k' & E & Hk)%list_elem_of_fmap_1. destruct (Hf k' Hk) as [Hs _]. set_solver.
  - constructor; [done|]. apply list.Forall_forall. intros k' Hk. destruct (Hf k' Hk) as [Hs ?]. set_solver.
Qed.

Lemma distinct_keys pubs name : requireDistinctRoleSet pubs name = Ok tt -> exists ks, pubs = map Some ks /\ NoDup (map SerializeXOnly ks).
Proof using Type. intros (seen & (ks & -> & Hn & _)%distinct_fold & _)%bind_Ok. eauto. Qed.

(** Two keys at different places of a list without duplicates differ. *)
Lemma distinct_at (ks : list PublicKey) (m n : nat) a b : NoDup (map SerializeXOnly ks) -> ks !! m = Some a -> ks !! n = Some b -> m <> n ->
  SerializeXOnly a <> SerializeXOnly b.
Proof using Type.
  intros Hn Ha Hb Hne E. apply Hne. eapply (NoDup_lookup _ _ _ _ Hn); rewrite list_lookup_fmap.
  - by rewrite Ha.
  - rewrite Hb. simpl. by rewrite E.
Qed.

(** What the distinct keys of a family give: the roles differ from each other
    and from every tweaked key of the vault's cosigner. *)
Record separated (r : Roles) (init pend : string -> TweakPair) : Prop := {
  sep_roles : forall x y, x ∈ role_list r -> y ∈ role_list r -> x.1 <> y.1 -> SerializeXOnly x.2 <> SerializeXOnly y.2;
  sep_init : forall x y, x ∈ role_list r -> y ∈ role_list r -> SerializeXOnly x.2 <> SerializeXOnly (tp_Vault (init y.1));
  sep_pend : forall x y, x ∈ role_list r -> y ∈ role_list r -> SerializeXOnly x.2 <> SerializeXOnly (tp_Vault (pend y.1))
}.

Lemma guardian_in r c k : k ∈ guardians r c -> exists n, (n, k) ∈ role_list r /\ n <> c.
Proof using Type. unfold guardians. intros ([n k'] & -> & [Hx Hn]%guardian_role)%list_elem_of_fmap_1. eauto. Qed.

Lemma guardians_some r c : exists k, k ∈ guardians r c.
Proof using Type.
  destruct (decide (c = "phone")) as [->|Hne]; [exists (r_hardware r)|exists (r_phone r)]; unfold guardians, role_list; simpl.
  - set_solver.
  - rewrite seqb_neq by done. simpl. set_solver.
Qed.

(** No leaf of the Savings tree or of the claimant's quarantine tree opens to the
    claimant's key alone, and of the pending tree only the delayed one does. *)
Lemma separated_waits r init pend c pub free : separated r init pend -> (c, pub) ∈ role_list r ->
  Forall (fun l => ~ opens (SerializeXOnly pub) l) (savings_leaves r init) /\
  Forall (fun l => opens (SerializeXOnly pub) l -> l = LDelayed (pendingDelay c) pub) (pending_leaves r free c pub (pend c)) /\
  Forall (fun l => ~ opens (SerializeXOnly pub) l) (quarantine_leaves r c).
Proof using Type.
  intros [Hr Hi Hp] Hc.
  assert (Hg : ~ opens (SerializeXOnly pub) (LMulti (guardians r c))).
  { simpl. rewrite list.Forall_forall. intros Ho. destruct (guardians_some r c) as [k Hk]. destruct (guardian_in r c k Hk) as (n & Hn & Hne).
    exact (Hr (n, k) (c, pub) Hn Hc Hne (Ho k Hk)). }
  split_and!.
  - constructor.
    + simpl. rewrite !list.Forall_cons. intros (E1 & E2 & _).
      apply (Hr ("phone", r_phone r) ("hardware", r_hardware r)); [unfold role_list; set_solver..|done|simpl; congruence].
    + apply list.Forall_forall. intros l ([n k] & -> & Hx)%list_elem_of_fmap_1. simpl. rewrite !list.Forall_cons. intros (E1 & E2 & _).
      apply (Hi (n, k) (n, k)); [done|done|simpl; congruence].
  - constructor; [done|]. apply Forall_app. split; [|apply Forall_app; split].
    + apply list.Forall_forall. intros l (k & -> & (n & Hk & _)%guardian_in)%list_elem_of_fmap_1. simpl. rewrite !list.Forall_cons.
      intros (E1 & E2 & _). destruct (Hp (n, k) (c, pub)); [done|done|simpl; congruence].
    + destruct free; constructor; [|constructor]. intros Ho. by destruct Hg.
    + constructor; [by intros []|constructor].
  - by constructor.
Qed.

(** ** The family *)

Definition roles_of (i : FamilyInput) (r : Roles) : Prop :=
  i_Phone i = Some (r_phone r) /\ i_Hardware i = Some (r_hardware r) /\ i_Recovery i = r_recovery r.

Lemma role_base i r x : roles_of i r -> x ∈ role_list r -> Some x.2 ∈ base_keys i.
Proof using Type.
  intros (E1 & E2 & E3) Hx. unfold base_keys. rewrite E1, E2, E3. unfold role_list in Hx. destruct (r_recovery r); set_solver.
Qed.

Lemma family_keys_tweaks i r fam x : roles_of i r -> x ∈ role_list r ->
  let ks := concat (map (fun c => pair_keys (f_Initiate fam !! c) ++ pair_keys (f_PendingTweaks fam !! FamilyKey c)) (familyClaimants (has_recovery r))) in
  family_keys i fam = base_keys i ++ ks /\ (forall tw, f_Initiate fam !! x.1 = Some tw -> Some (tp_Vault tw) ∈ ks) /\
  (forall tw, f_PendingTweaks fam !! FamilyKey x.1 = Some tw -> Some (tp_Vault tw) ∈ ks).
Proof using Type.
  intros (E1 & E2 & E3) Hx ks. unfold family_keys. rewrite E3. split; [done|]. subst ks. rewrite claimants_roles.
  assert (Hin : x.1 ∈ map fst (role_list r)) by by apply list_elem_of_fmap_2.
  split; intros tw Ht; rewrite list_elem_of_In, in_concat; eexists; (split; [rewrite <-list_elem_of_In; apply list_elem_of_fmap; exists x.1; split; [reflexivity|exact Hin]|]);
    rewrite <-list_elem_of_In, Ht; unfold pair_keys; set_solver.
Qed.

Lemma family_separated i r fam init pend : roles_of i r -> assertFamilyDistinct i fam = Ok tt ->
  (forall x, x ∈ role_list r -> f_Initiate fam !! x.1 = Some (init x.1) /\ f_PendingTweaks fam !! FamilyKey x.1 = Some (pend x.1)) ->
  separated r init pend.
Proof using Type.
  intros Hr (ks & Hk & Hn)%distinct_keys Ht.
  assert (Hsplit : forall x y k, x ∈ role_list r -> y ∈ role_list r -> 
    (exists tw, (f_Initiate fam !! y.1 = Some tw \/ f_PendingTweaks fam !! FamilyKey y.1 = Some tw) /\ k = tp_Vault tw) ->
    SerializeXOnly x.2 <> SerializeXOnly k).
  { intros x y k Hx Hy (tw & Htw & ->). destruct (family_keys_tweaks i r fam y Hr Hy) as (Ek & Hi & Hp). rewrite Ek in Hk.
    apply (role_base i r) in Hx; [|done]. assert (Hin : Some (tp_Vault tw) ∈ concat (map (fun c => pair_keys (f_Initiate fam !! c) ++
      pair_keys (f_PendingTweaks fam !! FamilyKey c)) (familyClaimants (has_recovery r)))) by (destruct Htw; [by apply Hi|by apply Hp]).
    symmetry in Hk. apply fmap_app_inv in Hk as (ks1 & ks2 & Hb1 & Hb2 & ->). rewrite map_app in Hn. apply list.NoDup_app in Hn as (_ & Hd & _).
    rewrite Hb1 in Hx. rewrite Hb2 in Hin.
    apply list_elem_of_fmap_1 in Hx as (a & [= Ea] & Ha). apply list_elem_of_fmap_1 in Hin as (b & [= Eb] & Hb). rewrite Ea, Eb.
    intros E. apply (Hd (SerializeXOnly a)); [by apply list_elem_of_fmap_2|]. rewrite E. by apply list_elem_of_fmap_2. }
  constructor.
  - unfold family_keys in Hk. symmetry in Hk. apply fmap_app_inv in Hk as (ks1 & ks2 & Hb & _ & ->). rewrite map_app in Hn.
    apply list.NoDup_app in Hn as (Hn & _). destruct Hr as (E1 & E2 & E3). unfold base_keys in Hb. rewrite E1, E2, E3 in Hb.
    unfold role_list. destruct (r_recovery r) as [rk|]; simpl in Hb; destruct ks1 as [|a [|b [|c [|d ?]]]]; try discriminate Hb;
      injection Hb; intros; subst; simpl in *; rewrite !list.NoDup_cons in Hn; set_solver.
  - intros x y Hx Hy. apply (Hsplit x y); [done|done|]. exists (init y.1). split; [left; by apply Ht|done].
  - intros x y Hx Hy. apply (Hsplit x y); [done|done|]. exists (pend y.1). split; [right; by apply Ht|done].
Qed.

(** What a successful build is: every tree commits to its leaves, and every
    cosigner key of a leaf is tweaked by the script that pins the next tree. *)
Record family_spec (i : FamilyInput) (fam : Family) (r : Roles) (init pend : string -> TweakPair) : Prop := {
  fs_roles : roles_of i r;
  fs_savings : commits i "" (savings_leaves r init) (f_Savings fam);
  fs_claimants : exists vaultBase arkadeBase, i_VaultCosignerBase i = Some vaultBase /\ i_ArkadeCosignerBase i = Some arkadeBase /\
    forall c pub, (c, pub) ∈ role_list r -> claimant_trees i r vaultBase arkadeBase
      (if i_ServerFreeClawback i then clawbackWitnessForServerFree (has_recovery r) else ClawbackWitnessBytes) fam c pub (init c) (pend c)
}.

Lemma initiate_leaves r m init l scripts : (forall x, x ∈ l -> x ∈ role_list r /\ m !! x.1 = Some (init x.1)) ->
  mapR (initiateLeaf r m) (map fst l) = Ok scripts ->
  mapR leaf_script (map (fun x => LMulti [x.2; tp_Vault (init x.1); tp_Arkade (init x.1)]) l) = Ok scripts.
Proof using Type.
  revert scripts. induction l as [|[c k] l IH]; intros scripts Hl; [done|]. intros (sc & Hs & (scs & Hss & [= <-])%bind_Ok)%bind_Ok.
  destruct (Hl (c, k)) as [Hc Hm]; [set_solver|]. unfold initiateLeaf in Hs. cbn [fst] in *. rewrite Hm in Hs.
  apply bind_Ok in Hs as (pub & Hp & Hs). rewrite (proj2 (rolePub_Ok r c k) Hc) in Hp. injection Hp as <-. simpl. rewrite Hs. simpl.
  rewrite (IH scs); [done|set_solver|done].
Qed.

Lemma savings_commits i r m init t : roles_of i r -> (forall x, x ∈ role_list r -> m !! x.1 = Some (init x.1)) ->
  BuildSavings (i_VaultID i) (i_Network i) (ProgramTemplate i) r m = Ok (t_Address t, t_PkScript t) -> commits i "" (savings_leaves r init) t.
Proof using Type.
  intros Hr Hm (internal & Hi & (admin & Ha & (scripts & Hs & Ht)%bind_Ok)%bind_Ok)%bind_Ok. rewrite claimants_roles in Hs.
  apply (initiate_leaves r m init) in Hs; [|by intros x Hx; split; [|apply Hm]]. exists internal, (admin :: scripts). split; [done|]. split; [|done].
  unfold savings_leaves. rewrite mapR_cons. cbn [leaf_script]. rewrite Ha. cbn [mbind result_bind]. by rewrite Hs.
Qed.

Lemma BuildFamily_spec i fam : BuildFamily i = Ok fam -> exists r init pend, family_spec i fam r init pend /\ separated r init pend.
Proof using Type.
  unfold BuildFamily. intros ([] & _ & ([] & _ & ([] & _ & E)%bind_Ok)%bind_Ok)%bind_Ok.
  destruct (i_Phone i) as [phone|] eqn:E1, (i_Hardware i) as [hardware|] eqn:E2, (i_VaultCosignerBase i) as [vb|] eqn:E3,
    (i_ArkadeCosignerBase i) as [ab|] eqn:E4; try discriminate E.
  set (r := MkRoles phone hardware (i_Recovery i)) in E. apply bind_Ok in E as (fam0 & Hf & ([sa ss] & Hs%wrap_Ok & ([] & Hd & [= <-])%bind_Ok)%bind_Ok).
  assert (Hr : roles_of i r) by done. rewrite claimants_roles in Hf.
  apply claimants_built in Hf as [Hb _]; [|done|rewrite <-claimants_roles; apply NoDup_claimants]. rewrite list.Forall_forall in Hb.
  set (dummy := MkTweakPair phone phone). exists r, (fun c => default dummy (f_Initiate fam0 !! c)), (fun c => default dummy (f_PendingTweaks fam0 !! FamilyKey c)).
  assert (Ht : forall x, x ∈ role_list r -> f_Initiate fam0 !! x.1 = Some (default dummy (f_Initiate fam0 !! x.1)) /\
    f_PendingTweaks fam0 !! FamilyKey x.1 = Some (default dummy (f_PendingTweaks fam0 !! FamilyKey x.1))).
  { intros x Hx. destruct (Hb x Hx) as (init & pend & [_ _ Hi Hp]). by rewrite Hi, Hp. }
  split.
  - constructor; [done| |exists vb, ab; split_and!; [done|done|]].
    + apply (savings_commits i r (f_Initiate fam0)); [done|by intros x Hx; apply Ht|done].
    + intros c pub Hc. destruct (Hb (c, pub) Hc) as (init & pend & Hct). destruct Hct as [Hq Hp Hi Hpe]. simpl in *. rewrite Hi, Hpe. by constructor.
  - eapply (family_separated i r (set_Savings (MkTree sa ss) fam0)); [done|done|]. intros x Hx. by apply Ht.
Qed.

(** [C37] A stolen key has to wait.  The trees of a built family commit to exactly
    the conditions listed, each cosigner key tweaked by the script that pins the
    next tree, and for every role: no leaf of the Savings tree opens to the
    role's key alone, the pending tree of its own claim opens to it alone only by
    the delayed leaf, and the quarantine tree of its claim not at all. *)
Theorem stolen_key_waits i fam : BuildFamily i = Ok fam ->
  exists r init pend, family_spec i fam r init pend /\
    forall c pub, (c, pub) ∈ role_list r ->
      Forall (fun l => ~ opens (SerializeXOnly pub) l) (savings_leaves r init) /\
      Forall (fun l => opens (SerializeXOnly pub) l -> l = LDelayed (pendingDelay c) pub)
        (pending_leaves r (i_ServerFreeClawback i) c pub (pend c)) /\
      Forall (fun l => ~ opens (SerializeXOnly pub) l) (quarantine_leaves r c).
Proof using Type.
  intros (r & init & pend & Hs & Hd)%BuildFamily_spec. exists r, init, pend. split; [done|]. intros c pub. by apply separated_waits.
Qed.

(** ** The encoding of a descriptor *)

Definition same_kind (p1 p2 : part) : Prop :=
  match p1, p2 with PBytes _, PBytes _ | PU32 _, PU32 _ | PI64 _, PI64 _ => True | _, _ => False end.

(** The part fits its width: a length and a uint32 in 32 bits, an int64. *)
Definition part_ok (p : part) : Prop :=
  match p with
  | PBytes b => zlen b <= uint32_max
  | PU32 z => 0 <= z <= uint32_max
  | PI64 z => - 2 ^ 63 <= z <= int64_max
  end.

Lemma be_bytes_mod n z1 z2 : be_bytes n z1 = be_bytes n z2 -> z1 mod 256 ^ Z.of_nat n = z2 mod 256 ^ Z.of_nat n.
Proof using Type. intros E. by rewrite <-!be_val_be_bytes, E. Qed.

Lemma be32_inj z1 z2 : 0 <= z1 <= uint32_max -> 0 <= z2 <= uint32_max -> be_bytes 4 z1 = be_bytes 4 z2 -> z1 = z2.
Proof using Type. unfold uint32_max. intros ? ? E%be_bytes_mod. change (256 ^ Z.of_nat 4) with (2 ^ 32) in E. by rewrite !Z.mod_small in E by lia. Qed.

Lemma be64_inj z1 z2 : - 2 ^ 63 <= z1 <= int64_max -> - 2 ^ 63 <= z2 <= int64_max -> be_bytes 8 z1 = be_bytes 8 z2 -> z1 = z2.
Proof using Type.
  unfold int64_max. intros ? ? E%be_bytes_mod. change (256 ^ Z.of_nat 8) with (2 ^ 64) in E.
  pose proof (Z.div_mod z1 (2 ^ 64) ltac:(done)). pose proof (Z.div_mod z2 (2 ^ 64) ltac:(done)).
  assert (z1 / 2 ^ 64 = z2 / 2 ^ 64 \/ z1 / 2 ^ 64 <> z2 / 2 ^ 64) as [?|?] by lia; nia.
Qed.

Lemma part_inj p1 p2 r1 r2 : same_kind p1 p2 -> part_ok p1 -> part_ok p2 -> part_bytes p1 ++ r1 = part_bytes p2 ++ r2 -> p1 = p2 /\ r1 = r2.
Proof using Type.
  destruct p1 as [b1|z1|z1], p2 as [b2|z2|z2]; try done; cbn [part_bytes part_ok]; intros _ Ho1 Ho2 E.
  - rewrite <-!app_assoc in E. apply app_inj_1 in E as [El E]; [|by rewrite !length_be_bytes].
    pose proof (zlen_nonneg b1). pose proof (zlen_nonneg b2). apply be32_inj in El; [|done..].
    apply app_inj_1 in E as [-> ->]; [done|]. unfold zlen in El. lia.
  - apply app_inj_1 in E as [El ->]; [|by rewrite !length_be_bytes]. apply be32_inj in El; [|done..]. by rewrite El.
  - apply app_inj_1 in E as [El ->]; [|by rewrite !length_be_bytes]. apply be64_inj in El; [|done..]. by rewrite El.
Qed.

Lemma parts_inj l1 l2 r1 r2 : Forall2 same_kind l1 l2 -> Forall part_ok l1 -> Forall part_ok l2 ->
  concatParts l1 ++ r1 = concatParts l2 ++ r2 -> l1 = l2 /\ r1 = r2.
Proof using Type.
  unfold concatParts. intros Hk. revert r1 r2. induction Hk as [|p1 p2 l1 l2 Hp Hk IH]; intros r1 r2 Hl1 Hl2 E; [done|].
  inversion Hl1; inversion Hl2; subst. simpl in E. rewrite <-!app_assoc in E. apply part_inj in E as [-> E]; [|done..].
  apply IH in E as [-> ->]; done.
Qed.

Lemma parts_Ok l ps : parts l = Ok ps <-> l = map Ok ps.
Proof using Type.
  unfold parts. rewrite mapR_Ok. split.
  - induction 1 as [|a b l l' Hab _ IH]; [done|]. simpl. by rewrite Hab, IH.
  - intros ->. induction ps; constructor; done.
Qed.

Lemma canonText_Ok a n p : canonText a n = Ok p -> p = PBytes (bytes_of a).
Proof using Type. unfold canonText. intros ([] & _ & [= <-])%bind_Ok. done. Qed.
Lemma rawText_Ok a n p : rawText a n = Ok p -> p = PBytes (bytes_of a).
Proof using Type. unfold rawText. intros ([] & _ & [= <-])%bind_Ok. done. Qed.
Lemma exactHex_Ok a n m p : exactHex a n m = Ok p -> exists raw, a = hex_encode raw /\ p = PBytes raw.
Proof using Type.
  unfold exactHex. intros ([] & Hl%require_Ok & Hd)%bind_Ok. apply seqb_true in Hl. destruct (hex_decode a) as [raw|] eqn:E; [|done].
  apply bind_Ok in Hd as ([] & _ & [= <-]). exists raw. split; [|done]. rewrite Hl. symmetry. by apply hex_encode_decode.
Qed.

(** Replaces the parts of a computed list by their values. *)
Ltac part_values :=
  repeat match goal with
  | E : Ok _ = Ok _ |- _ => injection E as E; subst
  | E : text _ = Ok _ |- _ => unfold text in E; injection E as E; subst
  | E : canonText _ _ = Ok _ |- _ => apply canonText_Ok in E; subst
  | E : rawText _ _ = Ok _ |- _ => apply rawText_Ok in E; subst
  | E : exactHex _ _ _ = Ok _ |- _ => apply exactHex_Ok in E; let raw := fresh "raw" in destruct E as (raw & E & ->)
  end.

(** What the encoding covers. *)
Definition claimants_of (d : PublicDescriptor) : list string := familyClaimants (negb (seqb (k_Recovery (d_Keys d)) "")).
Definition descriptor_view (d : PublicDescriptor) :=
  ((d_Schema d, d_Network d, d_VaultID d, d_TemplateVersion d, d_PolicyVersion d, d_ProtectionTier d, d_Keys d),
   (map (fun c => default no_pair (d_Initiate d !! c)) (claimants_of d), map (fun c => default no_pair (d_PendingTweaks d !! FamilyKey c)) (claimants_of d)),
   (d_ArkadeOrigin d, d_ArkadeVersion d, d_CSVHardware d, d_CSVPhone d, d_CSVRecovery d, d_Policy d),
   (d_P2AScript d, d_P2AValueSats d, d_P2AOutputIndex d, d_TransitionSequence d, d_SavingsScript d, d_SavingsAddress d),
   (map (fun c => default (MkPendingRef "" "" 0) (d_Pending d !! FamilyKey c)) (claimants_of d),
    map (fun c => default (MkQuarantineRef "" "" []) (d_Quarantine d !! FamilyKey c)) (claimants_of d))).

(** Every value fits its width and every quarantine has as many guardians as its
    claimant has others. *)
Record well_formed (d : PublicDescriptor) : Prop := {
  wf_sizes : forall ps, parts (descriptor_parts d) = Ok ps -> Forall part_ok ps;
  wf_guardians : forall c, c ∈ claimants_of d ->
    length (qr_Guardians (default (MkQuarantineRef "" "" []) (d_Quarantine d !! FamilyKey c))) =
    length (quarantineGuardians c (negb (seqb (k_Recovery (d_Keys d)) "")))
}.

Lemma descriptor_head d ps : parts (descriptor_parts d) = Ok ps -> exists rest,
  ps = map (fun v => PBytes (bytes_of v)) [d_Schema d; d_Network d; d_VaultID d; d_TemplateVersion d; d_PolicyVersion d; d_ProtectionTier d] ++ rest.
Proof using Type.
  intros E%parts_Ok. unfold descriptor_parts in E. cbn [app] in E. do 6 (destruct ps as [|? ps]; [discriminate E|]).
  cbn [map] in E. injection E as E1 E2 E3 E4 E5 E6 _. part_values. by exists ps.
Qed.

Lemma same_recovery d1 d2 ps1 ps2 : well_formed d1 -> well_formed d2 -> parts (descriptor_parts d1) = Ok ps1 -> parts (descriptor_parts d2) = Ok ps2 ->
  concatParts ps1 = concatParts ps2 ->
  is_ok (ValidateProtectionTierRecovery (d_ProtectionTier d1) (negb (seqb (k_Recovery (d_Keys d1)) ""))) = true ->
  is_ok (ValidateProtectionTierRecovery (d_ProtectionTier d2) (negb (seqb (k_Recovery (d_Keys d2)) ""))) = true ->
  negb (seqb (k_Recovery (d_Keys d1)) "") = negb (seqb (k_Recovery (d_Keys d2)) "").
Proof using Type.
  intros W1 W2 E1 E2 E V1 V2. pose proof (wf_sizes _ W1 _ E1) as S1. pose proof (wf_sizes _ W2 _ E2) as S2.
  apply descriptor_head in E1 as [r1 ->]. apply descriptor_head in E2 as [r2 ->]. apply Forall_app in S1 as [S1 _]. apply Forall_app in S2 as [S2 _].
  unfold concatParts in E. rewrite !map_app, !concat_app in E. apply parts_inj in E as [E _]; [|repeat constructor|done|done].
  injection E as _ _ _ _ _ Et%bytes_of_inj. rewrite Et in V1. revert V1 V2. unfold ValidateProtectionTierRecovery, ValidateProtectionTier.
  generalize (negb (seqb (k_Recovery (d_Keys d1)) "")), (negb (seqb (k_Recovery (d_Keys d2)) "")). intros b1 b2.
  destruct (seqb (d_ProtectionTier d2) ProtectionTierStandard) eqn:T1, (seqb (d_ProtectionTier d2) ProtectionTierAdvanced) eqn:T2, b1, b2; done.
Qed.

Definition kind_of (p : part) : nat := match p with PBytes _ => 0 | PU32 _ => 1 | PI64 _ => 2 end.
Definition result_kind (x : result part) : nat := match x with Ok p => kind_of p | Err _ => 0 end.

Lemma kinds_same l1 l2 : map kind_of l1 = map kind_of l2 -> Forall2 same_kind l1 l2.
Proof using Type.
  revert l2. induction l1 as [|p1 l1 IH]; intros [|p2 l2] E; try discriminate E; constructor; injection E as E1 E2; [|by apply IH].
  by destruct p1, p2.
Qed.

Lemma kind_canonText a n : result_kind (canonText a n) = 0%nat.
Proof using Type. unfold canonText. by destruct (_ && _). Qed.
Lemma kind_rawText a n : result_kind (rawText a n) = 0%nat.
Proof using Type. unfold rawText. by destruct (_ && _). Qed.
Lemma kind_exactHex a n m : result_kind (exactHex a n m) = 0%nat.
Proof using Type. unfold exactHex. destruct (seqb _ _); simpl; [|done]. destruct (hex_decode a) as [raw|]; [|done]. simpl. by destruct (_ =? _). Qed.

(** The kinds of the parts follow from whether there is a recovery key. *)
Lemma descriptor_kinds d1 d2 : well_formed d1 -> well_formed d2 ->
  negb (seqb (k_Recovery (d_Keys d1)) "") = negb (seqb (k_Recovery (d_Keys d2)) "") ->
  map result_kind (descriptor_parts d1) = map result_kind (descriptor_parts d2).
Proof using Type.
  intros [_ G1] [_ G2] E. unfold claimants_of in *. unfold descriptor_parts. rewrite E in *. destruct (negb _);
    cbn [familyClaimants familyKeyList map concat app] in *; rewrite !map_app; unfold pair_parts, pending_parts, quarantine_parts; cbn [map concat app];
    pose proof (G1 "phone" ltac:(by left)) as P1; pose proof (G2 "phone" ltac:(by left)) as P2;
    pose proof (G1 "hardware" ltac:(by right; left)) as W1; pose proof (G2 "hardware" ltac:(by right; left)) as W2;
    try pose proof (G1 "recovery" ltac:(by right; right; left)) as R1; try pose proof (G2 "recovery" ltac:(by right; right; left)) as R2.
  all: repeat match goal with Hl : length ?l = length (quarantineGuardians _ _) |- _ =>
         cbv [quarantineGuardians] in Hl; destruct l as [|? [|? [|? ?]]]; try discriminate Hl; clear Hl end.
  all: cbn [map app]; rewrite ?kind_canonText, ?kind_rawText, ?kind_exactHex; reflexivity.
Qed.

Lemma parts_equal d1 d2 ps1 ps2 : well_formed d1 -> well_formed d2 ->
  negb (seqb (k_Recovery (d_Keys d1)) "") = negb (seqb (k_Recovery (d_Keys d2)) "") ->
  parts (descriptor_parts d1) = Ok ps1 -> parts (descriptor_parts d2) = Ok ps2 -> concatParts ps1 = concatParts ps2 -> ps1 = ps2.
Proof using Type.
  intros W1 W2 Hb E1 E2 E. pose proof (descriptor_kinds d1 d2 W1 W2 Hb) as Hk.
  pose proof (wf_sizes _ W1 _ E1) as S1. pose proof (wf_sizes _ W2 _ E2) as S2. apply parts_Ok in E1, E2. rewrite E1, E2, !map_map in Hk.
  apply (parts_inj ps1 ps2 [] []); rewrite ?app_nil_r; [|done..]. by apply kinds_same.
Qed.

(** Two texts, or two hexadecimals, that give the same part are the same. *)
Lemma canonText_same a b n p : canonText a n = Ok p -> canonText b n = Ok p -> a = b.
Proof using Type. intros ->%canonText_Ok [= E]%canonText_Ok. by apply bytes_of_inj. Qed.
Lemma rawText_same a b n p : rawText a n = Ok p -> rawText b n = Ok p -> a = b.
Proof using Type. intros ->%rawText_Ok [= E]%rawText_Ok. by apply bytes_of_inj. Qed.
Lemma exactHex_same a b n m1 m2 p : exactHex a n m1 = Ok p -> exactHex b n m2 = Ok p -> a = b.
Proof using Type. intros (raw & -> & ->)%exactHex_Ok (raw' & -> & [= ->])%exactHex_Ok. done. Qed.

Lemma pair_parts_same m1 m2 prefix key ps : pair_parts m1 prefix key = map Ok ps -> pair_parts m2 prefix key = map Ok ps ->
  default no_pair (m1 !! key) = default no_pair (m2 !! key).
Proof using Type.
  unfold pair_parts. destruct (default no_pair (m1 !! key)) as [v1 a1], (default no_pair (m2 !! key)) as [v2 a2].
  destruct ps as [|p [|q [|? ?]]]; try done. intros [= V1 A1] [= V2 A2]. f_equal; by eapply exactHex_same.
Qed.

Lemma pending_parts_same m1 m2 key ps : pending_parts m1 key = map Ok ps -> pending_parts m2 key = map Ok ps ->
  default (MkPendingRef "" "" 0) (m1 !! key) = default (MkPendingRef "" "" 0) (m2 !! key).
Proof using Type.
  unfold pending_parts. destruct (default _ (m1 !! key)) as [s1 a1 d1], (default _ (m2 !! key)) as [s2 a2 d2].
  destruct ps as [|p [|q [|t [|? ?]]]]; try done. intros [= S1 A1 <-] [= S2 A2 ->].
  f_equal; [by eapply exactHex_same|by eapply canonText_same].
Qed.

Lemma quarantine_parts_same m1 m2 key ps :
  (length (qr_Guardians (default (MkQuarantineRef "" "" []) (m1 !! key))) <= 2)%nat ->
  (length (qr_Guardians (default (MkQuarantineRef "" "" []) (m2 !! key))) <= 2)%nat ->
  quarantine_parts m1 key = map Ok ps -> quarantine_parts m2 key = map Ok ps ->
  default (MkQuarantineRef "" "" []) (m1 !! key) = default (MkQuarantineRef "" "" []) (m2 !! key).
Proof using Type.
  unfold quarantine_parts. destruct (default _ (m1 !! key)) as [s1 a1 g1], (default _ (m2 !! key)) as [s2 a2 g2]. cbn [qr_Guardians qr_Script qr_Address].
  intros L1 L2. destruct g1 as [|x1 [|y1 [|? ?]]], g2 as [|x2 [|y2 [|? ?]]]; simpl in L1, L2; try lia; clear L1 L2;
    destruct ps as [|p [|q [|t [|u [|? ?]]]]]; intros E1 E2; cbn [app map] in E1, E2; try discriminate E1; try discriminate E2.
  - injection E1 as S1 A1 G1. injection E2 as S2 A2 G2.
    by rewrite (exactHex_same _ _ _ _ _ _ S1 S2), (canonText_same _ _ _ _ A1 A2), (canonText_same _ _ _ _ G1 G2).
  - injection E1 as S1 A1 G1 F1. injection E2 as S2 A2 G2 F2.
    by rewrite (exactHex_same _ _ _ _ _ _ S1 S2), (canonText_same _ _ _ _ A1 A2), (canonText_same _ _ _ _ G1 G2), (canonText_same _ _ _ _ F1 F2).
Qed.

(** A concatenation of blocks, split block by block. *)
Lemma blocks_same {A} (f1 f2 : A -> list (result part)) (B : Type) (g1 g2 : A -> B) l ps :
  concat (map f1 l) = map Ok ps -> concat (map f2 l) = map Ok ps ->
  (forall a, a ∈ l -> length (f1 a) = length (f2 a)) ->
  (forall a qs, a ∈ l -> f1 a = map Ok qs -> f2 a = map Ok qs -> g1 a = g2 a) -> map g1 l = map g2 l.
Proof using Type.
  revert ps. induction l as [|a l IH]; intros ps E1 E2 Hl Hg; [done|]. simpl in *.
  symmetry in E1, E2. apply map_eq_app in E1 as (p1 & r1 & -> & E1 & E1'), E2 as (p2 & r2 & E & E2 & E2').
  apply app_inj_1 in E as [-> ->]. 2: { rewrite <-(length_map Ok p1), <-(length_map Ok p2), E1, E2. apply Hl. set_solver. }
  f_equal; [eapply Hg; [set_solver|by symmetry..]|]. eapply IH; [by symmetry..|set_solver|set_solver].
Qed.

Lemma split_same (l1 l2 r1 r2 : list (result part)) ps : l1 ++ r1 = map Ok ps -> l2 ++ r2 = map Ok ps -> length l1 = length l2 ->
  exists qs qs', (l1 = map Ok qs /\ l2 = map Ok qs) /\ r1 = map Ok qs' /\ r2 = map Ok qs'.
Proof using Type.
  intros E1 E2 Hl. symmetry in E1, E2. apply map_eq_app in E1 as (p1 & q1 & -> & <- & <-), E2 as (p2 & q2 & E & <- & <-).
  rewrite !length_map in Hl. apply app_inj_1 in E as [-> ->]; [|done]. by exists p2, q2.
Qed.

(** Two lists that give the same parts, taken apart element by element. *)
Ltac peel E1 E2 q :=
  repeat (destruct q as [|? q]; [discriminate E1|]; cbn [map] in E1, E2;
          let X := fresh "X" in let Y := fresh "Y" in injection E1 as X E1; injection E2 as Y E2);
  clear E1 E2.
Ltac same_values :=
  repeat match goal with
  | X : canonText ?a ?n = Ok ?p, Y : canonText ?b ?n = Ok ?p |- _ => pose proof (canonText_same _ _ _ _ X Y); clear X Y
  | X : rawText ?a ?n = Ok ?p, Y : rawText ?b ?n = Ok ?p |- _ => pose proof (rawText_same _ _ _ _ X Y); clear X Y
  | X : exactHex ?a ?n _ = Ok ?p, Y : exactHex ?b ?n _ = Ok ?p |- _ => pose proof (exactHex_same _ _ _ _ _ _ X Y); clear X Y
  | X : PBytes (bytes_of ?a) = ?p, Y : PBytes (bytes_of ?b) = ?p |- _ => rewrite <-X in Y; injection Y as Y; apply bytes_of_inj in Y; clear X
  | X : PU32 ?a = ?p, Y : PU32 ?b = ?p |- _ => rewrite <-X in Y; injection Y as Y; clear X
  | X : PI64 ?a = ?p, Y : PI64 ?b = ?p |- _ => rewrite <-X in Y; injection Y as Y; clear X
  end.

Lemma view_same d1 d2 ps : well_formed d1 -> well_formed d2 ->
  negb (seqb (k_Recovery (d_Keys d1)) "") = negb (seqb (k_Recovery (d_Keys d2)) "") ->
  descriptor_parts d1 = map Ok ps -> descriptor_parts d2 = map Ok ps -> descriptor_view d1 = descriptor_view d2.
Proof using Type.
  intros [_ G1] [_ G2] Hb E1 E2. unfold descriptor_view, claimants_of in *. unfold descriptor_parts in E1, E2. rewrite Hb in *.
  set (b := negb (seqb (k_Recovery (d_Keys d2)) "")) in *. unfold familyKeyList in E1, E2. rewrite !map_map in E1, E2.
  destruct (split_same _ _ _ _ _ E1 E2 eq_refl) as (q0 & p1 & [A1 A2] & F1 & F2). clear E1 E2.
  destruct (split_same _ _ _ _ _ F1 F2 ltac:(by destruct b)) as (q1 & p2 & [B1 B2] & E1 & E2). clear F1 F2.
  destruct (split_same _ _ _ _ _ E1 E2 eq_refl) as (q2 & p3 & [C1 C2] & F1 & F2). clear E1 E2.
  destruct (split_same _ _ _ _ _ F1 F2 ltac:(by destruct b)) as (q3 & p4 & [D1 D2] & E1 & E2). clear F1 F2.
  destruct (split_same _ _ _ _ _ E1 E2 ltac:(by destruct b)) as (q4 & p5 & [K1 K2] & F1 & F2). clear E1 E2.
  destruct (split_same _ _ _ _ _ F1 F2 eq_refl) as (q5 & p6 & [L1 L2] & E1 & E2). clear F1 F2.
  destruct (split_same _ _ _ _ _ E1 E2 ltac:(by destruct b)) as (q6 & q7 & [M1 M2] & N1 & N2). clear E1 E2.
  assert (Hg : forall c, c ∈ familyClaimants b -> length (quarantine_parts (d_Quarantine d1) (FamilyKey c)) = length (quarantine_parts (d_Quarantine d2) (FamilyKey c))).
  { intros c Hc. unfold quarantine_parts. specialize (G1 c Hc). specialize (G2 c Hc). rewrite !length_app. f_equal. rewrite <-G2 in G1.
    destruct (qr_Guardians _) as [|? [|? ?]], (qr_Guardians _) as [|? [|? ?]]; done. }
  assert (Hq : forall c, c ∈ familyClaimants b -> (length (quarantineGuardians c b) <= 2)%nat).
  { intros c _. unfold quarantineGuardians. destruct (seqb c "phone"), (seqb c "hardware"), b; simpl; lia. }
  pose proof (blocks_same _ _ _ (fun c => default no_pair (d_Initiate d1 !! c)) (fun c => default no_pair (d_Initiate d2 !! c)) _ _ D1 D2
    (fun _ _ => eq_refl) (fun c qs _ => pair_parts_same _ _ _ _ qs)) as VI.
  pose proof (blocks_same _ _ _ (fun c => default no_pair (d_PendingTweaks d1 !! FamilyKey c)) (fun c => default no_pair (d_PendingTweaks d2 !! FamilyKey c))
    _ _ K1 K2 (fun _ _ => eq_refl) (fun c qs _ => pair_parts_same _ _ _ _ qs)) as VP.
  pose proof (blocks_same _ _ _ (fun c => default (MkPendingRef "" "" 0) (d_Pending d1 !! FamilyKey c))
    (fun c => default (MkPendingRef "" "" 0) (d_Pending d2 !! FamilyKey c)) _ _ M1 M2 (fun _ _ => eq_refl) (fun c qs _ => pending_parts_same _ _ _ qs)) as VD.
  assert (VQ : map (fun c => default (MkQuarantineRef "" "" []) (d_Quarantine d1 !! FamilyKey c)) (familyClaimants b) =
    map (fun c => default (MkQuarantineRef "" "" []) (d_Quarantine d2 !! FamilyKey c)) (familyClaimants b)).
  { apply (blocks_same _ _ _ _ _ _ _ N1 N2 Hg). intros c qs Hc. apply quarantine_parts_same; rewrite ?G1, ?G2 by done; by apply Hq. }
  rewrite VI, VP, VD, VQ. clear - A1 A2 B1 B2 C1 C2 L1 L2 Hb.
  assert (HR : k_Recovery (d_Keys d1) = k_Recovery (d_Keys d2)).
  { assert (Hb2 : negb (seqb (k_Recovery (d_Keys d2)) "") = b) by done. clearbody b. destruct b; [peel B1 B2 q1; by same_values|].
    apply negb_false_iff, seqb_true in Hb, Hb2. congruence. }
  clear B1 B2 Hb. peel A1 A2 q0. peel C1 C2 q2. peel L1 L2 q5. same_values.
  assert (HK : d_Keys d1 = d_Keys d2) by (destruct (d_Keys d1), (d_Keys d2); simpl in *; congruence).
  assert (HP : d_Policy d1 = d_Policy d2) by (destruct (d_Policy d1), (d_Policy d2); simpl in *; congruence).
  rewrite HK, HP. congruence.
Qed.

(** [C38] The descriptor hash binds the descriptor: two well-formed descriptors
    with one hash agree in everything a wallet reads from them, network, vault,
    tier, every key and tweak, the policy, the delays, scripts, addresses and
    guardians, or else the two encodings that were hashed are a SHA-256 collision. *)
Theorem descriptor_hash_binds d1 d2 h : well_formed d1 -> well_formed d2 ->
  HashPublicDescriptor d1 = Ok h -> HashPublicDescriptor d2 = Ok h -> 
  descriptor_view d1 = descriptor_view d2 \/
  exists raw1 raw2, encodePublicDescriptor d1 = Ok raw1 /\ encodePublicDescriptor d2 = Ok raw2 /\
    raw1 <> raw2 /\ sha256 raw1 = sha256 raw2.
Proof using Type.
  intros W1 W2 (raw1 & E1 & <-)%bind_Ok (raw2 & E2 & Hh)%bind_Ok. apply Ok_inj, hex_encode_inj in Hh.
  destruct (decide (raw1 = raw2)) as [E|Hne]; [left|right; by exists raw1, raw2].
  apply bind_Ok in E1 as ([] & V1%wrap_Ok & (ps1 & P1 & [= <-])%bind_Ok). apply bind_Ok in E2 as ([] & V2%wrap_Ok & (ps2 & P2 & [= <-])%bind_Ok).
  assert (Hb : negb (seqb (k_Recovery (d_Keys d1)) "") = negb (seqb (k_Recovery (d_Keys d2)) "")).
  { eapply (same_recovery d1 d2 ps1 ps2); try done; [by rewrite V1|by rewrite V2]. }
  pose proof (parts_equal d1 d2 ps1 ps2 W1 W2 Hb P1 P2 E) as <-. apply parts_Ok in P1, P2. by apply (view_same d1 d2 ps1).
Qed.
(** [well_formed], decided. *)
Definition part_okb (p : part) : bool :=
  match p with
  | PBytes b => zlen b <=? uint32_max
  | PU32 z => (0 <=? z) && (z <=? uint32_max)
  | PI64 z => (- 2 ^ 63 <=? z) && (z <=? int64_max)
  end.
Definition well_formedb (d : PublicDescriptor) : bool :=
  match parts (descriptor_parts d) with Ok ps => forallb part_okb ps | Err _ => true end &&
  forallb (fun c => Nat.eqb (length (qr_Guardians (default (MkQuarantineRef "" "" []) (d_Quarantine d !! FamilyKey c))))
    (length (quarantineGuardians c (negb (seqb (k_Recovery (d_Keys d)) ""))))) (claimants_of d).

Lemma well_formedb_true d : well_formedb d = true -> well_formed d.
Proof using Type.
  unfold well_formedb. intros [Hs Hg]%andb_true_iff. constructor.
  - intros ps E. rewrite E in Hs. rewrite forallb_forall in Hs. apply list.Forall_forall. intros p Hp%list_elem_of_In%Hs.
    destruct p; simpl in *; bool_prop; lia.
  - intros c Hc%list_elem_of_In. rewrite forallb_forall in Hg. by apply Nat.eqb_eq, Hg.
Qed.
End family.

(** ** A concrete family *)

#[local] Existing Instances toy_btc toy_arkade toy_ark toy_arklib.

Definition toy_item (x : ScriptItem) : bytes :=
  match x with AddOp _ => [x01] | AddInt64 z => x08 :: be_bytes 2 z | AddData b => be_bytes 1 (zlen b) ++ b end.
Definition toy_mix (b : bytes) : Z := fold_left (fun h x => Z.land (h * 257 + Z_of_byte x) 0xffffffffffffff) b 7.

#[local] Instance toy_savings : SavingsLib := {|
  CSVBlocksClosure := fun keys blocks => (keys, blocks);
  DecompressEven := be_val;
  ComputeTaprootOutputKey := fun k m => toy_mix (be_bytes 32 k ++ m);
  ScriptTreeRoot := fun scripts => be_bytes 32 (toy_mix (concat scripts));
  PayToTaprootScript := fun k => Ok (x51 :: x20 :: be_bytes 32 k);
  builder_Script := fun items => Ok (concat (map toy_item items));
  PacketType := 1;
  EmulatorPacket := bytes;
  NewPacket := fun script witness => Ok (script ++ concat witness);
  packet_Serialize := fun p => Ok p;
  extension_Serialize := fun p => Ok (x6a :: be_bytes 2 (zlen p) ++ p);
  ArkadeScriptHash := fun b => be_bytes 32 (toy_mix b);
  ComputeArkadeScriptPublicKey := fun base h => Some (toy_mix (be_bytes 32 base ++ h))
|}.

Definition toy_family_input : FamilyInput :=
  MkFamilyInput "vault-a" "mutinynet" (Some 5) (Some 7) (Some 8) (MarshalCompressed p256_gx p256_gy) (Some 6) (Some 10) Template true "advanced"
    (SpendingPolicyFromValues 50000 100000 AbsoluteFeeCeiling FeerateCeilingSatPerV).
#[local] Notation toy_build := (BuildPublicDescriptor toy_family_input "https://arkade.example" "v1").

Definition built_ok (x : result (PublicDescriptor * Family)) : bool :=
  match x with Ok (d, _) => well_formedb d && is_ok (HashPublicDescriptor d) | Err _ => false end.
Lemma toy_built_ok : built_ok toy_build = true.
Proof. vm_compute. reflexivity. Qed.

Lemma built_ok_inv x : built_ok x = true -> exists d fam h, x = Ok (d, fam) /\ well_formed d /\ HashPublicDescriptor d = Ok h.
Proof.
  destruct x as [[d fam]|]; [|discriminate]. unfold built_ok. intros [W V]%andb_true_iff. destruct (HashPublicDescriptor d) as [h|] eqn:E; [|discriminate V].
  exists d, fam, h. split; [reflexivity|]. split; [exact (well_formedb_true d W)|exact E].
Qed.
Lemma toy_built : exists d fam h, toy_build = Ok (d, fam) /\ well_formed d /\ HashPublicDescriptor d = Ok h.
Proof. exact (built_ok_inv toy_build toy_built_ok). Qed.

Lemma descriptor_family i a v d fam : BuildPublicDescriptor i a v = Ok (d, fam) -> exists fam', BuildFamily i = Ok fam'.
Proof. intros ([] & _ & (fam' & E & _)%bind_Ok)%bind_Ok. by exists fam'. Qed.
Lemma toy_family_built : exists fam, BuildFamily toy_family_input = Ok fam.
Proof. destruct toy_built as (d & fam & h & E & _). exact (descriptor_family _ _ _ _ _ E). Qed.

Lemma stolen_key_waits_witness : exists fam, BuildFamily toy_family_input = Ok fam /\
  exists r init pend, family_spec toy_family_input fam r init pend /\
    forall c pub, (c, pub) ∈ role_list r -> Forall (fun l => ~ opens (SerializeXOnly pub) l) (savings_leaves r init).
Proof.
  destruct toy_family_built as (fam & E). exists fam. split; [exact E|].
  destruct (stolen_key_waits toy_family_input fam E) as (r & init & pend & Hs & Hw).
  exists r, init, pend. split; [exact Hs|]. intros c pub Hc. exact (proj1 (Hw c pub Hc)).
Defined.

Lemma descriptor_hash_binds_witness : exists d fam h, toy_build = Ok (d, fam) /\ HashPublicDescriptor d = Ok h /\
  (descriptor_view d = descriptor_view d \/
   exists raw1 raw2, encodePublicDescriptor d = Ok raw1 /\ encodePublicDescriptor d = Ok raw2 /\
     raw1 <> raw2 /\ sha256 raw1 = sha256 raw2).
Proof.
  destruct toy_built as (d & fam & h & E & W & Eh). exists d, fam, h. split; [exact E|]. split; [exact Eh|].
  exact (descriptor_hash_binds d d h W W Eh Eh).
Defined.
