(* ===== verification/Service.v ===== *)
(** * Shared checks of the application service

    [internal/application/service.go], with the string lists of [vtxo.go]: the
    published enrollment index, loading and checking a vault's stored policy,
    the verification of an assertion and a direct signature, and the translation
    of ledger errors. *)

From S2P Require Import Prelude Crypto Codec Program Recovery Apperr Tenant Vtxo Ledger Json WebAuthn Psbt Trees.
From Stdlib Require Import Strings.Byte Strings.Ascii Strings.String.
From stdpp Require Import base decidable list strings gmap option.
From Stdlib Require Import ZArith Lia.
Open Scope string_scope.
Open Scope list_scope.
Open Scope Z_scope.

(** ** String lists as JSON *)

Definition hex_lower (v : Z) : byte := if v <? 10 then byte_of_Z (48 + v) else byte_of_Z (87 + v).
Definition u00 (c : byte) : bytes := [x5c; x75; x30; x30; hex_lower (Z_of_byte c / 16); hex_lower (Z_of_byte c mod 16)].

(** [json.Marshal] of one ASCII character of a string, HTML escaping on. *)
Definition marshal_ascii (c : byte) : bytes :=
  if isb 34 c || isb 92 c then [x5c; c]
  else if isb 8 c then [x5c; x62] else if isb 12 c then [x5c; x66] else if isb 10 c then [x5c; x6e]
  else if isb 13 c then [x5c; x72] else if isb 9 c then [x5c; x74]
  else if (Z_of_byte c <? 32) || isb 60 c || isb 62 c || isb 38 c then u00 c
  else [c].

(** A byte above 127: a valid sequence, U+2028 and U+2029 escaped, or one bad byte. *)
Fixpoint marshal_chars (fuel : nat) (l : bytes) : bytes :=
  match fuel, l with
  | S fuel, c :: r =>
      if Z_of_byte c <? 128 then marshal_ascii c ++ marshal_chars fuel r
      else match multibyte c r with
           | StringChar out rest =>
               (if beqb out [xe2; x80; xa8] then bytes_of "\u2028" else if beqb out [xe2; x80; xa9] then bytes_of "\u2029"
                else if beqb out replacement && bool_decide (rest = r) then bytes_of "\ufffd" else out) ++ marshal_chars fuel rest
           | _ => []
           end
  | _, _ => []
  end.

Definition marshalString (s : string) : bytes := let l := bytes_of s in x22 :: marshal_chars (length l) l ++ [x22].

Fixpoint joined (l : list bytes) : bytes := match l with [] => [] | x :: l => x2c :: x ++ joined l end.

Definition encodeJSONStringSlice (v : list string) : string :=
  match v with
  | [] => ""
  | s :: rest => string_of_list_byte (x5b :: marshalString s ++ joined (map marshalString rest) ++ [x5d])
  end.

(** The elements as strings; null leaves the zero value. *)
Definition into_string_slice (v : json) : result (list string) :=
  match v with
  | JArray l => mapR (fun e => into_string e "") l
  | JNull => Ok []
  | _ => Err type_error
  end.

Definition decodeJSONStringSlice (v : string) : list string :=
  if seqb (trim_space v) "" then []
  else match (doc ← json_text (bytes_of v); into_string_slice doc) with Ok out => out | Err _ => [] end.

(** ** State: configuration and published enrollments *)

(** [deployment.Config] *)
Record Config := MkConfig { cfg_ClientOrigin : string; cfg_RPID : string; cfg_Network : string }.

Section service.
Context `{ErrorText, Btc}.

Record savingsSnapshot := MkSavingsSnapshot {
  sn_Address : string; sn_PkScript : bytes; sn_ExternalOwnerWallet : option PublicKey; sn_RecoveryKey : option PublicKey;
  sn_VaultCosignerBase : option PublicKey; sn_ArkadeCosignerBase : option PublicKey
}.

Record vaultBoardSnapshot := MkVaultBoardSnapshot {
  bn_BoardingPub : option PublicKey; bn_CosignerPub : option PublicKey; bn_OperatorPub : option PublicKey; bn_PkScript : bytes; bn_Address : string
}.

Record enrolledSnapshot := MkEnrolledSnapshot {
  en_VaultID : string; en_CredentialID : bytes; en_PhoneBIP340 : option PublicKey; en_ExternalOwnerWallet : option PublicKey;
  en_RecoveryKey : option PublicKey; en_VaultCosignerBase : option PublicKey; en_ArkadeCosignerBase : option PublicKey;
  en_Savings : option savingsSnapshot; en_Board : option vaultBoardSnapshot
}.

Definition no_snapshot : enrolledSnapshot := MkEnrolledSnapshot "" [] None None None None None None None.

(** [publishedIndex]: swapped as a whole, never changed in place. *)
Record publishedIndex := MkPublishedIndex { ix_byVault : gmap string enrolledSnapshot; ix_byCred : gmap string string }.

Definition publishEnrollmentAt (prev : option publishedIndex) (vaultID : string) (credID : bytes) (phone : option PublicKey)
    (sv : option savingsSnapshot) (board : option vaultBoardSnapshot) : option publishedIndex :=
  let of_sv {A} (f : savingsSnapshot -> option A) := match sv with Some sv => f sv | None => None end in
  let snap := MkEnrolledSnapshot vaultID credID phone (of_sv sn_ExternalOwnerWallet) (of_sv sn_RecoveryKey)
                (of_sv sn_VaultCosignerBase) (of_sv sn_ArkadeCosignerBase) sv board in
  let '(byVault, byCred) := match prev with Some p => (ix_byVault p, ix_byCred p) | None => (∅, ∅) end in
  Some (MkPublishedIndex (<[vaultID := snap]> byVault)
          (if 0 <? zlen credID then <[hex_encode credID := vaultID]> byCred else byCred)).

Definition snapshot (published : option publishedIndex) (vaultID : string) : enrolledSnapshot :=
  match published with
  | None => no_snapshot
  | Some idx => default no_snapshot (ix_byVault idx !! vaultID)
  end.

Definition keys_of (snap : enrolledSnapshot) : enrolledKeys :=
  MkEnrolledKeys (en_PhoneBIP340 snap) (en_ExternalOwnerWallet snap) (en_RecoveryKey snap).

Definition rejectCrossVaultCredential (published : option publishedIndex) (vaultID : string) (credID : bytes) : result unit :=
  match published with
  | None => Ok tt
  | Some idx =>
      if zlen credID =? 0 then Ok tt
      else match ix_byCred idx !! hex_encode credID with
           | Some mapped => require (seqb mapped vaultID) (Errorf "credential does not belong to this vault")
           | None => Ok tt
           end
  end.

(** ** Stored policy *)

Definition periodAllowanceSats (rec : option VaultRecord) (cred : option Credential) : Z :=
  let from_cred := match cred with
                   | Some c => if 0 <? cr_PeriodAllowanceSats c then cr_PeriodAllowanceSats c else PeriodAllowanceSats
                   | None => PeriodAllowanceSats
                   end in
  match rec with
  | Some r => if 0 <? v_PeriodAllowanceSats r then v_PeriodAllowanceSats r else from_cred
  | None => from_cred
  end.

Definition spendingPolicyFromCredential (cred : Credential) : SpendingPolicy :=
  SpendingPolicyFromValues (cr_TxRecipientCapSats cred) (cr_PeriodAllowanceSats cred) (AbsoluteFeeCapSats cred) (FeerateCapSatPerV cred).

Definition spendingPolicyFromRecord (rec : VaultRecord) : SpendingPolicy :=
  SpendingPolicyFromValues (v_TxRecipientCapSats rec) (v_PeriodAllowanceSats rec) (v_AbsoluteFeeCapSats rec) (v_FeerateCapSatPerV rec).

Definition routeVaultID (vaultID : string) : result string :=
  let id := trim_space vaultID in
  require (negb (seqb id "")) ErrVaultIDRequired;; Ok id.

Definition credentialIntegrityKey (key : bytes) : result bytes :=
  if zlen key =? sha256_size then Ok key
  else if negb (zlen key =? 0) then Err (Errorf "credential integrity key must be 32 bytes")
  else Err (Errorf "credential integrity key is required").

Definition requireLedgerIntegrity (key : bytes) (l : Ledger) : result unit :=
  k ← credentialIntegrityKey key;
  RequireIntegrityKey l k.

(** The vault's snapshot and its stored, verified record, whose policy is within
    the bounds of the network. *)
Definition resolveSpendVaultRecord (cfg : Config) (key : bytes) (published : option publishedIndex) (t : Tenants) (vaultID : string)
  : result (string * enrolledSnapshot * VaultRecord) :=
  id ← routeVaultID vaultID;
  let snap := snapshot published id in
  require (bool_decide (is_Some (en_Savings snap))) (Errorf "not enrolled");;
  k ← credentialIntegrityKey key;
  '(rec, _) ← LoadVerifiedVault t id k;
  match rec with
  | None => Err (Errorf "not enrolled")
  | Some rec =>
      wrap "stored economic policy" (ValidateSpendingPolicyFor (cfg_Network cfg) (spendingPolicyFromRecord rec));;
      wrap "stored protection tier" (ValidateProtectionTierRecovery (v_ProtectionTier rec) (0 <? zlen (v_RecoveryKey rec)));;
      Ok (id, snap, rec)
  end.

(** The credential, nil when there is none. *)
Definition loadVerifiedCredentialFor (key : bytes) (t : Tenants) (vaultID : string) : result (option Credential) :=
  k ← credentialIntegrityKey key;
  vaultID ← routeVaultID vaultID;
  '(rec, vcred) ← LoadVerifiedVault t vaultID k;
  match rec, vcred with
  | Some rec, Some vcred => Ok (Some (ToCredential rec vcred))
  | _, _ => Ok None
  end.

Definition loadVerifiedEnvelopeFor (key : bytes) (t : Tenants) (vaultID : string) (credentialID : bytes) : result (option CredentialEnvelope) :=
  k ← credentialIntegrityKey key;
  vaultID ← routeVaultID vaultID;
  envelope ← GetVaultEnvelope t vaultID;
  match envelope with
  | None => Ok None
  | Some e =>
      wrap "authoritative credential envelope integrity verification failed" (VerifyVaultEnvelope e vaultID credentialID k);;
      Ok (Some e)
  end.

(** ** Amounts *)

Definition vtxoFeeCap (rec : VaultRecord) : result Z :=
  require (negb (v_AbsoluteFeeCapSats rec <? 0)) (Rejected "fee ceiling invalid");; Ok (v_AbsoluteFeeCapSats rec).

(** [amount] and [fee] are uint64. *)
Definition enforceVtxoAmount (amount fee : Z) (rec : VaultRecord) : result unit :=
  require (negb ((v_TxRecipientCapSats rec <=? 0) || (v_AbsoluteFeeCapSats rec <? 0))) (Rejected "vault spending policy required");;
  require (negb ((int64_max <? amount) || (v_TxRecipientCapSats rec <? amount))) (Rejected "recipient exceeds transaction cap");;
  require (negb ((int64_max <? fee) || (v_AbsoluteFeeCapSats rec <? fee))) (Rejected "fee exceeds ceiling");;
  require (DustSats <=? amount) (Rejected "recipient below dust").

Definition validStoredVtxoChange (op : VtxoOperation) (wantScript : bytes) : bool :=
  if op_ChangeSats op =? 0 then bool_decide (op_ChangeVout op = None) && (zlen (op_ChangeScript op) =? 0)
  else (DustSats <=? op_ChangeSats op) && bool_decide (op_ChangeVout op = Some 1) && beqb (op_ChangeScript op) wantScript.

(** ** Errors of the ledger *)

Definition mapLedgerBusy (err : error) : error :=
  if Is err ErrRecoveryBusy then ErrBusy
  else if Is err ErrPeriodAllowanceExceeded then Rejected "period allowance exceeded"
  else if Is err ErrVtxoOperationActive then Rejected (Error ErrVtxoOperationActive)
  else err.

(** ** Requests *)

Definition decodeHex (s : string) : result bytes :=
  require (negb (seqb s "")) (Errorf "empty");;
  match hex_decode s with Some b => Ok b | None => Err (Errorf "hex") end.

Definition requireTxid (txid : string) : result unit :=
  require ((zlen (bytes_of txid) =? 64) && seqb txid (to_lower txid)) (Errorf "txid");;
  match hex_decode txid with Some raw => require (zlen raw =? 32) (Errorf "txid") | None => Err (Errorf "txid") end.

Definition requireBundleDigest (got : string) (want : bytes) : result unit :=
  match hex_decode (to_lower (trim_space got)) with
  | Some raw =>
      require (zlen raw =? 32) (Rejected "bundleDigest");;
      require (beqb raw want) (Rejected "bundleDigest mismatch")
  | None => Err (Rejected "bundleDigest")
  end.

Definition canonicalVtxoOperationID (raw : string) : result string :=
  let id := trim_space raw in
  match hex_decode id with
  | Some decoded =>
      require ((zlen decoded =? 16) && seqb id (to_lower id)) (Rejected "operationId must be 16 random bytes encoded as lowercase hex");;
      Ok id
  | None => Err (Rejected "operationId must be 16 random bytes encoded as lowercase hex")
  end.

Record WebAuthnAssertionRequest := MkAssertionRequest { wa_CredentialID : string; wa_ClientDataJSON : string; wa_AuthenticatorData : string; wa_Signature : string }.

Definition decodeAssertion (req : WebAuthnAssertionRequest) : result Assertion :=
  id ← decodeHex (wa_CredentialID req);
  cd ← decodeHex (wa_ClientDataJSON req);
  ad ← decodeHex (wa_AuthenticatorData req);
  sig ← decodeHex (wa_Signature req);
  Ok (MkAssertion id cd ad sig).

Definition rejectPRF (clientDataJSON : bytes) : result unit := require (negb (ContainsPRFField clientDataJSON)) (Errorf "prf material rejected").

Definition verifyDirectAuth (directPub digest compact : bytes) : result unit :=
  pub ← wrap "direct p256" (ParseCompressedP256 directPub);
  wrap "direct auth" (VerifyDigestLowS (Some pub) digest compact).

Definition SignatureSize : Z := 64.

(** The phone's signature over [digest], as lowercase hexadecimal. *)
Definition verifyPhoneSignature (phoneSignature : string) (digest : result bytes) (phone : PublicKey) : result unit :=
  match digest with
  | Err e => Err (Rejected (Error e))
  | Ok digest =>
      match hex_decode phoneSignature with
      | None => Err (Rejected "phoneSignature must be a lowercase 64-byte Schnorr signature")
      | Some raw =>
          require ((zlen raw =? SignatureSize) && seqb phoneSignature (to_lower phoneSignature))
            (Rejected "phoneSignature must be a lowercase 64-byte Schnorr signature");;
          match ParseSignature raw with
          | Err _ => Err (Rejected "phoneSignature invalid")
          | Ok sig => require (VerifySig sig digest phone) (Rejected "phoneSignature invalid")
          end
      end
  end.

(** [verifyVtxoAuthorization] between acquiring and releasing its slot.  The
    challenge is the one the client data carries: the digest is bound by the
    direct signature. *)
Definition checkVtxoAuthorization (key : bytes) (t : Tenants) (published : option publishedIndex) (vaultID : string) (digest : bytes)
    (req : WebAuthnAssertionRequest) (directSigHex : string) : result (bytes * Z) :=
  require (zlen digest =? 32) (Rejected "bundle digest must be 32 bytes");;
  assertion ← decodeAssertion req;
  rejectPRF (a_ClientDataJSON assertion);;
  cred ← loadVerifiedCredentialFor key t vaultID;
  match cred with
  | None => Err (Errorf "not enrolled")
  | Some cred =>
      rejectCrossVaultCredential published vaultID (ID cred);;
      match ChallengeFromClientDataJSON (a_ClientDataJSON assertion) with
      | Err e => Err (Rejected (Error e))
      | Ok presenceChallenge =>
          verified ← Validate assertion (MkExpected (ID cred) (Tenant.WebAuthnP256 cred) presenceChallenge (Origin cred) (RPID cred));
          match decodeHex directSigHex with
          | Err _ => Err (Rejected "directSig")
          | Ok directSig =>
              verifyDirectAuth (PhoneDirectP256 cred) digest directSig;;
              Ok (ID cred, vr_SignCount verified)
          end
      end
  end.
End service.
