(* ===== verification/SpendService.v ===== *)
(** * Spending: the request handlers

    [internal/application/vtxo.go] and [vtxo_abort.go]: reserve, read, authorize,
    authorize checkpoints, finalize, abort.  A handler is one goroutine among
    many: before each of its accesses to shared state the others may act
    ([others]); the stores, the clock and the slots are the shared [World].  The
    indexer and the Operator answer through [Outside], anew at every call. *)

From S2P Require Import Prelude Crypto Codec GoTime Program Vtxo Ledger SignCount Recovery VtxoLedger Tenant Apperr Json WebAuthn SpendSelect Psbt SpendVerify KeyProvider Trees Service Effects.
From Stdlib Require Import Strings.Byte Strings.Ascii Strings.String.
From stdpp Require Import base decidable list strings gmap option.
From Stdlib Require Import ZArith Lia.
Open Scope string_scope.
Open Scope list_scope.
Open Scope Z_scope.

Definition vtxoReserveAuthorizeTimeout : Z := 2 * 60 * second.

(** ** Requests and responses *)

Record VtxoReserveRequest := MkReserveRequest {
  rq_OperationID : string; rq_VaultID : string; rq_Purpose : string; rq_DestAddress : string; rq_AmountSats : Z; rq_PhoneSignature : string
}.

Record VtxoInputView := MkInputView { iv_Txid : string; iv_Vout : Z; iv_ValueSats : Z; iv_ScriptHex : string }.

Record VtxoReserveResponse := MkReserveResponse {
  rr_OperationID : string; rr_BundleDigest : string; rr_ReservationExpires : string; rr_Inputs : list VtxoInputView;
  rr_ChangeAddress : string; rr_ChangeScript : string; rr_DestScript : string; rr_FeeSats : Z; rr_FeePolicyDigest : string;
  rr_ChangeSats : Z; rr_ChangeVout : option Z; rr_CheckpointTapscript : string
}.

Record VtxoAuthorizeRequest := MkAuthorizeRequest {
  aq_VaultID : string; aq_OperationID : string; aq_BundleDigest : string; aq_UnsignedArkPsbt : string;
  aq_UnsignedCheckpointPsbts : list string; aq_PendingProof : string; aq_Assertion : WebAuthnAssertionRequest; aq_DirectSig : string
}.

Record VtxoAuthorizeResponse := MkAuthorizeResponse {
  ar_OperationID : string; ar_BundleDigest : string; ar_AuthorizedPsbt : string; ar_AuthorizedPendingProof : string; ar_ArkTxid : string
}.

Record VtxoCheckpointAuthorizeRequest := MkCheckpointRequest {
  cq_VaultID : string; cq_OperationID : string; cq_BundleDigest : string; cq_CheckpointPsbts : list string
}.

Record VtxoCheckpointAuthorizeResponse := MkCheckpointResponse {
  cr_OperationID : string; cr_BundleDigest : string; cr_CheckpointPsbts : list string; cr_ArkTxid : string
}.

Record VtxoFinalizeRequest := MkFinalizeRequest { fq_VaultID : string; fq_OperationID : string; fq_BundleDigest : string; fq_ArkTxid : string }.
Record VtxoFinalizeResponse := MkFinalizeResponse { fr_OperationID : string; fr_BundleDigest : string; fr_State : string; fr_ArkTxid : string }.

Record VtxoAbortRequest := MkAbortRequest { bq_OperationID : string; bq_VaultID : string; bq_Purpose : string; bq_PhoneSignature : string }.
Record VtxoAbortResponse := MkAbortResponse { br_OperationID : string; br_State : string }.

Record VtxoOperationView := MkOperationView {
  ov_OperationID : string; ov_BundleDigest : string; ov_State : string; ov_ArkTxid : string; ov_ExpiresAt : string; ov_FeeSats : Z;
  ov_FeePolicyDigest : string; ov_ChangeSats : Z; ov_ChangeVout : option Z; ov_ChangeScript : string; ov_AuthorizedPsbt : string;
  ov_AuthorizedPendingProof : string; ov_CheckpointPsbts : list string
}.

(** [ports.SubmittedVtxoState]; a value outside the enumeration is possible. *)
Inductive SubmittedVtxoState := SubmittedVtxoPending | SubmittedVtxoFinalized | SubmittedVtxoConflict | SubmittedVtxoUnknown.

(** ** The shared world *)

Section handlers.
Context `{ErrorText, Btc, !Arkade, !Ark, !ArkLib, FeeEnv}.

Record World := MkWorld {
  w_ledger : Ledger; w_now : Z; w_tenants : Tenants; w_published : option publishedIndex;
  w_cell : fileBackedVaultKeys; w_fee : FeeState; w_slots : Z; w_step : nat
}.

Definition set_ledger (l : Ledger) (w : World) : World :=
  MkWorld l (w_now w) (w_tenants w) (w_published w) (w_cell w) (w_fee w) (w_slots w) (w_step w).
Definition set_fee (f : FeeState) (w : World) : World :=
  MkWorld (w_ledger w) (w_now w) (w_tenants w) (w_published w) (w_cell w) f (w_slots w) (w_step w).
Definition set_slots (n : Z) (w : World) : World :=
  MkWorld (w_ledger w) (w_now w) (w_tenants w) (w_published w) (w_cell w) (w_fee w) n (w_step w).
Definition next_step (w : World) : World :=
  MkWorld (w_ledger w) (w_now w) (w_tenants w) (w_published w) (w_cell w) (w_fee w) (w_slots w) (S (w_step w)).

(** The service's immutable fields; [sv_policyExit] is the verdict on the
    embedded contract pack, [sv_hasResolver] whether a resolver is configured. *)
Record ServiceConfig := MkServiceConfig {
  sv_Config : Config; sv_IntegrityKey : bytes; sv_keys : KeyCapabilities; sv_MaxConcurrentVerifications : Z;
  sv_MaxConcurrentFeeSelections : Z; sv_policyExit : result unit; sv_hasResolver : bool
}.

(** What is outside: the other goroutines, the resolver's answers, the outcome of
    file writes and commits, the request and signing contexts.  The number is
    that of the access. *)
Record Outside := MkOutside {
  others : nat -> World -> World;
  SpendableVtxos : nat -> bytes -> result (list ResolvedVtxo);
  resolver_IntentFeePolicy : nat -> result IntentFeePolicy;
  CheckpointTapscript : nat -> bytes;
  OperatorSignerPub : bytes;
  resolver_SubmittedVtxoState : nat -> bytes -> list ResolvedVtxo -> string -> option Z -> Z -> result SubmittedVtxoState;
  env_io : nat -> Env;
  request_ctx : nat -> option error;
  sign_ctx : nat -> nat -> option error
}.

Context (s : ServiceConfig) (o : Outside).

(** One access to the world, after whatever the others did; [f] is atomic. *)
Definition access {A} (f : nat -> World -> result A * World) : M World A := fun w =>
  let w1 := next_step (others o (w_step w) w) in Some (f (w_step w) w1).

Definition read {A} (f : World -> result A) : M World A := access (fun _ w => (f w, w)).
Definition outside {A} (f : nat -> result A) : M World A := access (fun n w => (f n, w)).

(** A call of the ledger. *)
Definition ledger_call {A} (f : nat -> Z -> Ledger -> Ledger * result A) : M World A := access (fun n w =>
  let '(l, r) := f n (w_now w) (w_ledger w) in (r, set_ledger l w)).

(** [NowUTC] *)
Definition vtxoNow : M World Z := read (fun w => Ok (w_now w)).

Definition getOperation (id : string) : M World VtxoOperation := read (fun w => GetVtxoOperation (w_ledger w) id).
Definition getOperationInputs (id : string) : M World (list VtxoOperationInput) := read (fun w => GetVtxoOperationInputs (w_ledger w) id).
Definition transition (from : string) (rec : VtxoOperation) : M World (VtxoOperation * bool) :=
  ledger_call (fun n _ l => TransitionVtxoOperation l (env_commit_ok (env_io o n)) from rec).

(** [fee] selection runs on its own slice of the world. *)
Definition on_fee {A} (m : M FeeState A) : M World A := fun w =>
  let w1 := next_step (others o (w_step w) w) in
  match m (w_fee w1) with Some (r, f) => Some (r, set_fee f w1) | None => None end.

Definition checkLedgerIntegrity : M World unit := read (fun w => requireLedgerIntegrity (sv_IntegrityKey s) (w_ledger w)).
Definition requireVaultPolicyV1Exit : M World unit := lift (sv_policyExit s).
Definition requireArkResolver : M World unit := check (sv_hasResolver s) (Rejected "ark indexer unavailable").

Definition resolveVault (vaultID : string) : M World (string * enrolledSnapshot * VaultRecord) :=
  read (fun w => resolveSpendVaultRecord (sv_Config s) (sv_IntegrityKey s) (w_published w) (w_tenants w) vaultID).

Definition tree_env (w : World) : TreeEnv :=
  MkTreeEnv (cfg_Network (sv_Config s)) (sv_keys s) (w_cell w) (if sv_hasResolver s then Some (OperatorSignerPub o) else None).

Definition buildTree (msg vaultID : string) (snap : enrolledSnapshot) : M World PolicyTree := read (fun w =>
  match buildVtxoPolicyTree (tree_env w) vaultID (keys_of snap) with Ok t => Ok t | Err _ => Err (Rejected msg) end).

Definition purposeSpend (raw : string) : M World string :=
  let purpose := trim_space raw in
  check (seqb purpose vtxoPurposeSpend) (Rejected "vtxo purpose must be spend");; mret purpose.

(** A phone signature over a digest of the request. *)
Definition requirePhone (phone : option PublicKey) (signature : string) (digest : result bytes) : M World unit :=
  match phone with
  | None => fail (Rejected "enrolled phone key required")
  | Some phone => lift (verifyPhoneSignature signature digest phone)
  end.

(** ** Reserving *)

Definition inputView (i : VtxoOperationInput) : VtxoInputView :=
  MkInputView (hex_encode (in_Txid i)) (uint32_of (in_Vout i)) (uint64 (in_ValueSats i)) (hex_encode (in_Script i)).

Definition vtxoReserveResponse (op : VtxoOperation) (inputs : list VtxoOperationInput) (changeAddress : string) : VtxoReserveResponse :=
  MkReserveResponse (op_OperationID op) (hex_encode (op_BundleDigest op)) (op_ExpiresAt op) (map inputView inputs)
    (if op_ChangeSats op =? 0 then "" else changeAddress) (hex_encode (op_ChangeScript op)) (hex_encode (op_DestScript op)) (uint64 (op_FeeSats op)) (hex_encode (op_FeePolicyDigest op))
    (uint64 (op_ChangeSats op)) (op_ChangeVout op) (hex_encode (op_CheckpointTapscript op)).

Definition expireReservedVtxo (op : VtxoOperation) : M World VtxoOperation :=
  if negb (seqb (op_State op) vtxoStateReserved) || seqb (op_ExpiresAt op) "" then mret op else
  match parseRFC3339 (op_ExpiresAt op) with
  | None => fail (Rejected "reservation expiry")
  | Some exp =>
      now ← vtxoNow;
      if now <? exp then mret op else
      let next := op_set_State vtxoStateAborted op in
      '(current, swapped) ← transition vtxoStateReserved next;
      mret (if (swapped : bool) then next else current)
  end.

Definition replayVtxoReservation (op : VtxoOperation) (vaultID purpose : string) (amount : Z) (destScript : bytes) (tree : PolicyTree)
  : M World VtxoReserveResponse :=
  check (seqb (op_VaultID op) vaultID && seqb (op_Purpose op) purpose && (0 <=? op_AmountSats op) && (0 <=? op_FeeSats op) &&
         (0 <=? op_ChangeSats op) && (uint64 (op_AmountSats op) =? amount) && beqb (op_DestScript op) destScript &&
         (zlen (op_FeePolicyDigest op) =? 32) && validStoredVtxoChange op (vt_PkScript tree))
    (Rejected "operationId is already bound to a different reserve request");;
  check (negb (seqb (op_State op) vtxoStateAborted || seqb (op_State op) vtxoStateUnresolved)) (Rejected "reservation is no longer usable");;
  op ← expireReservedVtxo op;
  check (negb (seqb (op_State op) vtxoStateAborted)) (Rejected "reservation expired");;
  inputs ← getOperationInputs (op_OperationID op);
  mret (vtxoReserveResponse op inputs (vt_ArkAddress tree)).

(** [int64(x)] of a uint64. *)
Definition int64_of (z : Z) : Z := (z + 2 ^ 63) mod 2 ^ 64 - 2 ^ 63.

Definition coinInput (c : reservedCoin) : VtxoOperationInput := MkVtxoOperationInput "" (rc_Txid c) (rc_Vout c) (int64_of (rc_ValueSats c)) (rc_Script c) [].

(** The row of a new reservation. *)
Definition newReservation (opID vaultID purpose : string) (digest : bytes) (amount fee : Z) (feePolicyDigest destScript changeScript : bytes)
    (changeSats : Z) (changeVout : option Z) (checkpoint : bytes) (created expires : string) : VtxoOperation :=
  MkVtxoOperation opID vaultID purpose digest vtxoStateReserved (int64_of amount) (int64_of fee) feePolicyDigest destScript changeScript
    (int64_of changeSats) changeVout "" "" [] "" "" "" checkpoint "" expires created destScript [].

Definition ReserveVtxo (fuel : nat) (req : VtxoReserveRequest) : M World VtxoReserveResponse :=
  opID ← lift (canonicalVtxoOperationID (rq_OperationID req));
  checkLedgerIntegrity;;
  requireVaultPolicyV1Exit;;
  purpose ← purposeSpend (rq_Purpose req);
  check (negb (rq_AmountSats req =? 0)) (Rejected "amount required");;
  requireArkResolver;;
  '(vaultID, snap, rec) ← resolveVault (rq_VaultID req);
  tree ← buildTree "vault-policy-v1 dest unavailable" vaultID snap;
  destScript ← read (fun w => decodeVtxoDest (tree_env w) (rq_DestAddress req));
  requirePhone (en_PhoneBIP340 snap) (rq_PhoneSignature req)
    (ComputeVtxoReserveDigest (rq_OperationID req) vaultID (trim_space (rq_Purpose req)) destScript (rq_AmountSats req));;
  read (fun w => rejected_err (refuseDefaultVtxoChange (tree_env w) (keys_of snap) destScript));;
  feeCap ← lift (vtxoFeeCap rec);
  lift (enforceVtxoAmount (rq_AmountSats req) 0 rec);;
  existing ← try (getOperation opID);
  match existing with
  | Ok existing => replayVtxoReservation existing vaultID purpose (rq_AmountSats req) destScript tree
  | Err e =>
      check (bool_decide (e = ErrNoRows)) e;;
      feePolicy ← outside (fun n => match resolver_IntentFeePolicy o n with Ok f => Ok f | Err _ => Err (Rejected "Operator fee policy unavailable") end);
      '(estimator, feePolicyDigest) ← lift (newVtxoFeeEstimator feePolicy);
      vtxos ← try (outside (fun n => SpendableVtxos o n (vt_PkScript tree)));
      '(selected, feeSats, changeSats) ←
        on_fee (selectSpendVtxos fuel (sv_MaxConcurrentFeeSelections s) estimator vtxos (vt_PkScript tree) destScript (rq_AmountSats req) feeCap);
      lift (enforceVtxoAmount (rq_AmountSats req) feeSats rec);;
      checkpoint ← outside (fun n => Ok (CheckpointTapscript o n));
      check (negb (zlen checkpoint =? 0)) (Rejected "checkpoint tapscript required");;
      let changeScript := if 0 <? changeSats then vt_PkScript tree else [] in
      let changeVout := if 0 <? changeSats then Some 1 else None in
      now ← vtxoNow;
      let created := formatRFC3339 now in
      digest ← lift (ComputeVtxoBundleDigest purpose vaultID destScript changeScript (rq_AmountSats req) feeSats changeSats changeVout
                       feePolicyDigest (map coin_bundle selected) created);
      let recRow := newReservation opID vaultID purpose digest (rq_AmountSats req) feeSats feePolicyDigest destScript changeScript changeSats
                      changeVout checkpoint created (formatRFC3339 (now + vtxoReserveAuthorizeTimeout)) in
      let opInputs := map coinInput selected in
      reserved ← try (ledger_call (fun n now l => ReserveVtxoOperation l (env_io o n) now now recRow opInputs (periodAllowanceSats (Some rec) None)));
      match reserved with
      | Ok _ => mret (vtxoReserveResponse recRow opInputs (vt_ArkAddress tree))
      | Err err =>
          existing ← try (getOperation opID);
          match existing with
          | Ok existing => replayVtxoReservation existing vaultID purpose (rq_AmountSats req) destScript tree
          | Err _ => fail (mapLedgerBusy err)
          end
      end
  end.

(** ** Loading an operation *)

Definition foundOr {A} (r : result A) : M World A :=
  match r with Ok a => mret a | Err e => fail (if bool_decide (e = ErrNoRows) then ErrNotFound else e) end.

Definition loadLiveVtxo (vaultID operationID wantPurpose : string) : M World (VtxoOperation * list VtxoOperationInput) :=
  check (negb (seqb operationID "")) (Rejected "operationId required");;
  loaded ← try (getOperation operationID);
  rec ← foundOr loaded;
  check (seqb (op_VaultID rec) vaultID) (Rejected "operation does not belong to this vault");;
  check (seqb (op_Purpose rec) wantPurpose) (Rejected "vtxo purpose");;
  (if seqb (op_ExpiresAt rec) "" then mret tt else
   match parseRFC3339 (op_ExpiresAt rec) with
   | None => fail (Rejected "reservation expiry")
   | Some exp =>
       if seqb (op_State rec) vtxoStateReserved then
         now ← vtxoNow;
         if now <? exp then mret tt
         else try (transition vtxoStateReserved (op_set_State vtxoStateAborted rec));; fail (Rejected "reservation expired")
       else mret tt
   end);;
  inputs ← getOperationInputs operationID;
  mret (rec, inputs).

Definition requireCurrentVtxoFeePolicy (op : VtxoOperation) : M World unit :=
  fee ← outside (fun n => match resolver_IntentFeePolicy o n with Ok f => Ok f | Err _ => Err (Rejected "Operator fee policy unavailable") end);
  '(_, digest) ← lift (newVtxoFeeEstimator fee);
  check ((zlen (op_FeePolicyDigest op) =? 32) && beqb digest (op_FeePolicyDigest op)) (Rejected "Operator fee policy changed after reservation").

(** ** Settling *)

Definition changed_concurrently : error := Rejected "vtxo operation changed concurrently".

Definition op_set_CreatedAt (t : string) (r : VtxoOperation) : VtxoOperation :=
  MkVtxoOperation (op_OperationID r) (op_VaultID r) (op_Purpose r) (op_BundleDigest r) (op_State r) (op_AmountSats r) (op_FeeSats r)
    (op_FeePolicyDigest r) (op_DestScript r) (op_ChangeScript r) (op_ChangeSats r) (op_ChangeVout r) (op_UnsignedPSBT r) (op_AuthorizedPSBT r)
    (op_PendingProofDigest r) (op_AuthorizedPendingProof r) (op_CheckpointPSBTs r) (op_CheckpointRequestPSBTs r) (op_CheckpointTapscript r)
    (op_ArkTxid r) (op_ExpiresAt r) t (op_LastDestScript r) (op_IntegrityMAC r).

Definition reservedView (i : VtxoOperationInput) : ResolvedVtxo :=
  MkResolvedVtxo (hex_encode (in_Txid i)) (uint32_of (in_Vout i)) (uint64 (in_ValueSats i)) (in_Script i) 0 None false [].

(** The CAS to a settled state at the present time; another handler may have been
    first with the same outcome. *)
Definition settle (op : VtxoOperation) (state : string) : M World unit :=
  now ← vtxoNow;
  '(current, swapped) ← transition vtxoStateSubmitted (op_set_CreatedAt (formatRFC3339 now) (op_set_State state op));
  check (swapped || seqb (op_State current) state) changed_concurrently.

(** [None]: already settled by another handler. *)
Definition markSubmitted (op : VtxoOperation) : M World (option VtxoOperation) :=
  if negb (seqb (op_State op) vtxoStateSigned) then mret (Some op) else
  let submitted := op_set_State vtxoStateSubmitted op in
  '(current, swapped) ← transition vtxoStateSigned submitted;
  if (swapped : bool) then mret (Some submitted)
  else if seqb (op_State current) vtxoStateFinalized || seqb (op_State current) vtxoStateUnresolved then mret None
  else check (seqb (op_State current) vtxoStateSubmitted) changed_concurrently;; mret (Some current).

Definition promoteSubmittedVtxo (op : VtxoOperation) : M World unit :=
  if negb (seqb (op_State op) vtxoStateSigned || seqb (op_State op) vtxoStateSubmitted) then mret tt else
  inputs ← getOperationInputs (op_OperationID op);
  match inputs with
  | [] => fail (Errorf "reserved inputs required")
  | first :: _ =>
      let pkScript := in_Script first in
      check (negb ((0 <? op_ChangeSats op) && bool_decide (op_ChangeVout op = None))) (Errorf "change vout missing");;
      check (negb ((0 <? op_ChangeSats op) && negb (beqb (op_ChangeScript op) pkScript))) (Errorf "change script does not match reserved inputs");;
      state ← outside (fun n => resolver_SubmittedVtxoState o n pkScript (map reservedView inputs) (op_ArkTxid op) (op_ChangeVout op) (uint64 (op_ChangeSats op)));
      match state with
      | SubmittedVtxoPending => mret tt
      | _ =>
          marked ← markSubmitted op;
          match marked with
          | None => mret tt
          | Some op =>
              match state with
              | SubmittedVtxoConflict => settle op vtxoStateUnresolved
              | SubmittedVtxoFinalized => settle op vtxoStateFinalized
              | _ => fail (Errorf "unknown submitted vtxo state")
              end
          end
      end
  end.

Definition GetVtxoOperationView (vaultID operationID : string) : M World VtxoOperationView :=
  checkLedgerIntegrity;;
  '(id, _, _) ← resolveVault vaultID;
  loaded ← try (getOperation operationID);
  op ← foundOr loaded;
  check (seqb (op_VaultID op) id) (Rejected "operation does not belong to this vault");;
  op ← (if seqb (op_State op) vtxoStateSigned || seqb (op_State op) vtxoStateSubmitted then
          promoted ← try (promoteSubmittedVtxo op);
          match promoted with
          | Err _ => mret op
          | Ok _ => current ← try (getOperation operationID); mret (match current with Ok current => current | Err _ => op end)
          end
        else mret op);
  op ← expireReservedVtxo op;
  let signed := seqb (op_State op) vtxoStateSigned in
  let submitted := seqb (op_State op) vtxoStateSubmitted in
  mret (MkOperationView (op_OperationID op) (hex_encode (op_BundleDigest op)) (op_State op) (op_ArkTxid op) (op_ExpiresAt op)
    (uint64 (op_FeeSats op)) (hex_encode (op_FeePolicyDigest op)) (uint64 (op_ChangeSats op)) (op_ChangeVout op) (hex_encode (op_ChangeScript op))
    (if signed || submitted then op_AuthorizedPSBT op else "") (if signed || submitted then op_AuthorizedPendingProof op else "")
    (if submitted then decodeJSONStringSlice (op_CheckpointPSBTs op) else [])).

(** ** Authorizing *)

Definition verificationLimit : Z := if sv_MaxConcurrentVerifications s <=? 0 then 4 else sv_MaxConcurrentVerifications s.

Definition acquireVerification : M World unit :=
  outside (fun n => match request_ctx o n with Some e => Err e | None => Ok tt end);;
  access (fun _ w => if w_slots w <? verificationLimit then (Ok tt, set_slots (w_slots w + 1) w) else (Err ErrVerificationBusy, w)).

Definition verifyVtxoAuthorization (vaultID : string) (digest : bytes) (req : WebAuthnAssertionRequest) (directSigHex : string)
  : M World (bytes * Z) :=
  acquireVerification;;
  defer (fun w => set_slots (w_slots w - 1) w)
    (read (fun w => checkVtxoAuthorization (sv_IntegrityKey s) (w_tenants w) (w_published w) vaultID digest req directSigHex)).

Definition authorizeResponse (op : VtxoOperation) (psbt proof txid : string) : VtxoAuthorizeResponse :=
  MkAuthorizeResponse (op_OperationID op) (hex_encode (op_BundleDigest op)) psbt proof txid.

(** The checkpoints of the request, each against its reserved input. *)
Definition verifyCheckpoint (op : VtxoOperation) (tree : PolicyTree) (x : string * VtxoOperationInput) : result Packet :=
  match parsePSBT x.1 with
  | Err _ => Err (Rejected "checkpoint psbt")
  | Ok cp => rejected_err (verifyUnsignedCheckpointPSBT cp x.2 op tree);; Ok cp
  end.

(** The same request was answered before. *)
Definition sameSignedRequest (op : VtxoOperation) (req : VtxoAuthorizeRequest) (pendingDigest : bytes) : bool :=
  seqb (op_UnsignedPSBT op) (aq_UnsignedArkPsbt req) &&
  seqb (op_CheckpointPSBTs op) (encodeJSONStringSlice (aq_UnsignedCheckpointPsbts req)) &&
  beqb (op_PendingProofDigest op) pendingDigest && negb (seqb (op_AuthorizedPendingProof op) "").

(** The row once signed. *)
Definition signedRow (op : VtxoOperation) (req : VtxoAuthorizeRequest) (pendingDigest : bytes) (signedArk proof arkTxid : string) : VtxoOperation :=
  MkVtxoOperation (op_OperationID op) (op_VaultID op) (op_Purpose op) (op_BundleDigest op) vtxoStateSigned (op_AmountSats op) (op_FeeSats op)
    (op_FeePolicyDigest op) (op_DestScript op) (op_ChangeScript op) (op_ChangeSats op) (op_ChangeVout op) (aq_UnsignedArkPsbt req) signedArk
    pendingDigest proof (encodeJSONStringSlice (aq_UnsignedCheckpointPsbts req)) (op_CheckpointRequestPSBTs op) (op_CheckpointTapscript op)
    arkTxid (op_ExpiresAt op) (op_CreatedAt op) (op_LastDestScript op) (op_IntegrityMAC op).

(** Everything a spend is checked for before a signature. *)
Definition checkSpend (req : VtxoAuthorizeRequest) (op : VtxoOperation) (inputs : list VtxoOperationInput) (tree : PolicyTree)
    (snap : enrolledSnapshot) : result (Packet * bytes) :=
  arkPkt ← rejected_err (parsePSBT (aq_UnsignedArkPsbt req));
  require (zlen (aq_UnsignedCheckpointPsbts req) =? zlen inputs) (Rejected "checkpoint count");;
  checkpoints ← mapR (verifyCheckpoint op tree) (combine (aq_UnsignedCheckpointPsbts req) inputs);
  rejected_err (verifySpendPSBT arkPkt op inputs tree checkpoints);;
  rejected_err (verifyPhonePendingProof (aq_PendingProof req) inputs tree (en_PhoneBIP340 snap));;
  pendingDigest ← rejected_err (pendingProofDigest (aq_PendingProof req));
  Ok (arkPkt, pendingDigest).

(** The signatures of the vault's cosigner, added to the two packets and checked. *)
Definition signSpend (req : VtxoAuthorizeRequest) (vaultID : string) (inputs : list VtxoOperationInput) (tree : PolicyTree)
    (snap : enrolledSnapshot) : M World (string * string) :=
  keyContext ← read (fun w => vtxoKeyContextFor (tree_env w) vaultID);
  let expected := match vt_CosignerPub tree with Some p => SerializeXOnly p | None => [] end in
  authorization ← lift (newVtxoTransactionAuthorization keyContext (aq_UnsignedArkPsbt req) (aq_PendingProof req) (vt_SpendLeaf tree) expected);
  '(signedArk, proof) ← access (fun n w => (vtxoTransactionAuthorize (sv_keys s) (w_cell w) (sign_ctx o n) authorization, w));
  lift (rejected_err (requireOnlyVaultSignatureAdded (aq_PendingProof req) proof expected));;
  lift (rejected_err (verifyDualSignedPendingProof proof inputs tree (en_PhoneBIP340 snap)));;
  mret (signedArk, proof).

Definition TxHash_String (tx : MsgTx) : string := hex_encode (rev (TxHash tx)).

Definition AuthorizeVtxoSpend (req : VtxoAuthorizeRequest) : M World VtxoAuthorizeResponse :=
  checkLedgerIntegrity;;
  requireVaultPolicyV1Exit;;
  requireArkResolver;;
  '(vaultID, snap, _) ← resolveVault (aq_VaultID req);
  '(op, inputs) ← loadLiveVtxo vaultID (aq_OperationID req) vtxoPurposeSpend;
  check (seqb (op_State op) vtxoStateReserved || seqb (op_State op) vtxoStateSigned) (Rejected "vtxo operation state");;
  requireCurrentVtxoFeePolicy op;;
  lift (requireBundleDigest (aq_BundleDigest req) (op_BundleDigest op));;
  tree ← buildTree "vault-policy-v1 spend unavailable" vaultID snap;
  '(arkPkt, pendingDigest) ← lift (checkSpend req op inputs tree snap);
  let signedReplay := seqb (op_State op) vtxoStateSigned in
  check (negb (signedReplay && negb (sameSignedRequest op req pendingDigest))) (Rejected "changed psbt");;
  '(credentialID, signCount) ← verifyVtxoAuthorization vaultID (op_BundleDigest op) (aq_Assertion req) (aq_DirectSig req);
  if signedReplay then
    read (fun w => VerifySignedVtxoReplay (w_ledger w) (op_OperationID op) vaultID credentialID signCount);;
    mret (authorizeResponse op (op_AuthorizedPSBT op) (op_AuthorizedPendingProof op) (op_ArkTxid op))
  else
    '(signedArk, proof) ← signSpend req vaultID inputs tree snap;
    let arkTxid := match pk_UnsignedTx arkPkt with Some tx => TxHash_String tx | None => "" end in
    let row := signedRow op req pendingDigest signedArk proof arkTxid in
    '(current, swapped) ← ledger_call (fun n now l => CommitSignedVtxoOperation l (env_commit_ok (env_io o n)) now row credentialID signCount);
    if (swapped : bool) then mret (authorizeResponse row signedArk proof arkTxid)
    else
      check (seqb (op_State current) vtxoStateSigned && sameSignedRequest current req pendingDigest) changed_concurrently;;
      mret (authorizeResponse current (op_AuthorizedPSBT current) (op_AuthorizedPendingProof current) (op_ArkTxid current)).

(** ** Authorizing the checkpoints the Operator returned *)

Definition verifySubmitted (op : VtxoOperation) (tree : PolicyTree) (x : string * string * VtxoOperationInput) : result unit :=
  let '(raw, storedRaw, input) := x in
  match parsePSBT raw with
  | Err _ => Err (Rejected "checkpoint psbt")
  | Ok candidate =>
      match parsePSBT storedRaw with
      | Err _ => Err (Rejected "changed checkpoint")
      | Ok stored =>
          require (sameUnsignedPSBT stored candidate) (Rejected "changed checkpoint");;
          rejected_err (verifySubmittedCheckpointPSBT candidate input op tree)
      end
  end.

Definition submittedRow (op : VtxoOperation) (authorized : list string) (requestBinding : string) : VtxoOperation :=
  MkVtxoOperation (op_OperationID op) (op_VaultID op) (op_Purpose op) (op_BundleDigest op) vtxoStateSubmitted (op_AmountSats op) (op_FeeSats op)
    (op_FeePolicyDigest op) (op_DestScript op) (op_ChangeScript op) (op_ChangeSats op) (op_ChangeVout op) (op_UnsignedPSBT op) (op_AuthorizedPSBT op)
    (op_PendingProofDigest op) (op_AuthorizedPendingProof op) (encodeJSONStringSlice authorized) requestBinding (op_CheckpointTapscript op)
    (op_ArkTxid op) (op_ExpiresAt op) (op_CreatedAt op) (op_LastDestScript op) (op_IntegrityMAC op).

Definition AuthorizeVtxoCheckpoints (req : VtxoCheckpointAuthorizeRequest) : M World VtxoCheckpointAuthorizeResponse :=
  checkLedgerIntegrity;;
  requireVaultPolicyV1Exit;;
  requireArkResolver;;
  '(vaultID, snap, _) ← resolveVault (cq_VaultID req);
  '(op, inputs) ← loadLiveVtxo vaultID (cq_OperationID req) vtxoPurposeSpend;
  check (seqb (op_State op) vtxoStateSigned || seqb (op_State op) vtxoStateSubmitted) (Rejected "vtxo operation state");;
  requireCurrentVtxoFeePolicy op;;
  lift (requireBundleDigest (cq_BundleDigest req) (op_BundleDigest op));;
  check (zlen (cq_CheckpointPsbts req) =? zlen inputs) (Rejected "checkpoint count");;
  tree ← buildTree "vault-policy-v1 spend unavailable" vaultID snap;
  let storedRaw := decodeJSONStringSlice (op_CheckpointPSBTs op) in
  check (zlen storedRaw =? zlen (cq_CheckpointPsbts req)) (Rejected "stored checkpoint count");;
  lift (foldR (fun _ x => verifySubmitted op tree x) tt (combine (combine (cq_CheckpointPsbts req) storedRaw) inputs));;
  let requestBinding := encodeJSONStringSlice (cq_CheckpointPsbts req) in
  let answer op checkpoints := MkCheckpointResponse (op_OperationID op) (hex_encode (op_BundleDigest op)) checkpoints (op_ArkTxid op) in
  if seqb (op_State op) vtxoStateSubmitted then
    check (seqb (op_CheckpointRequestPSBTs op) requestBinding) (Rejected "changed checkpoint");;
    mret (answer op storedRaw)
  else
    keyContext ← read (fun w => vtxoKeyContextFor (tree_env w) vaultID);
    let expected := match vt_CosignerPub tree with Some p => SerializeXOnly p | None => [] end in
    authorization ← lift (newVtxoCheckpointAuthorization keyContext (cq_CheckpointPsbts req) (vt_SpendLeaf tree) expected);
    authorized ← access (fun n w => (vtxoCheckpointAuthorize (sv_keys s) (w_cell w) (sign_ctx o n) authorization, w));
    let row := submittedRow op authorized requestBinding in
    '(current, swapped) ← transition vtxoStateSigned row;
    if (swapped : bool) then mret (answer row authorized)
    else
      check (seqb (op_State current) vtxoStateSubmitted && seqb (op_CheckpointRequestPSBTs current) requestBinding) changed_concurrently;;
      mret (MkCheckpointResponse (op_OperationID current) (hex_encode (op_BundleDigest op)) (decodeJSONStringSlice (op_CheckpointPSBTs current)) (op_ArkTxid current)).

(** ** Finalizing and aborting *)

(** [strings.EqualFold] with a hexadecimal right-hand side. *)
Definition equalFold (a b : string) : bool := seqb (to_lower a) (to_lower b).

Definition FinalizeVtxo (req : VtxoFinalizeRequest) : M World VtxoFinalizeResponse :=
  checkLedgerIntegrity;;
  requireVaultPolicyV1Exit;;
  let arkTxid := to_lower (trim_space (fq_ArkTxid req)) in
  lift (match requireTxid arkTxid with Ok _ => Ok tt | Err _ => Err (Rejected "arkTxid") end);;
  '(vaultID, _, _) ← resolveVault (fq_VaultID req);
  loaded ← try (getOperation (fq_OperationID req));
  op ← foundOr loaded;
  check (seqb (op_VaultID op) vaultID) (Rejected "operation does not belong to this vault");;
  check (seqb (op_Purpose op) vtxoPurposeSpend) (Rejected "vtxo purpose must be spend");;
  lift (requireBundleDigest (fq_BundleDigest req) (op_BundleDigest op));;
  let digestHex := hex_encode (op_BundleDigest op) in
  if seqb (op_State op) vtxoStateFinalized && equalFold (op_ArkTxid op) arkTxid then
    mret (MkFinalizeResponse (op_OperationID op) digestHex (op_State op) (op_ArkTxid op))
  else
    check (seqb (op_State op) vtxoStateSubmitted) (Rejected "vtxo operation state");;
    check (equalFold (op_ArkTxid op) arkTxid) (Rejected "arkTxid mismatch");;
    requireArkResolver;;
    promoteSubmittedVtxo op;;
    op ← getOperation (fq_OperationID req);
    check (seqb (op_State op) vtxoStateFinalized) (Rejected "reserved outpoint not spent by ark txid");;
    mret (MkFinalizeResponse (op_OperationID op) digestHex (op_State op) (op_ArkTxid op)).

Definition vtxoHasSigningArtifacts (op : VtxoOperation) : bool :=
  negb (seqb (op_UnsignedPSBT op) "") || negb (seqb (op_AuthorizedPSBT op) "") || negb (seqb (op_AuthorizedPendingProof op) "") ||
  negb (zlen (op_PendingProofDigest op) =? 0) || negb (seqb (op_CheckpointPSBTs op) "") || negb (seqb (op_CheckpointRequestPSBTs op) "") ||
  negb (seqb (op_ArkTxid op) "").

Definition abortable_input (i : VtxoOperationInput) : bool :=
  (zlen (in_Txid i) =? 32) && (0 <=? in_Vout i) && (0 <? in_ValueSats i) && negb (zlen (in_Script i) =? 0).

Definition requireAbortableVtxoInputs (inputs : list VtxoOperationInput) : result unit :=
  require (negb ((zlen inputs =? 0) || (MaxVtxoOperationInputs <? zlen inputs))) (Rejected "reserved vtxo input state");;
  require (forallb abortable_input inputs) (Rejected "reserved vtxo input state").

(** [mapMissingVtxo] is [errors.Is], not equality. *)
Definition mapMissingVtxo (err : error) : error := if Is err ErrNoRows then ErrNotFound else err.

Definition AbortVtxo (req : VtxoAbortRequest) : M World VtxoAbortResponse :=
  opID ← lift (canonicalVtxoOperationID (bq_OperationID req));
  checkLedgerIntegrity;;
  _ ← purposeSpend (bq_Purpose req);
  '(vaultID, snap, _) ← resolveVault (bq_VaultID req);
  requirePhone (en_PhoneBIP340 snap) (bq_PhoneSignature req) (ComputeVtxoAbortDigest (bq_OperationID req) vaultID (trim_space (bq_Purpose req)));;
  loaded ← try (getOperation opID);
  op ← (match loaded with Ok op => mret op | Err e => fail (mapMissingVtxo e) end);
  check (seqb (op_VaultID op) vaultID) (Rejected "operation does not belong to this vault");;
  check (seqb (op_Purpose op) vtxoPurposeSpend) (Rejected "vtxo purpose");;
  op ← expireReservedVtxo op;
  check (seqb (op_State op) vtxoStateReserved) (Rejected "vtxo operation is not abortable");;
  check (negb (vtxoHasSigningArtifacts op)) (Rejected "vtxo operation is not abortable");;
  inputs ← getOperationInputs (op_OperationID op);
  lift (requireAbortableVtxoInputs inputs);;
  let next := op_set_State vtxoStateAborted op in
  '(_, swapped) ← transition vtxoStateReserved next;
  check swapped changed_concurrently;;
  mret (MkAbortResponse (op_OperationID next) vtxoStateAborted).
End handlers.
