(* ===== verification/SpendSafety.v ===== *)
(** * Spending: what the handlers guarantee together

    The handlers of [SpendService] run interleaved: between two accesses of one of
    them the others move the ledger and the clock.  If each of those moves is a
    step of the ledger system of [Allowance], every move of this handler is one
    too, whatever the resolver answers, so the whole service refines the
    allowance accumulator.  The argument is rely-guarantee: what one handler
    remembers of a row ([evolves]) survives the others' steps. *)

From S2P Require Import Prelude Crypto Codec GoTime Program Vtxo Ledger SignCount Recovery VtxoLedger Allowance Tenant Apperr Json WebAuthn SpendSelect Psbt SpendVerify KeyProvider Trees Service SpendService Effects.
From Stdlib Require Import Strings.Byte Strings.Ascii Strings.String.
From stdpp Require Import base decidable list strings gmap option relations.
From Stdlib Require Import ZArith Lia.
Open Scope string_scope.
Open Scope list_scope.
Open Scope Z_scope.

(** ** What lasts of a row that was read *)

(** While a row is reserved or signed its creation time stands. *)
Definition unsettled (s : string) : Prop := s = vtxoStateReserved \/ s = vtxoStateSigned.

Record evolves (r r' : VtxoOperation) : Prop := {
  ev_vault : op_VaultID r' = op_VaultID r;
  ev_amount : op_AmountSats r' = op_AmountSats r;
  ev_fee : op_FeeSats r' = op_FeeSats r;
  ev_created : unsettled (op_State r') -> op_CreatedAt r' = op_CreatedAt r /\ unsettled (op_State r)
}.

#[export] Instance evolves_refl : Reflexive evolves.
Proof. by constructor. Qed.

#[export] Instance evolves_trans : Transitive evolves.
Proof.
  intros r1 r2 r3 [V1 A1 F1 C1] [V2 A2 F2 C2]. constructor; [congruence..|].
  intros (E2 & U2)%C2. destruct (C1 U2) as [E1 U1]. split; [congruence|done].
Qed.

(** A reservation runs out two minutes after it was made. *)
Definition born (d : Database) : Prop :=
  forall k r, t_vtxo_operation d !! k = Some r -> op_State r = vtxoStateReserved ->
    op_ExpiresAt r <> "" /\
    exists c, parseRFC3339 (op_CreatedAt r) = Some c /\ parseRFC3339 (op_ExpiresAt r) = Some (c + vtxoReserveAuthorizeTimeout).

Lemma aborted_evolves key r r' : SealVtxoOperation (op_set_State vtxoStateAborted r) key = Ok r' -> evolves r r'.
Proof.
  intros (_ & Ev & Es & Ea & Ef & _)%seal_ids. constructor; [done..|]. rewrite Es. by intros [?|?].
Qed.

(** Rows only evolve from one database to the other, none is lost. *)
Definition rows_evolve (d d' : Database) : Prop :=
  forall k r, t_vtxo_operation d !! k = Some r -> exists r', t_vtxo_operation d' !! k = Some r' /\ evolves r r'.

Lemma rows_evolve_same d d' : t_vtxo_operation d' = t_vtxo_operation d -> rows_evolve d d'.
Proof. intros E k r Hk. exists r. by rewrite E. Qed.

Lemma abort_evolves l d v now d1 : db_wf (l_integrityKey l) d -> abortExpiredVtxoLocked l d v now = Ok d1 -> rows_evolve d d1.
Proof.
  intros W H k r Hk. destruct (abortExpired_spec _ _ _ _ _ W H) as (t' & -> & Hs). specialize (Hs k). rewrite Hk in Hs. simpl.
  destruct (expired_at v now r); [|by exists r]. destruct Hs as (r' & Hr & _ & E). exists r'. split; [done|]. by eapply aborted_evolves.
Qed.

Lemma swap_evolves l now from rec d' row rec' : app_update now row rec -> swapped_from l from rec d' row rec' -> rows_evolve (l_db l) d'.
Proof.
  intros (Ha & Hf & Hc & _) [Hrow Hv Hfrom Hval Hs _ Et _] k r Hk. rewrite Et.
  pose proof (seal_ids _ _ _ Hs) as (_ & Ev & Es & Ea & Ef & Ec).
  destruct (decide (k = op_OperationID rec)) as [->|Hne]; [|exists r; by rewrite lookup_insert_ne].
  rewrite Hrow in Hk. injection Hk as <-. exists rec'. rewrite lookup_insert_eq. split; [done|].
  constructor; [congruence..|]. rewrite Es, Ec. intros Hu.
  apply validVtxoTransition_cases in Hval as [[Ef' Et']|[[_ Et']|[[_ Et']|[_ [Et'|Et']]]]]; rewrite Et' in Hu; try by destruct Hu.
  destruct Hc as [->|[Hw _]]; [|by rewrite Hfrom, Ef' in Hw]. split; [done|]. left. congruence.
Qed.

Lemma reserve_evolves l n1 n2 rec inputs cap d1 d' rec' : db_wf (l_integrityKey l) (l_db l) ->
  reserved_from l n1 n2 rec inputs cap d1 d' rec' -> rows_evolve (l_db l) d'.
Proof.
  intros W H k r Hk. destruct (abort_evolves _ _ _ _ _ W (rf_abort _ _ _ _ _ _ _ _ _ H) k r Hk) as (r1 & Hk1 & Hr).
  destruct (reserved_tables _ _ _ _ _ _ _ _ _ H) as [-> _]. exists r1. split; [|done].
  rewrite lookup_insert_ne; [done|]. intros <-. by rewrite (rf_fresh _ _ _ _ _ _ _ _ _ H) in Hk1.
Qed.

Lemma lstep_evolves cap st st' : inv st -> lstep cap st st' -> rows_evolve (l_db st.1) (l_db st'.1).
Proof.
  intros [W _] Hst. destruct Hst as [l now now' Hn|l now env n1 n2 created rec inputs l' r' H1 H2 Hty Hc Ec H
    |l now ok rec cred cnt l' r' Hty Happ H|l now ok from rec l' r' Hty Happ H|l now io l' r' H|A l now env body l' r' Ho H]; simpl in *.
  - by apply rows_evolve_same.
  - apply Reserve_cases in H as [_ [[E _]|(_ & d1 & rec' & H)]]; [rewrite E; by apply rows_evolve_same|]. by eapply reserve_evolves.
  - apply CommitSigned_cases in H as [->|(d & row & rec' & -> & _ & _ & H)]; [by apply rows_evolve_same|].
    eapply swap_evolves; [|exact H]. exact (Happ _ (sw_row _ _ _ _ _ _ H) (sw_from _ _ _ _ _ _ H)).
  - apply Transition_cases in H as [->|(d & row & rec' & -> & _ & H)]; [by apply rows_evolve_same|].
    eapply swap_evolves; [|exact H]. exact (Happ _ (sw_row _ _ _ _ _ _ H) (sw_from _ _ _ _ _ _ H)).
  - apply restart_cases in H as (_ & E & _). by apply rows_evolve_same; rewrite E.
  - destruct (other_cases _ _ _ _ _ Ho H) as (_ & E & _). by apply rows_evolve_same.
Qed.

(** Steps of the service: ledger steps that make reservations run out in time. *)
Definition appstep (cap : string -> Z) (st st' : Ledger * Z) : Prop :=
  lstep cap st st' /\ (born (l_db st.1) -> born (l_db st'.1)).

Lemma lstep_clock cap st st' : lstep cap st st' -> st.2 <= st'.2.
Proof. by destruct 1; simpl. Qed.

(** Everything that lasts along the steps of the others. *)
Lemma appsteps_last cap st st' : rtc (appstep cap) st st' -> inv st -> born (l_db st.1) ->
  inv st' /\ born (l_db st'.1) /\ rows_evolve (l_db st.1) (l_db st'.1) /\ st.2 <= st'.2 /\ rtc (lstep cap) st st'.
Proof.
  induction 1 as [st|st st1 st' [H1 Hb1] _ IH]; intros Hi Hb.
  { split_and!; try done. by apply rows_evolve_same. }
  destruct (IH (proj1 (lstep_simulated _ _ _ Hi H1)) (Hb1 Hb)) as (Hi' & Hb' & Hr & Hc & Hs).
  split_and!; try done; [|pose proof (lstep_clock _ _ _ H1); lia|by eapply rtc_l].
  intros k r Hk. destruct (lstep_evolves _ _ _ Hi H1 k r Hk) as (r1 & Hk1 & E1). destruct (Hr k r1 Hk1) as (r' & Hk' & E').
  exists r'. split; [done|]. by etrans.
Qed.

(** ** Own steps keep reservations dated *)

Lemma born_same d d' : t_vtxo_operation d' = t_vtxo_operation d -> born d -> born d'.
Proof. intros E Hb k r. rewrite E. apply Hb. Qed.

Lemma seal_expiry rec key rec' : SealVtxoOperation rec key = Ok rec' -> op_ExpiresAt rec' = op_ExpiresAt rec.
Proof. by intros (_ & p & _ & ->)%Seal_Ok. Qed.

Lemma born_abort l d v now d1 : db_wf (l_integrityKey l) d -> abortExpiredVtxoLocked l d v now = Ok d1 -> born d -> born d1.
Proof.
  intros W H Hb k r. destruct (abortExpired_spec _ _ _ _ _ W H) as (t' & -> & Hs). simpl. intros Hk Hr. specialize (Hs k).
  destruct (t_vtxo_operation d !! k) as [r0|] eqn:E; [|congruence]. destruct (expired_at v now r0).
  - destruct Hs as (r' & (_ & _ & Es & _)%seal_ids & _ & E'). rewrite Hk in E'. injection E' as <-. by rewrite Hr in Es.
  - rewrite Hk in Hs. injection Hs as ->. by apply (Hb k).
Qed.

Lemma born_swap l from rec d' row rec' : swapped_from l from rec d' row rec' -> born (l_db l) -> born d'.
Proof.
  intros [_ _ _ Hval Hs _ Et _] Hb k r. rewrite Et, lookup_insert_Some. intros [[<- <-]|[_ Hk]]; [|exact (Hb _ _ Hk)].
  pose proof (seal_ids _ _ _ Hs) as (_ & _ & -> & _).
  apply validVtxoTransition_cases in Hval as [[_ ->]|[[_ ->]|[[_ ->]|[_ [->| ->]]]]]; done.
Qed.

Lemma format_later t : time_ok (t + vtxoReserveAuthorizeTimeout) ->
  parseRFC3339 (formatRFC3339 (t + vtxoReserveAuthorizeTimeout)) = Some (unix t * second + vtxoReserveAuthorizeTimeout).
Proof.
  intros H. rewrite parse_format by done. f_equal. unfold unix, vtxoReserveAuthorizeTimeout.
  rewrite Z.div_add by done. lia.
Qed.

Lemma born_reserve l n1 n2 rec inputs cap d1 d' rec' t : db_wf (l_integrityKey l) (l_db l) ->
  reserved_from l n1 n2 rec inputs cap d1 d' rec' -> time_ok t -> time_ok (t + vtxoReserveAuthorizeTimeout) ->
  op_CreatedAt rec = formatRFC3339 t -> op_ExpiresAt rec = formatRFC3339 (t + vtxoReserveAuthorizeTimeout) ->
  born (l_db l) -> born d'.
Proof.
  intros W H Ht Ht2 Ec Ee Hb k r. destruct (reserved_tables _ _ _ _ _ _ _ _ _ H) as [-> _]. rewrite lookup_insert_Some.
  pose proof (rf_seal _ _ _ _ _ _ _ _ _ H) as Hs. pose proof (seal_ids _ _ _ Hs) as (_ & _ & _ & _ & _ & Ec').
  intros [[_ <-]|[_ Hk]] Hr.
  - rewrite (seal_expiry _ _ _ Hs), Ec', Ec, Ee. split; [apply format_not_empty|]. exists (unix t * second).
    split; [by apply parse_format|by apply format_later].
  - eapply (born_abort _ _ _ _ _ W (rf_abort _ _ _ _ _ _ _ _ _ H)); done.
Qed.

(** ** Computations that only move along the system's steps *)

Section safety.
Context `{ErrorText, Btc, !Arkade, !Ark, !ArkLib, FeeEnv}.
Context (s : ServiceConfig) (o : Outside) (cap : string -> Z) (start : Z).

Definition st (w : World) : Ledger * Z := (w_ledger w, w_now w).

(** A request is answered before a reservation it loaded leaves the window. *)
Definition deadline : Z := start + (allowanceWindow - vtxoReserveAuthorizeTimeout).

(** [cap] is the allowance of the verified records. *)
Definition caps (w : World) : Prop := forall id v snap rec,
  resolveSpendVaultRecord (sv_Config s) (sv_IntegrityKey s) (w_published w) (w_tenants w) id = Ok (v, snap, rec) ->
  cap v = periodAllowanceSats (Some rec) None.

Record good (w : World) : Prop := {
  g_inv : inv (st w);
  g_born : born (l_db (w_ledger w));
  g_time : time_ok (w_now w) /\ time_ok (w_now w + vtxoReserveAuthorizeTimeout);
  g_start : start <= w_now w;
  g_caps : caps w
}.

Definition moved (w w' : World) : Prop := rtc (appstep cap) (st w) (st w') /\ good w'.

(** What the other requests, the restarts and the clock do between two accesses. *)
Record rely : Prop := {
  rely_clock : forall n w, w_now w <= w_now (others o n w);
  rely_steps : forall n w, good w -> moved w (others o n w)
}.

(** What is remembered: a row read, up to its state, and a reading of the clock. *)
Inductive fact := Read (op : VtxoOperation) | Past (t : Z).

Record agrees (op row : VtxoOperation) : Prop := {
  ag_vault : op_VaultID row = op_VaultID op;
  ag_amount : op_AmountSats row = op_AmountSats op;
  ag_fee : op_FeeSats row = op_FeeSats op;
  ag_created : unsettled (op_State row) -> op_CreatedAt row = op_CreatedAt op
}.

Definition holds (w : World) (f : fact) : Prop :=
  match f with
  | Read op => exists row, t_vtxo_operation (l_db (w_ledger w)) !! op_OperationID op = Some row /\ agrees op row
  | Past t => t <= w_now w
  end.
Definition knows (L : list fact) (w : World) : Prop := Forall (holds w) L.

Lemma moved_refl w : good w -> moved w w.
Proof. by split. Qed.

Lemma moved_trans w1 w2 w3 : moved w1 w2 -> moved w2 w3 -> moved w1 w3.
Proof. intros [R1 _] [R2 ?]. split; [by etrans|done]. Qed.

Lemma moved_clock w w' : good w -> moved w w' -> w_now w <= w_now w'.
Proof. intros Hg [Hr _]. apply (appsteps_last _ _ _ Hr (g_inv _ Hg) (g_born _ Hg)). Qed.

Lemma agrees_evolves op row row' : agrees op row -> evolves row row' -> agrees op row'.
Proof.
  intros [V1 A1 F1 C1] [V2 A2 F2 C2]. constructor; [congruence..|]. intros (E2 & U2)%C2. rewrite E2. auto.
Qed.

Lemma moved_holds w w' f : good w -> moved w w' -> holds w f -> holds w' f.
Proof.
  intros Hg Hm. destruct f as [op|t]; simpl; [|pose proof (moved_clock _ _ Hg Hm); lia].
  intros (row & Hk & He). destruct (appsteps_last _ _ _ (proj1 Hm) (g_inv _ Hg) (g_born _ Hg)) as (_ & _ & Hrows & _).
  destruct (Hrows _ _ Hk) as (row' & Hk' & He'). exists row'. split; [done|]. by eapply agrees_evolves.
Qed.

Lemma moved_knows L w w' : good w -> moved w w' -> knows L w -> knows L w'.
Proof. intros Hg Hm HL. eapply list.Forall_impl; [exact HL|]. intros f. by apply moved_holds. Qed.

(** From a world where [L] was read, [m] only makes steps of the system, unless
    it ends past the deadline; its answer satisfies [φ] and tells the rows [G]. *)
Definition safe {A} (L : list fact) (m : M World A) (φ : A -> Prop) (G : A -> list fact) : Prop :=
  forall w r w', m w = Some (r, w') -> good w -> knows L w -> w_now w' <= deadline ->
    moved w w' /\ match r with Ok a => φ a /\ knows (G a) w' | Err _ => True end.

Definition anything {A} (_ : A) : Prop := True.
Definition nothing {A} (_ : A) : list fact := [].

(** The clock never goes back. *)
Definition later (w w' : World) : Prop := w_now w <= w_now w'.

#[local] Instance later_refl : Reflexive later.
Proof. intros w. unfold later. lia. Qed.
#[local] Instance later_trans : Transitive later.
Proof. intros w1 w2 w3. unfold later. lia. Qed.

Lemma safe_bind {A B} L (m : M World A) (k : A -> M World B) φ G φ' G' :
  safe L m φ G -> (forall a, keeps later (k a)) -> (forall a, φ a -> safe (G a ++ L) (k a) φ' G') -> safe L (m ≫= k) φ' G'.
Proof.
  intros Hm Hc Hk w r w'. unfold mbind, M_bind. destruct (m w) as [[[a|e] w1]|] eqn:E; [| |done].
  - intros E' Hg HL Hd. assert (Hd1 : w_now w1 <= deadline) by (specialize (Hc _ _ _ _ E'); unfold later in Hc; lia).
    destruct (Hm _ _ _ E Hg HL Hd1) as [Hmv [Hφ HG]].
    assert (HL1 : knows (G a ++ L) w1) by (apply list.Forall_app; split; [done|by eapply moved_knows]).
    destruct (Hk a Hφ _ _ _ E' (proj2 Hmv) HL1 Hd) as [Hmv' Hr]. split; [by eapply moved_trans|done].
  - intros [= <- <-] Hg HL Hd. by destruct (Hm _ _ _ E Hg HL Hd).
Qed.

Lemma safe_lift {A} L (r : result A) : safe L (lift r) (fun a => r = Ok a) nothing.
Proof. intros w r' w' [= <- <-] Hg _ _. split; [by apply moved_refl|]. destruct r; [|done]. split; [done|constructor]. Qed.

Lemma safe_ret {A} L (a : A) : safe L (mret a) anything nothing.
Proof. intros w r' w' [= <- <-] Hg _ _. split; [by apply moved_refl|]. split; [done|constructor]. Qed.

Lemma safe_check L b e : safe L (check b e) (fun _ => b = true) nothing.
Proof. intros w r w' [= <- <-] Hg _ _. split; [by apply moved_refl|]. destruct b; [|done]. split; [done|constructor]. Qed.

Lemma safe_fail {A} L e φ G : safe L (fail (A := A) e) φ G.
Proof. intros w r w' [= <- <-] Hg _ _. split; [by apply moved_refl|done]. Qed.

Lemma safe_try {A} L (m : M World A) φ G : safe L m φ G ->
  safe L (try m) (fun r => match r with Ok a => φ a | Err _ => True end) (fun r => match r with Ok a => G a | Err _ => [] end).
Proof.
  intros Hm w r w'. unfold try. destruct (m w) as [[r1 w1]|] eqn:E; [|done]. intros [= <- <-] Hg HL Hd.
  destruct (Hm _ _ _ E Hg HL Hd) as [Hmv Hr]. split; [done|]. destruct r1; [done|]. split; [done|constructor].
Qed.

Lemma safe_weaken {A} L L' (m : M World A) φ φ' G G' : safe L m φ G -> L ⊆ L' -> (forall a, φ a -> φ' a) -> (forall a, G' a ⊆ G a) ->
  safe L' m φ' G'.
Proof.
  intros Hm HL Hφ HG w r w' E Hg HK Hd. unfold knows in *. destruct (Hm _ _ _ E Hg) as [Hmv Hr]; [|done|].
  { unfold knows. rewrite list.Forall_forall in HK |- *. auto. }
  split; [done|]. destruct r; [|done]. destruct Hr as [? Hr]. split; [auto|]. unfold knows in *. rewrite list.Forall_forall in Hr |- *.
  intros x Hx. apply Hr. by apply HG.
Qed.

(** ** Accesses *)

Context (Hrely : rely).
#[local] Set Default Proof Using "Type Hrely".

Lemma good_next w : good w -> good (next_step w).
Proof. by intros [? ? ? ? ?]. Qed.

Lemma others_moved w : good w -> moved w (next_step (others o (w_step w) w)).
Proof. intros Hg. destruct (rely_steps Hrely (w_step w) w Hg) as [Hr Hg']. split; [exact Hr|by apply good_next]. Qed.

(** An access: [f] is judged at a good world. *)
Lemma safe_access {A} L (f : nat -> World -> result A * World) φ G :
  (forall n w r w', good w -> knows L w -> f n w = (r, w') -> w_now w' <= deadline ->
     moved w w' /\ match r with Ok a => φ a /\ knows (G a) w' | Err _ => True end) ->
  safe L (access o f) φ G.
Proof.
  intros Hf w r w'. unfold access. intros [= E] Hg HL Hd. pose proof (others_moved w Hg) as Hm.
  destruct (Hf _ _ _ _ (proj2 Hm) (moved_knows _ _ _ Hg Hm HL) E Hd) as [Hm' Hr]. split; [by eapply moved_trans|done].
Qed.

Lemma safe_read {A} L (f : World -> result A) φ G :
  (forall w a, good w -> knows L w -> w_now w <= deadline -> f w = Ok a -> φ a /\ knows (G a) w) -> safe L (read o f) φ G.
Proof.
  intros Hf. apply safe_access. intros n w r w' Hg HL [= <- <-] Hd. split; [by apply moved_refl|].
  destruct (f w) eqn:E; [|done]. by apply Hf.
Qed.

Lemma safe_outside {A} L (f : nat -> result A) : safe L (outside o f) anything nothing.
Proof.
  apply safe_access. intros n w r w' Hg HL [= <- <-] Hd. split; [by apply moved_refl|]. destruct (f n); [|done]. split; [done|constructor].
Qed.

(** An access that leaves ledger, clock and enrollments alone. *)
Definition aside (w w' : World) : Prop :=
  w_ledger w' = w_ledger w /\ w_now w' = w_now w /\ w_published w' = w_published w /\ w_tenants w' = w_tenants w.

Lemma aside_moved w w' : good w -> aside w w' -> moved w w'.
Proof using Type.
  intros [Hi Hb Ht Hs Hc] (El & En & Ep & Et). unfold moved, st. rewrite El, En. split; [done|].
  constructor; unfold st, caps; rewrite ?El, ?En, ?Ep, ?Et; done.
Qed.

Lemma safe_aside {A} L (f : nat -> World -> result A * World) :
  (forall n w, aside w (f n w).2) -> safe L (access o f) anything nothing.
Proof.
  intros Hf. apply safe_access. intros n w r w' Hg HL E Hd. specialize (Hf n w). rewrite E in Hf.
  split; [by apply aside_moved|]. destruct r; [|done]. split; [done|constructor].
Qed.

Lemma safe_on_fee {A} L (m : M FeeState A) : safe L (on_fee o m) anything nothing.
Proof.
  intros w r w'. unfold on_fee. destruct (m _) as [[r1 f1]|]; [|done]. intros [= <- <-] Hg HL Hd.
  split; [eapply moved_trans; [by apply others_moved|]; apply aside_moved; [by apply others_moved|done]|].
  destruct r1; [|done]. split; [done|constructor].
Qed.

(** A ledger call that is a step of the system. *)
Lemma safe_ledger {A} L (f : nat -> Z -> Ledger -> Ledger * result A) φ G :
  (forall n w l r, good w -> knows L w -> w_now w <= deadline -> f n (w_now w) (w_ledger w) = (l, r) ->
     appstep cap (st w) (l, w_now w) /\ match r with Ok a => φ a /\ knows (G a) (set_ledger l w) | Err _ => True end) ->
  safe L (ledger_call o f) φ G.
Proof.
  intros Hf. apply safe_access. intros n w r w' Hg HL. destruct (f n (w_now w) (w_ledger w)) as [l r1] eqn:E. intros [= <- <-] Hd.
  destruct (Hf n w l r1 Hg HL Hd E) as [[Hs Hb] Hr]. split; [|done]. split; [by apply rtc_once|].
  destruct Hg as [Hi Hbn Ht Hst Hc]. constructor; try done; [|by apply Hb].
  exact (proj1 (lstep_simulated _ _ _ Hi Hs)).
Qed.

(** ** Clock monotonicity of the accesses *)

Lemma later_access {A} (f : nat -> World -> result A * World) : (forall n w, w_now (f n w).2 = w_now w) -> keeps later (access o f).
Proof.
  intros Hf w r w'. unfold access. intros [= E]. pose proof (rely_clock Hrely (w_step w) w) as Hc.
  specialize (Hf (w_step w) (next_step (others o (w_step w) w))). rewrite E in Hf. unfold later. simpl in *. lia.
Qed.
Lemma later_read {A} (f : World -> result A) : keeps later (read o f).
Proof. by apply later_access. Qed.
Lemma later_outside {A} (f : nat -> result A) : keeps later (outside o f).
Proof. by apply later_access. Qed.
Lemma later_ledger {A} (f : nat -> Z -> Ledger -> Ledger * result A) : keeps later (ledger_call o f).
Proof. apply later_access. intros n w. by destruct (f n _ _). Qed.
Lemma later_on_fee {A} (m : M FeeState A) : keeps later (on_fee o m).
Proof.
  intros w r w'. unfold on_fee. destruct (m _) as [[r1 f1]|]; [|done]. intros [= <- <-].
  exact (rely_clock Hrely (w_step w) w).
Qed.
Lemma later_defer {A} (f : World -> World) (m : M World A) : (forall w, w_now (f w) = w_now w) -> keeps later m -> keeps later (defer f m).
Proof. intros Hf Hm w r w'. unfold defer. destruct (m w) as [[r1 w1]|] eqn:E; [|done]. intros [= <- <-]. unfold later. rewrite Hf. by eapply Hm. Qed.


(** ** Rows *)

#[local] Set Default Proof Using "Type".

Lemma load_row l d id op : loadVtxoOperation l d id = Ok op -> t_vtxo_operation d !! id = Some op.
Proof.
  unfold loadVtxoOperation. intros (key & _ & Hl)%bind_Ok. destruct (t_vtxo_operation d !! id) as [row|]; [|done].
  apply bind_Ok in Hl as (rec & [-> _]%scanVtxoOperation_Ok & ([] & _ & [= ->])%bind_Ok). done.
Qed.

(** What [born] says of one row. *)
Definition dated_row (op : VtxoOperation) : Prop := op_State op = vtxoStateReserved ->
  op_ExpiresAt op <> "" /\
  exists c, parseRFC3339 (op_CreatedAt op) = Some c /\ parseRFC3339 (op_ExpiresAt op) = Some (c + vtxoReserveAuthorizeTimeout).

Lemma stored_row w id op : good w -> t_vtxo_operation (l_db (w_ledger w)) !! id = Some op ->
  op_OperationID op = id /\ op_well_typed op /\ dated_row op /\ holds w (Read op).
Proof.
  intros Hg Hk. pose proof (proj1 (proj1 (g_inv _ Hg)) _ _ Hk) as [Hid Hty _ _ _]. split_and!; [done..|exact (g_born _ Hg _ _ Hk)|].
  exists op. rewrite Hid. split; [done|by constructor].
Qed.

(** The row a compare-and-swap answers with is the stored one. *)
Definition answers_stored (d : Database) (cur : VtxoOperation) : Prop :=
  t_vtxo_operation d !! op_OperationID cur = Some cur /\ op_well_typed cur.

Lemma swapTx_answer l ok body l' cur sw : swapTx l ok body = (l', Ok (cur, sw)) ->
  (l' = l /\ body = Ok (NotSwapped cur)) \/ exists d, l' = set_db d l /\ body = Ok (Swapped d cur).
Proof. unfold swapTx. destruct body as [[d r|c]|e]; [destruct ok| |]; intros [= <- <- <-]; eauto. Qed.

Lemma loaded_stored l id cur : db_wf (l_integrityKey l) (l_db l) -> loadVtxoOperation l (l_db l) id = Ok cur -> answers_stored (l_db l) cur.
Proof. intros W Hk%load_row. pose proof (proj1 W _ _ Hk) as [Hid Hty _ _ _]. split; [by rewrite Hid|done]. Qed.

Lemma update_stored d from rec d' n : updateVtxoOperation d from rec = Ok (d', n) -> n = 1 -> t_vtxo_operation d' !! op_OperationID rec = Some rec.
Proof.
  unfold updateVtxoOperation. destruct (_ !! _) as [row|]; [|by intros [= <- <-]].
  destruct (_ && _); [|by intros [= <- <-]]. intros ([] & _ & [= <- <-])%bind_Ok _. apply lookup_insert_eq.
Qed.

Lemma update_none d from rec d' n : updateVtxoOperation d from rec = Ok (d', n) -> n <> 1 -> d' = d.
Proof.
  unfold updateVtxoOperation. destruct (_ !! _) as [row|]; [|by intros [= <- <-]].
  destruct (_ && _); [|by intros [= <- <-]]. by intros ([] & _ & [= <- <-])%bind_Ok.
Qed.

Lemma transition_answer l ok from rec l' cur sw : db_wf (l_integrityKey l) (l_db l) -> op_well_typed rec ->
  TransitionVtxoOperation l ok from rec = (l', Ok (cur, sw)) -> answers_stored (l_db l') cur.
Proof.
  intros W Hty. unfold TransitionVtxoOperation. intros [[-> E]|(d & -> & E)]%swapTx_answer; unfold transitionBody in E;
    apply bind_Ok in E as ([] & _ & ([] & _ & (key & _ & (rec' & Hs & ([d' n] & Hu & E)%bind_Ok)%bind_Ok)%bind_Ok)%bind_Ok);
    destruct (Z.eqb_spec n 1); try done.
  - apply bind_Ok in E as (c & Hl & [= <-]). by eapply loaded_stored.
  - injection E as -> ->. split; [by eapply update_stored|by eapply seal_op_typed].
  - by apply bind_Ok in E as (c & Hl & [=]).
Qed.

Lemma commit_answer l ok now rec cred cnt l' cur sw : db_wf (l_integrityKey l) (l_db l) -> op_well_typed rec ->
  CommitSignedVtxoOperation l ok now rec cred cnt = (l', Ok (cur, sw)) -> answers_stored (l_db l') cur.
Proof.
  intros W Hty. unfold CommitSignedVtxoOperation. intros [[-> E]|(d & -> & E)]%swapTx_answer; unfold signedBody in E;
    apply bind_Ok in E as ([] & _ & (key & _ & (rec' & Hs & ([d' n] & Hu & E)%bind_Ok)%bind_Ok)%bind_Ok);
    destruct (Z.eqb_spec n 1) as [En|En]; simpl in E.
  - by apply bind_Ok in E as (c & Hl & [=]).
  - apply bind_Ok in E as (c & Hl & ([] & _ & [= <-])%bind_Ok).
    rewrite (update_none _ _ _ _ _ Hu En) in Hl.
    by eapply loaded_stored.
  - apply bind_Ok in E as (d2 & Ha%advance_rest & [= -> ->]). rewrite Ha. split; simpl; [by eapply update_stored|by eapply seal_op_typed].
  - apply bind_Ok in E as (c & Hl & ([] & _ & [=])%bind_Ok).
Qed.

(** ** The ledger calls of the handlers *)

#[local] Set Default Proof Using "Type Hrely".

Lemma known L f : f ∈ L -> forall w, knows L w -> holds w f.
Proof using Type. intros Hf w HL. unfold knows in HL. rewrite list.Forall_forall in HL. auto. Qed.

Lemma knows_one w f : holds w f -> knows [f] w.
Proof using Type. intros Hf. by constructor. Qed.

Lemma safe_getOperation L id :
  safe L (getOperation o id) (fun op => op_well_typed op /\ dated_row op) (fun op => [Read op]).
Proof.
  apply safe_read. intros w op Hg _ _. unfold GetVtxoOperation. intros ([] & _ & Hk%load_row)%bind_Ok.
  destruct (stored_row _ _ _ Hg Hk) as (_ & ? & ? & Hh). split; [done|]. by apply knows_one.
Qed.

Lemma safe_vtxoNow L :
  safe L (vtxoNow o) (fun t => start <= t <= deadline /\ time_ok t /\ time_ok (t + vtxoReserveAuthorizeTimeout)) (fun t => [Past t]).
Proof.
  apply safe_read. intros w t Hg _ Hd [= <-]. destruct (g_time _ Hg). pose proof (g_start _ Hg).
  split; [split_and!; done|]. apply knows_one. simpl. lia.
Qed.

(** A compare-and-swap whose [rec] keeps the system's promises. *)
Lemma safe_swap L from rec : op_well_typed rec ->
  (forall w, good w -> knows L w -> w_now w <= deadline -> forall row,
     t_vtxo_operation (l_db (w_ledger w)) !! op_OperationID rec = Some row -> op_State row = from -> app_update (w_now w) row rec) ->
  safe L (transition o from rec) (fun p => op_well_typed p.1) (fun p => [Read p.1]).
Proof.
  intros Hty Happ. apply safe_ledger. intros n w l r Hg HL Hd E. split.
  - split; [eapply l_transition; [exact Hty| |exact E]; by apply Happ|]. simpl.
    destruct (Transition_cases _ _ _ _ _ _ E) as [->|(d & row & rec' & -> & _ & Hs)]; [done|]. by eapply born_swap.
  - destruct r as [[cur sw]|]; [|done].
    destruct (transition_answer _ _ _ _ _ _ _ (proj1 (g_inv _ Hg)) Hty E) as [Hk Hc]. split; [done|]. apply knows_one.
    exists cur. split; [done|by constructor].
Qed.

(** Leaving a state before settlement. *)
Lemma safe_open_swap L from rec : op_well_typed rec -> unsettled from -> op_State rec <> vtxoStateSigned -> Read rec ∈ L ->
  safe L (transition o from rec) (fun p => op_well_typed p.1) (fun p => [Read p.1]).
Proof.
  intros Hty Hf Hns Hin. apply safe_swap; [done|]. intros w _ HL _ row Hk <-.
  destruct (known _ _ Hin w HL) as (row' & Hk' & [Hv Ha Hfe Hc]). rewrite Hk in Hk'. injection Hk' as <-.
  unfold app_update. split_and!; [done..|left; symmetry; by apply Hc|done].
Qed.

(** Settling, at a reading of the clock. *)
Lemma safe_settle_swap L op state t : op_well_typed op -> time_ok t -> state <> vtxoStateSigned -> Read op ∈ L -> Past t ∈ L ->
  safe L (transition o vtxoStateSubmitted (op_set_CreatedAt (formatRFC3339 t) (op_set_State state op)))
    (fun p => op_well_typed p.1) (fun p => [Read p.1]).
Proof.
  intros Hty Ht Hns Hin Hp. apply safe_swap; [done|]. intros w _ HL _ row Hk Hs. simpl in Hk.
  destruct (known _ _ Hin w HL) as (row' & Hk' & [Hv Ha Hfe Hc]). rewrite Hk in Hk'. injection Hk' as <-.
  unfold app_update. simpl. split_and!; [done..| |done]. right. rewrite Hs. split; [done|]. exists t.
  split; [exact (known _ _ Hp w HL)|done].
Qed.

Lemma safe_commit L row cred cnt c : op_well_typed row -> op_State row = vtxoStateSigned -> Read row ∈ L ->
  parseRFC3339 (op_CreatedAt row) = Some c -> deadline <= c + allowanceWindow ->
  safe L (ledger_call o (fun n now l => CommitSignedVtxoOperation l (env_commit_ok (env_io o n)) now row cred cnt))
    (fun p => op_well_typed p.1) (fun p => [Read p.1]).
Proof.
  intros Hty Hst Hin Hc Hdl. apply safe_ledger. intros n w l r Hg HL Hd E. split.
  - split; [eapply l_signed; [exact Hty| |exact E]|]; simpl.
    + intros row0 Hk Hr. destruct (known _ _ Hin w HL) as (row' & Hk' & [Hv Ha Hfe Hcr]). rewrite Hk in Hk'. injection Hk' as <-.
      specialize (Hcr (or_introl Hr)). unfold app_update. split_and!; [done..|by left|]. intros _. exists c. rewrite Hcr. split; [done|lia].
    + destruct (CommitSigned_cases _ _ _ _ _ _ _ _ E) as [->|(d & row0 & rec' & -> & _ & _ & Hs)]; [done|]. by eapply born_swap.
  - destruct r as [[cur sw]|]; [|done].
    destruct (commit_answer _ _ _ _ _ _ _ _ _ (proj1 (g_inv _ Hg)) Hty E) as [Hk Hcu]. split; [done|]. apply knows_one.
    exists cur. split; [done|by constructor].
Qed.

Lemma safe_reserve L rec inputs t : op_well_typed rec -> time_ok t -> time_ok (t + vtxoReserveAuthorizeTimeout) ->
  op_CreatedAt rec = formatRFC3339 t -> op_ExpiresAt rec = formatRFC3339 (t + vtxoReserveAuthorizeTimeout) ->
  safe L (ledger_call o (fun n now l => ReserveVtxoOperation l (env_io o n) now now rec inputs (cap (op_VaultID rec)))) anything nothing.
Proof.
  intros Hty Ht Ht2 Ec Ee. apply safe_ledger. intros n w l r Hg HL Hd E. split; [|destruct r; [split; [done|constructor]|done]].
  split; [eapply (l_reserve cap _ _ _ _ _ t); [..|exact E]; done || simpl; lia|]. simpl. intros Hb.
  destruct (Reserve_cases _ _ _ _ _ _ _ _ _ E) as [_ [[-> _]|(_ & d1 & rec' & Hr)]]; [done|].
  exact (born_reserve _ _ _ _ _ _ _ _ _ t (proj1 (g_inv _ Hg)) Hr Ht Ht2 Ec Ee Hb).
Qed.

Lemma safe_resolveVault L id : safe L (resolveVault s o id) (fun p => cap p.1.1 = periodAllowanceSats (Some p.2) None) nothing.
Proof. apply safe_read. intros w [[v snap] rec] Hg _ _ E. split; [exact (g_caps _ Hg _ _ _ _ E)|constructor]. Qed.

(** ** Composition *)

Lemma safe_drop {A} L (m : M World A) φ G : safe L m φ G -> safe L m anything nothing.
Proof using Type. intros Hm. eapply safe_weaken; [exact Hm|done|done|]. intros a f Hf. by apply not_elem_of_nil in Hf. Qed.

Lemma safe_skip {A} L (f : World -> result A) : safe L (read o f) anything nothing.
Proof. apply safe_read. intros w a _ _ _ _. split; [done|constructor]. Qed.

Lemma safe_defer {A} L (f : World -> World) (m : M World A) : (forall w, aside w (f w)) -> safe L m anything nothing ->
  safe L (defer f m) anything nothing.
Proof using Type.
  intros Hf Hm w r w'. unfold defer. destruct (m w) as [[r1 w1]|] eqn:E; [|done]. intros [= <- <-] Hg HL Hd.
  destruct (Hf w1) as (_ & En & _). rewrite En in Hd. destruct (Hm _ _ _ E Hg HL Hd) as [Hmv _].
  split; [eapply moved_trans; [exact Hmv|]; apply aside_moved; [exact (proj2 Hmv)|apply Hf]|].
  destruct r1; [split; [done|constructor]|done].
Qed.

#[local] Hint Resolve later_read later_outside later_ledger later_on_fee : keeps.

Lemma later_getOperation id : keeps later (getOperation o id).
Proof. unfold getOperation. keeps. Qed.
Lemma later_getInputs id : keeps later (getOperationInputs o id).
Proof. unfold getOperationInputs. keeps. Qed.
Lemma later_transition from rec : keeps later (transition o from rec).
Proof. unfold transition. keeps. Qed.
Lemma later_now : keeps later (vtxoNow o).
Proof. unfold vtxoNow. keeps. Qed.
Lemma later_integrity : keeps later (checkLedgerIntegrity s o).
Proof. unfold checkLedgerIntegrity. keeps. Qed.
Lemma later_resolve id : keeps later (resolveVault s o id).
Proof. unfold resolveVault. keeps. Qed.
Lemma later_tree msg id snap : keeps later (buildTree s o msg id snap).
Proof. unfold buildTree. keeps. Qed.
Lemma later_fees op : keeps later (requireCurrentVtxoFeePolicy o op).
Proof. unfold requireCurrentVtxoFeePolicy. keeps. Qed.
Lemma later_exit : keeps later (requireVaultPolicyV1Exit s).
Proof. unfold requireVaultPolicyV1Exit. keeps. Qed.
Lemma later_resolver : keeps later (requireArkResolver s).
Proof. unfold requireArkResolver. keeps. Qed.
Lemma later_purpose raw : keeps later (purposeSpend raw).
Proof. unfold purposeSpend. keeps. Qed.
Lemma later_phone p sig d : keeps later (requirePhone p sig d).
Proof. unfold requirePhone. keeps. Qed.
Lemma later_found {A} (r : result A) : keeps later (foundOr r).
Proof. unfold foundOr. keeps. Qed.
#[local] Hint Resolve later_getOperation later_getInputs later_transition later_now later_integrity later_resolve later_tree later_fees
  later_exit later_resolver later_purpose later_phone later_found : keeps.

Create HintDb safe.

Ltac safe_prim :=
  first [ apply safe_getOperation | apply safe_vtxoNow | apply safe_resolveVault | solve [eauto with safe nocore] | apply safe_check | apply safe_lift
        | apply safe_outside | apply safe_on_fee | apply safe_skip | apply safe_ret
        | eapply safe_try; safe_prim ].

(** One statement of a handler: its first call, then the rest. *)
Ltac safe_step :=
  lazymatch goal with
  | |- safe _ (mbind _ _) _ _ => eapply safe_bind; [safe_prim | intros; keeps | intros ? ?; cbv beta iota in *; simpl app]
  | |- safe _ (if ?b then _ else _) _ _ => destruct b eqn:?
  | |- safe _ (fail _) _ _ => apply safe_fail
  | |- safe _ (let '(_, _) := ?x in _) _ _ => destruct x
  | |- safe _ (match ?x with _ => _ end) _ _ => destruct x eqn:?
  | |- safe _ _ anything nothing => eapply safe_drop; safe_prim
  end.
Ltac safe := repeat (intros; safe_step).
Tactic Notation "next" simple_intropattern(x) simple_intropattern(Hx) :=
  eapply safe_bind; [safe_prim | intros; keeps | intros x Hx; cbv beta iota in *; simpl app].

Lemma safe_purpose L raw : safe L (purposeSpend raw) anything nothing.
Proof. unfold purposeSpend. safe. Qed.
Lemma safe_phone L p sig d : safe L (requirePhone p sig d) anything nothing.
Proof. unfold requirePhone. safe. Qed.
Lemma safe_fees L op : safe L (requireCurrentVtxoFeePolicy o op) anything nothing.
Proof. unfold requireCurrentVtxoFeePolicy. safe. Qed.
Lemma safe_exit L : safe L (requireVaultPolicyV1Exit s) anything nothing.
Proof. unfold requireVaultPolicyV1Exit. safe. Qed.
Lemma safe_resolver L : safe L (requireArkResolver s) anything nothing.
Proof. unfold requireArkResolver. safe. Qed.
Lemma safe_found {A} L (r : result A) : safe L (foundOr r) (fun a => r = Ok a) nothing.
Proof using Type. destruct r; [apply (safe_lift L (Ok a))|apply safe_fail]. Qed.
#[local] Hint Resolve safe_purpose safe_phone safe_fees safe_exit safe_resolver safe_found : safe.

(** Facts about a row whose state was replaced. *)
Lemma knows_restate L op state : Read op ∈ L -> forall w, knows L w -> knows (Read (op_set_State state op) :: L) w.
Proof using Type. intros Hin w HL. constructor; [|done]. destruct (known _ _ Hin w HL) as (row & Hk & [? ? ? ?]). by exists row. Qed.

Lemma safe_like {A} L op row (m : M World A) φ G : Read op ∈ L -> (forall w, holds w (Read op) -> holds w (Read row)) ->
  safe (Read row :: L) m φ G -> safe L m φ G.
Proof using Type. intros Hin Hrow Hm w r w' E Hg HL Hd. apply Hm; try done. constructor; [|done]. by apply Hrow, (known L). Qed.

Lemma safe_restate {A} L op state (m : M World A) φ G : Read op ∈ L -> safe (Read (op_set_State state op) :: L) m φ G -> safe L m φ G.
Proof using Type. intros Hin Hm w r w' E Hg HL Hd. apply Hm; try done. by apply knows_restate. Qed.

Lemma safe_return {A} L (a : A) φ G : φ a -> G a ⊆ L -> safe L (mret a) φ G.
Proof using Type.
  intros Hφ HG w r w' [= <- <-] Hg HL _. split; [by apply moved_refl|]. split; [done|]. unfold knows in *.
  rewrite list.Forall_forall in HL |- *. intros f Hf. by apply HL, HG.
Qed.

(** ** The parts of the handlers *)

Lemma safe_expire L op : op_well_typed op -> Read op ∈ L ->
  safe L (expireReservedVtxo o op) op_well_typed (fun op' => [Read op']).
Proof.
  intros Hty Hin. unfold expireReservedVtxo. destruct (_ || _); [apply safe_return; [done|set_solver]|].
  destruct (parseRFC3339 _); [|apply safe_fail]. safe_step. destruct (_ <? _); [apply safe_return; [done|set_solver]|].
  apply (safe_restate _ op vtxoStateAborted); [set_solver|].
  eapply safe_bind; [apply safe_open_swap; [done|by left|done|set_solver]|intros; keeps|].
  intros [current []] Hc; simpl; apply safe_return; [done|set_solver|done|set_solver].
Qed.

Lemma later_expire op : keeps later (expireReservedVtxo o op).
Proof. unfold expireReservedVtxo. keeps. Qed.
#[local] Hint Resolve later_expire : keeps.

Lemma safe_replay L op vaultID purpose amount dest tree : op_well_typed op -> Read op ∈ L ->
  safe L (replayVtxoReservation o op vaultID purpose amount dest tree) anything nothing.
Proof.
  intros Hty Hin. unfold replayVtxoReservation. do 2 safe_step.
  eapply safe_bind; [apply safe_expire; [done|set_solver]|intros; keeps|intros]. safe.
Qed.

Lemma later_replay op vaultID purpose amount dest tree : keeps later (replayVtxoReservation o op vaultID purpose amount dest tree).
Proof. unfold replayVtxoReservation. keeps. Qed.
#[local] Hint Resolve later_replay : keeps.

(** A row that may still be signed when the request ends. *)
Definition in_time (op : VtxoOperation) : Prop := op_State op = vtxoStateReserved ->
  exists c, parseRFC3339 (op_CreatedAt op) = Some c /\ deadline <= c + allowanceWindow.

Lemma safe_loadLive L vaultID id purpose :
  safe L (loadLiveVtxo o vaultID id purpose) (fun p => op_well_typed p.1 /\ in_time p.1) (fun p => [Read p.1]).
Proof.
  unfold loadLiveVtxo. safe_step. eapply safe_bind; [eapply safe_try, safe_getOperation|intros; keeps|].
  intros [rec|e] Hrec; [|eapply safe_bind; [apply safe_found|intros; keeps|intros; done]].
  eapply safe_bind; [apply safe_found|intros; keeps|]. intros ? [= <-]. destruct Hrec as [Hty Hdt]. simpl app. do 2 safe_step.
  eapply (safe_bind _ _ _ (fun _ => in_time rec) nothing).
  - destruct (seqb (op_ExpiresAt rec) "") eqn:Ee.
    { apply safe_return; [|set_solver]. intros [Hne _]%Hdt. by apply seqb_true in Ee. }
    destruct (parseRFC3339 (op_ExpiresAt rec)) as [exp|] eqn:Ex; [|apply safe_fail].
    destruct (seqb (op_State rec) vtxoStateReserved) eqn:Es.
    2:{ apply safe_return; [|set_solver]. intros E%seqb_true. by rewrite E in Es. }
    apply seqb_true in Es. destruct (Hdt Es) as (_ & c & Hc & Hx). eapply safe_bind; [apply safe_vtxoNow|intros; keeps|].
    intros now [Hn _]. destruct (Z.ltb_spec now exp).
    + apply safe_return; [|set_solver]. intros _. exists c. split; [done|]. unfold deadline. rewrite Ex in Hx. injection Hx. lia.
    + apply (safe_restate _ rec vtxoStateAborted); [set_solver|].
      eapply safe_bind; [eapply safe_try, safe_open_swap; [done|by left|done|set_solver]|intros; keeps|intros; apply safe_fail].
  - intros; keeps.
  - intros [] Hin. simpl app. safe_step. apply safe_return; [done|set_solver].
Qed.

Lemma later_loadLive vaultID id purpose : keeps later (loadLiveVtxo o vaultID id purpose).
Proof. unfold loadLiveVtxo. keeps. Qed.
#[local] Hint Resolve later_loadLive : keeps.
#[local] Hint Resolve safe_loadLive : safe.

Lemma safe_settle L op state : op_well_typed op -> state <> vtxoStateSigned -> Read op ∈ L -> safe L (settle o op state) anything nothing.
Proof.
  intros Hty Hst Hin. unfold settle. eapply safe_bind; [apply safe_vtxoNow|intros; keeps|]. intros t (_ & Ht & _). simpl app.
  eapply safe_bind; [apply safe_settle_swap; [done|done|done|set_solver|set_solver]|intros; keeps|]. intros [cur sw] _. safe.
Qed.

Lemma later_settle op state : keeps later (settle o op state).
Proof. unfold settle. keeps. Qed.

Lemma safe_mark L op : op_well_typed op -> Read op ∈ L ->
  safe L (markSubmitted o op) (fun r => match r with Some op => op_well_typed op | None => True end)
    (fun r => match r with Some op => [Read op] | None => [] end).
Proof.
  intros Hty Hin. unfold markSubmitted. destruct (negb _); [apply safe_return; [done|set_solver]|].
  apply (safe_restate _ op vtxoStateSubmitted); [done|].
  eapply safe_bind; [apply safe_open_swap; [done|by right|done|set_solver]|intros; keeps|]. intros [cur sw] Hc. simpl.
  destruct sw; [apply safe_return; [done|set_solver]|]. destruct (_ || _); [apply safe_return; [done|set_solver]|].
  safe_step. apply safe_return; [done|set_solver].
Qed.

Lemma later_mark op : keeps later (markSubmitted o op).
Proof. unfold markSubmitted. keeps. Qed.
#[local] Hint Resolve later_settle later_mark : keeps.

Lemma safe_promote L op : op_well_typed op -> Read op ∈ L -> safe L (promoteSubmittedVtxo o op) anything nothing.
Proof.
  intros Hty Hin. unfold promoteSubmittedVtxo. destruct (negb _); [apply safe_ret|]. safe_step.
  destruct a as [|first rest]; [apply safe_fail|]. do 3 safe_step. destruct a1 eqn:Ea; try apply safe_ret.
  all: eapply safe_bind; [apply safe_mark; [done|set_solver]|intros; keeps|].
  all: intros [op'|] Hop; [|apply safe_ret]; try apply safe_fail; simpl app; (apply safe_settle; [done|done|set_solver]).
Qed.

Lemma later_promote op : keeps later (promoteSubmittedVtxo o op).
Proof. unfold promoteSubmittedVtxo. keeps. Qed.
#[local] Hint Resolve later_promote : keeps.

(** ** The handlers *)

Lemma safe_verify L vaultID digest req sig : safe L (verifyVtxoAuthorization s o vaultID digest req sig) anything nothing.
Proof.
  unfold verifyVtxoAuthorization, acquireVerification.
  eapply safe_bind; [|intros; apply later_defer; [done|keeps]|intros; apply safe_defer; [done|apply safe_skip]].
  eapply safe_bind; [apply safe_outside|intros; apply later_access; intros n w; by destruct (_ <? _)|].
  intros. apply safe_aside. intros n w. by destruct (_ <? _).
Qed.

Lemma later_verify vaultID digest req sig : keeps later (verifyVtxoAuthorization s o vaultID digest req sig).
Proof.
  unfold verifyVtxoAuthorization, acquireVerification. apply keeps_bind; [apply _|apply _| |intros; apply later_defer; [done|keeps]].
  apply keeps_bind; [apply _|apply _|keeps|]. intros. apply later_access. intros n w. by destruct (_ <? _).
Qed.

Lemma later_signing {A} (f : nat -> World -> result A) : keeps later (access o (fun n w => (f n w, w))).
Proof. by apply later_access. Qed.
Lemma safe_signing {A} L (f : nat -> World -> result A) : safe L (access o (fun n w => (f n w, w))) anything nothing.
Proof. by apply safe_aside. Qed.
#[local] Hint Resolve later_verify later_signing : keeps.
#[local] Hint Resolve safe_verify safe_signing : safe.

Lemma safe_signSpend L req vaultID inputs tree snap : safe L (signSpend s o req vaultID inputs tree snap) anything nothing.
Proof. unfold signSpend. safe. Qed.
Lemma later_signSpend req vaultID inputs tree snap : keeps later (signSpend s o req vaultID inputs tree snap).
Proof. unfold signSpend. keeps. Qed.
#[local] Hint Resolve later_signSpend : keeps.
#[local] Hint Resolve safe_signSpend : safe.

Lemma safe_Authorize req : safe [] (AuthorizeVtxoSpend s o req) anything nothing.
Proof.
  unfold AuthorizeVtxoSpend. do 3 safe_step. next [[vaultID snap] rec] _. next [op inputs] [Hty Hin]. simpl in Hty, Hin.
  next [] Hst. do 3 safe_step. next [arkPkt pd] _. safe_step. next [cred cnt] _.
  destruct (seqb (op_State op) vtxoStateSigned) eqn:Es; [safe|]. rewrite orb_false_r in Hst. apply seqb_true in Hst.
  destruct (Hin Hst) as (c & Hc & Hdl). next [signedArk proof] _.
  set (row := signedRow _ _ _ _ _ _). assert (Hrow : forall w, holds w (Read op) -> holds w (Read row))
    by (intros w (r0 & Hk & [? ? ? ?]); by exists r0).
  eapply safe_bind; [|intros; keeps|intros [cur sw] _; simpl; safe].
  eapply safe_like; [|exact Hrow|apply (safe_commit _ row _ _ c); done || set_solver]. set_solver.
Qed.

Lemma safe_Checkpoints req : safe [] (AuthorizeVtxoCheckpoints s o req) anything nothing.
Proof.
  unfold AuthorizeVtxoCheckpoints. do 3 safe_step. next [[vaultID snap] rec] _. next [op inputs] [Hty _]. simpl in Hty.
  do 7 safe_step. destruct (seqb (op_State op) vtxoStateSubmitted); [safe|]. do 2 safe_step. next authorized _.
  set (row := submittedRow _ _ _). assert (Hrow : forall w, holds w (Read op) -> holds w (Read row))
    by (intros w (r0 & Hk & [? ? ? ?]); by exists r0).
  eapply safe_bind; [|intros; keeps|intros [cur sw] _; simpl; safe].
  eapply safe_like; [|exact Hrow|apply safe_open_swap; [done|by right|done|set_solver]]. set_solver.
Qed.

Lemma safe_View vaultID id : safe [] (GetVtxoOperationView s o vaultID id) anything nothing.
Proof.
  unfold GetVtxoOperationView. safe_step. next [[v snap] rec] _. next [op|e] Hop; [|next op [=]].
  destruct Hop as [Hty _]. next op' [= <-]. safe_step.
  eapply (safe_bind _ _ _ op_well_typed (fun op => [Read op])).
  - destruct (_ || _); [|apply safe_return; [done|set_solver]].
    eapply safe_bind; [eapply safe_try, safe_promote; [done|set_solver]|intros; keeps|]. intros [|] _; [|apply safe_return; [done|set_solver]].
    simpl app. next [cur|] Hc; apply safe_return; try done; try apply Hc; set_solver.
  - intros; keeps.
  - intros op' Hty'. simpl app. eapply safe_bind; [apply safe_expire; [done|set_solver]|intros; keeps|intros]. safe.
Qed.

Lemma safe_Finalize req : safe [] (FinalizeVtxo s o req) anything nothing.
Proof.
  unfold FinalizeVtxo. do 3 safe_step. next [[v snap] rec] _. next [op|e] Hop; [|next op [=]].
  destruct Hop as [Hty _]. next op' [= <-]. do 3 safe_step. destruct (_ && _); [safe|]. do 3 safe_step.
  eapply safe_bind; [apply safe_promote; [done|set_solver]|intros; keeps|intros]. safe.
Qed.

Lemma safe_Abort req : safe [] (AbortVtxo s o req) anything nothing.
Proof.
  unfold AbortVtxo. next opID _. do 2 safe_step. next [[v snap] rec] _. safe_step. next [op|e] Hop.
  2:{ eapply safe_bind; [apply (safe_fail _ _ (fun _ => False) nothing)|intros; keeps|done]. }
  destruct Hop as [Hty _]. eapply (safe_bind _ _ _ (fun op' => op' = op) nothing);
    [apply safe_return; [done|set_solver]|intros; keeps|]. intros ? ->. do 2 safe_step.
  eapply safe_bind; [apply safe_expire; [done|set_solver]|intros; keeps|]. intros op1 Hty1. simpl app. do 4 safe_step.
  apply (safe_restate _ op1 vtxoStateAborted); [set_solver|].
  eapply safe_bind; [apply safe_open_swap; [done|by left|done|set_solver]|intros; keeps|]. intros [cur sw] _. safe.
Qed.

Lemma int64_of_range z : int64_range (int64_of z).
Proof using Type.
  unfold int64_range, int64_max, int64_of. pose proof (Z.mod_pos_bound (z + 2 ^ 63) (2 ^ 64) ltac:(done)). lia.
Qed.

Lemma newReservation_typed opID vaultID purpose digest amount fee fpd dest cs change (b : bool) cp created expires :
  op_well_typed (newReservation opID vaultID purpose digest amount fee fpd dest cs change (if b then Some 1 else None) cp created expires).
Proof using Type.
  unfold op_well_typed. simpl. split_and!; try apply int64_of_range. intros n. destruct b; [intros [= <-]; unfold uint32_range, uint32_max; lia|done].
Qed.

Lemma safe_Reserve fuel req : safe [] (ReserveVtxo s o fuel req) anything nothing.
Proof.
  unfold ReserveVtxo. next opID _. do 5 safe_step. next [[vaultID snap] rec] Hcap. cbn [fst snd] in Hcap. next tree _. next dest _. do 2 safe_step.
  next feeCap _. safe_step. next [op|e] Hop. { apply safe_replay; [apply Hop|set_solver]. }
  safe_step. next feePolicy _. next [est fpd] _. next vtxos _. next [[selected fee] change] _. safe_step. next checkpoint _. safe_step.
  next now (_ & Ht & Ht2). next digest _.
  eapply safe_bind; [|intros; keeps|].
  - eapply safe_try. rewrite <-Hcap.
    match goal with |- safe ?L (ledger_call _ (fun _ _ _ => ReserveVtxoOperation _ _ _ _ ?row ?ins _)) _ _ =>
      change (cap vaultID) with (cap (op_VaultID row)); refine (safe_reserve L row ins now _ Ht Ht2 eq_refl eq_refl) end.
    apply newReservation_typed.
  - intros [r|e'] _; [safe|]. simpl app. next [op|e2] Hop2; [|safe]. apply safe_replay; [apply Hop2|set_solver].
Qed.

(** ** Requests *)

Inductive Request :=
  | ReqReserve (fuel : nat) (req : VtxoReserveRequest) | ReqView (vaultID operationID : string)
  | ReqAuthorize (req : VtxoAuthorizeRequest) | ReqCheckpoints (req : VtxoCheckpointAuthorizeRequest)
  | ReqFinalize (req : VtxoFinalizeRequest) | ReqAbort (req : VtxoAbortRequest).

(** A request, without its answer's content. *)
Definition serve (r : Request) : M World unit :=
  match r with
  | ReqReserve fuel req => ReserveVtxo s o fuel req;; mret tt
  | ReqView vaultID id => GetVtxoOperationView s o vaultID id;; mret tt
  | ReqAuthorize req => AuthorizeVtxoSpend s o req;; mret tt
  | ReqCheckpoints req => AuthorizeVtxoCheckpoints s o req;; mret tt
  | ReqFinalize req => FinalizeVtxo s o req;; mret tt
  | ReqAbort req => AbortVtxo s o req;; mret tt
  end.

Lemma safe_serve r : safe [] (serve r) anything nothing.
Proof.
  destruct r; (eapply safe_bind; [|intros; keeps|intros; apply safe_ret]).
  - apply safe_Reserve.
  - apply safe_View.
  - apply safe_Authorize.
  - apply safe_Checkpoints.
  - apply safe_Finalize.
  - apply safe_Abort.
Qed.
End safety.
