(* ===== verification/SpendRuns.v ===== *)
(** * Spending: the service as a whole

    Runs of requests, each interleaved with the others, refine the allowance
    accumulator ([SpendSafety]); the fuel suffices; and what has to hold
    before the service signs, aborts or reports a spend finalized. *)

From S2P Require Import Prelude Crypto Codec GoTime Program Vtxo Ledger SignCount Recovery VtxoLedger Allowance Tenant Apperr Json WebAuthn SpendSelect Psbt SpendVerify KeyProvider Trees Service SpendService SpendSafety Effects.
From Stdlib Require Import Strings.Byte Strings.Ascii Strings.String Floats.SpecFloat.
From stdpp Require Import base decidable list strings gmap option relations.
From Stdlib Require Import ZArith Lia.
Open Scope string_scope.
Open Scope list_scope.
Open Scope Z_scope.

(** ** Runs of requests *)

Section runs.
Context `{ErrorText, Btc, !Arkade, !Ark, !ArkLib, FeeEnv}.
Context (s : ServiceConfig) (cap : string -> Z).

(** A request answered in time, among others that follow the system's steps. *)
Definition answered (o : Outside) (r : Request) (w : World) (res : result unit) (w' : World) : Prop :=
  rely s o cap (w_now w) /\ serve s o r w = Some (res, w') /\ w_now w' <= w_now w + (allowanceWindow - vtxoReserveAuthorizeTimeout).

Definition request_step (w w' : World) : Prop := exists o r res, answered o r w res w'.

Lemma good_restart t t' w : good s cap t w -> t' <= w_now w -> good s cap t' w.
Proof using Type. intros [? ? ? ? ?] ?. by constructor. Qed.

Lemma answered_moves o r w res w' : good s cap (w_now w) w -> answered o r w res w' ->
  rtc (lstep cap) (st w) (st w') /\ good s cap (w_now w') w'.
Proof using Type.
  intros Hg (Hr & E & Hd). destruct (safe_serve s o cap (w_now w) Hr r w res w' E Hg) as [[Hs Hg'] _]; [constructor|done|].
  split; [|by eapply good_restart]. by destruct (appsteps_last _ _ _ Hs (g_inv _ _ _ _ Hg) (g_born _ _ _ _ Hg)) as (_ & _ & _ & _ & ?).
Qed.

Lemma request_steps_move w w' : rtc request_step w w' -> good s cap (w_now w) w ->
  rtc (lstep cap) (st w) (st w') /\ good s cap (w_now w') w'.
Proof using Type.
  induction 1 as [w|w w1 w' (o & r & res & Ha) _ IH]; intros Hg; [done|].
  destruct (answered_moves _ _ _ _ _ Hg Ha) as [Hs Hg1]. destruct (IH Hg1) as [Hs' Hg']. split; [by etrans|done].
Qed.

(** [C2] Whatever a request does, and whatever the other requests, the resolver
    and the clock do meanwhile, is a sequence of moves of the allowance
    accumulator: reserve within the cap of the vault's verified record, release
    pending charges, put a charge in flight within its window, settle.  The
    store stays authentic and well formed.  Assumed are that the others make
    steps of the system too, and that the request is answered within the 24 hour
    window less the two minutes of a reservation. *)
Theorem requests_refine_accumulator o r w res w' :
  good s cap (w_now w) w -> rely s o cap (w_now w) -> serve s o r w = Some (res, w') ->
  w_now w' <= w_now w + (allowanceWindow - vtxoReserveAuthorizeTimeout) ->
  rtc (Spec.astep cap) (abs (l_db (w_ledger w)), w_now w) (abs (l_db (w_ledger w')), w_now w') /\ good s cap (w_now w') w'.
Proof using Type.
  intros Hg Hr E Hd. destruct (answered_moves o r w res w' Hg (conj Hr (conj E Hd))) as [Hs Hg']. split; [|done].
  exact (proj2 (lsteps_simulated _ _ _ Hs (g_inv _ _ _ _ Hg))).
Qed.

(** [C1] The service keeps every vault within its allowance: from a fresh store,
    after any sequence of requests, each interleaved with others, the outflow of
    a vault that is pending, in flight or settled in the last 24 hours is at most
    the period allowance of its verified record, a vault has one live spend and a
    coin one holder. *)
Theorem service_keeps_allowance w w' :
  (forall v, 0 <= cap v) -> Allowance.fresh (w_ledger w) -> good s cap (w_now w) w -> rtc request_step w w' ->
  (forall v, charged (l_db (w_ledger w')) v (w_now w') <= cap v) /\
  one_active (l_db (w_ledger w')) /\ locked_once (l_db (w_ledger w')).
Proof using Type.
  intros Hcap Hf Hg Hr. destruct (request_steps_move _ _ Hr Hg) as [Hs _]. split.
  - exact (fresh_within _ _ _ _ _ Hcap Hf Hs).
  - exact (fresh_exclusive _ _ _ _ _ Hf Hs).
Qed.
End runs.

(** ** The fuel is enough *)

Section answering.
Context `{ErrorText, Btc, !Arkade, !Ark, !ArkLib, FeeEnv}.
Context (s : ServiceConfig) (o : Outside).

Lemma answers_access {A} (f : nat -> World -> result A * World) : answers (access o f).
Proof using Type. by intros w. Qed.
Lemma answers_read {A} (f : World -> result A) : answers (read o f).
Proof using Type. apply answers_access. Qed.
Lemma answers_outside {A} (f : nat -> result A) : answers (outside o f).
Proof using Type. apply answers_access. Qed.
Lemma answers_ledger {A} (f : nat -> Z -> Ledger -> Ledger * result A) : answers (ledger_call o f).
Proof using Type. apply answers_access. Qed.
#[local] Hint Resolve answers_access answers_read answers_outside answers_ledger : answers.

Lemma answers_transition from rec : answers (transition o from rec).
Proof using Type. apply answers_access. Qed.
Lemma answers_get id : answers (getOperation o id).
Proof using Type. apply answers_access. Qed.
Lemma answers_inputs id : answers (getOperationInputs o id).
Proof using Type. apply answers_access. Qed.
Lemma answers_now : answers (vtxoNow o).
Proof using Type. apply answers_access. Qed.
Lemma answers_integrity : answers (checkLedgerIntegrity s o).
Proof using Type. apply answers_access. Qed.
Lemma answers_resolve id : answers (resolveVault s o id).
Proof using Type. apply answers_access. Qed.
Lemma answers_tree msg id snap : answers (buildTree s o msg id snap).
Proof using Type. apply answers_access. Qed.
#[local] Hint Resolve answers_transition answers_get answers_inputs answers_now answers_integrity answers_resolve answers_tree : answers.

Lemma answers_exit : answers (requireVaultPolicyV1Exit s).
Proof using Type. unfold requireVaultPolicyV1Exit. answers. Qed.
Lemma answers_resolver : answers (requireArkResolver s).
Proof using Type. unfold requireArkResolver. answers. Qed.
Lemma answers_purpose raw : answers (purposeSpend raw).
Proof using Type. unfold purposeSpend. answers. Qed.
Lemma answers_phone p sig d : answers (requirePhone p sig d).
Proof using Type. unfold requirePhone. answers. Qed.
Lemma answers_found {A} (r : result A) : answers (foundOr r).
Proof using Type. unfold foundOr. answers. Qed.
Lemma answers_fees op : answers (requireCurrentVtxoFeePolicy o op).
Proof using Type. unfold requireCurrentVtxoFeePolicy. answers. Qed.
Lemma answers_expire op : answers (expireReservedVtxo o op).
Proof using Type. unfold expireReservedVtxo. answers. Qed.
#[local] Hint Resolve answers_exit answers_resolver answers_purpose answers_phone answers_found answers_fees answers_expire : answers.

Lemma answers_replay op vaultID purpose amount dest tree : answers (replayVtxoReservation o op vaultID purpose amount dest tree).
Proof using Type. unfold replayVtxoReservation. answers. Qed.
Lemma answers_load vaultID id purpose : answers (loadLiveVtxo o vaultID id purpose).
Proof using Type. unfold loadLiveVtxo. answers. Qed.
Lemma answers_promote op : answers (promoteSubmittedVtxo o op).
Proof using Type. unfold promoteSubmittedVtxo, markSubmitted, settle. answers. Qed.
Lemma answers_verify vaultID digest req sig : answers (verifyVtxoAuthorization s o vaultID digest req sig).
Proof using Type. unfold verifyVtxoAuthorization, acquireVerification. answers. Qed.
Lemma answers_sign req vaultID inputs tree snap : answers (signSpend s o req vaultID inputs tree snap).
Proof using Type. unfold signSpend. answers. Qed.
#[local] Hint Resolve answers_replay answers_load answers_promote answers_verify answers_sign : answers.

(** The fee cap of a resolved vault is an int64. *)
Lemma resolved_fee_cap w id p w' cap : resolveVault s o id w = Some (Ok p, w') -> vtxoFeeCap p.2 = Ok cap -> cap <= int64_max.
Proof using Type.
  unfold resolveVault, read, access. intros [= E _]. destruct p as [[v snap] rec]. revert E. unfold resolveSpendVaultRecord.
  intros (i & _ & ([] & _ & (k & _ & ([rec' c] & _ & E)%bind_Ok)%bind_Ok)%bind_Ok)%bind_Ok.
  destruct rec' as [rec'|]; [|done]. apply bind_Ok in E as ([] & Hv%wrap_Ok & ([] & _ & [= _ _ <-])%bind_Ok).
  intros ([] & _ & [= <-])%bind_Ok. unfold ValidateSpendingPolicyFor, validatePolicyBound in Hv. inv_ok. bool_prop. simpl in *.
  unfold MaxAbsoluteFeeCapSats, int64_max in *. lia.
Qed.

Lemma answers_select fuel estimator vtxos pk dest amount cap : cap <= int64_max -> (selection_fuel <= fuel)%nat ->
  answers (on_fee o (selectSpendVtxos fuel (sv_MaxConcurrentFeeSelections s) estimator vtxos pk dest amount cap)).
Proof using Type.
  intros Hc Hf w. unfold on_fee. cbv zeta.
  destruct (selection_answers fuel (sv_MaxConcurrentFeeSelections s) estimator vtxos pk dest amount cap
    (w_fee (next_step (others o (w_step w) w))) Hc Hf) as (r & f' & -> & _). done.
Qed.

Lemma answers_Reserve fuel req : (selection_fuel <= fuel)%nat -> answers (ReserveVtxo s o fuel req).
Proof using Type.
  intros Hf. unfold ReserveVtxo. do 6 (answers_step; [answers|]).
  apply answers_bind; [answers|]. intros [[vaultID snap] rec] w0 w1 Hres. do 4 (answers_step; [answers|]).
  apply answers_bind; [answers|]. intros feeCap w2 w3 [= Hcap _].
  pose proof (answers_select fuel) as Hsel. specialize (fun e v pk d a => Hsel e v pk d a feeCap (resolved_fee_cap _ _ _ _ _ Hres Hcap) Hf).
  answers.
Qed.

(** The fuel is enough: no request runs out of it, given what the search for
    coins and fee needs for its evaluation budget under the fee cap of a verified
    vault. *)
Theorem requests_answer r w : (forall fuel req, r = ReqReserve fuel req -> (selection_fuel <= fuel)%nat) ->
  exists res w', serve s o r w = Some (res, w').
Proof using Type.
  intros Hf. assert (Ha : answers (serve s o r)).
  { destruct r as [fuel req| | | | |]; simpl; apply answers_bind; try (intros; answers; fail).
    - by eapply answers_Reserve, Hf.
    - unfold GetVtxoOperationView. answers.
    - unfold AuthorizeVtxoSpend. answers.
    - unfold AuthorizeVtxoCheckpoints. answers.
    - unfold FinalizeVtxo. answers.
    - unfold AbortVtxo. answers. }
  specialize (Ha w). destruct (serve s o r w) as [[res w']|]; [by exists res, w'|done].
Qed.
End answering.

(** ** What a response stands for *)

Section responses.
Context `{ErrorText, Btc, !Arkade, !Ark, !ArkLib, FeeEnv}.
Context (s : ServiceConfig) (o : Outside).

(** A world seen by a request that started in [w] and has not written yet: only
    the others moved, at the request's accesses, and of its own it only takes and
    returns a verification slot. *)
Definition quiet (w w' : World) : Prop := w' = next_step (others o (w_step w) w) \/ exists n, w' = set_slots n w.
Definition sees : World -> World -> Prop := rtc quiet.

Lemma access_sees w : sees w (next_step (others o (w_step w) w)).
Proof using Type. apply rtc_once. by left. Qed.

Lemma slots_sees n w : sees w (set_slots n w).
Proof using Type. apply rtc_once. right. by exists n. Qed.

Lemma access_Ok {A} (f : nat -> World -> result A * World) w a w' : access o f w = Some (Ok a, w') ->
  exists w1, sees w w1 /\ f (w_step w) w1 = (Ok a, w').
Proof using Type. unfold access. intros [= E]. eexists. split; [apply access_sees|exact E]. Qed.

Lemma read_sees {A} (f : World -> result A) : keeps sees (read o f).
Proof using Type. intros w r w'. unfold read, access. intros [= _ <-]. apply access_sees. Qed.

Lemma outside_sees {A} (f : nat -> result A) : keeps sees (outside o f).
Proof using Type. intros w r w'. unfold outside, access. intros [= _ <-]. apply access_sees. Qed.

Lemma read_Ok {A} (f : World -> result A) w a w' : read o f w = Some (a, w') -> sees w w' /\ f w' = a.
Proof using Type. unfold read, access. intros [= <- <-]. split; [apply access_sees|done]. Qed.

Lemma outside_Ok {A} (f : nat -> result A) w a w' : outside o f w = Some (Ok a, w') -> sees w w' /\ f (w_step w) = Ok a.
Proof using Type. intros E. split; [by eapply outside_sees|]. by apply access_Ok in E as (w1 & _ & [= E _]). Qed.

(** A ledger call, at the world it writes. *)
Lemma ledger_call_Ok {A} (f : nat -> Z -> Ledger -> Ledger * result A) w a w' : ledger_call o f w = Some (Ok a, w') ->
  exists n w1, sees w w1 /\ f n (w_now w1) (w_ledger w1) = (w_ledger w', Ok a) /\ w' = set_ledger (w_ledger w') w1.
Proof using Type.
  intros (w1 & Hs & E)%access_Ok. destruct (f (w_step w) _ _) as [l r] eqn:El. injection E as -> <-. exists (w_step w), w1. by rewrite El.
Qed.

Lemma rejected_err_Ok {A} (r : result A) a : rejected_err r = Ok a -> r = Ok a.
Proof using Type. by destruct r. Qed.

Lemma foundOr_Ok {A} (r : result A) (w : World) a w' : foundOr r w = Some (Ok a, w') -> r = Ok a /\ w' = w.
Proof using Type. unfold foundOr. destruct r; [|done]. by intros [= -> ->]. Qed.

Lemma commit_durable l ok now rec cred cnt l' cur sw :
  CommitSignedVtxoOperation l ok now rec cred cnt = (l', Ok (cur, sw)) ->
  t_vtxo_operation (l_db l') !! op_OperationID rec = Some cur /\ (sw = true -> exists key, SealVtxoOperation rec key = Ok cur).
Proof using Type.
  intros E. pose proof E as E0. unfold CommitSignedVtxoOperation, swapTx in E0.
  destruct (signedBody l now rec cred cnt) as [[d r|c]|e] eqn:Eb; [destruct ok| |]; try done; injection E0 as <- <- <-; unfold signedBody in Eb;
    apply bind_Ok in Eb as ([] & _ & (key & _ & (rec' & Hs & ([d' n] & Hu & Eb)%bind_Ok)%bind_Ok)%bind_Ok);
    pose proof (seal_ids _ _ _ Hs) as (Eid & _); destruct (Z.eqb_spec n 1) as [En|En]; simpl in Eb.
  - apply bind_Ok in Eb as (d2 & Ha%advance_rest & [= -> ->]). rewrite Ha. simpl. split; [|eauto].
    rewrite <-Eid. by eapply update_stored.
  - by apply bind_Ok in Eb as (c & Hl & ([] & _ & [=])%bind_Ok).
  - by apply bind_Ok in Eb as (c2 & Hl & [=]).
  - apply bind_Ok in Eb as (c2 & Hl%load_row & ([] & _ & [= <-])%bind_Ok). split; [|done]. rewrite <-Eid.
    by rewrite (update_none _ _ _ _ _ Hu En) in Hl.
Qed.

(** The row's time has not run out, if it is reserved and has an expiry. *)
Definition live (w : World) (op : VtxoOperation) : Prop :=
  op_State op = vtxoStateReserved -> op_ExpiresAt op <> "" ->
  exists exp w1, parseRFC3339 (op_ExpiresAt op) = Some exp /\ sees w w1 /\ w_now w1 < exp.

(** The operation of the vault, live, with its inputs, as the store held them. *)
Record loaded (w : World) (vaultID id : string) (op : VtxoOperation) (inputs : list VtxoOperationInput) : Prop := {
  lo_row : exists w1, sees w w1 /\ GetVtxoOperation (w_ledger w1) id = Ok op;
  lo_vault : op_VaultID op = vaultID;
  lo_purpose : op_Purpose op = vtxoPurposeSpend;
  lo_live : live w op;
  lo_inputs : exists w1, sees w w1 /\ GetVtxoOperationInputs (w_ledger w1) id = Ok inputs
}.

Lemma live_weaken w w1 op : sees w w1 -> live w1 op -> live w op.
Proof using Type. intros Hs Hl Hst He. destruct (Hl Hst He) as (exp & w2 & ? & ? & ?). exists exp, w2. split_and!; [done|by etrans|done]. Qed.

Lemma loaded_weaken w w1 vaultID id op inputs : sees w w1 -> loaded w1 vaultID id op inputs -> loaded w vaultID id op inputs.
Proof using Type.
  intros Hs [(w2 & ? & ?) ? ? Hl (w3 & ? & ?)]. constructor; [exists w2; split; [by etrans|done]|done|done|by eapply live_weaken|exists w3; split; [by etrans|done]].
Qed.

Lemma loadLive_Ok vaultID id w op inputs w' : loadLiveVtxo o vaultID id vtxoPurposeSpend w = Some (Ok (op, inputs), w') ->
  sees w w' /\ loaded w vaultID id op inputs.
Proof using Type.
  unfold loadLiveVtxo. intros (u & w1 & [_ ->]%check_Ok & E)%bindM_Ok.
  apply bindM_Ok in E as (r & w2 & [Hs Hg]%try_Ok%read_Ok & (op0 & w3 & [-> ->]%foundOr_Ok & E)%bindM_Ok).
  apply bindM_Ok in E as (u2 & w4 & [Hv%seqb_true ->]%check_Ok & (u3 & w5 & [Hp%seqb_true ->]%check_Ok & E)%bindM_Ok).
  apply bindM_Ok in E as (u4 & w6 & He & (ins & w7 & [Hs7 Hi]%read_Ok & [= -> -> ->])%bindM_Ok).
  assert (Hl : sees w2 w6 /\ live w2 op).
  { unfold live. destruct (seqb (op_ExpiresAt op) "") eqn:Ee; [apply seqb_true in Ee; injection He as <- <-; done|].
    destruct (parseRFC3339 (op_ExpiresAt op)) as [exp|] eqn:Ep; [|done]. destruct (seqb (op_State op) vtxoStateReserved) eqn:Es.
    - apply bindM_Ok in He as (now & w8 & [Hs8 [= <-]]%read_Ok & He). destruct (Z.ltb_spec (w_now w8) exp).
      + injection He as <- <-. split; [done|]. intros _ _. by exists exp, w8.
      + apply bindM_Ok in He as (? & ? & _ & [=]).
    - apply seqb_false in Es. injection He as <- <-. done. }
  destruct Hl as [Hs6 Hl]. split; [by repeat (etrans; [done|])|].
  constructor; [by exists w2|done|done|by eapply live_weaken|]. exists w'. split; [by repeat (etrans; [done|])|done].
Qed.

Lemma verify_Ok vaultID digest req sig w p w' : verifyVtxoAuthorization s o vaultID digest req sig w = Some (Ok p, w') ->
  sees w w' /\ exists w1, sees w w1 /\ checkVtxoAuthorization (sv_IntegrityKey s) (w_tenants w1) (w_published w1) vaultID digest req sig = Ok p.
Proof using Type.
  unfold verifyVtxoAuthorization. intros (u & w1 & Ha & E)%bindM_Ok. unfold defer in E.
  destruct (read _ _ _) as [[r w2]|] eqn:Er; [|done]. injection E as -> <-. apply read_Ok in Er as [Hs Hc].
  unfold acquireVerification in Ha. apply bindM_Ok in Ha as (u0 & w0 & [S0 _]%outside_Ok & (w3 & S3 & E)%access_Ok).
  assert (Hs1 : sees w w1). { destruct (_ <? _); [|done]. injection E as _ <-. etrans; [exact S0|]. etrans; [exact S3|]. apply slots_sees. }
  split; [etrans; [exact Hs1|]; etrans; [exact Hs|]; apply slots_sees|]. exists w2. split; [by etrans|done].
Qed.

(** The Operator's fee policy, asked during the request, is the one reserved under. *)
Definition fee_policy_current (w : World) (op : VtxoOperation) : Prop :=
  exists w1 fee estimator, sees w w1 /\ resolver_IntentFeePolicy o (w_step w1) = Ok fee /\
    newVtxoFeeEstimator fee = Ok (estimator, op_FeePolicyDigest op) /\ zlen (op_FeePolicyDigest op) = 32.

Lemma fee_policy_Ok op w u w' : requireCurrentVtxoFeePolicy o op w = Some (Ok u, w') -> sees w w' /\ fee_policy_current w op.
Proof using Type.
  unfold requireCurrentVtxoFeePolicy. intros (fee & w1 & [Hs Hf]%outside_Ok & ([est digest] & w2 & [Hn ->]%lift_Ok & [Hc ->]%check_Ok)%bindM_Ok)%bindM_Ok.
  split; [done|]. destruct (resolver_IntentFeePolicy o (w_step w)) as [fee'|] eqn:Ef; [|done]. injection Hf as ->.
  bool_prop. apply beqb_true in H6 as ->. exists w, fee, est. split_and!; done.
Qed.

Definition cosigner_xonly (tree : PolicyTree) : bytes :=
  match vt_CosignerPub tree with Some p => SerializeXOnly p | None => [] end.

Definition ark_txid (pkt : Packet) : string := match pk_UnsignedTx pkt with Some tx => TxHash_String tx | None => "" end.

(** The row answers this request: same transaction, checkpoints and proof. *)
Definition answers_request (req : VtxoAuthorizeRequest) (pending : bytes) (row : VtxoOperation) : Prop :=
  op_State row = vtxoStateSigned /\ op_UnsignedPSBT row = aq_UnsignedArkPsbt req /\
  op_CheckpointPSBTs row = encodeJSONStringSlice (aq_UnsignedCheckpointPsbts req) /\ op_PendingProofDigest row = pending.

(** A signature of the vault's cosigner over the two packets of the request, as
    the key component gave it and as it was checked. *)
Record cosigned (w : World) (req : VtxoAuthorizeRequest) (vaultID : string) (inputs : list VtxoOperationInput) (tree : PolicyTree)
    (snap : enrolledSnapshot) (signedArk proof : string) : Prop := {
  co_signed : exists wk wa kc auth, sees w wk /\ sees w wa /\ vtxoKeyContextFor (tree_env s o wk) vaultID = Ok kc /\
    newVtxoTransactionAuthorization kc (aq_UnsignedArkPsbt req) (aq_PendingProof req) (vt_SpendLeaf tree) (cosigner_xonly tree) = Ok auth /\
    exists n, vtxoTransactionAuthorize (sv_keys s) (w_cell wa) (sign_ctx o n) auth = Ok (signedArk, proof);
  co_added : requireOnlyVaultSignatureAdded (aq_PendingProof req) proof (cosigner_xonly tree) = Ok tt;
  co_dual : verifyDualSignedPendingProof proof inputs tree (en_PhoneBIP340 snap) = Ok tt
}.

Lemma sign_Ok req vaultID inputs tree snap w signedArk proof w' : signSpend s o req vaultID inputs tree snap w = Some (Ok (signedArk, proof), w') ->
  sees w w' /\ cosigned w req vaultID inputs tree snap signedArk proof.
Proof using Type.
  unfold signSpend. intros (kc & w1 & [S1 Hk]%read_Ok & (auth & w2 & [Ha ->]%lift_Ok & E)%bindM_Ok)%bindM_Ok.
  apply bindM_Ok in E as ([sa pf] & w3 & (wa & Sa & [= Hsig <-])%access_Ok & E).
  apply bindM_Ok in E as ([] & w4 & [Ho1 ->]%lift_Ok & ([] & w5 & [Ho2 ->]%lift_Ok & [= -> -> ->])%bindM_Ok).
  assert (Sw : sees w w') by (etrans; [exact S1|exact Sa]). split; [done|].
  constructor; [|by apply rejected_err_Ok in Ho1|by apply rejected_err_Ok in Ho2].
  exists w1, w', kc, auth. split_and!; [done|done|done|done|]. eexists. exact Hsig.
Qed.

(** What was checked before a spend is authorized, and what its response is; every
    reading is of a world this request saw. *)
Record authorized (req : VtxoAuthorizeRequest) (resp : VtxoAuthorizeResponse) (w w' : World) (vaultID : string) (snap : enrolledSnapshot)
    (rec : VaultRecord) (op : VtxoOperation) (inputs : list VtxoOperationInput) (tree : PolicyTree) (arkPkt : Packet) (pending cred : bytes)
    (cnt : Z) : Prop := {
  au_integrity : exists w1, sees w w1 /\ requireLedgerIntegrity (sv_IntegrityKey s) (w_ledger w1) = Ok tt;
  au_policy : sv_policyExit s = Ok tt;
  au_resolver : sv_hasResolver s = true;
  au_vault : exists w1, sees w w1 /\
    resolveSpendVaultRecord (sv_Config s) (sv_IntegrityKey s) (w_published w1) (w_tenants w1) (aq_VaultID req) = Ok (vaultID, snap, rec);
  au_loaded : loaded w vaultID (aq_OperationID req) op inputs;
  au_fees : fee_policy_current w op;
  au_digest : requireBundleDigest (aq_BundleDigest req) (op_BundleDigest op) = Ok tt;
  au_tree : exists w1, sees w w1 /\ buildVtxoPolicyTree (tree_env s o w1) vaultID (keys_of snap) = Ok tree;
  au_spend : checkSpend req op inputs tree snap = Ok (arkPkt, pending);
  au_passkey : exists w1, sees w w1 /\
    checkVtxoAuthorization (sv_IntegrityKey s) (w_tenants w1) (w_published w1) vaultID (op_BundleDigest op) (aq_Assertion req) (aq_DirectSig req)
      = Ok (cred, cnt);
  au_response :
    (op_State op = vtxoStateSigned /\ answers_request req pending op /\ sees w w' /\
     VerifySignedVtxoReplay (w_ledger w') (op_OperationID op) vaultID cred cnt = Ok tt /\
     resp = authorizeResponse op (op_AuthorizedPSBT op) (op_AuthorizedPendingProof op) (op_ArkTxid op)) \/
    (op_State op = vtxoStateReserved /\ exists signedArk proof wc n row swapped,
       cosigned w req vaultID inputs tree snap signedArk proof /\ sees w wc /\
       CommitSignedVtxoOperation (w_ledger wc) (env_commit_ok (env_io o n)) (w_now wc)
         (signedRow op req pending signedArk proof (ark_txid arkPkt)) cred cnt = (w_ledger w', Ok (row, swapped)) /\
       t_vtxo_operation (l_db (w_ledger w')) !! op_OperationID op = Some row /\ answers_request req pending row /\
       (swapped = true -> op_AuthorizedPSBT row = signedArk /\ op_AuthorizedPendingProof row = proof /\ op_ArkTxid row = ark_txid arkPkt) /\
       ar_AuthorizedPsbt resp = op_AuthorizedPSBT row /\ ar_AuthorizedPendingProof resp = op_AuthorizedPendingProof row /\
       ar_ArkTxid resp = op_ArkTxid row)
}.

Lemma same_answers op req pending : op_State op = vtxoStateSigned -> sameSignedRequest op req pending = true -> answers_request req pending op.
Proof using Type. unfold sameSignedRequest. intros Hst Hs. bool_prop. rewrite ?seqb_true, ?beqb_true in *. by split_and!. Qed.

Lemma cosigned_weaken w w1 req vaultID inputs tree snap signedArk proof : sees w w1 ->
  cosigned w1 req vaultID inputs tree snap signedArk proof -> cosigned w req vaultID inputs tree snap signedArk proof.
Proof using Type.
  intros Hs [(wk & wa & kc & auth & ? & ? & ?) ? ?]. constructor; [|done..]. exists wk, wa, kc, auth. split; [by etrans|]. split; [by etrans|done].
Qed.

(** A world seen after one that was seen. *)
Ltac seen := repeat first [eassumption | eapply (transitivity (R := sees)); [eassumption|]].

(** [C3] A signature leaves the service only for a spend that passed every check
    of the handler, each made on the store as this request saw it: the ledger's
    own integrity, the embedded policy and a resolver; the vault's verified
    record; the stored operation of this vault, live if it is reserved, and its
    inputs; the Operator's fee policy, unchanged since the reservation; the bundle
    digest; the exact transaction, its checkpoints and the phone's pending proof
    against the vault's own tree; the passkey assertion and the direct signature
    over the bundle digest.  What is released is the row the ledger durably holds
    for this same request: a row signed before under the same authenticator
    counter, or the one this request's signature, made under the vault's key and
    checked to add nothing else, was committed as. *)
Theorem released_spends_are_authorized req w resp w' : AuthorizeVtxoSpend s o req w = Some (Ok resp, w') ->
  exists vaultID snap rec op inputs tree arkPkt pending cred cnt,
    authorized req resp w w' vaultID snap rec op inputs tree arkPkt pending cred cnt.
Proof using Type.
  unfold AuthorizeVtxoSpend. intros E.
  apply bindM_Ok in E as ([] & w1 & [S1 Hi]%read_Ok & ([] & w2 & [Hpol ->]%lift_Ok & ([] & w3 & [Hres ->]%check_Ok & E)%bindM_Ok)%bindM_Ok).
  apply bindM_Ok in E as ([[vaultID snap] rec] & w4 & [S4 Hv]%read_Ok & ([op inputs] & w5 & [S5 Hlo]%loadLive_Ok & E)%bindM_Ok).
  apply bindM_Ok in E as ([] & w6 & [Hst ->]%check_Ok & ([] & w7 & [S7 Hfee]%fee_policy_Ok & ([] & w8 & [Hd ->]%lift_Ok & (tree & w9 & [S9 Ht]%read_Ok & E)%bindM_Ok)%bindM_Ok)%bindM_Ok).
  apply bindM_Ok in E as ([arkPkt pending] & w10 & [Hc ->]%lift_Ok & ([] & w11 & [Hsame ->]%check_Ok & ([cred cnt] & w12 & [S12 (wp & Sp & Hp)]%verify_Ok & E)%bindM_Ok)%bindM_Ok).
  exists vaultID, snap, rec, op, inputs, tree, arkPkt, pending, cred, cnt.
  destruct (buildVtxoPolicyTree _ _ _) as [t|] eqn:Ht'; [|done]. injection Ht as ->.
  assert (T4 : sees w w4) by seen. assert (T5 : sees w w5) by seen. assert (T7 : sees w w7) by seen.
  assert (T9 : sees w w9) by seen. assert (T12 : sees w w12) by seen.
  constructor; [by exists w1|done|done|by exists w4|exact (loaded_weaken _ _ _ _ _ _ T4 Hlo)| |done|by exists w9|done|exists wp; split; [exact (transitivity T9 Sp)|done]|].
  { destruct Hfee as (wf & fee & est & ? & ?). exists wf, fee, est. by split; [etrans; [exact T5|]|]. }
  destruct (seqb (op_State op) vtxoStateSigned) eqn:Es.
  - left. apply bindM_Ok in E as ([] & w13 & [S13 Hr2]%read_Ok & [= <- <-]). simpl in Hsame. rewrite negb_involutive in Hsame.
    apply seqb_true in Es. split_and!; [done|by apply same_answers|exact (transitivity T12 S13)|done|done].
  - right. rewrite orb_false_r in Hst. apply seqb_true in Hst. split; [done|].
    apply bindM_Ok in E as ([signedArk proof] & w13 & [S13 Hco]%sign_Ok & ([cur sw] & w14 & (n & wc & Sc & Hcm & Ew)%ledger_call_Ok & E)%bindM_Ok).
    assert (Elw : w' = w14) by (destruct sw; [by injection E|by apply bindM_Ok in E as ([] & w16 & [_ ->]%check_Ok & [= _ <-])]). subst w14.
    pose proof (commit_durable _ _ _ _ _ _ _ _ _ Hcm) as [Hrow Hseal].
    exists signedArk, proof, wc, n, cur, sw. split; [exact (cosigned_weaken _ _ _ _ _ _ _ _ _ T12 Hco)|]. split; [exact (transitivity T12 (transitivity S13 Sc))|].
    split; [exact Hcm|]. split; [exact Hrow|]. simpl in E. destruct sw.
    + injection E as <-. destruct (Hseal eq_refl) as (key & (_ & p & _ & ->)%Seal_Ok). done.
    + apply bindM_Ok in E as ([] & w16 & [Hcur _]%check_Ok & [= <- _]). bool_prop. rewrite seqb_true in *. split; [by apply same_answers|done].
Qed.

(** A won compare-and-swap. *)
Lemma transition_swapped l ok from rec l' cur : TransitionVtxoOperation l ok from rec = (l', Ok (cur, true)) ->
  exists row, swapped_from l from rec (l_db l') row cur.
Proof using Type.
  intros E. pose proof E as E0. unfold TransitionVtxoOperation, swapTx in E0.
  destruct (transitionBody l from rec) as [[d r|c]|e] eqn:Eb; [destruct ok| |]; try done. injection E0 as <- <-. unfold transitionBody in Eb.
  apply bind_Ok in Eb as ([] & _ & ([] & Hv%require_Ok & (key & [-> _]%integrityKeyCopy_Ok & (rec' & Hs & ([d' n] & Hu & Eb)%bind_Ok)%bind_Ok)%bind_Ok)%bind_Ok).
  destruct (Z.eqb_spec n 1); [|by apply bind_Ok in Eb as (c & _ & [=])]. injection Eb as -> ->.
  exact (update_swap _ _ _ _ _ _ Hv Hs Hu ltac:(done)).
Qed.

(** A lost compare-and-swap leaves the store alone; the row is another one by
    then, or none. *)
Lemma transition_lost l ok from rec l' cur : TransitionVtxoOperation l ok from rec = (l', Ok (cur, false)) ->
  l' = l /\ loadVtxoOperation l (l_db l) (op_OperationID rec) = Ok cur /\ ~ (op_VaultID cur = op_VaultID rec /\ op_State cur = from).
Proof using Type.
  unfold TransitionVtxoOperation, swapTx. destruct (transitionBody l from rec) as [[d r|c]|e] eqn:Eb; [by destruct ok| |done].
  intros [= <- <-]. split; [done|]. unfold transitionBody in Eb.
  apply bind_Ok in Eb as ([] & _ & ([] & _ & (key & _ & (rec' & Hs & ([d' n] & Hu & Eb)%bind_Ok)%bind_Ok)%bind_Ok)%bind_Ok).
  pose proof (seal_ids _ _ _ Hs) as (Eid & Ev & _). destruct (Z.eqb_spec n 1) as [->|Hn]; [done|].
  apply bind_Ok in Eb as (c' & Hl & [= <-]). rewrite Eid in Hl. pose proof (update_none _ _ _ _ _ Hu Hn) as ->. split; [done|].
  intros [E1 E2]. unfold updateVtxoOperation in Hu. rewrite Eid, Ev, (load_row _ _ _ _ Hl), E1, E2 in Hu.
  rewrite !(proj2 (seqb_true _ _) eq_refl) in Hu. cbn [andb] in Hu. apply bind_Ok in Hu as ([] & _ & [= _ <-]). done.
Qed.

Context (cap : string -> Z).

Lemma sees_good w w1 start : rely s o cap start -> good s cap start w -> sees w w1 -> good s cap start w1 /\ rows_evolve (l_db (w_ledger w)) (l_db (w_ledger w1)).
Proof using Type.
  intros Hr Hg Hs. enough (Hm : moved s cap start w w1).
  { split; [apply Hm|]. by apply (appsteps_last _ _ _ (proj1 Hm) (g_inv _ _ _ _ Hg) (g_born _ _ _ _ Hg)). }
  revert Hg. induction Hs as [w|w w2 w3 Hq _ IH]; intros Hg; [by apply moved_refl|].
  assert (Hm : moved s cap start w w2); [|eapply moved_trans; [exact Hm|by apply IH, Hm]].
  destruct Hq as [->|[n ->]]; [by apply others_moved|by apply aside_moved].
Qed.

(** A reservation that is still one after the expiry test is the row that was read. *)
Lemma expire_Ok op w op1 w' start : rely s o cap start -> good s cap start w -> t_vtxo_operation (l_db (w_ledger w)) !! op_OperationID op = Some op ->
  expireReservedVtxo o op w = Some (Ok op1, w') -> op_State op1 = vtxoStateReserved -> sees w w' /\ op1 = op /\ live w op.
Proof using Type.
  intros Hr Hg Hrow E Hst. unfold expireReservedVtxo in E. unfold live.
  destruct (negb _ || _) eqn:Eb; [injection E as <- <-; split_and!; [done..|]|].
  { intros E1 E2. apply orb_true_iff in Eb as [Eb|Eb%seqb_true]; [apply negb_true_iff, seqb_false in Eb|]; done. }
  destruct (parseRFC3339 (op_ExpiresAt op)) as [exp|]; [|done].
  apply bindM_Ok in E as (now & w1 & [S1 [= <-]]%read_Ok & E). destruct (Z.ltb_spec (w_now w1) exp).
  { injection E as <- <-. split_and!; [done..|]. intros _ _. by exists exp, w1. }
  exfalso. apply bindM_Ok in E as ([cur sw] & w2 & (n & w3 & S3 & Ht & Ew)%ledger_call_Ok & [= <- <-]). destruct sw; [done|].
  apply transition_lost in Ht as (_ & Hl%load_row & Hne). cbn in Hl, Hne. bool_prop. rewrite seqb_true in *.
  destruct (sees_good w w3 start Hr Hg (transitivity S1 S3)) as [_ Hev].
  destruct (Hev _ _ Hrow) as (r' & Hr' & [Hv _ _ _]). rewrite Hl in Hr'. injection Hr' as ->. apply Hne. done.
Qed.

(** [C34] Aborting frees a reservation only on the phone's word and only before
    anything was signed.  The vault's enrolled phone signed the abort of the
    operation the request names, for this vault; that operation, as the store held
    it, is this vault's spend, live, without signing material, over coins that are
    still whole; at the moment of the write the stored row of that id was still a
    reserved one of this vault; what the write leaves in its place is the sealed
    operation, aborted, every other row as it was, and the answer names that
    operation.  Assumed of the others is what [C2] assumes. *)
Theorem aborts_are_phone_authorized req w resp w' :
  good s cap (w_now w) w -> rely s o cap (w_now w) -> AbortVtxo s o req w = Some (Ok resp, w') ->
  exists vaultID snap rec phone op inputs prior row w1 w2,
    let id := trim_space (bq_OperationID req) in
    (sees w w1 /\
     resolveSpendVaultRecord (sv_Config s) (sv_IntegrityKey s) (w_published w1) (w_tenants w1) (bq_VaultID req) = Ok (vaultID, snap, rec) /\
     en_PhoneBIP340 snap = Some phone /\
     verifyPhoneSignature (bq_PhoneSignature req) (ComputeVtxoAbortDigest (bq_OperationID req) vaultID vtxoPurposeSpend) phone = Ok tt) /\
    (loaded w vaultID id op inputs /\ op_State op = vtxoStateReserved /\ vtxoHasSigningArtifacts op = false /\
     requireAbortableVtxoInputs inputs = Ok tt) /\
    (sees w w2 /\ t_vtxo_operation (l_db (w_ledger w2)) !! id = Some prior /\ op_State prior = vtxoStateReserved /\ op_VaultID prior = vaultID) /\
    SealVtxoOperation (op_set_State vtxoStateAborted op) (l_integrityKey (w_ledger w2)) = Ok row /\
    t_vtxo_operation (l_db (w_ledger w')) = <[id := row]> (t_vtxo_operation (l_db (w_ledger w2))) /\
    resp = MkAbortResponse id vtxoStateAborted.
Proof using Type.
  intros Hgood Hrely. unfold AbortVtxo. intros E.
  apply bindM_Ok in E as (opID & w1 & [Hid ->]%lift_Ok & ([] & w2 & [S2 _]%read_Ok & (u3 & w3 & Hpu & E)%bindM_Ok)%bindM_Ok).
  apply bindM_Ok in Hpu as ([] & w3' & [Hpu%seqb_true ->]%check_Ok & [= _ <-]). rewrite Hpu in E.
  apply bindM_Ok in E as ([[vaultID snap] rec] & w4 & [S4 Hv]%read_Ok & ([] & w5 & Hp & (r & w6 & [S6 Hg]%try_Ok%read_Ok & E)%bindM_Ok)%bindM_Ok).
  unfold requirePhone in Hp. destruct (en_PhoneBIP340 snap) as [phone|] eqn:Eph; [|done]. apply lift_Ok in Hp as [Hp ->].
  destruct r as [op0|e0]; [|by apply bindM_Ok in E as (x & w7 & [=] & _)].
  apply bindM_Ok in E as (op & w7 & [= <- <-] & ([] & w8 & [Ho%seqb_true ->]%check_Ok & ([] & w9 & [Hpp%seqb_true ->]%check_Ok & E)%bindM_Ok)%bindM_Ok).
  apply bindM_Ok in E as (op1 & w10 & Hexp & ([] & w11 & [Hst%seqb_true ->]%check_Ok & ([] & w12 & [Ha%negb_true_iff ->]%check_Ok & (ins & w13 & [S13 Hi]%read_Ok & E)%bindM_Ok)%bindM_Ok)%bindM_Ok).
  apply bindM_Ok in E as ([] & w14 & [Hab ->]%lift_Ok & ([cur sw] & w15 & (n & w16 & S16 & Ht & Ew)%ledger_call_Ok & ([] & w17 & [-> ->]%check_Ok & [= <- <-])%bindM_Ok)%bindM_Ok).
  unfold canonicalVtxoOperationID in Hid. destruct (hex_decode _); [|done]. apply bind_Ok in Hid as ([] & _ & [= <-]).
  assert (T4 : sees w w4) by exact (transitivity S2 S4). assert (T6 : sees w w6) by exact (transitivity T4 S6).
  destruct (sees_good w w6 _ Hrely Hgood T6) as [Hg6 _].
  assert (Hrow : t_vtxo_operation (l_db (w_ledger w6)) !! trim_space (bq_OperationID req) = Some op0) by (unfold GetVtxoOperation in Hg; inv_ok; by eapply load_row).
  destruct (stored_row _ _ _ _ _ _ Hg6 Hrow) as (Hop & _).
  destruct (expire_Ok op0 w6 op1 w10 _ Hrely Hg6 ltac:(by rewrite Hop) Hexp Hst) as (S10 & -> & Hlive).
  assert (T13 : sees w w13) by exact (transitivity T6 (transitivity S10 S13)).
  apply transition_swapped in Ht as [prior [Hprior Hpv Hps _ Hseal _ Htab _]].
  change (op_OperationID (op_set_State vtxoStateAborted op0)) with (op_OperationID op0) in *.
  change (op_VaultID (op_set_State vtxoStateAborted op0)) with (op_VaultID op0) in Hpv. rewrite Hop in *.
  assert (Hlo : loaded w vaultID (trim_space (bq_OperationID req)) op0 ins).
  { constructor; [by exists w6|done|done|exact (live_weaken _ _ _ T6 Hlive)|]. by exists w13. }
  exists vaultID, snap, rec, phone, op0, ins, prior, cur, w4, w16. cbv zeta.
  split; [done|]. split; [done|]. split; [|done].
  split; [exact (transitivity T13 S16)|]. split; [done|]. split; [done|]. by rewrite Hpv.
Qed.

(** [C35] A spend is reported finalized only when the ledger, authenticated, says
    so at that moment: the answer's state and transaction id are those of the
    stored row. *)
Theorem finalized_means_stored req w resp w' : FinalizeVtxo s o req w = Some (Ok resp, w') ->
  exists row, GetVtxoOperation (w_ledger w') (fq_OperationID req) = Ok row /\
      op_State row = vtxoStateFinalized /\ fr_State resp = vtxoStateFinalized /\ fr_ArkTxid resp = op_ArkTxid row /\
      fr_OperationID resp = op_OperationID row.
Proof using Type.
  unfold FinalizeVtxo. intros E.
  apply bindM_Ok in E as (u1 & w1 & _ & (u2 & w2 & _ & (u3 & w3 & _ & ([[v snap] rec] & w4 & _ & E)%bindM_Ok)%bindM_Ok)%bindM_Ok).
  apply bindM_Ok in E as (r & w5 & [_ Hg]%try_Ok%read_Ok & (op & w6 & [-> ->]%foundOr_Ok & E)%bindM_Ok).
  apply bindM_Ok in E as ([] & w7 & [_ ->]%check_Ok & ([] & w8 & [_ ->]%check_Ok & ([] & w9 & [_ ->]%lift_Ok & E)%bindM_Ok)%bindM_Ok).
  destruct (_ && _) eqn:Ef.
  - injection E as <- <-. exists op. bool_prop. rewrite ?seqb_true in *. done.
  - apply bindM_Ok in E as ([] & w10 & _ & ([] & w11 & _ & ([] & w12 & _ & ([] & w13 & _ & E)%bindM_Ok)%bindM_Ok)%bindM_Ok).
    apply bindM_Ok in E as (op2 & w14 & [_ Hg2]%read_Ok & ([] & w15 & [Hs%seqb_true ->]%check_Ok & [= <- <-])%bindM_Ok).
    exists op2. done.
Qed.
End responses.

