(* ===== verification/SpendDemo.v ===== *)
(** * Spending: a concrete service

    A small executable library in place of the third-party code, and one vault
    on it: a signature is the key followed by the digest, a closure lists its
    keys, packets are known by their names.  The theorems of [SpendRuns] are
    applied to its runs: reserve, view, authorize, abort, finalize. *)

From S2P Require Import Prelude Crypto Codec GoTime Program Vtxo Ledger SignCount Recovery VtxoLedger Allowance Tenant Apperr P256 Der Json WebAuthn SpendSelect Psbt SpendVerify KeyProvider Trees Service SpendService SpendSafety SpendRuns Effects.
From Stdlib Require Import Strings.Byte Strings.Ascii Strings.String Floats.SpecFloat.
From stdpp Require Import base decidable list strings gmap option relations.
From Stdlib Require Import ZArith Lia.
Open Scope string_scope.
Open Scope list_scope.
Open Scope Z_scope.

(** ** The library *)

Definition demo_hash : bytes := replicate 32 x01.
Definition demo_keys (ks : list Z) : bytes := concat (map (be_bytes 32) ks).
Definition demo_script (c : list Z * Z) : bytes := be_bytes 4 c.2 ++ demo_keys c.1.
Fixpoint demo_chunks (n : nat) (b : bytes) : list Z :=
  match n with O => [] | S n => if zlen b <? 32 then [] else be_val (take 32 b) :: demo_chunks n (drop 32 b) end.

(** The vault's keys: phone 5, owner 7, Operator 9, and the derived cosigner. *)
Definition demo_cosigner : Z := be_val toy_vtxo_key.
Definition demo_leaf : bytes := demo_script ([5; demo_cosigner; 9], 0).
Definition demo_delegate : Z := be_val (default [] (hex_decode VaultPolicyV1PinnedDelegate)).
Definition demo_tapkey : bytes :=
  sha256 (demo_leaf ++ demo_script ([5; 7], match PinsFor NetworkMutinynet with Ok p => pin_PolicyExitDelay p | Err _ => 0 end)
    ++ demo_script ([5; demo_cosigner; demo_delegate; 9], 0)).
Definition demo_pkscript : bytes := x51 :: x20 :: demo_tapkey.
Definition demo_unroll : bytes := [x00; x00; x00; x52].
Definition demo_checkpoint_key : bytes := sha256 (demo_unroll ++ demo_leaf).

Definition demo_pinput (value : Z) (key : bytes) (sighash : Z) (signers : list Z) : PInput :=
  MkPInput (Some (MkTxOut value (x51 :: x20 :: key))) sighash [Some (MkTapLeafScript key demo_leaf BaseLeafVersion)]
    (map (fun k => Some (MkSpendSig (be_bytes 32 k) demo_leaf (be_bytes 32 k ++ demo_hash) sighash)) signers) [].
Definition demo_txin (op : OutPoint) : TxIn := MkTxIn op MaxTxInSequenceNum [] [].
Definition demo_anchor : TxOut := MkTxOut 0 [x51; x02; x4e; x73].

(** The coin of the vault is output 0 of transaction 09..09 with 1000 sats. *)
Definition demo_checkpoint (signers : list Z) : Packet :=
  MkPacket (Some (MkMsgTx 3 0 [demo_txin (replicate 32 x09, 0)] [MkTxOut 1000 (x51 :: x20 :: demo_checkpoint_key); demo_anchor]))
    [demo_pinput 1000 demo_tapkey SigHashDefault signers] [[]; []] [].
Definition demo_ark_tx (signers : list Z) : Packet :=
  MkPacket (Some (MkMsgTx 3 0 [demo_txin (replicate 32 x08, 0)] [MkTxOut 1000 [x52]; demo_anchor]))
    [demo_pinput 1000 demo_checkpoint_key SigHashDefault signers] [[]; []] [].
Definition demo_proof (signers : list Z) : Packet :=
  MkPacket (Some (MkMsgTx 2 0 [demo_txin (replicate 32 x00, 0); demo_txin (replicate 32 x09, 0)] [MkTxOut 0 [OP_RETURN]]))
    [demo_pinput 0 demo_tapkey SigHashAll signers; demo_pinput 1000 demo_tapkey SigHashAll signers]
    [[]] [Some ([x09], canonicalGetPendingTxMessage)].

(** The packets by name: one letter for the transaction, one for the signers. *)
Definition demo_packets : list (string * Packet) :=
  [("CPAA", demo_checkpoint []); ("CPAB", demo_checkpoint [5; 9]); ("CPAC", demo_checkpoint [5; 9; demo_cosigner]);
   ("ARKA", demo_ark_tx [5]); ("ARKB", demo_ark_tx [5; demo_cosigner]);
   ("PRFA", demo_proof [5]); ("PRFB", demo_proof [5; demo_cosigner])].
Definition demo_shape (p : Packet) : Z * Z * Z :=
  (match pk_UnsignedTx p with Some tx => tx_Version tx | None => 0 end,
   match pk_Inputs p with i :: _ => match pi_WitnessUtxo i with Some o => be_val (to_PkScript o) | None => 0 end | [] => 0 end,
   match pk_Inputs p with i :: _ => zlen (pi_TaprootScriptSpendSig i) | [] => 0 end).

#[local] Instance demo_btc : Btc := {|
  PublicKey := Z;
  SchnorrSig := bytes;
  NewFromRawBytes := fun s => match List.find (fun x => seqb s x.1) demo_packets with Some x => Ok x.2 | None => Err (Errorf "invalid psbt") end;
  B64Encode := fun p => match List.find (fun x => bool_decide (demo_shape x.2 = demo_shape p)) demo_packets with Some x => Ok x.1 | None => Err (Errorf "encode") end;
  TxHash := fun tx => match tx_TxIn tx with i :: _ => if beqb (ti_PreviousOutPoint i).1 (replicate 32 x09) then replicate 32 x08 else replicate 32 x07 | [] => [] end;
  TapHash := fun leaf => leaf;
  CalcTapscriptSignaturehash := fun _ _ _ _ _ => Ok demo_hash;
  RawTxInTapscriptSignature := fun _ _ _ _ _ _ _ k => Ok (be_bytes 32 k ++ demo_hash);
  ParseSignature := fun b => Ok b;
  ParseXOnly := fun b => Ok (be_val b);
  VerifySig := fun sig digest key => beqb sig (be_bytes 32 key ++ digest);
  SerializeXOnly := be_bytes 32;
  PubKey := fun k => k;
  PrevoutTxFields := fun _ _ => Ok []
|}.

#[local] Instance demo_arkade : Arkade := {|
  SerializeCompressed := fun k => x02 :: be_bytes 32 k;
  ParsePubKey := fun raw => Ok (be_val (drop 1 raw));
  EmulatorEntry := unit;
  ArkadeScript := unit;
  FindEmulatorPacket := fun _ => Ok [tt];
  ReadArkadeScript := fun _ _ _ => Ok tt;
  script_Execute := fun _ _ _ _ _ => Ok tt;
  script_Hash := fun _ => demo_hash;
  ComputeArkadeScriptPrivateKey := fun k _ => Some k;
  VerifyTaprootLeafCommitment := fun _ _ => Ok tt
|}.

#[local] Instance demo_ark : Ark := {|
  Closure := list Z * Z;
  ControlBlock := bytes;
  TapKeyT := bytes;
  TapTreeT := bytes;
  DecodeClosure := fun b => if zlen b <? 4 then Err (Errorf "closure") else Ok (demo_chunks (length b) (drop 4 b), be_val (take 4 b));
  MultisigKeys := fun c => Some (map Some c.1);
  ParseControlBlock := fun b => Ok b;
  OutputKey := fun control _ => control;
  P2TRScript := fun key => Ok (x51 :: x20 :: key);
  TapTree := fun leaves => let s := concat (map demo_script leaves) in Ok (sha256 s, sha256 s);
  MerkleProofControl := fun tree _ => Ok tree;
  ANCHOR_PKSCRIPT := [x51; x02; x4e; x73];
  intent_Verify := fun _ _ _ => Ok tt
|}.

#[local] Instance demo_arklib : ArkLib := {|
  MultisigClosure := fun keys => (keys, 0);
  CSVMultisigClosure := fun keys delay => (keys, delay);
  NewDefaultVtxoScript := fun user arkd delay => [([user], delay); ([user; arkd], 0)];
  ExitClosures := fun leaves => length (List.filter (fun c => 0 <? c.2) leaves);
  Script := fun c => Ok (demo_script c);
  Encode := fun leaves => Ok (map (fun c => hex_encode (demo_script c)) leaves);
  SerializeTapKey := fun k => k;
  AddrHRP := fun mainnet => if mainnet then "ark" else "tark";
  EncodeV0 := fun hrp _ key => Ok (hrp ++ "1" ++ hex_encode key)%string;
  DecodeAddressV0 := fun addr => if seqb addr "tark1dest" then Ok (MkArkAddress _ "tark" (Some 9) (Ok [x52])) else Err (Errorf "address");
  NewAddressTaproot := fun key _ => Ok (hex_encode key)
|}.

#[local] Instance demo_text : ErrorText := fun _ => "".
#[local] Instance demo_fees : FeeEnv := {|
  Estimator := unit; arkfee_New := fun _ => Some tt; EvalOffchainInput := fun _ _ _ => Some (S754_zero false); Eval := fun _ _ _ _ => Some (S754_zero false); ctx_Err := fun _ => None
|}.

(** ** A concrete run: reading an expired reservation aborts it *)


Definition demo_op : VtxoOperation :=
  MkVtxoOperation "000102030405060708090a0b0c0d0e0f" "vault-a" "spend" (replicate 32 x01) "reserved"
    10000 100 (replicate 32 x02) [x51] [] 0 None "" "" [] "" "" "" [x52] ""
    (formatRFC3339 (example_now + vtxoReserveAuthorizeTimeout)) (formatRFC3339 example_now) [x51] [].

Definition demo_reserve :=
  ReserveVtxoOperation example_l0 example_env example_now example_now demo_op [VtxoLedger.example_input] 200000.

Lemma demo_op_typed : op_well_typed demo_op.
Proof. unfold op_well_typed, int64_range, int64_max; simpl. split_and!; try lia; done. Qed.

Definition demo_cap : string -> Z := fun _ => 200000.

Lemma demo_times : time_ok example_now /\ time_ok (example_now + vtxoReserveAuthorizeTimeout) /\
  time_ok (example_now + 3 * minute) /\ time_ok (example_now + 3 * minute + vtxoReserveAuthorizeTimeout).
Proof. vm_compute. intuition discriminate. Qed.

Lemma reserve_demo l r : ReserveVtxoOperation example_l0 example_env example_now example_now demo_op [VtxoLedger.example_input] 200000 = (l, r) ->
  inv (l, example_now) /\ born (l_db l).
Proof.
  destruct demo_times as (T1 & T2 & _). intros E. pose proof (fresh_inv example_l0 example_now example_fresh) as Hi. split.
  - refine (proj1 (lstep_simulated demo_cap _ _ Hi (l_reserve demo_cap _ _ _ _ _ example_now _ _ _ _ _ _ demo_op_typed T1 eq_refl E))); lia.
  - assert (Hb : born (l_db example_l0)) by (intros k x; simpl; by rewrite lookup_empty).
    destruct (Reserve_cases _ _ _ _ _ _ _ _ _ E) as [_ [[Ed _]|(_ & d1 & rec' & Hr)]]; [by rewrite Ed|].
    exact (born_reserve _ _ _ _ _ _ _ _ _ example_now (proj1 Hi) Hr T1 T2 eq_refl eq_refl Hb).
Qed.

(** Two P-256 keys with one signature each: the passkey's over the assertion
    below, the phone's over the bundle digest of the spend below. *)
Definition demo_passkey : bytes := default [] (hex_decode "029caf15498d473702956770a2b09c6c1498d382b34ae2fa05eb4458abf4121b3a").
Definition demo_direct : bytes := default [] (hex_decode "02be0849a1eb68c744b4e32edcb60cbf60c1ef1bd0b3973bb597fe8ca7d65dd555").
Definition demo_passkey_scalar : Z := 0x33f085d24b7eb7a7a16fa148eff2ee153cd4cd291d988e0c0ce026ab81bae9b5.
Definition demo_direct_scalar : Z := 0x2d93ae1c19edc72be56a9afbe4c6a7a71a2d670c11a442082e1c93970b62bd36.

Definition demo_vault : VaultRecord :=
  MkVault "vault-a" "savings-v1" "vault-policy-v1" "standard" "mutinynet" "example.org" "https://example.org"
    (replicate 33 x02) demo_direct (replicate 33 x02) [] (replicate 33 x02) (replicate 33 x02)
    "https://arkade" "v1" "hkdf-sha256-v1" "tark1" [x51; x20] 330 100000 200000 AbsoluteFeeCeiling FeerateCeilingSatPerV [].
Definition demo_sealed_vault : VaultRecord := match SealVaultRecord demo_vault Vtxo.example_key with Ok v => v | Err _ => demo_vault end.
Definition demo_credential : VaultCredential :=
  match SealVaultCredential (MkVaultCredential [x01] "vault-a" demo_passkey [x02] true []) Vtxo.example_key with
  | Ok c => c | Err _ => MkVaultCredential [] "" [] [] false [] end.
Definition demo_tenants : Tenants := MkTenants {["vault-a" := demo_sealed_vault]} {[ [x01] := demo_credential ]} ∅ ∅.
Definition demo_savings : savingsSnapshot := MkSavingsSnapshot "" [] (Some 7) None None None.
Definition demo_at (l : Ledger) (t : Z) : World :=
  MkWorld l t demo_tenants (publishEnrollmentAt None "vault-a" [x01] (Some 5) (Some demo_savings) None) (Some 1) (MkFeeState 0 0 0 0) 0 0.
Definition demo_world : World := demo_at demo_reserve.1 (example_now + 3 * minute).
Definition demo_config : ServiceConfig :=
  MkServiceConfig (MkConfig "" "" NetworkMutinynet) Vtxo.example_key toy_caps 0 0 (Ok tt) true.
Definition demo_outside : Outside :=
  MkOutside (fun _ w => w) (fun _ pk => Ok [MkResolvedVtxo (hex_encode (replicate 32 x09)) 0 1000 pk 0 None false ["c"]])
    (fun _ => Ok (MkIntentFeePolicy "" "" "" "")) (fun _ => demo_unroll) toy_operator (fun _ _ _ _ _ _ => Ok SubmittedVtxoPending)
    (fun _ => example_env) (fun _ => None) (fun _ _ => None).
(** The same world when the Operator reports the spend final. *)
Definition demo_settled : Outside :=
  MkOutside (fun _ w => w) (fun _ pk => Ok [MkResolvedVtxo (hex_encode (replicate 32 x09)) 0 1000 pk 0 None false ["c"]])
    (fun _ => Ok (MkIntentFeePolicy "" "" "" "")) (fun _ => demo_unroll) toy_operator (fun _ _ _ _ _ _ => Ok SubmittedVtxoFinalized)
    (fun _ => example_env) (fun _ => None) (fun _ _ => None).
Definition demo_request : Request := ReqView "vault-a" "000102030405060708090a0b0c0d0e0f".
Definition demo_run := serve demo_config demo_outside demo_request demo_world.

(** The answer, the clock and the state of the row after the request. *)
Definition demo_view (x : option (result unit * World)) : option (result unit * Z * option string) :=
  match x with
  | Some (r, w) => Some (r, w_now w, op_State <$> t_vtxo_operation (l_db (w_ledger w)) !! op_OperationID demo_op)
  | None => None
  end.

Lemma demo_aborts : demo_view demo_run = Some (Ok tt, example_now + 3 * minute, Some vtxoStateAborted).
Proof. vm_compute. reflexivity. Qed.

Lemma demo_caps w : w_tenants w = demo_tenants -> caps demo_config demo_cap w.
Proof.
  intros Et id v snap rec. unfold resolveSpendVaultRecord. rewrite Et.
  intros (i & _ & ([] & _ & (k & _ & ([rec' c] & Hl & E)%bind_Ok)%bind_Ok)%bind_Ok)%bind_Ok.
  destruct rec' as [rec'|]; [|done]. apply bind_Ok in E as ([] & _ & ([] & _ & [= <- <- <-])%bind_Ok).
  unfold LoadVerifiedVault, LoadVault in Hl. apply bind_Ok in Hl as ([r0 c0] & Hl & Hv).
  apply bind_Ok in Hl as ([] & _ & Hl). destruct (tn_vault demo_tenants !! i) as [v0|] eqn:E; [|by injection Hl as <- <-].
  injection Hl as <- <-. apply bind_Ok in Hv as ([] & _ & ([] & _ & [= <- <-])%bind_Ok).
  cbn [tn_vault demo_tenants] in E. apply lookup_singleton_Some in E as [_ <-]. vm_compute. reflexivity.
Qed.

Lemma demo_at_good l t t0 : inv (l, t0) -> born (l_db l) -> time_ok t -> time_ok (t + vtxoReserveAuthorizeTimeout) ->
  good demo_config demo_cap t (demo_at l t).
Proof. intros Hi Hb T1 T2. constructor; [exact Hi|exact Hb|done|simpl; lia|by apply demo_caps]. Qed.

Lemma demo_good : good demo_config demo_cap (example_now + 3 * minute) demo_world.
Proof.
  destruct demo_times as (_ & _ & T3 & T4). destruct (reserve_demo _ _ (surjective_pairing demo_reserve)) as [Hi Hb].
  exact (demo_at_good demo_reserve.1 _ example_now Hi Hb T3 T4).
Qed.

Lemma demo_rely t : rely demo_config demo_outside demo_cap t.
Proof. constructor; [intros n w; simpl; lia|]. intros n w Hg. by apply moved_refl. Qed.

Lemma requests_refine_accumulator_witness :
  demo_view demo_run = Some (Ok tt, example_now + 3 * minute, Some vtxoStateAborted) /\
  exists res w', demo_run = Some (res, w') /\
    rtc (Spec.astep demo_cap) (abs (l_db (w_ledger demo_world)), w_now demo_world) (abs (l_db (w_ledger w')), w_now w').
Proof.
  split; [exact demo_aborts|]. pose proof demo_aborts as D. unfold demo_run in D |- *.
  destruct (serve demo_config demo_outside demo_request demo_world) as [[res w']|] eqn:E; [|discriminate D]. exists res, w'. split; [reflexivity|].
  injection D as _ Hn _.
  refine (proj1 (requests_refine_accumulator demo_config demo_cap demo_outside demo_request demo_world res w' demo_good (demo_rely _) E _)).
  rewrite Hn. vm_compute. discriminate.
Defined.

(** From an empty store: the phone asks for 1000 sats to an Arkade address, and
    the one coin of the vault is reserved for it. *)
Definition demo_id : string := "0f0e0d0c0b0a09080706050403020100".
Definition demo_digest : bytes := match ComputeVtxoReserveDigest demo_id "vault-a" "spend" [x52] 1000 with Ok d => d | Err _ => [] end.
Definition demo_spend : Request :=
  ReqReserve selection_fuel (MkReserveRequest demo_id "vault-a" "spend" "tark1dest" 1000 (hex_encode (be_bytes 32 5 ++ demo_digest))).
Definition demo_empty : World := demo_at example_l0 example_now.

Definition demo_after (x : option (result unit * World)) : option (result unit * Z * option string) :=
  match x with
  | Some (r, w) => Some (r, w_now w, op_State <$> t_vtxo_operation (l_db (w_ledger w)) !! demo_id)
  | None => None
  end.

Lemma demo_reserves : demo_after (serve demo_config demo_outside demo_spend demo_empty) = Some (Ok tt, example_now, Some vtxoStateReserved).
Proof. vm_compute. reflexivity. Qed.

Lemma demo_empty_good : good demo_config demo_cap example_now demo_empty.
Proof.
  destruct demo_times as (T1 & T2 & _). apply (demo_at_good example_l0 _ example_now); [by apply fresh_inv, example_fresh| |done|done].
  intros k r. simpl. by rewrite lookup_empty.
Qed.

Lemma service_keeps_allowance_witness :
  demo_after (serve demo_config demo_outside demo_spend demo_empty) = Some (Ok tt, example_now, Some vtxoStateReserved) /\
  exists w', rtc (request_step demo_config demo_cap) demo_empty w' /\ charged (l_db (w_ledger w')) "vault-a" (w_now w') <= 200000 /\
    one_active (l_db (w_ledger w')).
Proof.
  split; [exact demo_reserves|]. pose proof demo_reserves as D.
  destruct (serve demo_config demo_outside demo_spend demo_empty) as [[res w']|] eqn:E; [|discriminate D].
  injection D as _ Hn _. assert (Hr : rtc (request_step demo_config demo_cap) demo_empty w').
  { apply rtc_once. exists demo_outside, demo_spend, res. split; [apply demo_rely|]. split; [exact E|]. rewrite Hn. vm_compute. discriminate. }
  destruct (service_keeps_allowance demo_config demo_cap demo_empty w' (fun _ => Pos2Z.is_nonneg _) example_fresh demo_empty_good Hr) as (Hc & Ha & _).
  exists w'. split; [exact Hr|]. split; [exact (Hc "vault-a")|exact Ha].
Defined.

(** The reservation is authorized: the phone presents the transaction, its
    checkpoint and the pending proof, with its passkey and its direct key. *)
Definition demo_step (r : Request) (w : World) : World := match serve demo_config demo_settled r w with Some (Ok _, w') => w' | _ => w end.
Definition demo_reserved : World := Eval vm_compute in demo_step demo_spend demo_empty.
Definition demo_auth : VtxoAuthorizeRequest :=
  MkAuthorizeRequest "vault-a" demo_id (hex_encode (be_bytes 32 69742968085829686577909901059778421921985848648017913868201094904271208808853))
    "ARKA" ["CPAA"] "PRFA"
    (MkAssertionRequest (hex_encode [x01]) (hex_encode (synthClientData (replicate 32 x04) "https://example.org"))
       (hex_encode (synthAuthenticatorData "example.org" true true 7)) (hex_encode (marshalECDSA demo_passkey_scalar demo_passkey_scalar)))
    (hex_encode (be_bytes 32 demo_direct_scalar ++ be_bytes 32 demo_direct_scalar)).
Definition demo_signed : World := Eval vm_compute in demo_step (ReqAuthorize demo_auth) demo_reserved.
Definition demo_checkpoints : VtxoCheckpointAuthorizeRequest := MkCheckpointRequest "vault-a" demo_id (aq_BundleDigest demo_auth) ["CPAB"].
Definition demo_submitted : World := Eval vm_compute in demo_step (ReqCheckpoints demo_checkpoints) demo_signed.
Definition demo_finalize : VtxoFinalizeRequest := MkFinalizeRequest "vault-a" demo_id (aq_BundleDigest demo_auth) (hex_encode (replicate 32 x07)).
Definition demo_abort : VtxoAbortRequest :=
  MkAbortRequest demo_id "vault-a" "spend"
    (hex_encode (be_bytes 32 5 ++ match ComputeVtxoAbortDigest demo_id "vault-a" "spend" with Ok d => d | Err _ => [] end)).

(** The successful answer of a handler and the state of the row behind it. *)
Definition demo_answer {A} (x : option (result A * World)) : option (A * option string) :=
  match x with Some (Ok a, w) => Some (a, op_State <$> t_vtxo_operation (l_db (w_ledger w)) !! demo_id) | _ => None end.

Lemma demo_answered {A} (x : option (result A * World)) a st : demo_answer x = Some (a, st) -> exists w', x = Some (Ok a, w').
Proof. destruct x as [[[]?]|]; [|done..]. intros [= -> _]. eauto. Qed.

Lemma demo_authorizes : demo_answer (AuthorizeVtxoSpend demo_config demo_settled demo_auth demo_reserved) =
  Some (MkAuthorizeResponse demo_id (aq_BundleDigest demo_auth) "ARKB" "PRFB" (hex_encode (replicate 32 x07)), Some vtxoStateSigned).
Proof. vm_compute. reflexivity. Qed.

Lemma demo_cosigns : demo_answer (AuthorizeVtxoCheckpoints demo_config demo_settled demo_checkpoints demo_signed) =
  Some (MkCheckpointResponse demo_id (aq_BundleDigest demo_auth) ["CPAC"] (hex_encode (replicate 32 x07)), Some vtxoStateSubmitted).
Proof. vm_compute. reflexivity. Qed.

Lemma demo_finalizes : demo_answer (FinalizeVtxo demo_config demo_settled demo_finalize demo_submitted) =
  Some (MkFinalizeResponse demo_id (aq_BundleDigest demo_auth) vtxoStateFinalized (hex_encode (replicate 32 x07)), Some vtxoStateFinalized).
Proof. vm_compute. reflexivity. Qed.

Lemma released_spends_are_authorized_witness :
  exists w' vaultID snap rec op inputs tree arkPkt pending cred cnt,
    authorized demo_config demo_settled demo_auth
      (MkAuthorizeResponse demo_id (aq_BundleDigest demo_auth) "ARKB" "PRFB" (hex_encode (replicate 32 x07)))
      demo_reserved w' vaultID snap rec op inputs tree arkPkt pending cred cnt.
Proof.
  destruct (demo_answered _ _ _ demo_authorizes) as [w' E]. exists w'.
  exact (released_spends_are_authorized demo_config demo_settled demo_auth demo_reserved _ w' E).
Defined.

(** The world after the reservation, reached by a request of the service. *)
Lemma demo_settled_rely t : rely demo_config demo_settled demo_cap t.
Proof. constructor; [intros n w; simpl; lia|]. intros n w Hg. by apply moved_refl. Qed.

Definition demo_held : World := demo_step demo_spend demo_empty.

Lemma demo_holds : demo_after (serve demo_config demo_settled demo_spend demo_empty) = Some (Ok tt, example_now, Some vtxoStateReserved).
Proof. vm_compute. reflexivity. Qed.

Lemma demo_held_good : good demo_config demo_cap (w_now demo_held) demo_held.
Proof.
  unfold demo_held, demo_step. pose proof demo_holds as D.
  destruct (serve demo_config demo_settled demo_spend demo_empty) as [[res w']|] eqn:E; [|discriminate D]. injection D as -> Hn _.
  refine (proj2 (answered_moves demo_config demo_cap demo_settled demo_spend demo_empty (Ok tt) w' demo_empty_good
    (conj (demo_settled_rely _) (conj E _)))). rewrite Hn. vm_compute. discriminate.
Qed.

Lemma demo_abandons : demo_answer (AbortVtxo demo_config demo_settled demo_abort demo_held) =
  Some (MkAbortResponse demo_id vtxoStateAborted, Some vtxoStateAborted).
Proof. vm_compute. reflexivity. Qed.

Lemma aborts_are_phone_authorized_witness :
  exists w' vaultID snap rec phone op row w1 w2,
    (resolveSpendVaultRecord (sv_Config demo_config) (sv_IntegrityKey demo_config) (w_published w1) (w_tenants w1) "vault-a" = Ok (vaultID, snap, rec) /\
     en_PhoneBIP340 snap = Some phone) /\
    SealVtxoOperation (op_set_State vtxoStateAborted op) (l_integrityKey (w_ledger w2)) = Ok row /\
    t_vtxo_operation (l_db (w_ledger w')) = <[demo_id := row]> (t_vtxo_operation (l_db (w_ledger w2))).
Proof.
  destruct (demo_answered _ _ _ demo_abandons) as [w' E]. exists w'.
  destruct (aborts_are_phone_authorized demo_config demo_settled demo_cap demo_abort demo_held _ w'
              demo_held_good (demo_settled_rely _) E)
    as (vaultID & snap & rec & phone & op & inputs & prior & row & w1 & w2 & (_ & Hv & Hp & _) & _ & _ & Hs & Ht & _).
  exists vaultID, snap, rec, phone, op, row, w1, w2. exact (conj (conj Hv Hp) (conj Hs Ht)).
Defined.

Lemma finalized_means_stored_witness :
  exists w' row, GetVtxoOperation (w_ledger w') demo_id = Ok row /\ op_State row = vtxoStateFinalized /\
    hex_encode (replicate 32 x07) = op_ArkTxid row.
Proof.
  destruct (demo_answered _ _ _ demo_finalizes) as [w' E]. exists w'.
  destruct (finalized_means_stored demo_config demo_settled demo_finalize demo_submitted _ w' E) as (row & Hg & Hs & _ & Ht & _).
  exists row. exact (conj Hg (conj Hs Ht)).
Defined.
