(* ===== verification/Deployment.v ===== *)
(** * Deployment identity

    [internal/deployment]: the pinned identity of each network and the validation
    of the origin and relying party a deployment serves. *)

From S2P Require Import Prelude Crypto Program Recovery Json Service.
From Stdlib Require Import Strings.Byte Strings.Ascii Strings.String.
From stdpp Require Import base decidable list strings gmap option.
From Stdlib Require Import ZArith Lia.
Open Scope string_scope.
Open Scope list_scope.
Open Scope Z_scope.

(** ** Pinned identities: identity.go *)

Definition MainnetSignerIdentity := "urn:vaulted:mainnet-signer:v1".
Definition MainnetWalletOrigin := "https://app.getvaulted.xyz".
Definition MainnetWalletRPID := "app.getvaulted.xyz".
Definition MainnetRCOrigin := "https://rc.getvaulted.xyz".
Definition MainnetRCRPID := "rc.getvaulted.xyz".

Record Identity := MkIdentity {
  id_Network : string; id_OperatorGetInfoNetwork : string; id_OperatorOrigin : string; id_EsploraOrigin : string; id_EmulatorOrigin : string;
  id_EmulatorPubHex : string; id_EmulatorVersion : string; id_OperatorSignerPubHex : string; id_CheckpointForfeitPubHex : string;
  id_CheckpointTapscriptHex : string; id_CheckpointDelaySeconds : Z; id_CheckpointHeight : Z; id_CheckpointHash : string;
  id_VtxoTreeExpirySeconds : Z
}.

Definition MutinynetIdentity : Identity :=
  MkIdentity NetworkMutinynet NetworkMutinynet "https://mutinynet.arkade.sh" "https://mempool.mutinynet.arkade.sh/api"
    "https://emulator.mutinynet.arkade.sh" "03f823b9b2febc81f4af967e77aed2f541cbd3397c6d8f5a72e32eb7b471af889a" "v0.0.7-rc.1"
    "03301078808e4f7bc0dadfe29e34b1df8eaf0108ef06b1722274075ebc107a127a"
    "02dfcaec558c7e78cf3e38b898ba8a43cfb5727266bae32c5c5b3aeb32c558aa0b"
    "03080040b27520dfcaec558c7e78cf3e38b898ba8a43cfb5727266bae32c5c5b3aeb32c558aa0bac" 4096 1
    "000002855893a0a9b24eaffc5efc770558a326fee4fc10c9da22fc19cd2954f9" 604672.

Definition MainnetIdentity : Identity :=
  MkIdentity NetworkMainnet "bitcoin" "https://arkade.computer" "https://mempool.space/api" ""
    "0239c196415da47b26456a101daaa12ba9e445bfe153197f1e2b750bf40e52092e" "v0.0.7"
    "038202bebddeb1f7442803897a85eaf3ce9254d07df0172fc3725ab5f0d097779c"
    "03b43a8363118c084a04d4f6a50ebfa58e81957f8cceceb2aee0ab64c9fd2d9977"
    "039e0440b27520b43a8363118c084a04d4f6a50ebfa58e81957f8cceceb2aee0ab64c9fd2d9977ac" 605184 0
    "000000000019d6689c085ae165831e934ff763ae46a2a6c172b3f1b60a8ce26f" 2592256.

Definition IdentityFor (network : string) : result Identity :=
  if seqb network NetworkMutinynet then Ok MutinynetIdentity
  else if seqb network NetworkMainnet then Ok MainnetIdentity
  else Err (Errorf ("unsupported network " ++ network)).

Definition BitcoinCheckpoint (c : Config) : result (Z * string) :=
  id ← IdentityFor (cfg_Network c); Ok (id_CheckpointHeight id, id_CheckpointHash id).

Definition AllowedMainnetWallet (origin rpID : string) : bool :=
  (seqb origin MainnetWalletOrigin && seqb rpID MainnetWalletRPID) || (seqb origin MainnetRCOrigin && seqb rpID MainnetRCRPID).

(** ** Strings *)

(** [strings.Cut]: before the first [c], and what follows it. *)
Fixpoint cut (c : ascii) (s : string) : string * option string :=
  match s with
  | "" => ("", None)
  | String a s => if ascii_dec a c then ("", Some s) else let '(b, r) := cut c s in (String a b, r)
  end.

(** At the last [c]. *)
Fixpoint cut_last (c : ascii) (s : string) : option (string * string) :=
  match s with
  | "" => None
  | String a s =>
      match cut_last c s with
      | Some (b, r) => Some (String a b, r)
      | None => if ascii_dec a c then Some ("", s) else None
      end
  end.

Definition all_chars (p : ascii -> bool) (s : string) : bool := forallb p (list_ascii_of_string s).
Definition char_in (s : string) (a : ascii) : bool := bool_decide (a ∈ list_ascii_of_string s).
Definition contains (c : ascii) (s : string) : bool := char_in s c.
Definition code (a : ascii) : Z := Z.of_nat (nat_of_ascii a).
Definition in_range (lo hi : Z) (a : ascii) : bool := (lo <=? code a) && (code a <=? hi).
Definition is_digit (a : ascii) : bool := in_range 48 57 a.
Definition is_alpha (a : ascii) : bool := in_range 97 122 a || in_range 65 90 a.

(** ** [url.Parse]

    An absolute URL with an authority; [None] is an error, no scheme or no host,
    which the caller answers alike.  Brackets and escapes in a host are [None] as
    well: a bracketed address has colons, an escape changes the host, and both
    are refused by the comparisons that follow. *)

Record URL := MkURL { u_Scheme : string; u_Host : string; u_User : bool; u_RawQuery : string; u_Fragment : string; u_Path : string }.

Fixpoint scheme_chars (s : string) : option (string * string) :=
  match s with
  | "" => None
  | String a s =>
      if is_alpha a || is_digit a || char_in "+-." a then (fun br => (String a br.1, br.2)) <$> scheme_chars s
      else if ascii_dec a ":" then Some ("", s) else None
  end.

Definition getScheme (s : string) : option (string * string) :=
  match s with String a _ => if is_alpha a then scheme_chars s else None | "" => None end.

Fixpoint escapes_ok (s : string) : bool :=
  match s with
  | "" => true
  | String "%" (String a (String b s)) => match from_hex_char a, from_hex_char b with Some _, Some _ => escapes_ok s | _, _ => false end
  | String "%" _ => false
  | String _ s => escapes_ok s
  end.

Definition host_char (a : ascii) : bool := is_alpha a || is_digit a || char_in "-_.~!$&'()*+,;=:<>" a || in_range 34 34 a || (128 <=? code a).
Definition user_char (a : ascii) : bool := is_alpha a || is_digit a || char_in "-._:~!$&'()*+,;=%@" a.

Definition parseHost (host : string) : option string :=
  if all_chars host_char host && match cut_last ":" host with Some (_, port) => all_chars is_digit port | None => true end
  then Some host else None.

(** The host, and whether a user was given. *)
Definition parseAuthority (authority : string) : option (string * bool) :=
  match cut_last "@" authority with
  | None => (fun h => (h, false)) <$> parseHost authority
  | Some (user, host) => if all_chars user_char user && escapes_ok user then (fun h => (h, true)) <$> parseHost host else None
  end.

(** [rest], the query cut off; a single trailing question mark leaves no query. *)
Definition splitQuery (rest : string) : string * string := let '(b, q) := cut "?" rest in (b, default "" q).

Definition strip2 (s : string) : option string :=
  match s with String "/" (String "/" s) => Some s | _ => None end.

Definition url_Parse (raw : string) : option URL :=
  let '(u, frag) := cut "#" raw in
  let fragment := default "" frag in
  if negb (all_chars (fun a => (32 <=? code a) && negb (code a =? 127)) u) || negb (escapes_ok fragment) then None else
  '(scheme, rest) ← getScheme u;
  let '(rest, query) := splitQuery rest in
  authority ← strip2 rest;
  let '(authority, path) := cut "/" authority in
  '(host, user) ← parseAuthority authority;
  let path := match path with Some p => String "/" p | None => "" end in
  if negb (escapes_ok path) || seqb host "" then None
  else Some (MkURL (to_lower scheme) host user query fragment path).

(** [u.Hostname()] *)
Definition Hostname (host : string) : string :=
  match cut_last ":" host with Some (h, port) => if all_chars is_digit port then h else host | None => host end.

(** ** [Config.Validate]: config.go *)

Definition canonicalPort (host : string) : result string :=
  match cut ":" host with
  | (_, None) => Ok ""
  | (_, Some port) =>
      require (negb (seqb port "")) (Errorf "client origin port is empty");;
      match digits_of_string port with
      | Some ds =>
          let n := digits_val ds in
          require ((1 <=? n) && (n <=? 65535) && seqb (fmt_uint n) port) (Errorf "client origin port must be canonical decimal 1..65535");;
          Ok port
      | None => Err (Errorf "client origin port must be canonical decimal 1..65535")
      end
  end.

(** [net.ParseIP] of a text without colons: four decimals up to 255 without
    leading zeros. *)
Definition ipv4_field (s : string) : bool :=
  match digits_of_string s with Some ds => (digits_val ds <=? 255) && seqb (fmt_uint (digits_val ds)) s | None => false end.
Definition is_ipv4 (s : string) : bool :=
  match cut "." s with
  | (a, Some s) =>
      match cut "." s with
      | (b, Some s) => match cut "." s with (c, Some d) => ipv4_field a && ipv4_field b && ipv4_field c && ipv4_field d | _ => false end
      | _ => false
      end
  | _ => false
  end.

(** [strings.TrimSuffix(s, ".")] *)
Definition trim_dot (s : string) : string := match cut_last "." s with Some (b, "") => b | _ => s end.

Definition Config_Validate (c : Config) : result unit :=
  require (negb (seqb (cfg_ClientOrigin c) "" || seqb (cfg_RPID c) "" || seqb (cfg_Network c) ""))
    (Errorf "origin, rp id and network are required");;
  match url_Parse (cfg_ClientOrigin c) with
  | None => Err (Errorf "invalid origin")
  | Some u =>
      require (negb (u_User u) && seqb (u_RawQuery u) "" && seqb (u_Fragment u) "" && seqb (u_Path u) "")
        (Errorf "origin must contain only scheme and authority");;
      require (seqb (cfg_ClientOrigin c) (u_Scheme u ++ "://" ++ u_Host u) && seqb (u_Scheme u) (to_lower (u_Scheme u)) &&
               seqb (u_Host u) (to_lower (u_Host u))) (Errorf "client origin must be canonical lowercase scheme://host[:port]");;
      port ← canonicalPort (u_Host u);
      require (negb ((seqb (u_Scheme u) "https" && seqb port "443") || (seqb (u_Scheme u) "http" && seqb port "80")))
        (Errorf "client origin must omit the default port");;
      let host := to_lower (Hostname (u_Host u)) in
      require (all_chars (fun a => code a <=? 127) host) (Errorf "client origin hostname must use canonical ASCII form");;
      let rp := to_lower (trim_dot (cfg_RPID c)) in
      require (seqb (cfg_RPID c) rp) (Errorf "rp id must be canonical lowercase without a trailing dot");;
      require (negb (seqb host "" || seqb rp "" || negb (seqb host rp) || contains ":" (cfg_RPID c))) (Errorf "rp id must equal the origin hostname");;
      require (negb (is_ipv4 rp)) (Errorf "IP relying party is not supported");;
      _ ← IdentityFor (cfg_Network c);
      require (seqb (u_Scheme u) "https") (Errorf (cfg_Network c ++ " requires an https origin"));;
      require (negb (seqb (cfg_Network c) NetworkMainnet && negb (AllowedMainnetWallet (cfg_ClientOrigin c) (cfg_RPID c))))
        (Errorf "mainnet origin is not a release-pinned Vaulted wallet host")
  end.

(** ** What is accepted *)

Lemma string_elem a s : contains a s = true <-> a ∈ list_ascii_of_string s.
Proof. unfold contains, char_in. apply bool_decide_eq_true. Qed.

Lemma cut_last_app c s h p : cut_last c s = Some (h, p) -> s = (h ++ String c p)%string.
Proof.
  revert h p. induction s as [|a s IH]; intros h p; [done|]. simpl. destruct (cut_last c s) as [[b r]|] eqn:E.
  - intros [= <- <-]. rewrite str_cons_app. f_equal. by apply IH.
  - destruct (ascii_dec a c) as [->|]; [|done]. by intros [= <- <-].
Qed.

Lemma cut_last_None c s : cut_last c s = None -> cut c s = (s, None).
Proof.
  induction s as [|a s IH]; [done|]. simpl. destruct (cut_last c s) as [[b r]|]; [done|].
  destruct (ascii_dec a c); [done|]. intros _. by rewrite IH.
Qed.

Lemma cut_app c h p : contains c h = false -> cut c (h ++ String c p)%string = (h, Some p).
Proof.
  induction h as [|a h IH]; intros Hc; [change (cut c (String c p) = ("", Some p))|rewrite str_cons_app]; cbn -[String.append].
  - by destruct (ascii_dec c c).
  - destruct (ascii_dec a c) as [->|Hne].
    + apply not_true_iff_false in Hc. exfalso. apply Hc, string_elem. simpl. set_solver.
    + rewrite IH; [done|]. apply not_true_iff_false in Hc. apply not_true_iff_false. intros He%string_elem. apply Hc, string_elem. simpl. set_solver.
Qed.

Lemma lower_app a b : to_lower (a ++ b)%string = (to_lower a ++ to_lower b)%string.
Proof. induction a as [|c a IH]; [done|]. rewrite str_cons_app. cbn -[String.append]. by rewrite IH, str_cons_app. Qed.

Lemma append_inj_len a1 a2 (b1 b2 : string) : String.length a1 = String.length a2 -> (a1 ++ b1 = a2 ++ b2)%string -> a1 = a2 /\ b1 = b2.
Proof.
  revert a2. induction a1 as [|c a1 IH]; intros [|c2 a2]; rewrite ?str_cons_app; try done. intros [= Hl] [= -> E]. apply IH in E as [-> ->]; done.
Qed.

Lemma str_app_nil (s : string) : (s ++ "")%string = s.
Proof. induction s as [|c s IH]; [done|]. by rewrite str_cons_app, IH. Qed.

Lemma length_lower s : String.length (to_lower s) = String.length s.
Proof. induction s as [|c s IH]; [done|]. simpl. by rewrite IH. Qed.

Lemma url_host_chars raw u : url_Parse raw = Some u -> parseHost (u_Host u) = Some (u_Host u).
Proof.
  unfold url_Parse. destruct (cut "#" raw) as [v frag]. destruct (_ || _); [done|].
  destruct (getScheme v) as [[scheme rest]|]; simpl; [|done]. destruct (splitQuery rest) as [r q].
  destruct (strip2 r) as [a|]; simpl; [|done]. destruct (cut "/" a) as [auth path].
  assert (Hh : forall h n, parseHost h = Some n -> parseHost n = Some n).
  { intros h n E. pose proof E as E'. unfold parseHost in E'. destruct (_ && _) in E'; [|done]. injection E' as <-. done. }
  unfold parseAuthority. destruct (cut_last "@" auth) as [[user host]|].
  - destruct (_ && _); simpl; [|done]. destruct (parseHost host) as [n|] eqn:E; simpl; [|done]. destruct (_ || _); [done|].
    intros [= <-]. by eapply Hh.
  - destruct (parseHost auth) as [n|] eqn:E; simpl; [|done]. destruct (_ || _); [done|]. intros [= <-]. by eapply Hh.
Qed.

(** A lowercase host whose name has no colon is the name and its port. *)
Lemma host_split host port : parseHost host = Some host -> host = to_lower host -> contains ":" (to_lower (Hostname host)) = false ->
  canonicalPort host = Ok port -> host = (to_lower (Hostname host) ++ (if seqb port "" then "" else ":" ++ port))%string /\
  (port = "" \/ exists n, 1 <= n <= 65535 /\ port = fmt_uint n).
Proof.
  intros Hp Hl Hc. unfold Hostname, canonicalPort, parseHost in *. destruct (_ && _) eqn:Hok; [|done]. apply andb_true_iff in Hok as [_ Hd].
  destruct (cut_last ":" host) as [[h p]|] eqn:E.
  - rewrite Hd in *. apply cut_last_app in E. rewrite E, lower_app in Hl. pose proof Hl as [Eh Ep]%append_inj_len; [|by rewrite length_lower].
    rewrite <-Eh in *. rewrite E, (cut_app _ h p) by done. intros ([] & Hne%require_Ok & Hk)%bind_Ok.
    destruct (digits_of_string p) as [ds|]; [|done]. apply bind_Ok in Hk as ([] & Hn%require_Ok & [= <-]).
    apply negb_true_iff in Hne. rewrite Hne. split; [done|]. right. bool_prop. exists (digits_val ds). split; [lia|]. symmetry. by apply seqb_true.
  - rewrite (cut_last_None _ _ E). intros [= <-]. simpl. rewrite <-Hl. rewrite str_app_nil. split; [done|by left].
Qed.

(** [C40] A deployment that validates is one the release pins: an https origin
    whose host is exactly the relying party, a lowercase ASCII name that is no
    address, with no port or a canonical one that is not the default, on one of
    the two networks, and on mainnet one of the two wallet hosts. *)
Theorem valid_deployment_pinned c : Config_Validate c = Ok tt ->
  (exists port, cfg_ClientOrigin c = ("https://" ++ cfg_RPID c ++ port)%string /\
     (port = "" \/ exists n, 1 <= n <= 65535 /\ n <> 443 /\ port = (":" ++ fmt_uint n)%string)) /\
  cfg_RPID c <> "" /\ cfg_RPID c = to_lower (cfg_RPID c) /\ is_ipv4 (cfg_RPID c) = false /\
  all_chars (fun a => code a <=? 127) (cfg_RPID c) = true /\
  (cfg_Network c = NetworkMutinynet \/
   cfg_Network c = NetworkMainnet /\
     ((cfg_ClientOrigin c, cfg_RPID c) = (MainnetWalletOrigin, MainnetWalletRPID) \/ (cfg_ClientOrigin c, cfg_RPID c) = (MainnetRCOrigin, MainnetRCRPID))).
Proof.
  unfold Config_Validate. intros ([] & _ & E)%bind_Ok. destruct (url_Parse _) as [u|] eqn:Hu; [|done]. apply url_host_chars in Hu.
  apply bind_Ok in E as ([] & _ & ([] & Ho%require_Ok & (port & Hport & ([] & Hdef%require_Ok & E)%bind_Ok)%bind_Ok)%bind_Ok).
  apply bind_Ok in E as ([] & Hasc%require_Ok & ([] & Hrp%require_Ok & ([] & Hhost%require_Ok & ([] & Hip%require_Ok & E)%bind_Ok)%bind_Ok)%bind_Ok).
  apply bind_Ok in E as (id & Hid & ([] & Hs%require_Ok & Hm%require_Ok)%bind_Ok).
  apply seqb_true in Hs, Hrp. rewrite <-Hrp in *. rewrite !andb_true_iff, !seqb_true in Ho. destruct Ho as [[Ho _] Hlow].
  apply negb_true_iff in Hhost, Hip, Hdef. rewrite !orb_false_iff, !seqb_false, negb_false_iff, seqb_true in Hhost. destruct Hhost as [[[_ Hne] Heq] Hcol].
  rewrite Hs in *. rewrite Heq in Hasc.
  destruct (host_split (u_Host u) port Hu Hlow) as [Hsplit Hn]; [by rewrite Heq|done|].
  rewrite Heq in Hsplit. split_and!; try done.
  - rewrite Hsplit in Ho. destruct Hn as [->|(n & Hn & ->)].
    + exists "". rewrite Ho. split; [done|by left].
    + assert (Hf : seqb (fmt_uint n) "" = false).
      { apply seqb_false. intros E. assert (Hd := digits_fmt_uint n ltac:(lia)). rewrite E in Hd. simpl in Hd. destruct Hd as (ds & [= <-] & Hv & _). done. }
      rewrite Hf in Ho. exists (":" ++ fmt_uint n)%string. rewrite Ho. split; [done|]. right. exists n. split_and!; [lia|lia| |done].
      intros ->. done.
  - by rewrite Hrp, to_lower_idem.
  - unfold IdentityFor in Hid. destruct (seqb (cfg_Network c) NetworkMutinynet) eqn:E1; [left; by apply seqb_true|].
    destruct (seqb (cfg_Network c) NetworkMainnet) eqn:E2; [|done]. right. split; [by apply seqb_true|].
    apply negb_true_iff in Hm. simpl in Hm. apply negb_false_iff, orb_true_iff in Hm.
    destruct Hm as [[Ha Hb]%andb_true_iff|[Ha Hb]%andb_true_iff]; apply seqb_true in Ha, Hb; rewrite Ha, Hb; tauto.
Qed.

Definition example_config : Config := MkConfig "https://vault.example:8443" "vault.example" NetworkMutinynet.

Lemma valid_deployment_pinned_witness : Config_Validate example_config = Ok tt /\ cfg_RPID example_config <> "".
Proof. split; [vm_compute; reflexivity|]. apply (valid_deployment_pinned example_config). vm_compute. reflexivity. Defined.
