(* ===== verification/Register.v ===== *)
(** * Registration: requests, credentials and descriptors

    The parts of [internal/application/service.go], [enroll.go],
    [enroll_savings.go] and [enroll_board.go] that compute: parsing a register
    request, minting the credential of a vault and rebuilding its trees from a
    stored one, the boarding enrollment, and the descriptor hash a user
    approves. *)

From S2P Require Import Prelude Crypto Codec Program Recovery Tenant BoardRows Json WebAuthn Psbt SpendVerify KeyProvider Trees Savings Service Deployment.
From Stdlib Require Import Strings.Byte Strings.Ascii Strings.String.
From stdpp Require Import base decidable list strings gmap option.
From Stdlib Require Import ZArith Lia.
Open Scope string_scope.
Open Scope list_scope.
Open Scope Z_scope.

Definition UnsafeGeneratorG := "0279be667ef9dcbbac55a06295ce870b07029bfcdb2dce28d959f2815b16f81798".
Definition UnsafeGenerator2G := "02c6047f9441ed7d6d3045406e95c07cd85c778e4b8cef3ca7abac09b95c709ee5".
Definition VaultBoardV1Schema := "arkade-vault/board-v1".
Definition VaultBoardV1Template := "vault-board-v1-boarding-vault-and-operator".
Definition vaultBoardEnrollmentSchema := "arkade-vault/enrollment-with-board-v1".

(** [RegisterRequest] *)
Record RegisterRequest := MkRegisterRequest {
  rg_CredentialID : string; rg_WebAuthnP256 : string; rg_PhoneDirectP256 : string; rg_PhoneBIP340Pub : string; rg_VtxoBoardingProgram : string;
  rg_VaultBoardingBIP340Pub : string; rg_ExternalOwnerWalletXOnly : string; rg_RecoveryXOnly : string; rg_RecoveryKeyXOnly : string;
  rg_VaultID : string; rg_DescriptorHash : string; rg_ProtectionTier : string; rg_SpendingPolicy : SpendingPolicy; rg_SpendingPolicyDigest : string
}.

(** ** Enrollment tokens *)

Definition token_error : error := Errorf "enrollment token must be 32-byte base64url without padding".

Definition decodeEnrollmentToken (token : string) : result bytes :=
  require ((slen token =? 43) && seqb (trim_space token) token) token_error;;
  match b64_decode (bytes_of token) with
  | Ok raw => require ((zlen raw =? 32) && beqb (b64_encode raw) (bytes_of token)) token_error;; Ok raw
  | Err _ => Err token_error
  end.

Definition HashEnrollmentToken (token : string) : result bytes := raw ← decodeEnrollmentToken token; Ok (sha256 raw).

(** ** Policies and tiers *)

Definition requireSpendingPolicyDigest (network : string) (selected : SpendingPolicy) (encoded : string) : result bytes :=
  digest ← SpendingPolicyDigestFor network selected;
  require (negb (seqb encoded "") && seqb encoded (hex_encode digest)) (Errorf "spending policy digest does not match the selected policy");;
  Ok digest.

Definition recoveryField (req : RegisterRequest) : string :=
  if negb (seqb (trim_space (rg_RecoveryXOnly req)) "") then rg_RecoveryXOnly req else rg_RecoveryKeyXOnly req.

Section register.
Context `{ErrorText, Btc, !Arkade, !Ark, !ArkLib, !SavingsLib}.

(** What a configured resolver holds. *)
Record Resolver := MkResolver { res_Network : string; res_CheckpointTapscript : bytes; res_OperatorSignerPub : bytes }.

(** The immutable fields of [Service] that the handlers read. *)
Record Registrar := MkRegistrar {
  ap_Config : Config; ap_IntegrityKey : bytes; ap_ArkadeCosignerPub : option PublicKey; ap_ArkadeCosignerOrigin : string;
  ap_ArkadeCosignerVersion : string; ap_keys : KeyCapabilities; ap_resolver : option Resolver; ap_OpenEnrollment : bool;
  ap_MaxConcurrentVerifications : Z
}.

Record parsedRegisterRequest := MkParsed {
  pr_id : bytes; pr_webauthnP256 : bytes; pr_phoneDirectP256 : bytes; pr_phone : option PublicKey; pr_externalOwner : option PublicKey;
  pr_recovery : option PublicKey; pr_boardPub : option PublicKey; pr_boardingProgram : string; pr_vaultID : string; pr_protectionTier : string;
  pr_spendingPolicy : SpendingPolicy
}.

(** ** Parsing *)

Definition parsePhoneBIP340Pub (hexPub : string) : result PublicKey :=
  require (negb (seqb hexPub "")) (Errorf "phoneBip340Pub required");;
  raw ← wrap "phoneBip340Pub" (decodeHex hexPub);
  wrap "phoneBip340Pub" (ParsePubKey raw).

Definition knownFixtureXOnly (xonly : bytes) : bool :=
  existsb (fun encoded => match hex_decode encoded with
    | Some raw => match ParsePubKey raw with Ok pub => beqb (SerializeXOnly pub) xonly | Err _ => false end
    | None => false
    end) [UnsafeGenerator2G; UnsafeGeneratorG].

Definition parseOnboardingKey (name encoded : string) : result PublicKey :=
  let malformed := Errorf (name ++ " must be canonical 32-byte BIP340 x-only lowercase hex") in
  require (negb (seqb encoded "")) (Errorf (name ++ " required"));;
  require ((slen encoded =? 64) && seqb encoded (to_lower encoded)) malformed;;
  match hex_decode encoded with
  | None => Err malformed
  | Some raw =>
      require (zlen raw =? 32) malformed;;
      match ParseXOnly raw with
      | Err _ => Err (Errorf (name ++ " is invalid"))
      | Ok pub =>
          require (beqb (SerializeXOnly pub) raw) (Errorf (name ++ " is invalid"));;
          require (negb (knownFixtureXOnly raw)) (Errorf ("public test fixture is forbidden for " ++ name));;
          Ok pub
      end
  end.

Definition parseRegisterRequestIndependent (s : Registrar) (req : RegisterRequest) : result parsedRegisterRequest :=
  id ← wrap "credentialId" (decodeHex (rg_CredentialID req));
  require (zlen id <=? 1024) (Errorf "credentialId too large");;
  webauthnP256 ← wrap "webauthnP256" (decodeHex (rg_WebAuthnP256 req));
  wrap "webauthnP256" (ParseCompressedP256 webauthnP256);;
  phoneDirectP256 ← wrap "phoneDirectP256" (decodeHex (rg_PhoneDirectP256 req));
  wrap "phoneDirectP256" (ParseCompressedP256 phoneDirectP256);;
  require (negb (beqb webauthnP256 phoneDirectP256)) (Errorf "direct-auth p256 must be distinct from the webauthn credential p256");;
  phone ← parsePhoneBIP340Pub (rg_PhoneBIP340Pub req);
  externalOwner ← parseOnboardingKey "externalOwnerWalletXOnly" (rg_ExternalOwnerWalletXOnly req);
  recovery ← (if seqb (recoveryField req) "" then Ok None else pub ← parseOnboardingKey "recoveryXOnly" (recoveryField req); Ok (Some pub));
  ValidateProtectionTierRecovery (rg_ProtectionTier req) (bool_decide (is_Some recovery));;
  _ ← requireSpendingPolicyDigest (cfg_Network (ap_Config s)) (rg_SpendingPolicy req) (rg_SpendingPolicyDigest req);
  Ok (MkParsed id webauthnP256 phoneDirectP256 (Some phone) (Some externalOwner) recovery None VaultBoardV1 (rg_VaultID req)
        (rg_ProtectionTier req) (rg_SpendingPolicy req)).

(** ** The Savings program of a vault: enroll_savings.go *)

Definition arkadeIdentity (s : Registrar) : string * string :=
  (if seqb (cfg_Network (ap_Config s)) NetworkMainnet then MainnetSignerIdentity else trim_space (ap_ArkadeCosignerOrigin s),
   trim_space (ap_ArkadeCosignerVersion s)).

Definition savingsFamilyInput (s : Registrar) (vaultID : string) (parsed : parsedRegisterRequest) (vaultBase arkadeBase : option PublicKey)
  : result FamilyInput :=
  require (bool_decide (is_Some arkadeBase) && bool_decide (is_Some (pr_phone parsed)) && bool_decide (is_Some (pr_externalOwner parsed)))
    (Errorf "Savings program keys required");;
  Ok (MkFamilyInput vaultID (cfg_Network (ap_Config s)) (pr_phone parsed) (pr_externalOwner parsed) (pr_recovery parsed)
        (pr_phoneDirectP256 parsed) vaultBase arkadeBase "" false (pr_protectionTier parsed) (pr_spendingPolicy parsed)).

Definition applySavingsProgram (i : FamilyInput) (template : string) : FamilyInput :=
  let template := if seqb template "" then Template else template in
  MkFamilyInput (i_VaultID i) (i_Network i) (i_Phone i) (i_Hardware i) (i_Recovery i) (i_PhoneDirectP256 i) (i_VaultCosignerBase i)
    (i_ArkadeCosignerBase i) template (seqb template Template) (i_ProtectionTier i) (i_SpendingPolicy i).

Definition knownTemplate (template : string) : bool := seqb template Template.

Definition wrapSavings (fam : Family) (i : FamilyInput) : savingsSnapshot :=
  MkSavingsSnapshot (t_Address (f_Savings fam)) (t_PkScript (f_Savings fam)) (i_Hardware i) (i_Recovery i) (i_VaultCosignerBase i)
    (i_ArkadeCosignerBase i).

Definition compressed (pub : option PublicKey) : bytes := match pub with Some p => SerializeCompressed p | None => [] end.

Definition mintSavingsCredential (s : Registrar) (vaultID : string) (parsed : parsedRegisterRequest) (vaultBase : option PublicKey)
  : result (Credential * savingsSnapshot) :=
  i ← savingsFamilyInput s vaultID parsed vaultBase (ap_ArkadeCosignerPub s);
  let i := applySavingsProgram i Template in
  let '(origin, version) := arkadeIdentity s in
  '(_, fam) ← BuildPublicDescriptor i origin version;
  let cfg := ap_Config s in let p := pr_spendingPolicy parsed in
  Ok (MkCredential (pr_id parsed) (pr_webauthnP256 parsed) (pr_phoneDirectP256 parsed) (compressed (pr_phone parsed))
        (compressed (pr_externalOwner parsed)) (cfg_RPID cfg) (cfg_ClientOrigin cfg) (compressed (pr_recovery parsed)) (compressed vaultBase)
        (compressed (ap_ArkadeCosignerPub s)) origin version Template PolicyVersion (pr_protectionTier parsed) (cfg_Network cfg) vaultID
        (t_Address (f_Savings fam)) (t_PkScript (f_Savings fam)) DustSats (sp_TxRecipientCapSats p) (sp_PeriodAllowanceSats p)
        (sp_AbsoluteFeeCapSats p) (sp_FeerateCapSatPerV p) [],
      wrapSavings fam i).

(** The keys of a stored credential. *)
Record RebuiltKeys := MkRebuiltKeys {
  rk_phone : PublicKey; rk_externalOwner : PublicKey; rk_recovery : option PublicKey; rk_vaultBase : PublicKey; rk_arkadeBase : PublicKey
}.

Definition credentialKeys (cred : Credential) : result RebuiltKeys :=
  phone ← ParsePubKey (PhoneBIP340 cred);
  externalOwner ← ParsePubKey (ExternalOwnerWallet cred);
  recovery ← (if 0 <? zlen (RecoveryKey cred) then
                recovery ← ParsePubKey (RecoveryKey cred);
                Ok (if knownFixtureXOnly (SerializeXOnly recovery) then None else Some recovery)
              else Ok None);
  vaultBase ← ParsePubKey (VaultCosignerBase cred);
  arkadeBase ← ParsePubKey (ArkadeCosignerBase cred);
  Ok (MkRebuiltKeys phone externalOwner recovery vaultBase arkadeBase).

Definition parsedOfCredential (cred : Credential) (k : RebuiltKeys) : parsedRegisterRequest :=
  MkParsed (ID cred) (Tenant.WebAuthnP256 cred) (PhoneDirectP256 cred) (Some (rk_phone k)) (Some (rk_externalOwner k)) (rk_recovery k) None ""
    "" (ProtectionTier cred) (spendingPolicyFromCredential cred).

Definition rebuildSavings (s : Registrar) (cred : Credential) : result (RebuiltKeys * savingsSnapshot) :=
  k ← credentialKeys cred;
  i ← savingsFamilyInput s (VaultID cred) (parsedOfCredential cred k) (Some (rk_vaultBase k)) (Some (rk_arkadeBase k));
  let i := applySavingsProgram i (TemplateVersion cred) in
  '(_, fam) ← BuildPublicDescriptor i (ArkadeCosignerOrigin cred) (ArkadeCosignerVersion cred);
  require (seqb (t_Address (f_Savings fam)) (SavingsAddress cred) && beqb (t_PkScript (f_Savings fam)) (SavingsScript cred))
    (Errorf "rebuilt Savings vault does not match stored descriptor");;
  Ok (k, wrapSavings fam i).

Definition requireCompatible (s : Registrar) (cred : Credential) : result unit :=
  let cfg := ap_Config s in
  require (knownTemplate (TemplateVersion cred)) (Errorf "stored template incompatible with runtime");;
  require (seqb (cr_PolicyVersion cred) PolicyVersion) (Errorf "stored policy incompatible with runtime");;
  wrap "stored protection tier" (ValidateProtectionTierRecovery (ProtectionTier cred) (0 <? zlen (RecoveryKey cred)));;
  require (seqb (cr_Network cred) (cfg_Network cfg)) (Errorf "stored network incompatible with runtime");;
  require (negb (seqb (VaultID cred) "")) (Errorf "stored vault id required");;
  require (seqb (Origin cred) (cfg_ClientOrigin cfg)) (Errorf "stored origin incompatible with runtime");;
  require (seqb (RPID cred) (cfg_RPID cfg)) (Errorf "stored rp id incompatible with runtime");;
  require (RecipientDustSats cred =? DustSats) (Errorf "stored economic policy incompatible with runtime");;
  wrap "stored economic policy" (ValidateSpendingPolicyFor (cfg_Network cfg) (spendingPolicyFromCredential cred));;
  let '(wantOrigin, wantVersion) := arkadeIdentity s in
  require (seqb (ArkadeCosignerOrigin cred) wantOrigin) (Errorf "stored signing identity requires enrollment migration");;
  require (seqb (ArkadeCosignerVersion cred) wantVersion) (Errorf "stored ArkadeCosigner version incompatible with runtime");;
  require (negb (seqb (ArkadeCosignerVersion cred) "" || seqb (ap_ArkadeCosignerVersion s) ""))
    (Errorf "stored and runtime ArkadeCosigner versions are required");;
  require (match ap_ArkadeCosignerPub s with Some pub => beqb (SerializeCompressed pub) (ArkadeCosignerBase cred) | None => false end)
    (Errorf "enrolled ArkadeCosigner key does not match the configured runtime signer").

Definition rebuildFromCredential (s : Registrar) (cred : Credential) : result (RebuiltKeys * savingsSnapshot) :=
  requireCompatible s cred;;
  require (seqb (TemplateVersion cred) Template) (Errorf ("unsupported vault template " ++ TemplateVersion cred));;
  rebuildSavings s cred.

(** ** Boarding: enroll_board.go *)

Record vaultBoardPublicDescriptor := MkBoardDescriptor {
  bd_Schema : string; bd_Program : string; bd_Template : string; bd_Network : string; bd_BoardingPub : string; bd_RecoveryPhonePub : string;
  bd_CosignerPub : string; bd_OperatorPub : string; bd_ExitDelay : Z; bd_ExitDelayUnit : string; bd_Script : string; bd_Address : string
}.

Record vaultBoardCompositeDescriptor := MkComposite {
  cd_Schema : string; cd_VaultID : string; cd_Savings : PublicDescriptor; cd_Boarding : vaultBoardPublicDescriptor
}.

Record ProposedEnrollment := MkProposed { pe_DescriptorHash : string; pe_Descriptor : vaultBoardCompositeDescriptor }.

Definition board_env (s : Registrar) (cell : fileBackedVaultKeys) : TreeEnv :=
  MkTreeEnv (cfg_Network (ap_Config s)) (ap_keys s) cell (res_OperatorSignerPub <$> ap_resolver s).

(** [s.boardExitDelay()] and [s.policyExitDelay()]: zero off the pinned networks. *)
Definition boardExitDelay (s : Registrar) : Z := match PinsFor (cfg_Network (ap_Config s)) with Ok pins => pin_BoardExitDelay pins | Err _ => 0 end.
Definition policyExitDelay (s : Registrar) : Z := match PinsFor (cfg_Network (ap_Config s)) with Ok pins => pin_PolicyExitDelay pins | Err _ => 0 end.

Definition applyVaultBoardEnrollmentRequest (parsed : parsedRegisterRequest) (req : RegisterRequest) : result parsedRegisterRequest :=
  require (seqb (rg_VtxoBoardingProgram req) VaultBoardV1) (Errorf "explicit vault-board-v1 enrollment required");;
  pub ← parseOnboardingKey "vaultBoardingBip340Pub" (rg_VaultBoardingBIP340Pub req);
  Ok (MkParsed (pr_id parsed) (pr_webauthnP256 parsed) (pr_phoneDirectP256 parsed) (pr_phone parsed) (pr_externalOwner parsed) (pr_recovery parsed)
        (Some pub) VaultBoardV1 (pr_vaultID parsed) (pr_protectionTier parsed) (pr_spendingPolicy parsed)).

Definition boardDescriptor (network : string) (phone : PublicKey) (tree : vtxoBoardTree) (exitDelay : Z) : vaultBoardPublicDescriptor :=
  let hex pub := hex_encode (SerializeCompressed pub) in
  MkBoardDescriptor VaultBoardV1Schema VaultBoardV1 VaultBoardV1Template network (hex (bt_BoardingPub tree)) (hex phone)
    (hex (bt_CosignerPub tree)) (hex (bt_OperatorPub tree)) exitDelay VaultBoardV1ExitDelayUnit (hex_encode (bt_PkScript tree)) (bt_OnchainAddress tree).

Definition buildVaultBoardEnrollment (s : Registrar) (cell : fileBackedVaultKeys) (vaultID : string) (parsed : parsedRegisterRequest)
  : result (vaultBoardPublicDescriptor * vtxoBoardTree) :=
  match pr_boardPub parsed, pr_phone parsed with
  | Some boardPub, Some phone =>
      require (seqb (pr_boardingProgram parsed) VaultBoardV1) (Errorf "explicit vault-board-v1 enrollment keys required");;
      tree ← buildVtxoBoardTree (board_env s cell) vaultID (MkEnrolledKeys (Some phone) None None) (Some boardPub);
      Ok (boardDescriptor (cfg_Network (ap_Config s)) phone tree (boardExitDelay s), tree)
  | _, _ => Err (Errorf "explicit vault-board-v1 enrollment keys required")
  end.

Definition boardSnapshot (tree : vtxoBoardTree) : vaultBoardSnapshot :=
  MkVaultBoardSnapshot (Some (bt_BoardingPub tree)) (Some (bt_CosignerPub tree)) (Some (bt_OperatorPub tree)) (bt_PkScript tree) (bt_OnchainAddress tree).

(** Nothing for another boarding program. *)
Definition mintVaultBoardEnrollment (s : Registrar) (cell : fileBackedVaultKeys) (vaultID : string) (parsed : parsedRegisterRequest)
  : result (option (VaultBoardEnrollment * vaultBoardSnapshot)) :=
  if negb (seqb (pr_boardingProgram parsed) VaultBoardV1) then Ok None else
  '(_, tree) ← buildVaultBoardEnrollment s cell vaultID parsed;
  let rec := MkBoardEnrollment vaultID VaultBoardV1 (SerializeCompressed (bt_BoardingPub tree)) (SerializeCompressed (bt_CosignerPub tree))
               (SerializeCompressed (bt_OperatorPub tree)) (boardExitDelay s) VaultBoardV1ExitDelayUnit (bt_PkScript tree) (bt_OnchainAddress tree) [] in
  key ← credentialIntegrityKey (ap_IntegrityKey s);
  rec ← SealVaultBoardEnrollment rec key;
  Ok (Some (rec, boardSnapshot tree)).

Definition boardSnapshotFromRecord (rec : option VaultBoardEnrollment) : result (option vaultBoardSnapshot) :=
  match rec with
  | None => Ok None
  | Some rec =>
      boarding ← ParsePubKey (be_BoardingPub rec);
      cosigner ← ParsePubKey (be_CosignerPub rec);
      operator ← ParsePubKey (be_OperatorPub rec);
      Ok (Some (MkVaultBoardSnapshot (Some boarding) (Some cosigner) (Some operator) (be_PkScript rec) (be_Address rec)))
  end.

Definition composite_fields (savingsHash : string) (desc : vaultBoardCompositeDescriptor) : list string :=
  let b := cd_Boarding desc in
  [cd_Schema desc; cd_VaultID desc; savingsHash; bd_Schema b; bd_Program b; bd_Template b; bd_Network b; bd_BoardingPub b; bd_RecoveryPhonePub b;
   bd_CosignerPub b; bd_OperatorPub b; bd_ExitDelayUnit b; bd_Script b; bd_Address b].

Definition hashVaultBoardComposite (desc : vaultBoardCompositeDescriptor) : result string :=
  savingsHash ← HashPublicDescriptor (cd_Savings desc);
  Ok (hex_encode (sha256 (frames (map bytes_of (composite_fields savingsHash desc)) ++ put32 (bd_ExitDelay (cd_Boarding desc))))).

Definition previewSavingsDescriptor (s : Registrar) (cell : fileBackedVaultKeys) (vaultID : string) (req : RegisterRequest)
  : result (PublicDescriptor * string) :=
  require (negb (seqb vaultID "")) (Errorf "tenant vault id required");;
  childPub ← enrollmentPublic (ap_keys s) cell vaultID;
  parsed ← parseRegisterRequestIndependent s req;
  i ← savingsFamilyInput s vaultID parsed (Some childPub) (ap_ArkadeCosignerPub s);
  let '(origin, version) := arkadeIdentity s in
  '(desc, _) ← BuildPublicDescriptor (applySavingsProgram i Template) origin version;
  hash ← HashPublicDescriptor desc;
  Ok (desc, hash).

Definition previewVaultBoardEnrollmentDescriptor (s : Registrar) (cell : fileBackedVaultKeys) (vaultID : string) (req : RegisterRequest)
  : result ProposedEnrollment :=
  '(savingsDesc, _) ← previewSavingsDescriptor s cell vaultID req;
  parsed ← parseRegisterRequestIndependent s req;
  parsed ← applyVaultBoardEnrollmentRequest parsed req;
  '(board, _) ← buildVaultBoardEnrollment s cell vaultID parsed;
  let desc := MkComposite vaultBoardEnrollmentSchema vaultID savingsDesc board in
  hash ← hashVaultBoardComposite desc;
  Ok (MkProposed hash desc).

(** The descriptor of an enrolled vault, rebuilt from its stored credential. *)
Definition statusVaultBoardDescriptor (s : Registrar) (cell : fileBackedVaultKeys) (cred : Credential) (snap : enrolledSnapshot)
  : result (vaultBoardCompositeDescriptor * string) :=
  match en_Board snap with
  | Some board =>
      match bn_BoardingPub board with
      | Some boardingPub =>
          '(k, _) ← rebuildSavings s cred;
          let i := MkFamilyInput (VaultID cred) (cr_Network cred) (Some (rk_phone k)) (Some (rk_externalOwner k)) (rk_recovery k) (PhoneDirectP256 cred)
                     (Some (rk_vaultBase k)) (Some (rk_arkadeBase k)) "" false (ProtectionTier cred) (spendingPolicyFromCredential cred) in
          '(savingsDesc, _) ← BuildPublicDescriptor (applySavingsProgram i (TemplateVersion cred)) (ArkadeCosignerOrigin cred) (ArkadeCosignerVersion cred);
          let mismatch := Errorf "vault-board-v1 enrollment descriptor mismatch" in
          match buildVtxoBoardTree (board_env s cell) (VaultID cred) (keys_of snap) (Some boardingPub) with
          | Err _ => Err mismatch
          | Ok tree =>
              require (seqb (bt_OnchainAddress tree) (bn_Address board) && beqb (bt_PkScript tree) (bn_PkScript board)) mismatch;;
              let desc := MkComposite vaultBoardEnrollmentSchema (VaultID cred) savingsDesc
                            (boardDescriptor (cr_Network cred) (rk_phone k) tree (boardExitDelay s)) in
              hash ← hashVaultBoardComposite desc;
              Ok (desc, hash)
          end
      | None => Err (Errorf "vault-board-v1 enrollment descriptor unavailable")
      end
  | None => Err (Errorf "vault-board-v1 enrollment descriptor unavailable")
  end.
End register.
