(* ===== verification/Session.v ===== *)
(** * Passkey sessions and recovery envelopes

    [internal/application/session.go] and [map.go]: issuing and consuming passkey
    challenges, authenticating a session, the recovery binding, installing and
    recovering a credential envelope, and the vault map.  The handlers of this
    file, of [Transition] and of [EnrollService] run on one shared [AppWorld];
    as in [SpendService] the others may act before every access. *)

From S2P Require Import Prelude Crypto Codec GoTime Program Ledger SignCount Recovery BoardRows VaultBoard Tenant Enrollment Apperr Json WebAuthn Psbt SpendVerify KeyProvider Trees Savings Service Deployment Register Effects.
From Stdlib Require Import Strings.Byte Strings.Ascii Strings.String.
From stdpp Require Import base decidable list strings gmap option.
From Stdlib Require Import ZArith Lia.
Open Scope string_scope.
Open Scope list_scope.
Open Scope Z_scope.

Definition passkeyPurposeRecover := "recover".
Definition passkeyPurposeInstall := "install-envelope".
Definition passkeyPurposeTransition := "transition".
Definition passkeyPurposeMapWrite := "map-write".
Definition passkeyChallengeTTL : Z := 2 * minute.
Definition maxPasskeyChallengesPerVault : Z := 16.
Definition recoveryBindingDomain := "arkade-vault/recovery-binding/v4".
Definition passkeyProofDomain := "arkade-2fa-vault/passkey-proof/v1".

(** ** Requests and responses *)

Record SessionAssertionRequest := MkSessionAssertion { sa_ChallengeID : string; sa_Assertion : WebAuthnAssertionRequest; sa_DirectProof : string }.

Record PasskeyChallengeResponse := MkChallengeResponse {
  pc_ChallengeID : string; pc_Challenge : string; pc_AllowCredentialID : string; pc_ExpiresInSeconds : Z
}.

Record RecoveryBindingResponse := MkBindingResponse { rb_Binding : string; rb_BindingDigest : string }.

Record InstallCredentialEnvelopeRequest := MkInstallRequest {
  iq_VaultID : string; iq_Session : SessionAssertionRequest; iq_EnvelopeNonce : string; iq_EnvelopeCiphertext : string; iq_Binding : string;
  iq_BindingDirectSig : string; iq_BindingPhoneSig : string
}.

Record RecoverCredentialEnvelopeRequest := MkRecoverRequest { vq_VaultID : string; vq_Session : SessionAssertionRequest }.

Record RecoverCredentialEnvelopeResponse := MkRecoverResponse {
  ve_Binding : string; ve_BindingDigest : string; ve_EnvelopeNonce : string; ve_EnvelopeCiphertext : string; ve_BindingDirectSig : string;
  ve_BindingPhoneSig : string
}.

Record MapWriteRequest := MkMapWrite { mq_VaultID : string; mq_Session : SessionAssertionRequest; mq_Payload : bytes }.

(** ** Challenges: a table in memory, under [sessionMu] *)

Record passkeyChallenge := MkChallenge { ch_VaultID : string; ch_Purpose : string; ch_Challenge : bytes; ch_ExpiresAt : Z }.
Abbreviation Challenges := (gmap string passkeyChallenge).

Definition passkeyChallengeKey (vaultID challengeID : string) : string := vaultID ++ String "000" challengeID.

(** The loop over the table drops what has expired. *)
Definition unexpired (now : Z) (t : Challenges) : Challenges := filter (fun kc => now < ch_ExpiresAt kc.2) t.
Definition pendingFor (vaultID : string) (t : Challenges) : Z := Z.of_nat (size (filter (fun kc : string * passkeyChallenge => ch_VaultID kc.2 = vaultID) t)).

Definition issueChallenge (now : Z) (vaultID purpose id : string) (challenge : bytes) (t : Challenges) : result unit * Challenges :=
  let live := unexpired now t in
  if maxPasskeyChallengesPerVault <=? pendingFor vaultID live then (Err ErrVerificationBusy, live)
  else (Ok tt, <[passkeyChallengeKey vaultID id := MkChallenge vaultID purpose challenge (now + passkeyChallengeTTL)]> live).

Definition passkey_failed : error := Errorf "passkey authentication failed".

(** Under the lock; the clock is read inside it. *)
Definition takeChallenge (now : Z) (vaultID id purpose : string) (t : Challenges) : result bytes * Challenges :=
  let key := passkeyChallengeKey vaultID id in
  match t !! key with
  | None => (Err passkey_failed, t)
  | Some pending =>
      if ch_ExpiresAt pending <=? now then (Err passkey_failed, delete key t)
      else if negb (seqb (ch_VaultID pending) vaultID) || negb (seqb (ch_Purpose pending) purpose) then (Err passkey_failed, t)
      else (Ok (ch_Challenge pending), delete key t)
  end.

Definition validChallengeID (id : string) : result unit :=
  require (slen id =? 22) passkey_failed;;
  match b64_decode (bytes_of id) with
  | Ok raw => require ((zlen raw =? 16) && beqb (b64_encode raw) (bytes_of id)) passkey_failed
  | Err _ => Err passkey_failed
  end.

(** ** Codecs *)

Definition decodeFixedHex (encoded : string) (size : Z) (name : string) : result bytes :=
  let malformed := Errorf (name ++ " must be canonical lowercase hex") in
  require ((slen encoded =? size * 2) && seqb encoded (to_lower encoded)) malformed;;
  match hex_decode encoded with
  | Some raw => require (zlen raw =? size) malformed;; Ok raw
  | None => Err malformed
  end.

Definition decodeBoundedSessionAssertion (req : WebAuthnAssertionRequest) : result Assertion :=
  a ← decodeAssertion req;
  let within lo hi (b : bytes) := (lo <=? zlen b) && (zlen b <=? hi) in
  require (within 1 1024 (a_CredentialID a) && within 1 4096 (a_ClientDataJSON a) && within 37 1024 (a_AuthenticatorData a) &&
           within 1 128 (a_DERSignature a)) (Errorf "assertion field size");;
  Ok a.

Definition passkeySessionProofDigest (purpose : string) (challenge credentialID : bytes) : bytes :=
  sha256 (bytes_of passkeyProofDomain ++ [x00] ++ bytes_of purpose ++ [x00] ++ challenge ++ [x00] ++ credentialID).

Definition recoveryBindingDigestForDomain (domain binding : string) : bytes := sha256 (bytes_of domain ++ [x00] ++ bytes_of binding).
Definition recoveryBindingDigest (binding : string) : bytes := recoveryBindingDigestForDomain recoveryBindingDomain binding.

Definition credentialEnvelopesEqual (a b : CredentialEnvelope) : bool :=
  (e_Version a =? e_Version b) && seqb (e_Binding a) (e_Binding b) && beqb (e_Nonce a) (e_Nonce b) && beqb (e_Ciphertext a) (e_Ciphertext b) &&
  beqb (e_DirectSig a) (e_DirectSig b) && beqb (e_PhoneSig a) (e_PhoneSig b) && beqb (e_IntegrityMAC a) (e_IntegrityMAC b).

Definition firstNonEmpty (values : list string) : string := default "" (List.find (fun v => negb (seqb v "")) values).

(** [json.Marshal] of a struct: the members in the order of the fields. *)
Definition json_member (m : string * bytes) : bytes := x22 :: bytes_of m.1 ++ x22 :: x3a :: m.2.
Definition json_struct (ms : list (string * bytes)) : bytes :=
  match ms with [] => [x7b; x7d] | m :: ms => x7b :: json_member m ++ joined (map json_member ms) ++ [x7d] end.
Definition jstring (s : string) : bytes := marshalString s.
Definition jint (z : Z) : bytes := bytes_of (fmt_int z).
Definition jbool (b : bool) : bytes := bytes_of (if b then "true" else "false").

(** The parts of a decoded map the JSON model leaves out: [fmt.Sprint] of a
    vault id member that is a number or a container, and whether every number
    of the text fits a float64. *)
Class MapNumbers := { sprint_member : bytes -> string; numbers_fit : bytes -> bool }.

(** [fmt.Sprint] of a member, absent or not. *)
Definition sprint_json `{MapNumbers} (payload : bytes) (v : option json) : string :=
  match v with
  | None | Some JNull => "<nil>"
  | Some (JBool b) => if b then "true" else "false"
  | Some (JString s) => string_of_list_byte s
  | Some _ => sprint_member payload
  end.

Definition is_json_string (want : string) (v : option json) : bool :=
  match v with Some (JString s) => beqb s (bytes_of want) | _ => false end.

(** [json.Unmarshal] of the payload and the checks on what it decoded to. *)
Definition checkVaultMap `{MapNumbers} (vaultID : string) (payload : bytes) : result unit :=
  require (negb ((zlen payload =? 0) || (96 * 1024 <? zlen payload))) (Errorf "vault map required");;
  match (doc ← json_text payload; into_raw_map doc) with
  | Err _ => Err (Errorf "vault map required")
  | Ok parsed =>
      require (numbers_fit payload) (Errorf "vault map required");;
      require (is_json_string "arkade-vault-map" (raw_lookup parsed "name")) (Errorf "not a vault map backup");;
      match raw_lookup parsed "kit" with
      | Some (JObject kit) =>
          require (is_json_string "arkade-recovery-kit" (raw_lookup kit "name")) (Errorf "not a vault map backup");;
          match raw_lookup kit "descriptor" with
          | Some (JObject desc) =>
              require (seqb (trim_space (sprint_json payload (raw_lookup desc "vaultId"))) vaultID) (Errorf "map vault id does not match")
          | _ => Err (Errorf "map vault id does not match")
          end
      | _ => Err (Errorf "not a vault map backup")
      end
  end.

(** A CSV multisig closure as the type switch sees it: one-signature type, keys,
    locktime in seconds and its value. *)
Class CheckpointLib `{Ark} := { CSVMultisig : Closure -> option (bool * list PublicKey * bool * Z) }.

(** ** The shared world *)

Section sessions.
Context `{ErrorText, Btc, !Arkade, !Ark, !ArkLib, !SavingsLib, !CheckpointLib, MapNumbers}.

Record AppWorld := MkAppWorld {
  aw_store : Store; aw_now : Z; aw_published : option publishedIndex; aw_cell : fileBackedVaultKeys; aw_slots : Z;
  aw_challenges : Challenges; aw_hits : gmap string (list Z); aw_step : nat
}.

Definition set_store (st : Store) (w : AppWorld) : AppWorld :=
  MkAppWorld st (aw_now w) (aw_published w) (aw_cell w) (aw_slots w) (aw_challenges w) (aw_hits w) (aw_step w).
Definition set_published (p : option publishedIndex) (w : AppWorld) : AppWorld :=
  MkAppWorld (aw_store w) (aw_now w) p (aw_cell w) (aw_slots w) (aw_challenges w) (aw_hits w) (aw_step w).
Definition set_app_slots (n : Z) (w : AppWorld) : AppWorld :=
  MkAppWorld (aw_store w) (aw_now w) (aw_published w) (aw_cell w) n (aw_challenges w) (aw_hits w) (aw_step w).
Definition set_challenges (c : Challenges) (w : AppWorld) : AppWorld :=
  MkAppWorld (aw_store w) (aw_now w) (aw_published w) (aw_cell w) (aw_slots w) c (aw_hits w) (aw_step w).
Definition set_hits (h : gmap string (list Z)) (w : AppWorld) : AppWorld :=
  MkAppWorld (aw_store w) (aw_now w) (aw_published w) (aw_cell w) (aw_slots w) (aw_challenges w) h (aw_step w).
Definition advance (w : AppWorld) : AppWorld :=
  MkAppWorld (aw_store w) (aw_now w) (aw_published w) (aw_cell w) (aw_slots w) (aw_challenges w) (aw_hits w) (S (aw_step w)).

Definition st_set_ledger (l : Ledger) (st : Store) : Store := MkStore l (st_tenants st) (st_sessions st) (st_invite st) (st_pending st).
Definition st_set_sessions (t : SessionTable) (st : Store) : Store := MkStore (st_ledger st) (st_tenants st) t (st_invite st) (st_pending st).

(** The other goroutines, [crypto/rand], the outcome of COMMIT and the request
    context, at the n-th access. *)
Record AppOutside := MkAppOutside {
  app_others : nat -> AppWorld -> AppWorld; app_rand : nat -> nat -> result bytes; app_commit : nat -> bool; app_ctx : nat -> option error
}.

Context (s : Registrar) (o : AppOutside).

Definition app_access {A} (f : nat -> AppWorld -> result A * AppWorld) : M AppWorld A := fun w =>
  let w1 := advance (app_others o (aw_step w) w) in Some (f (aw_step w) w1).
Definition app_read {A} (f : AppWorld -> result A) : M AppWorld A := app_access (fun _ w => (f w, w)).
Definition store_call {A} (f : bool -> Z -> Store -> Store * result A) : M AppWorld A := app_access (fun n w =>
  let '(st, r) := f (app_commit o n) (aw_now w) (aw_store w) in (r, set_store st w)).
Definition rand_Read (len : nat) : M AppWorld bytes := app_access (fun n w => (app_rand o n len, w)).

(** [s.sessionNow()], [s.currentEnrollmentTime()] *)
Definition appNow : M AppWorld Z := app_read (fun w => Ok (aw_now w)).
Definition ctxErr : M AppWorld unit := app_access (fun n w => (match app_ctx o n with Some e => Err e | None => Ok tt end, w)).

Definition loadCredential (vaultID : string) : M AppWorld (option Credential) :=
  app_read (fun w => loadVerifiedCredentialFor (ap_IntegrityKey s) (st_tenants (aw_store w)) vaultID).
Definition loadEnvelope (vaultID : string) (credentialID : bytes) : M AppWorld (option CredentialEnvelope) :=
  app_read (fun w => loadVerifiedEnvelopeFor (ap_IntegrityKey s) (st_tenants (aw_store w)) vaultID credentialID).
Definition ledgerIntegrity : M AppWorld unit := app_read (fun w => requireLedgerIntegrity (ap_IntegrityKey s) (st_ledger (aw_store w))).

(** ** Challenges *)

Definition IssuePasskeyChallengeFor (vaultID purpose : string) : M AppWorld PasskeyChallengeResponse :=
  ctxErr;;
  check (bool_decide (purpose ∈ [passkeyPurposeRecover; passkeyPurposeInstall; passkeyPurposeTransition; passkeyPurposeMapWrite]))
    (Errorf "invalid passkey challenge purpose");;
  vaultID ← lift (routeVaultID vaultID);
  cred ← loadCredential vaultID;
  match cred with
  | None => fail (Errorf "not enrolled")
  | Some cred =>
      (if seqb purpose passkeyPurposeRecover then
         envelope ← loadEnvelope vaultID (ID cred);
         check (bool_decide (is_Some envelope)) (Errorf "passkey sign-in has not been enabled on the original device")
       else mret tt);;
      idRaw ← rand_Read 16;
      challenge ← rand_Read 32;
      let id := string_of_list_byte (b64_encode idRaw) in
      now ← appNow;
      app_access (fun _ w => let '(r, t) := issueChallenge now vaultID purpose id challenge (aw_challenges w) in (r, set_challenges t w));;
      mret (MkChallengeResponse id (hex_encode challenge) (hex_encode (ID cred)) 120)
  end.

Definition consumePasskeyChallenge (vaultID id purpose : string) : M AppWorld bytes :=
  lift (validChallengeID id);;
  app_access (fun _ w => let '(r, t) := takeChallenge (aw_now w) vaultID id purpose (aw_challenges w) in (r, set_challenges t w)).

(** ** Sessions *)

Definition appVerificationLimit : Z := if ap_MaxConcurrentVerifications s <=? 0 then 4 else ap_MaxConcurrentVerifications s.

Definition acquireSlot : M AppWorld unit :=
  ctxErr;;
  app_access (fun _ w => if aw_slots w <? appVerificationLimit then (Ok tt, set_app_slots (aw_slots w + 1) w) else (Err ErrVerificationBusy, w)).

Definition advanceSignCount (vaultID : string) (credID : bytes) (count : Z) : M AppWorld unit :=
  ledgerIntegrity;;
  store_call (fun ok now st => let '(l, r) := AdvanceSignCount (st_ledger st) ok now vaultID credID count in (st_set_ledger l st, r)).

(** [failPasskeyAuth]: every stage fails with the same answer. *)
Definition orFail {A} (m : M AppWorld A) : M AppWorld A :=
  r ← try m;
  match r with Ok a => mret a | Err _ => fail (Rejected "passkey authentication failed") end.

(** Between acquiring and releasing the slot. *)
Definition passkeySession (purpose vaultID : string) (req : SessionAssertionRequest) : M AppWorld Credential :=
  vaultID ← lift (routeVaultID vaultID);
  challenge ← orFail (consumePasskeyChallenge vaultID (sa_ChallengeID req) purpose);
  cred ← orFail (loadCredential vaultID);
  match cred with
  | None => fail (Rejected "passkey authentication failed")
  | Some cred =>
      assertion ← orFail (lift (decodeBoundedSessionAssertion (sa_Assertion req)));
      check (beqb (a_CredentialID assertion) (ID cred)) (Rejected "this passkey does not belong to this vault");;
      orFail (lift (rejectPRF (a_ClientDataJSON assertion)));;
      verified ← orFail (lift (WebAuthn.Validate assertion
                   (MkExpected (ID cred) (Tenant.WebAuthnP256 cred) challenge (Origin cred) (RPID cred))));
      orFail (advanceSignCount vaultID (ID cred) (vr_SignCount verified));;
      directProof ← orFail (lift (decodeFixedHex (sa_DirectProof req) 64 "direct proof"));
      orFail (lift (verifyDirectAuth (PhoneDirectP256 cred) (passkeySessionProofDigest purpose challenge (ID cred)) directProof));;
      mret cred
  end.

Definition authenticatePasskeySession (purpose vaultID : string) (req : SessionAssertionRequest) : M AppWorld Credential :=
  acquireSlot;;
  defer (fun w => set_app_slots (aw_slots w - 1) w) (passkeySession purpose vaultID req).

(** ** The recovery binding *)

(** [validateArkResolverPolicy] of ark_resolver.go; the two keys are compared by
    their x coordinate. *)
Definition xOnly (pub : bytes) : option bytes :=
  if zlen pub =? 32 then Some pub
  else if (zlen pub =? 33) && bool_decide (head pub = Some x02 \/ head pub = Some x03) then Some (drop 1 pub)
  else None.
Definition sameXOnlyPub (got want : bytes) : bool :=
  match xOnly got, xOnly want with Some gx, Some wx => beqb gx wx | _, _ => false end.

Definition validateArkResolverPolicy (network : string) (checkpoint signerPub : bytes) : result unit :=
  match IdentityFor network with
  | Err _ => Err (Errorf ("unsupported Operator policy network " ++ network))
  | Ok id =>
      let same hex raw := match hex_decode hex with Some want => beqb raw want | None => false end in
      require (same (id_OperatorSignerPubHex id) signerPub) (Errorf "Operator signer does not match the release policy");;
      require (same (id_CheckpointTapscriptHex id) checkpoint) (Errorf "checkpoint tapscript does not match the release policy");;
      closure ← wrap "checkpoint tapscript" (DecodeClosure checkpoint);
      match CSVMultisig closure with
      | Some (true, [pub], seconds, value) =>
          require (seconds && (value =? id_CheckpointDelaySeconds id)) (Errorf "checkpoint delay does not match the release policy");;
          require (match hex_decode (id_CheckpointForfeitPubHex id) with Some want => sameXOnlyPub (SerializeCompressed pub) want | None => false end)
            (Errorf "checkpoint key does not match the release policy")
      | _ => Err (Errorf "checkpoint closure does not match the release policy")
      end
  end.

(** The members of [recoveryBinding] in their order. *)
Definition recoveryBinding (cred : Credential) (spending : PolicyTree) (cosigner delegate : PublicKey) (boarding : vtxoBoardTree) (nonce ciphertext : bytes)
  : list (string * bytes) :=
  let hex b := jstring (hex_encode b) in
  [("version", jint 4); ("credentialId", hex (ID cred)); ("webauthnP256", hex (Tenant.WebAuthnP256 cred)); ("phoneDirectP256", hex (PhoneDirectP256 cred));
   ("phoneBip340Pub", hex (PhoneBIP340 cred)); ("externalOwnerWalletPub", hex (ExternalOwnerWallet cred));
   ("vaultCosignerBasePub", hex (VaultCosignerBase cred)); ("arkadeCosignerBasePub", hex (ArkadeCosignerBase cred));
   ("arkadeCosignerOrigin", jstring (ArkadeCosignerOrigin cred)); ("arkadeCosignerVersion", jstring (ArkadeCosignerVersion cred));
   ("clientOrigin", jstring (Origin cred)); ("rpId", jstring (RPID cred)); ("network", jstring (cr_Network cred)); ("vaultId", jstring (VaultID cred));
   ("templateVersion", jstring (TemplateVersion cred)); ("policyVersion", jstring (cr_PolicyVersion cred));
   ("protectionTier", jstring (ProtectionTier cred)); ("savingsAddress", jstring (SavingsAddress cred)); ("savingsScript", hex (SavingsScript cred));
   ("vtxoVaultCosignerPub", hex (SerializeCompressed cosigner)); ("vtxoExitDelay", jint (policyExitDelay s));
   ("vtxoExitDelayUnit", jstring VaultPolicyV1ExitDelayUnit); ("spendingArkAddress", jstring (vt_ArkAddress spending));
   ("spendingArkScript", hex (vt_PkScript spending)); ("vtxoDelegatePub", hex (SerializeCompressed delegate)); ("vtxoBoardingActive", jbool true);
   ("vtxoBoardingProgram", jstring VaultBoardV1); ("vtxoBoardingAddress", jstring (bt_OnchainAddress boarding));
   ("vtxoBoardingScript", hex (bt_PkScript boarding)); ("vtxoBoardingExitDelay", jint (boardExitDelay s));
   ("vtxoBoardingExitDelayUnit", jstring VaultBoardV1ExitDelayUnit); ("recipientDustSats", jint (RecipientDustSats cred));
   ("txRecipientCapSats", jint (cr_TxRecipientCapSats cred)); ("periodAllowanceSats", jint (cr_PeriodAllowanceSats cred));
   ("absoluteFeeCapSats", jint (AbsoluteFeeCapSats cred)); ("feerateCapSatVb", jint (FeerateCapSatPerV cred));
   ("envelopeNonce", hex nonce); ("envelopeCiphertext", hex ciphertext)].

(** What the deployment has to be before anything is bound. *)
Definition bindingDeployment : result unit :=
  let network := cfg_Network (ap_Config s) in
  match ap_resolver s with
  | None => Err (Errorf "recovery binding Arkade resolver required")
  | Some r =>
      require (seqb (res_Network r) network) (Errorf "recovery binding Arkade resolver network mismatch");;
      wrap "recovery binding Arkade resolver policy" (validateArkResolverPolicy network (res_CheckpointTapscript r) (res_OperatorSignerPub r));;
      wrap "recovery binding Spending exit" (ValidateVaultPolicyV1ExitDelayFor network (policyExitDelay s) VaultPolicyV1ExitDelayUnit);;
      wrap "recovery binding boarding exit" (ValidateVaultBoardV1ExitDelayFor network (boardExitDelay s) VaultBoardV1ExitDelayUnit)
  end.

(** The published boarding snapshot, or the stored one. *)
Definition bindingBoard (vaultID : string) (snap : enrolledSnapshot) : M AppWorld (option vaultBoardSnapshot) :=
  match en_Board snap with
  | Some b => mret (Some b)
  | None =>
      app_read (fun w => wrap "recovery binding boarding descriptor"
        (record ← GetVaultBoardEnrollment (st_ledger (aw_store w)) vaultID; boardSnapshotFromRecord record))
  end.

Definition canonicalRecoveryBinding (cred : Credential) (nonce ciphertext : bytes) : M AppWorld string :=
  lift (wrap "recovery binding deployment" (Config_Validate (ap_Config s)));;
  '(k, _) ← lift (wrap "recovery binding credential" (rebuildFromCredential s cred));
  lift bindingDeployment;;
  snap ← app_read (fun w => Ok (snapshot (aw_published w) (VaultID cred)));
  board ← bindingBoard (VaultID cred) snap;
  let keys := MkEnrolledKeys (Some (rk_phone k)) (Some (rk_externalOwner k)) (rk_recovery k) in
  spending ← app_read (fun w => wrap "recovery binding Spending descriptor" (buildVtxoPolicyTree (board_env s (aw_cell w)) (VaultID cred) keys));
  match vt_CosignerPub spending, vt_DelegatePub spending with
  | Some cosigner, Some delegate =>
      check (negb (seqb (vt_ArkAddress spending) "" || (zlen (vt_PkScript spending) =? 0))) (Errorf "recovery binding Spending descriptor incomplete");;
      match board with
      | Some (MkVaultBoardSnapshot (Some boardingPub) _ _ _ _) =>
          boarding ← app_read (fun w => wrap "recovery binding boarding descriptor" (buildVtxoBoardTree (board_env s (aw_cell w)) (VaultID cred) keys (Some boardingPub)));
          check (negb (seqb (bt_OnchainAddress boarding) "" || (zlen (bt_PkScript boarding) =? 0))) (Errorf "recovery binding boarding descriptor incomplete");;
          mret (string_of_list_byte (json_struct (recoveryBinding cred spending cosigner delegate boarding nonce ciphertext)))
      | _ => fail (Errorf "recovery binding boarding descriptor unavailable")
      end
  | _, _ => fail (Errorf "recovery binding Spending descriptor incomplete")
  end.

Definition BuildRecoveryBindingFor (vaultID envelopeNonce envelopeCiphertext : string) : M AppWorld RecoveryBindingResponse :=
  vaultID ← lift (routeVaultID vaultID);
  cred ← loadCredential vaultID;
  match cred with
  | None => fail (Errorf "not enrolled")
  | Some cred =>
      nonce ← lift (decodeFixedHex envelopeNonce 12 "credential envelope nonce");
      ciphertext ← lift (decodeFixedHex envelopeCiphertext 48 "credential envelope ciphertext");
      binding ← canonicalRecoveryBinding cred nonce ciphertext;
      mret (MkBindingResponse binding (hex_encode (recoveryBindingDigest binding)))
  end.

(** ** Envelopes *)

(** The phone's Schnorr signature over the binding. *)
Definition verifyBindingPhone (phonePub : bytes) (digest sig : bytes) : result unit :=
  pub ← wrap "stored PhoneBIP340" (ParsePubKey phonePub);
  match ParseSignature sig with
  | Ok parsed => require (VerifySig parsed digest pub) (Errorf "credential envelope binding Phone signature invalid")
  | Err _ => Err (Errorf "credential envelope binding Phone signature invalid")
  end.

Definition sealVaultEnvelope (envelope : CredentialEnvelope) (vaultID : string) (credentialID : bytes) : result CredentialEnvelope :=
  key ← credentialIntegrityKey (ap_IntegrityKey s);
  wrap "seal credential envelope" (SealVaultEnvelope envelope vaultID credentialID key).

Definition InstallCredentialEnvelope (req : InstallCredentialEnvelopeRequest) : M AppWorld unit :=
  vaultID ← lift (routeVaultID (iq_VaultID req));
  cred ← authenticatePasskeySession passkeyPurposeInstall vaultID (iq_Session req);
  nonce ← lift (decodeFixedHex (iq_EnvelopeNonce req) 12 "credential envelope nonce");
  ciphertext ← lift (decodeFixedHex (iq_EnvelopeCiphertext req) 48 "credential envelope ciphertext");
  expectedBinding ← canonicalRecoveryBinding cred nonce ciphertext;
  check (seqb (iq_Binding req) expectedBinding) (Errorf "credential envelope binding mismatch");;
  let digest := recoveryBindingDigest expectedBinding in
  directSig ← lift (decodeFixedHex (iq_BindingDirectSig req) 64 "binding DirectP256 signature");
  lift (wrap "credential envelope binding" (verifyDirectAuth (PhoneDirectP256 cred) digest directSig));;
  phoneSigRaw ← lift (decodeFixedHex (iq_BindingPhoneSig req) 64 "binding Phone signature");
  lift (verifyBindingPhone (PhoneBIP340 cred) digest phoneSigRaw);;
  vaultID ← lift (routeVaultID (firstNonEmpty [vaultID; VaultID cred]));
  envelope ← lift (sealVaultEnvelope (MkEnvelope CredentialEnvelopeVersion expectedBinding nonce ciphertext directSig phoneSigRaw []) vaultID (ID cred));
  existing ← loadEnvelope vaultID (ID cred);
  match existing with
  | None => store_call (fun ok _ st =>
      let '(t, r) := StoreVaultEnvelopeIfAbsent (st_ledger st) (st_tenants st) ok vaultID envelope in (st_set_tenants t st, r))
  | Some existing => check (credentialEnvelopesEqual existing envelope) (Errorf "credential envelope locked")
  end.

Definition recoverResponse (e : CredentialEnvelope) : RecoverCredentialEnvelopeResponse :=
  MkRecoverResponse (e_Binding e) (hex_encode (recoveryBindingDigest (e_Binding e))) (hex_encode (e_Nonce e)) (hex_encode (e_Ciphertext e))
    (hex_encode (e_DirectSig e)) (hex_encode (e_PhoneSig e)).

Definition RecoverCredentialEnvelope (req : RecoverCredentialEnvelopeRequest) : M AppWorld RecoverCredentialEnvelopeResponse :=
  vaultID ← lift (routeVaultID (vq_VaultID req));
  cred ← authenticatePasskeySession passkeyPurposeRecover vaultID (vq_Session req);
  vaultID ← lift (routeVaultID (firstNonEmpty [vaultID; VaultID cred]));
  envelope ← loadEnvelope vaultID (ID cred);
  match envelope with
  | None => fail (Errorf "passkey sign-in has not been enabled on the original device")
  | Some e => mret (recoverResponse e)
  end.

(** ** Vault maps: map.go *)

Definition GetMap (vaultID : string) : M AppWorld string :=
  ledgerIntegrity;;
  rec ← app_read (fun w => GetVaultMap (st_ledger (aw_store w)) (st_tenants (aw_store w)) vaultID);
  match rec with Some rec => mret (vm_Payload rec) | None => fail ErrNotFound end.

Definition PutMap (req : MapWriteRequest) : M AppWorld unit :=
  let vaultID := trim_space (mq_VaultID req) in
  check (negb (seqb vaultID "")) (Errorf "vault id required");;
  ledgerIntegrity;;
  authenticatePasskeySession passkeyPurposeMapWrite vaultID (mq_Session req);;
  lift (checkVaultMap vaultID (mq_Payload req));;
  store_call (fun ok now st =>
    let '(t, r) := PutVaultMap (st_ledger st) (st_tenants st) ok now
      (MkVaultMap vaultID (hex_encode (sha256 (mq_Payload req))) (string_of_list_byte (mq_Payload req))) in
    (st_set_tenants t st, r)).
End sessions.
