(* ===== verification/Transition.v ===== *)
(** * Recovery transitions

    [internal/application/transition.go]: co-signing the move of a Savings coin
    to the pending tree of a claimant and from there to its quarantine.  The
    trees are rebuilt from the stored credential, the claimant or guardian has
    signed, the phone also holds a passkey session, and the store binds the
    outpoint to one destination. *)

From S2P Require Import Prelude Crypto Codec GoTime Program Ledger Recovery Tenant Enrollment Apperr WebAuthn Psbt SpendVerify KeyProvider Trees Savings SavingsFamily Service Deployment Register Effects Session.
From Stdlib Require Import Strings.Byte Strings.Ascii Strings.String.
From stdpp Require Import base decidable list strings gmap option.
From Stdlib Require Import ZArith Lia Sorted.
Open Scope string_scope.
Open Scope list_scope.
Open Scope Z_scope.

Definition maxTransitionsPerVaultPerMinute : Z := 10.
Definition transitionRateWindow : Z := minute.

Record TransitionRequest := MkTransitionRequest { tq_VaultID : string; tq_Purpose : string; tq_PSBT : string; tq_Session : SessionAssertionRequest }.
Record TransitionResponse := MkTransitionResponse { ts_SignedPSBT : string; ts_Replay : bool }.

(** ** The rate limit, under [transitionRateMu] *)

Definition allowTransition (now : Z) (hits : list Z) : result unit * list Z :=
  let kept := List.filter (fun ts => now - transitionRateWindow <? ts) hits in
  if maxTransitionsPerVaultPerMinute <=? zlen kept then (Err (Errorf "too many recovery signatures"), kept)
  else (Ok tt, kept ++ [now]).

Section transition.
Context `{ErrorText, Btc, !Arkade, !Ark, !ArkLib, !SavingsLib, !CheckpointLib, MapNumbers}.

(** ** The packet *)

Definition validateTransitionPacket (ptx : Packet) : result unit :=
  match pk_UnsignedTx ptx with
  | None => Err (Errorf "transition dest required")
  | Some tx =>
      require (1 <=? zlen (tx_TxOut tx)) (Errorf "transition dest required");;
      require (tx_Version tx =? 2) (Errorf "transaction version must be 2");;
      require (tx_LockTime tx =? 0) (Errorf "locktime must be zero");;
      match tx_TxIn tx, pk_Inputs ptx with
      | [txin], [input] =>
          require (ti_Sequence txin =? TransitionSequence) (Errorf "transition sequence must be 0xfffffffd");;
          require (pi_SighashType input =? SigHashDefault) (Errorf "sighash must be SIGHASH_DEFAULT");;
          require (bool_decide (is_Some (pi_WitnessUtxo input))) (Errorf "witness utxo required");;
          match pi_TaprootLeafScript input with [Some _] => Ok tt | _ => Err (Errorf "exactly one taproot leaf required") end
      | _, _ => Err (Errorf "exactly one input required")
      end
  end.

(** What the handler reads from a packet that passed. *)
Record Submitted := MkSubmitted {
  su_tx : MsgTx; su_outpoint : OutPoint; su_prev : TxOut; su_leaf : bytes; su_dest : bytes; su_sigs : list (option SpendSig)
}.

Definition submitted (ptx : Packet) : option Submitted :=
  match pk_UnsignedTx ptx, pk_Inputs ptx with
  | Some tx, input :: _ =>
      match tx_TxIn tx, tx_TxOut tx, pi_WitnessUtxo input, pi_TaprootLeafScript input with
      | txin :: _, out :: _, Some prev, Some leaf :: _ =>
          Some (MkSubmitted tx (ti_PreviousOutPoint txin) prev (tl_Script leaf) (to_PkScript out) (pi_TaprootScriptSpendSig input))
      | _, _, _, _ => None
      end
  | _, _ => None
  end.

Definition transitionSighash (sub : Submitted) : result string :=
  raw ← wrap "transition sighash" (CalcTapscriptSignaturehash (cannedFetcher (su_prev sub)) SigHashDefault (su_tx sub) 0 (su_leaf sub));
  Ok (hex_encode raw).

Definition sameUnsignedTransition (stored : bytes) (sub : Submitted) : result unit :=
  let mismatch := Errorf "stored transition does not match the submitted transaction" in
  match NewFromRawBytes (string_of_list_byte stored) with
  | Ok (MkPacket (Some tx) _ _ _) => require (beqb (TxHash tx) (TxHash (su_tx sub))) mismatch
  | _ => Err mismatch
  end.

(** ** The binding *)

Record transitionBinding := MkBinding {
  tb_Claimant : string; tb_Role : string; tb_Dest : bytes; tb_Tweaks : TweakPair; tb_Leaf : bytes; tb_SignerPub : PublicKey
}.

Definition recoveryRolePubs (cred : Credential) : result (gmap string PublicKey) :=
  match ParsePubKey (PhoneBIP340 cred) with
  | Err _ => Err (Errorf "phone key")
  | Ok phone =>
      match ParsePubKey (ExternalOwnerWallet cred) with
      | Err _ => Err (Errorf "hardware key")
      | Ok hardware =>
          let out := <["hardware" := hardware]> {["phone" := phone]} in
          Ok (if 0 <? zlen (RecoveryKey cred) then
                match ParsePubKey (RecoveryKey cred) with Ok recovery => <["recovery" := recovery]> out | Err _ => out end
              else out)
      end
  end.

Definition allClaimants : list string := ["phone"; "hardware"; "recovery"].

Section binding.
Context (fam : Family) (roles : gmap string PublicKey) (sub : Submitted).

Fixpoint initiateBinding (claimants : list string) : result transitionBinding :=
  match claimants with
  | [] => Err (Errorf "initiate leaf is not a rebuilt Savings recovery tree")
  | c :: rest =>
      match roles !! c, f_Initiate fam !! c with
      | Some pub, Some tw =>
          want ← Checksig [pub; tp_Vault tw; tp_Arkade tw];
          if negb (beqb (su_leaf sub) want) then initiateBinding rest else
          require (match f_Pending fam !! FamilyKey c with Some t => beqb (su_dest sub) (t_PkScript t) | None => false end)
            (Errorf "initiate dest is not the pending tree for this leaf");;
          Ok (MkBinding c c (su_dest sub) tw (su_leaf sub) pub)
      | _, _ => initiateBinding rest
      end
  end.

(** The guardians of one claimant; [None]: no leaf of this tree. *)
Fixpoint guardianBinding (c : string) (tw : TweakPair) (guardians : list string) : result (option transitionBinding) :=
  match guardians with
  | [] => Ok None
  | g :: rest =>
      if seqb g c then guardianBinding c tw rest else
      match roles !! g with
      | None => guardianBinding c tw rest
      | Some pub =>
          want ← Checksig [pub; tp_Vault tw; tp_Arkade tw];
          if negb (beqb (su_leaf sub) want) then guardianBinding c tw rest else
          require (match f_Quarantine fam !! FamilyKey c with Some t => beqb (su_dest sub) (t_PkScript t) | None => false end)
            (Errorf "clawback dest is not the quarantine tree for this leaf");;
          Ok (Some (MkBinding c g (su_dest sub) tw (su_leaf sub) pub))
      end
  end.

Fixpoint clawbackBinding (claimants : list string) : result transitionBinding :=
  match claimants with
  | [] => Err (Errorf "clawback leaf is not a rebuilt Savings recovery tree")
  | c :: rest =>
      match f_Pending fam !! FamilyKey c, f_PendingTweaks fam !! FamilyKey c with
      | Some pending, Some tw =>
          if negb (beqb (to_PkScript (su_prev sub)) (t_PkScript pending)) then clawbackBinding rest else
          found ← guardianBinding c tw allClaimants;
          match found with Some b => Ok b | None => clawbackBinding rest end
      | _, _ => clawbackBinding rest
      end
  end.
End binding.

Definition resolveTransitionBinding (fam : Family) (cred : Credential) (purpose : string) (sub : Submitted) : result transitionBinding :=
  roles ← recoveryRolePubs cred;
  if seqb purpose "initiate" then
    require (beqb (to_PkScript (su_prev sub)) (t_PkScript (f_Savings fam))) (Errorf "initiate input is not the rebuilt Savings tree");;
    initiateBinding fam roles sub allClaimants
  else clawbackBinding fam roles sub allClaimants.

Definition claimantSig (key leafHash : bytes) (sigs : list (option SpendSig)) : option SpendSig :=
  match List.find (fun x => match x with Some sig => beqb (ss_XOnlyPubKey sig) key && beqb (ss_LeafHash sig) leafHash | None => false end) sigs with
  | Some found => found
  | None => None
  end.

Definition verifyTransitionClaimantSig (ptx : Packet) (sub : Submitted) (bound : transitionBinding) : result unit :=
  require (zlen (pk_Inputs ptx) =? 1) (Errorf "exactly one input required");;
  let wantPub := SerializeXOnly (tb_SignerPub bound) in
  match claimantSig wantPub (TapHash (tb_Leaf bound)) (su_sigs sub) with
  | None => Err (Errorf ("transition requires the " ++ tb_Role bound ++ " signature before cosigning"))
  | Some found =>
      require (ss_SigHash found =? SigHashDefault) (Errorf "transition claimant sighash");;
      wrap "transition claimant signature" (VerifySchnorrOnSubmittedTx ptx (ss_Signature found) wantPub (tb_Leaf bound))
  end.

(** ** The handler *)

Context (s : Registrar) (o : AppOutside).

Definition transitionFamily (cred : Credential) : result Family :=
  '(k, _) ← rebuildSavings s cred;
  i ← savingsFamilyInput s (VaultID cred) (parsedOfCredential cred k) (Some (rk_vaultBase k)) (Some (rk_arkadeBase k));
  let i := MkFamilyInput (i_VaultID i) (i_Network i) (i_Phone i) (i_Hardware i) (i_Recovery i) (i_PhoneDirectP256 i) (i_VaultCosignerBase i)
             (i_ArkadeCosignerBase i) (TemplateVersion cred) (seqb (TemplateVersion cred) Template) (i_ProtectionTier i) (i_SpendingPolicy i) in
  '(_, fam) ← BuildPublicDescriptor i (ArkadeCosignerOrigin cred) (ArkadeCosignerVersion cred);
  Ok fam.

(** The checks on the request, from the credential on. *)
Definition checkTransition (cred : Credential) (purpose raw : string) : result (Packet * Submitted * transitionBinding) :=
  require (seqb (TemplateVersion cred) Template) (Errorf "current vault template required");;
  '(ptx, _) ← parseAndVerifyPrevout raw;
  validateTransitionPacket ptx;;
  fam ← transitionFamily cred;
  match submitted ptx with
  | None => Err (Errorf "transition dest required")
  | Some sub =>
      bound ← resolveTransitionBinding fam cred purpose sub;
      verifyTransitionClaimantSig ptx sub bound;;
      Ok (ptx, sub, bound)
  end.

Definition allow (vaultID : string) : M AppWorld unit :=
  now ← appNow o;
  app_access o (fun _ w =>
    let '(r, kept) := allowTransition now (default [] (aw_hits w !! vaultID)) in (r, set_hits (<[vaultID := kept]> (aw_hits w)) w)).

(** The session of the outpoint and purpose, unsigned or signed. *)
Definition transitionSession (req : TransitionRequest) (purpose : string) (sub : Submitted) (dest sighash : string) (sig : option bytes) : RecoverySession :=
  MkSession (tq_VaultID req) purpose (hex_encode (rev (su_outpoint sub).1)) (su_outpoint sub).2 dest sighash sig "" "" [].

Definition applyReplay (next : RecoverySession) : M AppWorld (ReplayAction * option RecoverySession) :=
  r ← try (store_call o (fun ok now st =>
    let '(t, r) := ApplyRecoveryReplay (st_ledger st) (st_sessions st) ok now next in (st_set_sessions t st, r)));
  match r with Ok a => mret a | Err e => fail (mapLedgerBusy e) end.

Definition replayed (action : ReplayAction) : bool := match action with ReplayReplay => true | _ => false end.

(** Both signatures, the stored session carrying them, and the answer. *)
Definition signTransition (req : TransitionRequest) (purpose : string) (ptx : Packet) (sub : Submitted) (bound : transitionBinding)
    (sighash : string) (action : ReplayAction) : M AppWorld TransitionResponse :=
  '(_, _, rec) ← app_read o (fun w =>
    resolveSpendVaultRecord (ap_Config s) (ap_IntegrityKey s) (aw_published w) (st_tenants (aw_store w)) (tq_VaultID req));
  submitted ← lift (B64Encode ptx);
  authorization ← lift (newSavingsRecoveryAuthorization (Some rec) submitted (SerializeXOnly (tp_Vault (tb_Tweaks bound)))
                          (SerializeXOnly (tp_Arkade (tb_Tweaks bound))));
  encoded ← app_read o (fun w => savingsRecoveryAuthorize (ap_keys s) (aw_cell w) authorization);
  applyReplay (transitionSession req purpose sub (hex_encode (tb_Dest bound)) sighash (Some (bytes_of encoded)));;
  mret (MkTransitionResponse encoded (replayed action)).

Definition SignTransition (req : TransitionRequest) : M AppWorld TransitionResponse :=
  let purpose := to_lower (trim_space (tq_Purpose req)) in
  check (seqb purpose "initiate" || seqb purpose "clawback") (Errorf "purpose must be initiate or clawback");;
  check (negb (seqb (trim_space (tq_VaultID req)) "")) (Errorf "vault id required");;
  ledgerIntegrity s o;;
  cred ← loadCredential s o (tq_VaultID req);
  match cred with
  | None => fail (Errorf "current vault template required")
  | Some cred =>
      '(ptx, sub, bound) ← lift (checkTransition cred purpose (tq_PSBT req));
      allow (VaultID cred);;
      (if seqb (tb_Role bound) "phone" then authenticatePasskeySession s o passkeyPurposeTransition (tq_VaultID req) (tq_Session req);; mret tt
       else mret tt);;
      sighash ← lift (transitionSighash sub);
      '(action, stored) ← applyReplay (transitionSession req purpose sub (hex_encode (tb_Dest bound)) sighash None);
      match action, stored with
      | ReplayReplay, Some st =>
          if 0 <? zlen (sig_bytes (rs_Signature st)) then
            lift (sameUnsignedTransition (sig_bytes (rs_Signature st)) sub);;
            mret (MkTransitionResponse (string_of_list_byte (sig_bytes (rs_Signature st))) true)
          else signTransition req purpose ptx sub bound sighash action
      | _, _ => signTransition req purpose ptx sub bound sighash action
      end
  end.
End transition.

(** ** The rate *)

(** The times of the accepted calls of a sequence of calls. *)
Fixpoint accepted (hits : list Z) (nows : list Z) : list Z :=
  match nows with
  | [] => []
  | now :: rest =>
      match allowTransition now hits with
      | (Ok _, hits) => now :: accepted hits rest
      | (Err _, hits) => accepted hits rest
      end
  end.

Definition in_window (t x : Z) : bool := (t - transitionRateWindow <? x) && (x <=? t).
Abbreviation after t := (fun x : Z => t <? x).

Lemma filter_weaken (p q : Z -> bool) l : (forall x, q x = true -> p x = true) -> List.filter q (List.filter p l) = List.filter q l.
Proof.
  intros Hpq. induction l as [|x l IH]; [done|]. simpl. destruct (p x) eqn:Ep; simpl; [by rewrite IH|].
  destruct (q x) eqn:Eq; [|done]. rewrite (Hpq x Eq) in Ep. done.
Qed.

Lemma filter_subset_len (p q : Z -> bool) l : (forall x, x ∈ l -> p x = true -> q x = true) -> zlen (List.filter p l) <= zlen (List.filter q l).
Proof.
  induction l as [|x l IH]; intros Hpq; [done|]. specialize (IH ltac:(intros y Hy; apply Hpq; set_solver)). simpl.
  destruct (p x) eqn:Ep; [rewrite (Hpq x ltac:(set_solver) Ep)|destruct (q x)]; unfold zlen in *; simpl; lia.
Qed.

(** What the table remembers of the calls accepted so far. *)
Record remembered (past hits : list Z) (last : Z) : Prop := {
  re_hits : List.filter (after (last - transitionRateWindow)) past = List.filter (after (last - transitionRateWindow)) hits;
  re_past : forall x, x ∈ past -> x <= last;
  re_rate : forall t, zlen (List.filter (in_window t) past) <= maxTransitionsPerVaultPerMinute
}.

Lemma remembered_later past hits last now : remembered past hits last -> last <= now -> remembered past hits now.
Proof.
  intros [Hh Hp Hr] Hle. constructor; [|intros x Hx; specialize (Hp x Hx); lia|done].
  assert (Hw : forall l, List.filter (after (now - transitionRateWindow)) (List.filter (after (last - transitionRateWindow)) l) =
                         List.filter (after (now - transitionRateWindow)) l) by (intros l; apply filter_weaken; intros x; lia).
  by rewrite <-(Hw past), <-(Hw hits), Hh.
Qed.

Lemma remembered_step past hits now : remembered past hits now ->
  match allowTransition now hits with (Ok _, hits') => remembered (past ++ [now]) hits' now | (Err _, hits') => remembered past hits' now end.
Proof.
  intros [Hh Hp Hr]. unfold allowTransition. set (kept := List.filter (after (now - transitionRateWindow)) hits) in *.
  assert (Hk : List.filter (after (now - transitionRateWindow)) kept = kept) by (apply filter_weaken; done).
  destruct (maxTransitionsPerVaultPerMinute <=? zlen kept) eqn:E; constructor; try done.
  - by rewrite Hk.
  - rewrite !filter_app, Hh, Hk. done.
  - intros x. rewrite elem_of_app, list_elem_of_singleton. intros [Hx| ->]; [by apply Hp|lia].
  - intros t. destruct (Z.leb_spec now t) as [Ht|Ht].
    + transitivity (zlen (List.filter (after (now - transitionRateWindow)) (past ++ [now]))).
      * apply filter_subset_len. unfold in_window. intros x Hx. lia.
      * rewrite filter_app, Hh, zlen_app. fold kept. simpl. destruct (_ <? now); unfold zlen, maxTransitionsPerVaultPerMinute in *; simpl; lia.
    + rewrite filter_app, zlen_app. simpl. unfold in_window at 2. replace (now <=? t) with false by lia. rewrite andb_false_r. specialize (Hr t). unfold zlen at 2. simpl. lia.
Qed.

Lemma accepted_rate nows : forall past hits last, remembered past hits last -> StronglySorted Z.le (last :: nows) ->
  forall t, zlen (List.filter (in_window t) (past ++ accepted hits nows)) <= maxTransitionsPerVaultPerMinute.
Proof.
  induction nows as [|now nows IH]; intros past hits last Hre Hs t; simpl; [rewrite app_nil_r; apply (re_rate _ _ _ Hre)|].
  apply StronglySorted_inv in Hs as [Hs Hle]. pose proof (remembered_step past hits now) as Hstep.
  assert (Hn : remembered past hits now) by (apply (remembered_later _ _ last); [done|by inversion Hle]). specialize (Hstep Hn).
  destruct (allowTransition now hits) as [[[]|e] hits']; [|by apply (IH past hits' now)].
  change (now :: accepted hits' nows) with ([now] ++ accepted hits' nows). rewrite app_assoc. by apply (IH (past ++ [now]) hits' now).
Qed.

(** [C39] At most ten recovery transitions of a vault pass the rate limit in any
    minute, for every sequence of calls whose clock readings do not go back. *)
Theorem transition_rate_bounded nows t : StronglySorted Z.le nows ->
  zlen (List.filter (fun x => (t - transitionRateWindow <? x) && (x <=? t)) (accepted [] nows)) <= maxTransitionsPerVaultPerMinute.
Proof.
  intros Hs. destruct nows as [|n nows]; [done|]. apply (accepted_rate (n :: nows) [] [] n); [constructor; [done|set_solver|intros ?; vm_compute; discriminate]|].
  constructor; [done|]. apply StronglySorted_inv in Hs as [_ Hle]. constructor; [lia|done].
Qed.

Lemma transition_rate_bounded_witness : zlen (accepted [] (map (fun i => Z.of_nat i * second) (seq 0 30))) = 10 /\
  zlen (List.filter (fun x => (29 * second - transitionRateWindow <? x) && (x <=? 29 * second))
    (accepted [] (map (fun i => Z.of_nat i * second) (seq 0 30)))) <= maxTransitionsPerVaultPerMinute.
Proof.
  split; [reflexivity|]. apply transition_rate_bounded. repeat (constructor; [|repeat (constructor; [vm_compute; discriminate|]); constructor]). constructor.
Defined.
