(* ===== verification/RecoverySafety.v ===== *)
(** * Recovery: what a session, an envelope and a transition guarantee

    A consumed challenge is gone for good; what an install stores and what a
    recovery answers; a co-signed transition goes from the rebuilt tree to the
    next one of the family, with the claimant's signature. *)

From S2P Require Import Prelude Crypto Codec GoTime Program Ledger SignCount Recovery Tenant Enrollment Apperr WebAuthn Psbt SpendVerify KeyProvider Trees Savings SavingsFamily Service Deployment Register Effects Session Transition.
From Stdlib Require Import Strings.Byte Strings.Ascii Strings.String.
From stdpp Require Import base decidable list strings gmap option.
From Stdlib Require Import ZArith Lia.
Open Scope string_scope.
Open Scope list_scope.
Open Scope Z_scope.

(** ** Trimming *)

Lemma trim_right_idem t : trim_right (trim_right t) = trim_right t.
Proof.
  induction t as [|c t IH]; [done|]. simpl. destruct (trim_right t) as [|c' t'] eqn:E.
  - destruct (Recovery.is_space c) eqn:Ec; simpl; rewrite ?Ec; done.
  - change (trim_right (String c (String c' t'))) with (match trim_right (String c' t') with EmptyString => if Recovery.is_space c then EmptyString else String c EmptyString | r => String c r end).
    by rewrite IH.
Qed.

(** What does not start with a space still does not after trimming the end. *)
Lemma trim_left_right t : trim_left t = t -> trim_left (trim_right t) = trim_right t.
Proof.
  destruct t as [|c t]; [done|]. simpl. destruct (Recovery.is_space c) eqn:Ec.
  - intros E. exfalso. assert (Hlen : (String.length (trim_left t) <= String.length t)%nat).
    { clear. induction t as [|a t IH]; simpl; [lia|]. destruct (Recovery.is_space a); simpl; lia. }
    rewrite E in Hlen. simpl in Hlen. lia.
  - intros _. destruct (trim_right t); simpl; by rewrite Ec.
Qed.

Lemma trim_left_idem t : trim_left (trim_left t) = trim_left t.
Proof. induction t as [|c t IH]; [done|]. simpl. destruct (Recovery.is_space c) eqn:Ec; [done|]. simpl. by rewrite Ec. Qed.

Lemma trim_space_idem t : trim_space (trim_space t) = trim_space t.
Proof. unfold trim_space. rewrite trim_left_right by apply trim_left_idem. apply trim_right_idem. Qed.

(** A hexadecimal text is its own normal form. *)
Lemma trim_space_id t : Forall (fun c => Recovery.is_space c = false) (list_ascii_of_string t) -> trim_space t = t.
Proof.
  intros Ht. unfold trim_space. assert (El : trim_left t = t) by (destruct t; inversion Ht as [|? ? Hc]; simpl; rewrite ?Hc; done). rewrite El. clear El.
  induction t as [|c t IH]; [done|]. inversion_clear Ht as [|? ? Hc Hr]. simpl. rewrite (IH Hr), Hc. by destruct t.
Qed.

Lemma hex_no_space b : Forall (fun c => Recovery.is_space c = false) (list_ascii_of_string (hex_encode b)).
Proof.
  induction b as [|x b IH]; [constructor|]. simpl. constructor; [|constructor; [|exact IH]]; destruct x; vm_compute; reflexivity.
Qed.

Lemma normalize_hex b : normalize (hex_encode b) = hex_encode b.
Proof. unfold normalize. rewrite (trim_space_id _ (hex_no_space b)). apply to_lower_hex_encode. Qed.

Section safety.
#[local] Set Default Proof Using "All".
Context `{ErrorText, Btc, !Arkade, !Ark, !ArkLib, !SavingsLib, !CheckpointLib, MapNumbers}.
Context (s : Registrar) (o : AppOutside).

(** ** Steps *)

Lemma app_access_run {A} (f : nat -> AppWorld -> result A * AppWorld) w r w' : app_access o f w = Some (r, w') ->
  f (aw_step w) (advance (app_others o (aw_step w) w)) = (r, w').
Proof using Type. unfold app_access. by intros [= E]. Qed.

Lemma app_read_Ok {A} (f : AppWorld -> result A) w a w' : app_read o f w = Some (Ok a, w') ->
  f w' = Ok a /\ w' = advance (app_others o (aw_step w) w).
Proof using Type. intros [= E <-]%app_access_run. done. Qed.

Lemma orFail_Ok {A} (m : M AppWorld A) w a w' : orFail m w = Some (Ok a, w') -> m w = Some (Ok a, w').
Proof. intros (r & w1 & E%try_Ok & F)%bindM_Ok. destruct r; [|done]. by injection F as <- <-. Qed.

Section kept.
Context (R : AppWorld -> AppWorld -> Prop) `{!Reflexive R, !Transitive R}.

Lemma keeps_app_access {A} (f : nat -> AppWorld -> result A * AppWorld) :
  (forall n w, R w (advance (app_others o n w))) -> (forall n w, R w (f n w).2) -> keeps R (app_access o f).
Proof. intros Ho Hf w r w' E%app_access_run. etrans; [apply Ho|]. specialize (Hf (aw_step w) (advance (app_others o (aw_step w) w))). by rewrite E in Hf. Qed.

Lemma keeps_app_read {A} (f : AppWorld -> result A) : (forall n w, R w (advance (app_others o n w))) -> keeps R (app_read o f).
Proof. intros Ho. apply keeps_app_access; [done|]. intros n w. simpl. reflexivity. Qed.

Lemma keeps_orFail {A} (m : M AppWorld A) : keeps R m -> keeps R (orFail m).
Proof. intros Hm. unfold orFail. keeps. Qed.

Lemma keeps_defer {A} (f : AppWorld -> AppWorld) (m : M AppWorld A) : (forall w, R w (f w)) -> keeps R m -> keeps R (defer f m).
Proof. intros Hf Hm w r w'. unfold defer. destruct (m w) as [[r1 w1]|] eqn:E; [|done]. intros [= <- <-]. etrans; [exact (Hm _ _ _ E)|apply Hf]. Qed.
End kept.

(** Also through reads and failing stages, when the others keep the relation. *)
Ltac app_keeps ho :=
  repeat first [progress keeps | apply keeps_orFail; [apply _..|] | apply keeps_app_read; [apply _..|exact ho] | apply keeps_defer; [apply _..| |]].

(** ** Challenges *)

(** The key is absent and nobody puts it back. *)
Definition absent (k : string) (w w' : AppWorld) : Prop := aw_challenges w !! k = None -> aw_challenges w' !! k = None.

#[local] Instance absent_refl k : Reflexive (absent k).
Proof. by intros w Hk. Qed.
#[local] Instance absent_trans k : Transitive (absent k).
Proof. intros w1 w2 w3 A B C. by apply B, A. Qed.

Lemma take_absent now v id purpose t k : t !! k = None -> (takeChallenge now v id purpose t).2 !! k = None.
Proof.
  unfold takeChallenge. intros Hk. destruct (t !! passkeyChallengeKey v id); [|done]. destruct (_ <=? _); [simpl; apply lookup_delete_None; by right|].
  destruct (_ || _); [done|]. simpl. apply lookup_delete_None. by right.
Qed.

Lemma take_Ok now v id purpose t c t' : takeChallenge now v id purpose t = (Ok c, t') ->
  exists pending, t !! passkeyChallengeKey v id = Some pending /\ ch_VaultID pending = v /\ ch_Purpose pending = purpose /\
    ch_Challenge pending = c /\ now < ch_ExpiresAt pending /\ t' !! passkeyChallengeKey v id = None.
Proof.
  unfold takeChallenge. destruct (t !! passkeyChallengeKey v id) as [pending|] eqn:E; [|done]. destruct (Z.leb_spec (ch_ExpiresAt pending) now); [done|].
  destruct (_ || _) eqn:Eb; [done|]. apply orb_false_iff in Eb as [Hv%negb_false_iff%seqb_true Hp%negb_false_iff%seqb_true].
  intros [= <- <-]. exists pending. split_and!; try done. apply lookup_delete_eq.
Qed.

Section single_use.
Context (k : string) (Hothers : forall n w, absent k w (app_others o n w)).

Lemma others_absent n w : absent k w (advance (app_others o n w)).
Proof. apply Hothers. Qed.

Lemma advanceSignCount_absent v c n : keeps (absent k) (advanceSignCount s o v c n).
Proof.
  unfold advanceSignCount, ledgerIntegrity, store_call. app_keeps others_absent. apply keeps_app_access; [apply _..|apply others_absent|].
  intros m w Hk. by destruct (AdvanceSignCount _ _ _ _ _ _).
Qed.

Lemma consume_absent v id purpose : keeps (absent k) (consumePasskeyChallenge o v id purpose).
Proof.
  unfold consumePasskeyChallenge. keeps. apply keeps_app_access; [apply _..|apply others_absent|]. intros m w Hk.
  pose proof (take_absent (aw_now w) v id purpose (aw_challenges w) k Hk). by destruct (takeChallenge _ _ _ _ _).
Qed.
End single_use.

(** What the device showed for a challenge. *)
Definition shows (purpose : string) (req : SessionAssertionRequest) (cred : Credential) (challenge : bytes) : Prop :=
  exists assertion verified proof, decodeBoundedSessionAssertion (sa_Assertion req) = Ok assertion /\
    WebAuthn.Validate assertion (MkExpected (ID cred) (Tenant.WebAuthnP256 cred) challenge (Origin cred) (RPID cred)) = Ok verified /\
    decodeFixedHex (sa_DirectProof req) 64 "direct proof" = Ok proof /\
    verifyDirectAuth (PhoneDirectP256 cred) (passkeySessionProofDigest purpose challenge (ID cred)) proof = Ok tt.

Lemma consume_Ok v id purpose w c w' : consumePasskeyChallenge o v id purpose w = Some (Ok c, w') ->
  let w1 := advance (app_others o (aw_step w) w) in
  (exists pending, aw_challenges w1 !! passkeyChallengeKey v id = Some pending /\ ch_VaultID pending = v /\ ch_Purpose pending = purpose /\
    ch_Challenge pending = c /\ aw_now w1 < ch_ExpiresAt pending) /\ aw_challenges w' !! passkeyChallengeKey v id = None.
Proof.
  intros (u & w0 & [_ ->]%lift_Ok & E%app_access_run)%bindM_Ok w1. destruct (takeChallenge _ _ _ _ _) as [r t] eqn:Et.
  injection E as -> <-. apply take_Ok in Et as (pending & Hin & Hv & Hp & Hc & He & Hn). split; [|done]. by exists pending.
Qed.

Lemma passkeySession_Ok purpose v req w cred w' : passkeySession s o purpose v req w = Some (Ok cred, w') ->
  let w1 := advance (app_others o (aw_step w) w) in let k := passkeyChallengeKey (trim_space v) (sa_ChallengeID req) in
  (exists pending, aw_challenges w1 !! k = Some pending /\ ch_VaultID pending = trim_space v /\ ch_Purpose pending = purpose /\
    aw_now w1 < ch_ExpiresAt pending /\ shows purpose req cred (ch_Challenge pending)) /\
  (exists w2, loadVerifiedCredentialFor (ap_IntegrityKey s) (st_tenants (aw_store w2)) (trim_space v) = Ok (Some cred)) /\
  ((forall n w, absent k w (app_others o n w)) -> aw_challenges w' !! k = None).
Proof.
  intros E w1 k. apply bindM_Ok in E as (id & w0 & [Hr ->]%lift_Ok & E). unfold routeVaultID in Hr. apply bind_Ok in Hr as ([] & _ & [= <-]).
  apply bindM_Ok in E as (c & w2 & Hc%orFail_Ok%consume_Ok & E). destruct Hc as [(pending & Hin & Hv & Hp & Hch & He) Hn].
  assert (Hk : (forall n w, absent k w (app_others o n w)) -> aw_challenges w' !! k = None).
  { intros Ho. match type of E with ?m w2 = _ => assert (Hkeep : keeps (absent k) m) end; [|exact (Hkeep _ _ _ E Hn)].
    clear E. pose proof (advanceSignCount_absent k Ho). unfold loadCredential. app_keeps Ho. }
  apply bindM_Ok in E as (oc & w3 & Hl%orFail_Ok%app_read_Ok & E). destruct Hl as [Hl _]. destruct oc as [cred'|]; [|done].
  apply bindM_Ok in E as (a & w4 & [Ha ->]%orFail_Ok%lift_Ok & (u1 & w5 & [_ ->]%check_Ok & (u2 & w6 & _ & (vr & w7 & [Hval _]%orFail_Ok%lift_Ok & E)%bindM_Ok)%bindM_Ok)%bindM_Ok).
  apply bindM_Ok in E as (u3 & w8 & _ & (proof & w9 & [Hpr _]%orFail_Ok%lift_Ok & ([] & w10 & [Hda _]%orFail_Ok%lift_Ok & [= -> _])%bindM_Ok)%bindM_Ok).
  split; [|split; [|done]].
  - exists pending. rewrite Hch. split_and!; try done. by exists a, vr, proof.
  - by exists w3.
Qed.

(** [C5] A passkey session is fresh and used once: its challenge was outstanding
    for the vault and the purpose and not expired when it was taken, the passkey
    and the direct key both answered that challenge, and as long as nobody issues
    the same identifier again it is gone, so that every later session that
    presents it is refused. *)
Theorem session_single_use purpose v req w cred w' : let k := passkeyChallengeKey (trim_space v) (sa_ChallengeID req) in
  (forall n w, absent k w (app_others o n w)) -> authenticatePasskeySession s o purpose v req w = Some (Ok cred, w') ->
  (exists w0 pending, acquireSlot s o w = Some (Ok tt, w0) /\ let w1 := advance (app_others o (aw_step w0) w0) in
    aw_challenges w1 !! k = Some pending /\ ch_VaultID pending = trim_space v /\ ch_Purpose pending = purpose /\
    aw_now w1 < ch_ExpiresAt pending /\ shows purpose req cred (ch_Challenge pending)) /\
  aw_challenges w' !! k = None /\
  forall purpose2 v2 req2 w2 r w3, aw_challenges w2 !! k = None -> trim_space v2 = trim_space v -> sa_ChallengeID req2 = sa_ChallengeID req ->
    authenticatePasskeySession s o purpose2 v2 req2 w2 = Some (r, w3) -> exists e, r = Err e.
Proof.
  intros k Ho E. apply bindM_Ok in E as ([] & w0 & Ha & E). unfold defer in E. destruct (passkeySession s o purpose v req w0) as [[r w1]|] eqn:Es; [|done].
  injection E as -> <-. apply passkeySession_Ok in Es as ((pending & Hp) & _ & Hn). fold k in Hp, Hn. split; [by exists w0, pending|]. split; [by apply Hn|].
  intros purpose2 v2 req2 w2 r w3 Hk Hv Hid E. destruct r as [cred2|e]; [exfalso|by exists e].
  apply bindM_Ok in E as ([] & w4 & Ha2 & E). unfold defer in E. destruct (passkeySession s o purpose2 v2 req2 w4) as [[r w5]|] eqn:Es; [|done].
  injection E as -> _. apply passkeySession_Ok in Es as ((pending2 & Hp2 & _) & _ & _). rewrite Hv, Hid in Hp2. fold k in Hp2.
  assert (Hk4 : aw_challenges w4 !! k = None).
  { assert (Hkeep : keeps (absent k) (acquireSlot s o)); [|exact (Hkeep _ _ _ Ha2 Hk)]. unfold acquireSlot, ctxErr. keeps; (apply keeps_app_access; [apply _..|apply Ho|]); intros n w6 Hk6; [done|].
    by destruct (_ <? _). }
  assert (X : aw_challenges (advance (app_others o (aw_step w4) w4)) !! k = None) by exact (Ho _ _ Hk4). by rewrite X in Hp2.
Qed.

(** ** Tenants *)

Abbreviation tenants w := (st_tenants (aw_store w)).

(** Vaults and envelopes, once there, stay as they are. *)
Record tenants_kept (w w' : AppWorld) : Prop := {
  tk_vault : forall id key rec cred, LoadVerifiedVault (tenants w) id key = Ok (Some rec, Some cred) ->
    LoadVerifiedVault (tenants w') id key = Ok (Some rec, Some cred);
  tk_envelope : forall v e, tn_envelope (tenants w) !! v = Some e -> tn_envelope (tenants w') !! v = Some e
}.

#[local] Instance kept_refl : Reflexive tenants_kept.
Proof. by intros w. Qed.
#[local] Instance kept_trans : Transitive tenants_kept.
Proof. intros w1 w2 w3 [A1 B1] [A2 B2]. split; auto. Qed.

Lemma kept_same w w' : tenants w' = tenants w -> tenants_kept w w'.
Proof. intros E. split; by rewrite E. Qed.

Lemma kept_credential w w' key v cred : tenants_kept w w' -> loadVerifiedCredentialFor key (tenants w) v = Ok (Some cred) ->
  loadVerifiedCredentialFor key (tenants w') v = Ok (Some cred).
Proof.
  intros [Hv _]. unfold loadVerifiedCredentialFor. intros (k & Hk & (id & Hid & ([rec vc] & Hl & E)%bind_Ok)%bind_Ok)%bind_Ok.
  rewrite Hk. simpl. rewrite Hid. simpl. destruct rec as [rec|]; [|done]. destruct vc as [vc|]; [|done]. by rewrite (Hv _ _ _ _ Hl).
Qed.

Section tenants.
Context (Hothers : forall n w, tenants_kept w (app_others o n w)).

Lemma others_kept n w : tenants_kept w (advance (app_others o n w)).
Proof. etrans; [apply Hothers|]. by apply kept_same. Qed.

Lemma keeps_same {A} (f : nat -> AppWorld -> result A * AppWorld) : (forall n w, tenants (f n w).2 = tenants w) -> keeps tenants_kept (app_access o f).
Proof. intros Hf. apply keeps_app_access; [apply _..|apply others_kept|]. intros n w. by apply kept_same. Qed.

Lemma auth_kept purpose v req : keeps tenants_kept (authenticatePasskeySession s o purpose v req).
Proof.
  unfold authenticatePasskeySession, acquireSlot, ctxErr, passkeySession, consumePasskeyChallenge, advanceSignCount, ledgerIntegrity, loadCredential, store_call.
  app_keeps others_kept. all: first [by apply kept_same|apply keeps_same; intros n w0; repeat (case_match; simplify_eq); done].
Qed.

(** ** Transitions *)

Lemma pending_claimant i fam r c t : BuildFamily i = Ok fam -> roles_of i r -> f_Pending fam !! FamilyKey c = Some t -> exists pub, (c, pub) ∈ role_list r.
Proof.
  unfold BuildFamily. intros ([] & _ & ([] & _ & ([] & _ & E)%bind_Ok)%bind_Ok)%bind_Ok (E1 & E2 & E3) Ht. rewrite E1, E2, E3 in E.
  destruct (i_VaultCosignerBase i) as [vb|]; [|done]. destruct (i_ArkadeCosignerBase i) as [ab|]; [|done].
  apply bind_Ok in E as (fam0 & Hf & ([sa ss] & _ & ([] & _ & [= <-])%bind_Ok)%bind_Ok). simpl in Ht.
  assert (Hin : c ∈ familyClaimants (has_recovery r)).
  { assert (Hgen : forall l f0 f1, foldR (familyClaimant i (MkRoles (r_phone r) (r_hardware r) (r_recovery r)) vb ab
        (if i_ServerFreeClawback i then clawbackWitnessForServerFree (has_recovery (MkRoles (r_phone r) (r_hardware r) (r_recovery r))) else ClawbackWitnessBytes))
        f0 l = Ok f1 -> f_Pending f1 !! FamilyKey c = Some t -> c ∈ l \/ f_Pending f0 !! FamilyKey c = Some t).
    { induction l as [|c0 l IH]; intros f0 f1; [intros [= ->]; by right|]. rewrite foldR_cons. intros (f2 & Hc & Hr)%bind_Ok Hl.
      destruct (IH _ _ Hr Hl) as [Hin|Hl2]; [left; set_solver|]. unfold familyClaimant in Hc.
      apply bind_Ok in Hc as ([qa qs] & _ & (claw & _ & (pd & _ & ([pa ps] & _ & (ia & _ & (it & _ & [= <-])%bind_Ok)%bind_Ok)%bind_Ok)%bind_Ok)%bind_Ok).
      simpl in Hl2. destruct (decide (c0 = c)) as [->|Hne]; [left; set_solver|]. rewrite lookup_insert_ne in Hl2; [by right|]. intros E%FamilyKey_inj. done. }
    destruct (Hgen _ _ _ Hf Ht) as [Hin|Hno]; [exact Hin|]. simpl in Hno. by rewrite lookup_empty in Hno. }
  rewrite claimants_roles in Hin. apply list_elem_of_fmap_1 in Hin as ([n k] & -> & Hk). by exists k.
Qed.

Lemma transitionFamily_Ok cred fam : transitionFamily s cred = Ok fam -> exists i, BuildFamily i = Ok fam /\ i_VaultID i = VaultID cred.
Proof.
  intros ([k sv] & _ & (i & Hi & ([d f] & Hb & [= <-])%bind_Ok)%bind_Ok)%bind_Ok. unfold BuildPublicDescriptor in Hb.
  apply bind_Ok in Hb as ([] & _ & (f2 & Hf & (dg & _ & [= _ <-])%bind_Ok)%bind_Ok).
  apply bind_Ok in Hi as ([] & _ & [= <-]). eexists. split; [exact Hf|done].
Qed.

(** From which tree to which: Savings to the pending tree of the claimant, by the
    claimant; the pending tree to the quarantine, by a guardian. *)
Definition route (purpose : string) (fam : Family) (sub : Submitted) (bound : transitionBinding) : Prop :=
  let key := FamilyKey (tb_Claimant bound) in
  (purpose = "initiate" /\ tb_Role bound = tb_Claimant bound /\ to_PkScript (su_prev sub) = t_PkScript (f_Savings fam) /\
   f_Initiate fam !! tb_Claimant bound = Some (tb_Tweaks bound) /\ exists p, f_Pending fam !! key = Some p /\ su_dest sub = t_PkScript p) \/
  (purpose = "clawback" /\ tb_Role bound <> tb_Claimant bound /\ f_PendingTweaks fam !! key = Some (tb_Tweaks bound) /\
   exists p q, f_Pending fam !! key = Some p /\ to_PkScript (su_prev sub) = t_PkScript p /\ f_Quarantine fam !! key = Some q /\ su_dest sub = t_PkScript q).

(** The leaf is that of the signer and the two tweaked cosigners. *)
Definition leaf_of (roles : gmap string PublicKey) (sub : Submitted) (bound : transitionBinding) : Prop :=
  roles !! tb_Role bound = Some (tb_SignerPub bound) /\ tb_Leaf bound = su_leaf sub /\ tb_Dest bound = su_dest sub /\
  checksig [tb_SignerPub bound; tp_Vault (tb_Tweaks bound); tp_Arkade (tb_Tweaks bound)] = Ok (su_leaf sub).

Lemma initiate_bound fam roles sub l b : initiateBinding fam roles sub l = Ok b ->
  leaf_of roles sub b /\ tb_Role b = tb_Claimant b /\ f_Initiate fam !! tb_Claimant b = Some (tb_Tweaks b) /\
  exists p, f_Pending fam !! FamilyKey (tb_Claimant b) = Some p /\ su_dest sub = t_PkScript p.
Proof.
  induction l as [|c l IH]; [done|]. simpl. destruct (roles !! c) as [pub|] eqn:Er; [|done]. destruct (f_Initiate fam !! c) as [tw|] eqn:Ei; [|done].
  intros (want & Hw & E)%bind_Ok. destruct (beqb (su_leaf sub) want) eqn:El; [|by apply IH]. simpl in E. apply beqb_true in El as <-.
  apply bind_Ok in E as ([] & Hp%require_Ok & [= <-]). destruct (f_Pending fam !! FamilyKey c) as [p|] eqn:Ep; [|done]. apply beqb_true in Hp.
  split; [done|]. simpl. eauto.
Qed.

Lemma guardian_bound fam roles sub c tw l b : guardianBinding fam roles sub c tw l = Ok (Some b) ->
  leaf_of roles sub b /\ tb_Role b <> tb_Claimant b /\ tb_Claimant b = c /\ tb_Tweaks b = tw /\
  exists q, f_Quarantine fam !! FamilyKey c = Some q /\ su_dest sub = t_PkScript q.
Proof.
  induction l as [|g l IH]; [done|]. simpl. destruct (seqb g c) eqn:Eg; [done|]. apply seqb_false in Eg. destruct (roles !! g) as [pub|] eqn:Er; [|done].
  intros (want & Hw & E)%bind_Ok. destruct (beqb (su_leaf sub) want) eqn:El; [|by apply IH]. simpl in E. apply beqb_true in El as <-.
  apply bind_Ok in E as ([] & Hp%require_Ok & [= <-]). destruct (f_Quarantine fam !! FamilyKey c) as [q|] eqn:Ep; [|done]. apply beqb_true in Hp.
  split; [done|]. simpl. split_and!; [done..|]. by exists q.
Qed.

Lemma clawback_bound fam roles sub l b : clawbackBinding fam roles sub l = Ok b -> leaf_of roles sub b /\ route "clawback" fam sub b.
Proof.
  induction l as [|c l IH]; [done|]. cbn [clawbackBinding]. destruct (f_Pending fam !! FamilyKey c) as [p|] eqn:Ep; [|done].
  destruct (f_PendingTweaks fam !! FamilyKey c) as [tw|] eqn:Et; [|done]. destruct (beqb _ (t_PkScript p)) eqn:El; [|done]. apply beqb_true in El.
  cbn [negb]. intros (found & Hg & E)%bind_Ok. destruct found as [b'|]; [|by apply IH]. injection E as ->.
  apply guardian_bound in Hg as (Hl & Hr & <- & <- & q & Hq & Hd). split; [done|]. right. split_and!; try done. by exists p, q.
Qed.

(** The signature the request brings. *)
Definition signed (ptx : Packet) (sub : Submitted) (bound : transitionBinding) : Prop := exists sig, Some sig ∈ su_sigs sub /\
  ss_SigHash sig = SigHashDefault /\ VerifySchnorrOnSubmittedTx ptx (ss_Signature sig) (SerializeXOnly (tb_SignerPub bound)) (tb_Leaf bound) = Ok tt.

Lemma claimant_signed ptx sub bound : verifyTransitionClaimantSig ptx sub bound = Ok tt -> signed ptx sub bound.
Proof.
  intros ([] & _ & E)%bind_Ok. unfold claimantSig in E. destruct (List.find _ _) as [[found|]|] eqn:Ef; [|done..].
  apply find_some in Ef as [Hin _]. apply bind_Ok in E as ([] & Hs%require_Ok & Hv%wrap_Ok). exists found. split; [by apply list_elem_of_In|].
  split; [lia|done].
Qed.

(** Everything that was checked before the cosigners sign. *)
Record pinned (cred : Credential) (purpose raw : string) (ptx : Packet) (sub : Submitted) (bound : transitionBinding) (fam : Family) : Prop := {
  pn_packet : exists prev, parseAndVerifyPrevout raw = Ok (ptx, prev);
  pn_shape : validateTransitionPacket ptx = Ok tt /\ submitted ptx = Some sub;
  pn_family : transitionFamily s cred = Ok fam;
  pn_route : route purpose fam sub bound;
  pn_leaf : exists roles, recoveryRolePubs cred = Ok roles /\ leaf_of roles sub bound;
  pn_signed : signed ptx sub bound
}.

Lemma checkTransition_pinned cred purpose raw ptx sub bound : purpose = "initiate" \/ purpose = "clawback" ->
  checkTransition s cred purpose raw = Ok (ptx, sub, bound) -> exists fam, pinned cred purpose raw ptx sub bound fam.
Proof.
  intros Hp ([] & _ & ([p prev] & Hr & ([] & Hv & (fam & Hf & E)%bind_Ok)%bind_Ok)%bind_Ok)%bind_Ok. destruct (submitted p) as [sb|] eqn:Es; [|done].
  apply bind_Ok in E as (b & Hb & ([] & Hs & [= -> -> ->])%bind_Ok). exists fam. apply bind_Ok in Hb as (roles & Hro & Hb).
  assert (Hlr : leaf_of roles sub bound /\ route purpose fam sub bound).
  { destruct Hp as [-> | ->]; cbn [seqb String.eqb Ascii.eqb Bool.eqb] in Hb.
    - apply bind_Ok in Hb as ([] & Hi%require_Ok%beqb_true & Hb). apply initiate_bound in Hb as (Hl & Hr1 & Hi1 & Hp1). split; [done|]. by left.
    - by apply clawback_bound in Hb. }
  destruct Hlr as [Hl Hrt]. constructor; try done; [by exists prev|by exists roles|by apply claimant_signed].
Qed.

(** ** The session table *)

Abbreviation sessions w := (st_sessions (aw_store w)).

Lemma hex_session_canonical req purpose sub dest sighash sig : canonical_txid (transitionSession req purpose sub dest sighash sig).
Proof. unfold canonical_txid. apply normalize_hex. Qed.

(** Whatever a call of [ApplyRecoveryReplay] answers, the row of the outpoint and
    the purpose then holds the destination of the request. *)
Lemma applied_dest l t next t' a : applied l t next t' (Ok a) -> normalize (rs_DestScript next) = rs_DestScript next ->
  exists row, t' !! session_pk next = Some row /\ rs_DestScript row = rs_DestScript next.
Proof.
  intros Ha Hn. remember (Ok a) as r eqn:Er. destruct Ha as [e|old Ho _ Hd|row action W _ _ _ _]; [done| |].
  - apply decide_Some in Hd as [Hd _]. exists old. by rewrite Hd.
  - exists row. rewrite lookup_insert_eq, (wr_dest _ _ _ _ W). done.
Qed.

Lemma applyReplay_Ok req purpose sub dest sighash sig w a w' :
  applyReplay o (transitionSession req purpose sub (hex_encode dest) sighash sig) w = Some (Ok a, w') ->
  exists row, sessions w' !! (tq_VaultID req, hex_encode (rev (su_outpoint sub).1), (su_outpoint sub).2, purpose) = Some row /\
    rs_DestScript row = hex_encode dest.
Proof.
  set (next := transitionSession _ _ _ _ _ _). intros (r & w1 & Hr%try_Ok & E)%bindM_Ok. destruct r as [a1|]; [|done]. injection E as -> <-.
  apply app_access_run in Hr. destruct (ApplyRecoveryReplay _ _ _ _ _) as [t r] eqn:Ea. injection Hr as -> <-.
  apply apply_cases in Ea; [|apply hex_session_canonical]. apply applied_dest in Ea; [|apply normalize_hex]. exact Ea.
Qed.

(** ** Released transitions *)

(** What the client gets: the packet stored for the same transaction, or what the
    two cosigners made of the submitted packet under the two keys of the leaf. *)
Definition answer (ptx : Packet) (sub : Submitted) (bound : transitionBinding) (resp : TransitionResponse) : Prop :=
  (ts_Replay resp = true /\ exists stored, ts_SignedPSBT resp = string_of_list_byte stored /\ sameUnsignedTransition stored sub = Ok tt) \/
  (exists w1 unsigned authorization, B64Encode ptx = Ok unsigned /\ sr_unsignedPSBT authorization = unsigned /\
    sr_vaultExpectedXOnly authorization = SerializeXOnly (tp_Vault (tb_Tweaks bound)) /\
    sr_arkadeExpectedXOnly authorization = SerializeXOnly (tp_Arkade (tb_Tweaks bound)) /\
    savingsRecoveryAuthorize (ap_keys s) (aw_cell w1) authorization = Ok (ts_SignedPSBT resp)).

(** The outpoint is bound to the destination. *)
Definition fenced (req : TransitionRequest) (sub : Submitted) (w : AppWorld) : Prop := exists purpose row,
  purpose = to_lower (trim_space (tq_Purpose req)) /\
  sessions w !! (tq_VaultID req, hex_encode (rev (su_outpoint sub).1), (su_outpoint sub).2, purpose) = Some row /\
  rs_DestScript row = hex_encode (su_dest sub).

Lemma signTransition_Ok req ptx sub bound sighash action w resp w' :
  let purpose := to_lower (trim_space (tq_Purpose req)) in tb_Dest bound = su_dest sub ->
  signTransition s o req purpose ptx sub bound sighash action w = Some (Ok resp, w') -> answer ptx sub bound resp /\ fenced req sub w'.
Proof.
  intros purpose Hd ([[i v] rec] & w1 & _ & (un & w2 & [Hu ->]%lift_Ok & (auth & w3 & [Ha ->]%lift_Ok & E)%bindM_Ok)%bindM_Ok)%bindM_Ok.
  apply bindM_Ok in E as (enc & w4 & [He _]%app_read_Ok & (a & w5 & Hr%applyReplay_Ok & [= <- <-])%bindM_Ok).
  split; [right|].
  - exists w4, un, auth. apply bind_Ok in Ha as ([] & _ & ([] & _ & ([] & _ & [= <-])%bind_Ok)%bind_Ok). done.
  - destruct Hr as (row & Hr1 & Hr2). exists purpose, row. rewrite <-Hd. done.
Qed.

Lemma sign_kept req purpose ptx sub bound sighash action : keeps tenants_kept (signTransition s o req purpose ptx sub bound sighash action).
Proof.
  unfold signTransition, applyReplay, store_call. app_keeps others_kept. all: apply keeps_same; intros n w0; repeat (case_match; simplify_eq); done.
Qed.

Lemma allow_kept v : keeps tenants_kept (allow o v).
Proof. unfold allow, appNow. app_keeps others_kept. apply keeps_same. intros n w0. repeat (case_match; simplify_eq); done. Qed.

Lemma applyReplay_kept next : keeps tenants_kept (applyReplay o next).
Proof. unfold applyReplay, store_call. app_keeps others_kept. apply keeps_same. intros n w0. repeat (case_match; simplify_eq); done. Qed.

(** The trees the transition moves between were built for the vault of the
    credential, for a claimant it has. *)
Definition of_family (cred : Credential) (fam : Family) (bound : transitionBinding) : Prop := exists i r init pend pub,
  BuildFamily i = Ok fam /\ i_VaultID i = VaultID cred /\ family_spec i fam r init pend /\ (tb_Claimant bound, pub) ∈ role_list r.

Lemma pinned_of_family cred purpose raw ptx sub bound fam : pinned cred purpose raw ptx sub bound fam -> of_family cred fam bound.
Proof.
  intros P. destruct (transitionFamily_Ok _ _ (pn_family _ _ _ _ _ _ _ P)) as (i & Hb & Hi). pose proof Hb as (r & init & pend & Hs & _)%BuildFamily_spec.
  assert (Hp : exists t, f_Pending fam !! FamilyKey (tb_Claimant bound) = Some t)
    by (destruct (pn_route _ _ _ _ _ _ _ P) as [(_ & _ & _ & _ & t & Ht & _)|(_ & _ & _ & t & _ & Ht & _)]; by exists t).
  destruct Hp as [t Ht]. destruct (pending_claimant _ _ _ _ _ Hb (fs_roles _ _ _ _ _ Hs) Ht) as [pub Hpub]. exists i, r, init, pend, pub. done.
Qed.

(** [C4] A recovery transition that is co-signed is one the recovery rules allow:
    the request is a packet for the vault's stored credential whose input is the
    rebuilt Savings tree and whose first output is the pending tree of the
    claimant, or whose input is the claimant's pending tree and whose output is
    its quarantine, moved by another role; the leaf is that of the signer and
    the two tweaked cosigner keys, the signer has signed it, a phone also
    authenticated a passkey session, the packet given back is the stored one of
    the same transaction or the submitted one signed by the two cosigners under
    those keys, and the outpoint is bound to this destination in the store. *)
Theorem released_transitions_are_pinned req w resp w' : SignTransition s o req w = Some (Ok resp, w') ->
  exists cred ptx sub bound fam,
    loadVerifiedCredentialFor (ap_IntegrityKey s) (tenants w') (tq_VaultID req) = Ok (Some cred) /\
    pinned cred (to_lower (trim_space (tq_Purpose req))) (tq_PSBT req) ptx sub bound fam /\ of_family cred fam bound /\
    (tb_Role bound = "phone" -> exists w1 cred1 w2,
       authenticatePasskeySession s o passkeyPurposeTransition (tq_VaultID req) (tq_Session req) w1 = Some (Ok cred1, w2)) /\
    answer ptx sub bound resp /\ fenced req sub w'.
Proof.
  unfold SignTransition. set (purpose := to_lower _). intros ([] & w1 & [Hp ->]%check_Ok & ([] & w2 & [_ ->]%check_Ok & (u & w3 & _ & E)%bindM_Ok)%bindM_Ok)%bindM_Ok.
  apply bindM_Ok in E as (oc & w4 & [Hl _]%app_read_Ok & E). destruct oc as [cred|]; [|done].
  apply bindM_Ok in E as ([[ptx sub] bound] & w5 & [Hc ->]%lift_Ok & (u1 & w6 & Ha & (u2 & w7 & Hs & E)%bindM_Ok)%bindM_Ok).
  apply bindM_Ok in E as (sh & w8 & [_ ->]%lift_Ok & ([action stored] & w9 & Hr & E)%bindM_Ok).
  apply checkTransition_pinned in Hc as [fam P]; [|apply orb_true_iff in Hp; by rewrite !seqb_true in Hp].
  assert (Hd : tb_Dest bound = su_dest sub) by (destruct (pn_leaf _ _ _ _ _ _ _ P) as (? & _ & _ & _ & ? & _); done).
  assert (Hfin : tenants_kept w9 w' /\ answer ptx sub bound resp /\ fenced req sub w').
  { assert (Hsign : signTransition s o req purpose ptx sub bound sh action w9 = Some (Ok resp, w') -> tenants_kept w9 w' /\ answer ptx sub bound resp /\ fenced req sub w')
      by (intros Hg; split; [exact (sign_kept _ _ _ _ _ _ _ _ _ _ Hg)|by apply signTransition_Ok in Hg]).
    destruct action; try (by apply Hsign). destruct stored as [st|]; [|by apply Hsign]. destruct (0 <? _); [|by apply Hsign].
    apply bindM_Ok in E as ([] & w10 & [Hsame ->]%lift_Ok & [= <- <-]). split; [done|]. split; [left; by eauto|].
    apply applyReplay_Ok in Hr as (row & Hrow & Hdest). exists purpose, row. rewrite <-Hd. done. }
  destruct Hfin as (Hk & Hans & Hf). exists cred, ptx, sub, bound, fam. split_and!; try done; [| by apply pinned_of_family in P|].
  - apply (kept_credential w4); [|done]. etrans; [exact (allow_kept _ _ _ _ Ha)|]. etrans; [|etrans; [exact (applyReplay_kept _ _ _ _ Hr)|exact Hk]].
    destruct (seqb (tb_Role bound) "phone"); [apply bindM_Ok in Hs as (c & w10 & Hs%auth_kept & [= _ <-]); done|by injection Hs as _ <-].
  - intros Hph. rewrite Hph, seqb_refl in Hs. apply bindM_Ok in Hs as (c & w10 & Hs & _). by exists w6, c, w10.
Qed.
End tenants.
End safety.
