(* ===== verification/EnrollService.v ===== *)
(** * Enrollment, start-up and status

    [internal/application/enroll.go], [status.go] and the parts of [service.go]
    that create a vault and reload the stored ones: invites, the ceremony, the
    creation of a vault with its boarding enrollment, the published index and
    the status of a vault, on the [AppWorld] of [Session].

    The stores are wired (no nil store) and the hook [afterLoadPending], set by
    tests only, is absent. *)

From S2P Require Import Prelude Crypto Codec GoTime Program Ledger Recovery BoardRows VaultBoard Tenant Enrollment Apperr Json WebAuthn Psbt SpendVerify KeyProvider Trees Savings Service Deployment Register Effects Session.
From Stdlib Require Import Strings.Byte Strings.Ascii Strings.String.
From stdpp Require Import base decidable list strings gmap option.
From Stdlib Require Import ZArith Lia.
Open Scope string_scope.
Open Scope list_scope.
Open Scope Z_scope.

Definition pendingEnrollmentTTL : Z := 5 * minute.

(** ** Requests and responses *)

Record InviteView := MkInviteView { iw_CanEnroll : bool; iw_VaultID : option string }.

Record EnrollStartRequest := MkStartRequest { sq_ProtectionTier : string; sq_SpendingPolicy : SpendingPolicy; sq_SpendingPolicyDigest : string }.

Record EnrollStartResponse := MkStartResponse {
  sr_Handle : string; sr_VaultID : string; sr_Challenge : string; sr_RPID : string; sr_RPName : string; sr_UserID : string; sr_UserName : string;
  sr_TimeoutMS : Z; sr_ProtectionTier : string; sr_SpendingPolicy : SpendingPolicy; sr_SpendingPolicyDigest : string
}.

Record EnrollFinishRequest := MkFinishRequest {
  fq_Handle : string; fq_UserHandle : string; fq_ClientDataJSON : string; fq_AuthenticatorData : string; fq_AttestationObject : string;
  fq_Register : RegisterRequest
}.

Record EnrollmentSession := MkEnrollmentSession { es_Token : string; es_ExpiresAt : string }.

Record PublicStatus := MkPublicStatus {
  ps_Network : string; ps_ClientOrigin : string; ps_RPID : string; ps_TemplateVersion : string; ps_PolicyVersion : string;
  ps_EnrollmentMode : string; ps_EnrollmentExpiresAt : string; ps_Capabilities : SpendingPolicyCapabilities
}.

(** The spending fields of a status, filled by [fillVtxoStatus]. *)
Record VtxoStatus := MkVtxoStatus {
  vs_VaultCosignerPub : string; vs_ExitDelay : Z; vs_ExitDelayUnit : string; vs_ArkAddress : string; vs_ArkScript : string; vs_DelegatePub : string;
  vs_BoardingActive : bool; vs_BoardingProgram : string; vs_BoardingAddress : string; vs_BoardingScript : string; vs_BoardingExitDelay : Z;
  vs_BoardingExitDelayUnit : string
}.

Record Status := MkStatus {
  su_Enrolled : bool; su_Network : string; su_ClientOrigin : string; su_RPID : string; su_VaultID : string; su_TemplateVersion : string;
  su_PolicyVersion : string; su_ProtectionTier : string; su_ExternalOwnerWalletPub : string; su_RecoveryKeyPub : string;
  su_VaultCosignerBasePub : string; su_ArkadeCosignerBasePub : string; su_ArkadeCosignerOrigin : string; su_ArkadeCosignerVersion : string;
  su_SavingsAddr : string; su_SavingsScript : string; su_PasskeyLoginAvailable : bool; su_EnrollmentMode : string; su_PeriodAllowance : Z;
  su_PeriodSpent : Z; su_PeriodRemaining : Z; su_TxCap : Z; su_AbsoluteFeeCap : Z; su_FeerateCapSatPerV : Z; su_SpendingPolicy : SpendingPolicy;
  su_SpendingPolicyDigest : string; su_PhoneBIP340Pub : string; su_PhoneDirectP256 : string; su_Warnings : list string; su_Vtxo : VtxoStatus
}.

(** ** Checks on a pending ceremony *)

Definition requirePendingSpendingPolicy (network : string) (pending : PendingEnrollment) (selected : SpendingPolicy) (encoded : string) : result unit :=
  digest ← requireSpendingPolicyDigest network selected encoded;
  require (beqb (pe_PolicyDigest pending) digest) (Errorf "spending policy does not match pending enrollment").

Definition requirePendingProtectionTier (pending : PendingEnrollment) (tier : string) : result unit :=
  ValidateProtectionTier tier;;
  require (seqb (pe_ProtectionTier pending) tier) (Errorf "protection tier does not match pending enrollment").

(** [pending.ExpiresAt != "" && pending.ExpiresAt < now] *)
Definition pendingExpired (pending : PendingEnrollment) (now : Z) : bool :=
  negb (seqb (pe_ExpiresAt pending) "") && str_lt (pe_ExpiresAt pending) (formatRFC3339 now).

Definition not_available : error := Errorf "invite not available".
Definition not_found : error := Errorf "pending enrollment not found".

Section enrollment.
Context `{ErrorText, Btc, !Arkade, !Ark, !ArkLib, !SavingsLib, !CheckpointLib, MapNumbers}.
Context (s : Registrar) (o : AppOutside).

(** [if err != nil { return ..., e }] *)
Definition orElse {A} (e : error) (m : M AppWorld A) : M AppWorld A :=
  r ← try m;
  match r with Ok a => mret a | Err _ => fail e end.

Definition getInviteRow (hash : bytes) : M AppWorld (option Invite) := app_read o (fun w => GetInvite (aw_store w) hash).
Definition getPending (handle : string) : M AppWorld (option PendingEnrollment) := app_read o (fun w => GetPendingByHandle (aw_store w) handle).

Definition InviteStatus (token : string) : M AppWorld InviteView :=
  hash ← orElse not_available (lift (HashEnrollmentToken token));
  inv ← orElse not_available (getInviteRow hash);
  match inv with
  | None => fail not_available
  | Some inv =>
      if negb (seqb (iv_ConsumedVaultID inv) "") then mret (MkInviteView false (Some (iv_ConsumedVaultID inv))) else
      now ← appNow o;
      check (Usable (Some inv) now) not_available;;
      mret (MkInviteView true None)
  end.

(** ** Starting a ceremony *)

Definition randomHex (n : nat) : M AppWorld string := raw ← rand_Read o n; mret (hex_encode raw).
Definition newOpaqueVaultID : M AppWorld string := randomHex 16.

Definition StartEnrollment (token : string) (req : EnrollStartRequest) : M AppWorld EnrollStartResponse :=
  lift (wrap "deployment" (Config_Validate (ap_Config s)));;
  hash ← orElse not_available (lift (HashEnrollmentToken token));
  lift (ValidateProtectionTier (sq_ProtectionTier req));;
  policyDigest ← lift (requireSpendingPolicyDigest (cfg_Network (ap_Config s)) (sq_SpendingPolicy req) (sq_SpendingPolicyDigest req));
  now ← appNow o;
  vaultID ← newOpaqueVaultID;
  handle ← randomHex 16;
  challenge ← rand_Read o 32;
  pending ← orElse not_available (store_call o (fun ok _ st =>
    ReservePendingEnrollment st ok (MkPending handle vaultID hash challenge (sq_ProtectionTier req) policyDigest
      (formatRFC3339 (now + pendingEnrollmentTTL)) (formatRFC3339 now))));
  mret (MkStartResponse (pe_Handle pending) (pe_VaultID pending) (hex_encode (pe_Challenge pending)) (cfg_RPID (ap_Config s)) "Arkade Vault"
          (hex_encode (bytes_of (pe_VaultID pending))) "vault" 300000 (pe_ProtectionTier pending) (sq_SpendingPolicy req)
          (hex_encode (pe_PolicyDigest pending))).

(** ** Proposing the descriptor *)

(** The ceremony of the token, with the tier and policy of the request. *)
Definition checkProposal (pending : PendingEnrollment) (hash : bytes) (now : Z) (req : EnrollFinishRequest) : result unit :=
  require (beqb (pe_TokenHash pending) hash) not_found;;
  require (negb (pendingExpired pending now)) (Errorf "pending enrollment expired");;
  require (seqb (rg_VaultID (fq_Register req)) "" || seqb (rg_VaultID (fq_Register req)) (pe_VaultID pending))
    (Errorf "vault id does not match pending enrollment");;
  requirePendingProtectionTier pending (rg_ProtectionTier (fq_Register req));;
  requirePendingSpendingPolicy (cfg_Network (ap_Config s)) pending (rg_SpendingPolicy (fq_Register req)) (rg_SpendingPolicyDigest (fq_Register req)).

Definition previewEnrollment (vaultID : string) (req : RegisterRequest) : M AppWorld ProposedEnrollment :=
  app_read o (fun w => previewVaultBoardEnrollmentDescriptor s (aw_cell w) vaultID req).

Definition ProposeEnrollment (token : string) (req : EnrollFinishRequest) : M AppWorld ProposedEnrollment :=
  hash ← orElse not_available (lift (HashEnrollmentToken token));
  pending ← orElse not_found (getPending (fq_Handle req));
  match pending with
  | None => fail not_found
  | Some pending =>
      now ← appNow o;
      lift (checkProposal pending hash now req);;
      previewEnrollment (pe_VaultID pending) (fq_Register req)
  end.

(** ** Status *)

Definition statusWarnings (cred : Credential) : list string :=
  (if seqb (TemplateVersion cred) Template then ["A recovery already in flight cannot be cancelled if both cosigners are gone."] else []) ++
  (if seqb (cr_Network cred) NetworkMutinynet
   then ["Mutinynet blocks are much faster than mainnet. Delays are block counts, not days."] else []).

Definition publicEnrollmentMode : string * string := (if ap_OpenEnrollment s then "open" else "token", "").

Definition PublicStatusOf : result PublicStatus :=
  let cfg := ap_Config s in
  wrap "deployment" (Config_Validate cfg);;
  caps ← CurrentSpendingPolicyCapabilitiesFor (cfg_Network cfg);
  let '(mode, expires) := publicEnrollmentMode in
  Ok (MkPublicStatus (cfg_Network cfg) (cfg_ClientOrigin cfg) (cfg_RPID cfg) Template PolicyVersion mode expires caps).

(** Addresses stay empty when the tree cannot be built. *)
Definition fillVtxoStatus (cell : fileBackedVaultKeys) (vaultID : string) (snap : enrolledSnapshot) : VtxoStatus :=
  let none pub := MkVtxoStatus pub (policyExitDelay s) VaultPolicyV1ExitDelayUnit "" "" "" false VaultBoardV1 "" "" (boardExitDelay s)
                    VaultBoardV1ExitDelayUnit in
  if seqb vaultID "" || bool_decide (en_PhoneBIP340 snap = None) then none "" else
  let e := board_env s cell in
  let pub := match (k ← vtxoKeyContextFor e vaultID; vtxoPublic (te_keys e) cell k) with Ok pub => hex_encode (SerializeCompressed pub) | Err _ => "" end in
  match buildVtxoPolicyTree e vaultID (keys_of snap) with
  | Err _ => none pub
  | Ok tree =>
      let delegate := match vt_DelegatePub tree with Some d => hex_encode (SerializeCompressed d) | None => "" end in
      let '(active, address, script) := match en_Board snap with
        | Some b => (true, bn_Address b, hex_encode (bn_PkScript b)) | None => (false, "", "") end in
      MkVtxoStatus pub (policyExitDelay s) VaultPolicyV1ExitDelayUnit (vt_ArkAddress tree) (hex_encode (vt_PkScript tree)) delegate active VaultBoardV1
        address script (boardExitDelay s) VaultBoardV1ExitDelayUnit
  end.

(** The recovery key of the credential unless it is a known fixture. *)
Definition statusRecoveryKey (cred : Credential) : string :=
  if zlen (RecoveryKey cred) =? 0 then "" else
  match ParsePubKey (RecoveryKey cred) with
  | Ok pub => if knownFixtureXOnly (SerializeXOnly pub) then "" else hex_encode (RecoveryKey cred)
  | Err _ => ""
  end.

Definition statusOf (vaultID : string) (cred : Credential) (spent : Z) (digest : string) (snap : enrolledSnapshot) (login : bool) (vtxo : VtxoStatus)
  : Status :=
  let cfg := ap_Config s in let selected := spendingPolicyFromCredential cred in let allowance := sp_PeriodAllowanceSats selected in
  let '(address, script) := match en_Savings snap with Some sv => (sn_Address sv, hex_encode (sn_PkScript sv)) | None => ("", "") end in
  MkStatus true (cfg_Network cfg) (cfg_ClientOrigin cfg) (cfg_RPID cfg) vaultID (TemplateVersion cred)
    (if seqb (cr_PolicyVersion cred) "" then PolicyVersion else cr_PolicyVersion cred) (ProtectionTier cred) (hex_encode (ExternalOwnerWallet cred))
    (statusRecoveryKey cred) (hex_encode (VaultCosignerBase cred)) (hex_encode (ArkadeCosignerBase cred)) (ArkadeCosignerOrigin cred)
    (ArkadeCosignerVersion cred) address script login "closed" allowance spent (Z.max 0 (allowance - spent)) (sp_TxRecipientCapSats selected)
    (sp_AbsoluteFeeCapSats selected) (sp_FeerateCapSatPerV selected) selected digest
    (match en_PhoneBIP340 snap with Some p => hex_encode (SerializeCompressed p) | None => "" end) (hex_encode (PhoneDirectP256 cred))
    (statusWarnings cred) vtxo.

Definition statusFor (vaultID : string) : M AppWorld Status :=
  check (negb (seqb vaultID "")) (Errorf "vault id required");;
  ledgerIntegrity s o;;
  let cfg := ap_Config s in
  lift (wrap "deployment" (Config_Validate cfg));;
  cred ← loadCredential s o vaultID;
  match cred with
  | None => fail (Errorf "not enrolled")
  | Some cred =>
      ctxErr o;;
      spent ← app_read o (fun w => SpentInPeriod (st_ledger (aw_store w)) (aw_now w) vaultID);
      let selected := spendingPolicyFromCredential cred in
      lift (wrap "stored economic policy" (ValidateSpendingPolicyFor (cfg_Network cfg) selected));;
      digest ← lift (SpendingPolicyDigestHexFor (cfg_Network cfg) selected);
      snap ← app_read o (fun w => Ok (snapshot (aw_published w) vaultID));
      envelope ← loadEnvelope s o vaultID (ID cred);
      vtxo ← app_read o (fun w => Ok (fillVtxoStatus (aw_cell w) vaultID snap));
      mret (statusOf vaultID cred spent digest snap (bool_decide (is_Some envelope)) vtxo)
  end.

Definition StatusFor (vaultID : string) : M AppWorld Status :=
  check (negb (seqb (trim_space vaultID) "")) (Errorf "vault id required");;
  statusFor vaultID.

(** ** Creating a vault, under [mu] *)

Definition sealVaultRecordForService (rec : VaultRecord) : result VaultRecord :=
  key ← credentialIntegrityKey (ap_IntegrityKey s); SealVaultRecord rec key.
Definition sealVaultCredentialForService (cred : VaultCredential) : result VaultCredential :=
  key ← credentialIntegrityKey (ap_IntegrityKey s); SealVaultCredential cred key.

(** What a creation writes and publishes. *)
Record Admission := MkAdmission {
  ad_record : VaultRecord; ad_credential : VaultCredential; ad_board : VaultBoardEnrollment; ad_parsed : parsedRegisterRequest;
  ad_id : bytes; ad_savings : savingsSnapshot; ad_snapshot : vaultBoardSnapshot
}.

Definition newVaultCredential (vaultID : string) (id webauthnP256 : bytes) : VaultCredential :=
  MkVaultCredential id vaultID webauthnP256 (bytes_of vaultID) true [].

(** The part of [createTenantVault] before the store: everything it needs of the
    vault keys is in the cell. *)
Definition admission (cell : fileBackedVaultKeys) (vaultID : string) (req : RegisterRequest) : result Admission :=
  childPub ← enrollmentPublic (ap_keys s) cell vaultID;
  parsed ← parseRegisterRequestIndependent s req;
  parsed ← applyVaultBoardEnrollmentRequest parsed req;
  proposed ← previewVaultBoardEnrollmentDescriptor s cell vaultID req;
  require (negb (seqb (rg_DescriptorHash req) "") && seqb (rg_DescriptorHash req) (pe_DescriptorHash proposed))
    (Errorf "enrollment descriptor hash does not match the proposed vault");;
  '(descriptor, sv) ← mintSavingsCredential s vaultID parsed (Some childPub);
  rec ← sealVaultRecordForService (VaultRecordFromCredential descriptor);
  vcred ← sealVaultCredentialForService (newVaultCredential vaultID (ID descriptor) (Tenant.WebAuthnP256 descriptor));
  board ← mintVaultBoardEnrollment s cell vaultID parsed;
  match board with
  | None => Err (Errorf "vault-board-v1 release store is not active")
  | Some (boardRec, boardSnap) => Ok (MkAdmission rec vcred boardRec parsed (ID descriptor) sv boardSnap)
  end.

Definition createTenantVault (vaultID : string) (tokenHash : bytes) (req : RegisterRequest) (pending : option PendingEnrollment) : M AppWorld unit :=
  lift (wrap "deployment" (Config_Validate (ap_Config s)));;
  check (negb (seqb vaultID "")) (Errorf "tenant vault id required");;
  check (negb (seqb (rg_ExternalOwnerWalletXOnly req) "")) (Errorf "tenant owner pub required");;
  a ← app_read o (fun w => admission (aw_cell w) vaultID req);
  store_call o (fun ok now st =>
    CreateVaultWithBoard st ok now now (MkCreateVaultInput (ad_record a) (ad_credential a) None tokenHash pending) (ad_board a));;
  stored ← orElse (Errorf "vault-board-v1 enrollment readback failed") (app_read o (fun w => GetVaultBoardEnrollment (st_ledger (aw_store w)) vaultID));
  check (match stored with Some b => beqb (be_IntegrityMAC b) (be_IntegrityMAC (ad_board a)) | None => false end)
    (Errorf "vault-board-v1 enrollment readback failed");;
  app_access o (fun _ w =>
    (Ok tt, set_published (publishEnrollmentAt (aw_published w) vaultID (ad_id a) (pr_phone (ad_parsed a)) (Some (ad_savings a)) (Some (ad_snapshot a))) w)).

Definition CreateTenantVault (vaultID : string) (tokenHash : bytes) (req : RegisterRequest) : M AppWorld unit :=
  createTenantVault vaultID tokenHash req None.

(** ** Finishing a ceremony *)

(** The authenticator data of the request is that of the attestation object. *)
Definition checkAttestation (encoded : string) (authData : bytes) : result unit :=
  if seqb encoded "" then Ok tt else
  obj ← wrap "attestationObject" (decodeHex encoded);
  fromObj ← wrap "attestationObject" (ParseAttestationObject obj);
  require (beqb fromObj authData) (Errorf "attestationObject authData mismatch").

(** A posted field equals what the authenticator created. *)
Definition requirePosted (encoded : string) (want : bytes) (e : error) : result unit :=
  match decodeHex encoded with Ok posted => require (beqb want posted) e | Err _ => Err e end.

Definition checkCeremony (pending : PendingEnrollment) (now : Z) (req : EnrollFinishRequest) : result unit :=
  let cfg := ap_Config s in let reg := fq_Register req in
  requirePendingProtectionTier pending (rg_ProtectionTier reg);;
  requirePendingSpendingPolicy (cfg_Network cfg) pending (rg_SpendingPolicy reg) (rg_SpendingPolicyDigest reg);;
  require (negb (pendingExpired pending now)) (Errorf "pending enrollment expired");;
  clientData ← wrap "clientDataJSON" (decodeHex (fq_ClientDataJSON req));
  authData ← wrap "authenticatorData" (decodeHex (fq_AuthenticatorData req));
  checkAttestation (fq_AttestationObject req) authData;;
  created ← wrap "webauthn create" (ValidateCreate clientData authData (pe_Challenge pending) (cfg_ClientOrigin cfg) (cfg_RPID cfg));
  userHandle ← wrap "userHandle" (decodeHex (fq_UserHandle req));
  require (beqb (bytes_of (pe_VaultID pending)) userHandle) (Errorf "userHandle does not match assigned vault");;
  requirePosted (rg_CredentialID reg) (cr_CredentialID created) (Errorf "credential id does not match authenticator");;
  requirePosted (rg_WebAuthnP256 reg) (cr_WebAuthnP256 created) (Errorf "webauthn p256 does not match authenticator");;
  require (negb (seqb (rg_ExternalOwnerWalletXOnly reg) "")) (Errorf "tenant owner pub required").

(** The descriptor and the boarding enrollment this request would create, against
    the stored vault; the reads of the vault keys are one access. *)
Definition sameEnrollment (cell : fileBackedVaultKeys) (vaultID : string) (req : RegisterRequest) (rec : VaultRecord) (cred : VaultCredential)
    (stored : option VaultBoardEnrollment) : result unit :=
  parsed ← parseRegisterRequestIndependent s req;
  parsed ← applyVaultBoardEnrollmentRequest parsed req;
  preview ← previewVaultBoardEnrollmentDescriptor s cell vaultID req;
  require (negb (seqb (rg_DescriptorHash req) "") && seqb (rg_DescriptorHash req) (pe_DescriptorHash preview)) (Errorf "descriptor hash");;
  childPub ← enrollmentPublic (ap_keys s) cell vaultID;
  '(descriptor, _) ← mintSavingsCredential s vaultID parsed (Some childPub);
  VaultRecordsCanonicallyEqual rec (VaultRecordFromCredential descriptor);;
  VaultCredentialsCanonicallyEqual cred (newVaultCredential vaultID (pr_id parsed) (pr_webauthnP256 parsed));;
  want ← mintVaultBoardEnrollment s cell vaultID parsed;
  match stored, want with
  | Some b, Some (w, _) =>
      require (seqb (be_Program b) (be_Program w) && beqb (be_BoardingPub b) (be_BoardingPub w) && beqb (be_CosignerPub b) (be_CosignerPub w) &&
               beqb (be_OperatorPub b) (be_OperatorPub w) && (be_ExitDelay b =? be_ExitDelay w) && seqb (be_ExitDelayUnit b) (be_ExitDelayUnit w) &&
               beqb (be_PkScript b) (be_PkScript w) && seqb (be_Address b) (be_Address w)) (Errorf "boarding enrollment")
  | _, _ => Err (Errorf "boarding enrollment")
  end.

Definition acceptDuplicateFinish (vaultID : string) (req : RegisterRequest) : M AppWorld (option Status) :=
  r ← try (
    key ← lift (credentialIntegrityKey (ap_IntegrityKey s));
    '(rec, cred) ← app_read o (fun w => LoadVerifiedVault (st_tenants (aw_store w)) vaultID key);
    match rec, cred with
    | Some rec, Some cred =>
        stored ← app_read o (fun w => GetVaultBoardEnrollment (st_ledger (aw_store w)) vaultID);
        app_read o (fun w => sameEnrollment (aw_cell w) vaultID req rec cred stored);;
        statusFor vaultID
    | _, _ => fail (Errorf "not enrolled")
    end);
  mret (match r with Ok st => Some st | Err _ => None end).

Definition acceptDuplicateFinishFromToken (tokenHash : bytes) (req : EnrollFinishRequest) : M AppWorld (option Status) :=
  inv ← try (getInviteRow tokenHash);
  match inv with
  | Ok (Some inv) =>
      if seqb (iv_ConsumedVaultID inv) "" then mret None else
      match decodeHex (fq_UserHandle req) with
      | Ok userHandle =>
          if beqb (bytes_of (iv_ConsumedVaultID inv)) userHandle then acceptDuplicateFinish (iv_ConsumedVaultID inv) (fq_Register req) else mret None
      | Err _ => mret None
      end
  | _ => mret None
  end.

(** [ok] of a duplicate: its status, otherwise the error. *)
Definition orDuplicate (e : error) (dup : M AppWorld (option Status)) : M AppWorld Status :=
  d ← dup;
  match d with Some st => mret st | None => fail e end.

Definition FinishEnrollment (token : string) (req : EnrollFinishRequest) : M AppWorld Status :=
  ledgerIntegrity s o;;
  hash ← orElse not_available (lift (HashEnrollmentToken token));
  pending ← orElse not_found (getPending (fq_Handle req));
  match pending with
  | None => orDuplicate not_found (acceptDuplicateFinishFromToken hash req)
  | Some pending =>
      check (beqb (pe_TokenHash pending) hash) not_found;;
      now ← appNow o;
      lift (checkCeremony pending now req);;
      r ← try (createTenantVault (pe_VaultID pending) (pe_TokenHash pending) (fq_Register req) (Some pending));
      match r with
      | Err e => orDuplicate e (acceptDuplicateFinish (pe_VaultID pending) (fq_Register req))
      | Ok _ => statusFor (pe_VaultID pending)
      end
  end.

(** ** Open enrollment *)

Definition IssueSession : M AppWorld EnrollmentSession :=
  check (ap_OpenEnrollment s) (Errorf "invite required");;
  ledgerIntegrity s o;;
  raw ← rand_Read o 32;
  let token := string_of_list_byte (b64_encode raw) in
  hash ← lift (HashEnrollmentToken token);
  now ← appNow o;
  expires ← store_call o (fun ok _ st => Enrollment.IssueEnrollmentSession st ok hash now);
  mret (MkEnrollmentSession token (formatRFC3339 expires)).

(** ** Start-up *)

(** The stored boarding enrollment rebuilds to the same tree. *)
Definition sameBoardTree (rebuilt : vtxoBoardTree) (board : vaultBoardSnapshot) : bool :=
  let same pub want := match want with Some w => beqb (SerializeCompressed pub) (SerializeCompressed w) | None => false end in
  seqb (bt_OnchainAddress rebuilt) (bn_Address board) && beqb (bt_PkScript rebuilt) (bn_PkScript board) &&
  same (bt_CosignerPub rebuilt) (bn_CosignerPub board) && same (bt_OperatorPub rebuilt) (bn_OperatorPub board).

Definition publishStoredEnrollment (cred : Credential) : M AppWorld unit :=
  '(k, sv) ← lift (rebuildFromCredential s cred);
  rec ← orElse (Errorf "vault-board-v1 enrollment required") (app_read o (fun w => GetVaultBoardEnrollment (st_ledger (aw_store w)) (VaultID cred)));
  check (bool_decide (is_Some rec)) (Errorf "vault-board-v1 enrollment required");;
  board ← orElse (Errorf "vault-board-v1 enrollment invalid") (lift (boardSnapshotFromRecord rec));
  match board with
  | None => fail (Errorf "vault-board-v1 enrollment invalid")
  | Some board =>
      rebuilt ← app_read o (fun w => buildVtxoBoardTree (board_env s (aw_cell w)) (VaultID cred) (MkEnrolledKeys (Some (rk_phone k)) None None)
                  (bn_BoardingPub board));
      check (sameBoardTree rebuilt board) (Errorf "rebuilt vault-board-v1 does not match stored enrollment");;
      app_access o (fun _ w => (Ok tt, set_published
        (publishEnrollmentAt (aw_published w) (VaultID cred) (ID cred) (Some (rk_phone k)) (Some sv) (Some board)) w))
  end.

Fixpoint loadEach (key : bytes) (ids : list string) : M AppWorld unit :=
  match ids with
  | [] => mret tt
  | id :: ids =>
      '(rec, vcred) ← app_read o (fun w => LoadVerifiedVault (st_tenants (aw_store w)) id key);
      match rec, vcred with
      | Some rec, Some vcred => publishStoredEnrollment (ToCredential rec vcred);; loadEach key ids
      | _, _ => fail (Errorf ("vault " ++ id ++ " missing credential"))
      end
  end.

Definition LoadVaults : M AppWorld unit :=
  ledgerIntegrity s o;;
  lift (wrap "deployment" (Config_Validate (ap_Config s)));;
  ids ← app_read o (fun w => Ok (ListVaultIDs (aw_store w)));
  key ← lift (credentialIntegrityKey (ap_IntegrityKey s));
  loadEach key ids.
End enrollment.
