(* ===== verification/AppRuns.v ===== *)
(** * The recovery and enrollment requests as a whole

    The requests of [Session], [Transition] and [EnrollService] interleaved on one
    store: what all of them together do to the tenant tables, and that an
    installed envelope survives it. *)

From S2P Require Import Prelude Crypto Codec GoTime Program Ledger SignCount Recovery BoardRows VaultBoard Tenant Enrollment Apperr WebAuthn Psbt SpendVerify KeyProvider Trees Savings SavingsFamily Service Deployment Register Effects Session Transition RecoverySafety EnrollService.
From Stdlib Require Import Strings.Byte Strings.Ascii Strings.String.
From stdpp Require Import base decidable list strings gmap option relations.
From Stdlib Require Import ZArith Lia.
Open Scope string_scope.
Open Scope list_scope.
Open Scope Z_scope.

(** ** Stored envelopes *)

(** Envelopes, once there, stay as they are. *)
Definition envelopes_kept (t t' : Tenants) : Prop := tn_envelope t ⊆ tn_envelope t'.

#[export] Instance envelopes_kept_refl : Reflexive envelopes_kept.
Proof. intros t. unfold envelopes_kept. reflexivity. Qed.
#[export] Instance envelopes_kept_trans : Transitive envelopes_kept.
Proof. intros t1 t2 t3. unfold envelopes_kept. apply transitivity. Qed.

Lemma commitTenants_kept t ok body t' r : commitTenants t ok body = (t', r) -> (forall t1, body = Ok t1 -> envelopes_kept t t1) -> envelopes_kept t t'.
Proof. unfold commitTenants. destruct body as [t1|e]; [destruct ok|]; intros [= <- _] Hk; [by apply Hk|done..]. Qed.

Lemma insert_envelope_kept t v e t' : insertVaultEnvelopeTx t v e = Ok t' -> envelopes_kept t t'.
Proof.
  unfold insertVaultEnvelopeTx. intros H. inv_ok. unfold envelopes_kept. simpl. apply insert_subseteq.
  by bool_prop.
Qed.

Lemma store_kept l t ok v e t' r : StoreVaultEnvelopeIfAbsent l t ok v e = (t', r) -> envelopes_kept t t'.
Proof.
  intros E. apply (commitTenants_kept _ _ _ _ _ E). intros t1. unfold storeEnvelopeBody.
  intros ([] & _ & ([] & _ & ([] & _ & H)%bind_Ok)%bind_Ok)%bind_Ok. destruct (primaryCredential t v) as [cred|]; [|done].
  apply bind_Ok in H as ([] & _ & (ex & _ & H)%bind_Ok). destruct ex as [ex|].
  - destruct (envelopesEqual ex e); [|done]. injection H as <-. done.
  - apply wrap_Ok in H. by eapply insert_envelope_kept.
Qed.

Lemma map_kept l t ok now m t' r : PutVaultMap l t ok now m = (t', r) -> envelopes_kept t t'.
Proof.
  intros E. apply (commitTenants_kept _ _ _ _ _ E). intros t1.
  intros ([] & _ & ([] & _ & ([] & _ & ([] & _ & [= <-])%bind_Ok)%bind_Ok)%bind_Ok)%bind_Ok. unfold envelopes_kept. reflexivity.
Qed.

Lemma create_kept s ok n1 n2 i b s' r : createVault s ok n1 n2 i b = (s', r) -> envelopes_kept (st_tenants s) (st_tenants s').
Proof.
  unfold createVault. destruct (_ ;; _) as [[]|e]; [|by intros [= <- _]]. unfold commitStore.
  destruct (createBody s n1 n2 i b) as [[s1 []]|e] eqn:E; [destruct ok|]; intros [= <- _]; try done. apply createBody_Ok in E as [row C].
  pose proof (cd_tenants _ _ _ _ _ C) as T. unfold insertVaultTx in T.
  apply bind_Ok in T as ([] & _ & ([] & _ & ([] & _ & ([] & _ & ([] & _ & T)%bind_Ok)%bind_Ok)%bind_Ok)%bind_Ok).
  destruct (ci_Envelope i) as [e|]; [exact (insert_envelope_kept _ _ _ _ T)|]. injection T as <-. unfold envelopes_kept. reflexivity.
Qed.

Lemma commitStore_tenants {A} s ok (body : result (Store * A)) s' r : commitStore s ok body = (s', r) ->
  (forall s1 a, body = Ok (s1, a) -> st_tenants s1 = st_tenants s) -> st_tenants s' = st_tenants s.
Proof. unfold commitStore. destruct body as [[s1 a]|e]; [destruct ok|]; intros [= <- _] Hk; [by eapply Hk|done..]. Qed.

Lemma reserve_tenants s ok p s' r : ReservePendingEnrollment s ok p = (s', r) -> st_tenants s' = st_tenants s.
Proof.
  intros E. apply (commitStore_tenants _ _ _ _ _ E). clear E. intros s1 a ([] & _ & E)%bind_Ok. by apply reserve_Ok in E as (_ & [(-> & _)|(_ & others & _ & _ & ->)]).
Qed.

Lemma issue_tenants s ok h now s' r : IssueEnrollmentSession s ok h now = (s', r) -> st_tenants s' = st_tenants s.
Proof. intros E. apply (commitStore_tenants _ _ _ _ _ E). clear E. intros s1 a E. by apply issueBody_Ok in E as (_ & ? & _). Qed.

(** ** Moves of the store *)

(** What the service does to the tenant tables, one transaction at a time: the
    calls of its handlers, and everything else (ledger, sessions, invites) leaves
    the tables alone. *)
Inductive store_move (st : Store) : Store -> Prop :=
  | sm_else st' : st_tenants st' = st_tenants st -> store_move st st'
  | sm_envelope ok v e t' r : StoreVaultEnvelopeIfAbsent (st_ledger st) (st_tenants st) ok v e = (t', r) -> store_move st (st_set_tenants t' st)
  | sm_map ok now m t' r : PutVaultMap (st_ledger st) (st_tenants st) ok now m = (t', r) -> store_move st (st_set_tenants t' st)
  | sm_create ok n1 n2 i b st' r : CreateVaultWithBoard st ok n1 n2 i b = (st', r) -> store_move st st'.

(** No move overwrites or removes an envelope. *)
Lemma move_kept st st' : store_move st st' -> envelopes_kept (st_tenants st) (st_tenants st').
Proof.
  destruct 1 as [st' E|ok v e t' r E|ok now m t' r E|ok n1 n2 i b st' r E].
  - by rewrite E.
  - exact (store_kept _ _ _ _ _ _ _ E).
  - exact (map_kept _ _ _ _ _ _ _ E).
  - exact (create_kept _ _ _ _ _ _ _ _ E).
Qed.

Section runs.
#[local] Set Default Proof Using "Type*".
Context `{ErrorText, Btc, !Arkade, !Ark, !ArkLib, !SavingsLib, !CheckpointLib, MapNumbers}.

Definition moves (w w' : AppWorld) : Prop := rtc store_move (aw_store w) (aw_store w').

#[export] Instance moves_refl : Reflexive moves.
Proof using Type. intros w. apply rtc_refl. Qed.
#[export] Instance moves_trans : Transitive moves.
Proof using Type. intros w1 w2 w3. unfold moves. apply transitivity. Qed.

Lemma moves_kept w w' : moves w w' -> envelopes_kept (st_tenants (aw_store w)) (st_tenants (aw_store w')).
Proof using Type.
  unfold moves. generalize (aw_store w) (aw_store w'). clear. intros st st'. induction 1 as [|st1 st2 st3 H1 _ IH]; [done|].
  etrans; [exact (move_kept _ _ H1)|exact IH].
Qed.

Lemma moves_same w w' : aw_store w' = aw_store w -> moves w w'.
Proof using Type. intros E. unfold moves. rewrite E. apply rtc_refl. Qed.

Lemma moves_else w w' : st_tenants (aw_store w') = st_tenants (aw_store w) -> moves w w'.
Proof using Type. intros E. apply rtc_once. by apply sm_else. Qed.

(** ** The requests *)

Inductive AppRequest :=
  | RqInvite (token : string) | RqStart (token : string) (req : EnrollStartRequest) | RqPropose (token : string) (req : EnrollFinishRequest)
  | RqFinish (token : string) (req : EnrollFinishRequest) | RqSession | RqStatus (vaultID : string) | RqChallenge (vaultID purpose : string)
  | RqBinding (vaultID nonce ciphertext : string) | RqInstall (req : InstallCredentialEnvelopeRequest)
  | RqRecover (req : RecoverCredentialEnvelopeRequest) | RqGetMap (vaultID : string) | RqPutMap (req : MapWriteRequest)
  | RqTransition (req : TransitionRequest).

Section served.
#[local] Set Default Proof Using "All".
Context (s : Registrar) (o : AppOutside).

Definition serve_app (r : AppRequest) : M AppWorld unit :=
  match r with
  | RqInvite token => InviteStatus o token;; mret tt
  | RqStart token req => StartEnrollment s o token req;; mret tt
  | RqPropose token req => ProposeEnrollment s o token req;; mret tt
  | RqFinish token req => FinishEnrollment s o token req;; mret tt
  | RqSession => IssueSession s o;; mret tt
  | RqStatus v => StatusFor s o v;; mret tt
  | RqChallenge v purpose => IssuePasskeyChallengeFor s o v purpose;; mret tt
  | RqBinding v nonce ct => BuildRecoveryBindingFor s o v nonce ct;; mret tt
  | RqInstall req => InstallCredentialEnvelope s o req
  | RqRecover req => RecoverCredentialEnvelope s o req;; mret tt
  | RqGetMap v => GetMap s o v;; mret tt
  | RqPutMap req => PutMap s o req
  | RqTransition req => SignTransition s o req;; mret tt
  end.

(** The others make such moves too. *)
Definition moving : Prop := forall n w, moves w (app_others o n w).
Context (Hothers : moving).

Lemma others_move n w : moves w (advance (app_others o n w)).
Proof. etrans; [apply Hothers|]. by apply moves_same. Qed.

Lemma access_moves {A} (f : nat -> AppWorld -> result A * AppWorld) : (forall n w, moves w (f n w).2) -> keeps moves (app_access o f).
Proof. intros Hf. apply (keeps_app_access s o moves); [exact others_move|exact Hf]. Qed.

Lemma access_else {A} (f : nat -> AppWorld -> result A * AppWorld) :
  (forall n w, st_tenants (aw_store (f n w).2) = st_tenants (aw_store w)) -> keeps moves (app_access o f).
Proof. intros Hf. apply access_moves. intros n w. by apply moves_else. Qed.

Lemma read_moves {A} (f : AppWorld -> result A) : keeps moves (app_read o f).
Proof. by apply access_else. Qed.

Lemma rand_moves n : keeps moves (rand_Read o n).
Proof. by apply access_else. Qed.

(** A call of the store that is a move. *)
Lemma store_moves {A} (f : bool -> Z -> Store -> Store * result A) :
  (forall ok now st st' r, f ok now st = (st', r) -> store_move st st') -> keeps moves (store_call o f).
Proof.
  intros Hf. apply access_moves. intros n w. destruct (f _ _ _) as [st' r] eqn:E. apply rtc_once. exact (Hf _ _ _ _ _ E).
Qed.

Lemma orFail_moves {A} (m : M AppWorld A) : keeps moves m -> keeps moves (orFail m).
Proof. by apply (keeps_orFail s o moves). Qed.

Lemma orElse_moves {A} e (m : M AppWorld A) : keeps moves m -> keeps moves (orElse e m).
Proof. intros Hm. unfold orElse. keeps. Qed.

Lemma lift_moves {A} (r : result A) : keeps moves (lift r).
Proof. apply keeps_lift; apply _. Qed.

#[local] Hint Resolve read_moves rand_moves orFail_moves orElse_moves lift_moves : keeps.

(** *** Every handler makes moves of the store only *)

Lemma now_moves : keeps moves (appNow o).
Proof. apply read_moves. Qed.
Lemma ctx_moves : keeps moves (ctxErr o).
Proof. by apply access_else. Qed.
Lemma integrity_moves : keeps moves (ledgerIntegrity s o).
Proof. apply read_moves. Qed.
Lemma credential_moves v : keeps moves (loadCredential s o v).
Proof. apply read_moves. Qed.
Lemma envelope_moves v id : keeps moves (loadEnvelope s o v id).
Proof. apply read_moves. Qed.
#[local] Hint Resolve now_moves ctx_moves integrity_moves credential_moves envelope_moves : keeps.

Lemma advance_moves v c n : keeps moves (advanceSignCount s o v c n).
Proof.
  unfold advanceSignCount. keeps. apply store_moves. intros ok now st st' r E. destruct (AdvanceSignCount _ _ _ _ _ _). injection E as <- _.
  by apply sm_else.
Qed.

Lemma consume_moves v id purpose : keeps moves (consumePasskeyChallenge o v id purpose).
Proof. unfold consumePasskeyChallenge. keeps. apply access_else. intros n w. by destruct (takeChallenge _ _ _ _ _). Qed.
#[local] Hint Resolve advance_moves consume_moves : keeps.

Lemma auth_moves purpose v req : keeps moves (authenticatePasskeySession s o purpose v req).
Proof.
  unfold authenticatePasskeySession, acquireSlot. keeps.
  - apply access_else. intros n w. by destruct (_ <? _).
  - apply (keeps_defer s o moves); [intros w; by apply moves_else|]. unfold passkeySession. keeps.
Qed.
#[local] Hint Resolve auth_moves : keeps.

Lemma binding_moves cred nonce ct : keeps moves (canonicalRecoveryBinding s o cred nonce ct).
Proof. unfold canonicalRecoveryBinding, bindingBoard. keeps. Qed.
Lemma allow_moves v : keeps moves (allow o v).
Proof. unfold allow. keeps. apply access_else. intros n w. by destruct (allowTransition _ _). Qed.
Lemma replay_moves next : keeps moves (applyReplay o next).
Proof.
  unfold applyReplay. keeps. apply store_moves. intros ok now st st' r E. destruct (ApplyRecoveryReplay _ _ _ _ _). injection E as <- _.
  by apply sm_else.
Qed.
#[local] Hint Resolve binding_moves allow_moves replay_moves : keeps.

Lemma sign_moves req purpose ptx sub bound sighash action : keeps moves (signTransition s o req purpose ptx sub bound sighash action).
Proof. unfold signTransition. keeps. Qed.
Lemma statusFor_moves v : keeps moves (statusFor s o v).
Proof. unfold statusFor. keeps. Qed.
#[local] Hint Resolve sign_moves statusFor_moves : keeps.

Lemma create_moves v hash req pending : keeps moves (createTenantVault s o v hash req pending).
Proof.
  unfold createTenantVault. keeps; [|by apply access_else].
  apply store_moves. intros ok now st st' r E. exact (sm_create _ _ _ _ _ _ _ _ E).
Qed.
Lemma duplicate_moves v req : keeps moves (acceptDuplicateFinish s o v req).
Proof. unfold acceptDuplicateFinish. keeps. Qed.
Lemma duplicate_token_moves hash req : keeps moves (acceptDuplicateFinishFromToken s o hash req).
Proof. pose proof duplicate_moves. unfold acceptDuplicateFinishFromToken, getInviteRow. keeps. Qed.
Lemma orDuplicate_moves e dup : keeps moves dup -> keeps moves (orDuplicate e dup).
Proof. intros Hd. unfold orDuplicate. keeps. Qed.
#[local] Hint Resolve create_moves duplicate_moves duplicate_token_moves orDuplicate_moves : keeps.

Lemma install_moves req : keeps moves (InstallCredentialEnvelope s o req).
Proof.
  unfold InstallCredentialEnvelope. keeps. apply store_moves. intros ok now st st' r E.
  destruct (StoreVaultEnvelopeIfAbsent _ _ _ _ _) as [t r1] eqn:Es. injection E as <- _. exact (sm_envelope _ _ _ _ _ _ Es).
Qed.

Lemma map_moves req : keeps moves (PutMap s o req).
Proof.
  unfold PutMap. keeps. apply store_moves. intros ok now st st' r E.
  destruct (PutVaultMap _ _ _ _ _) as [t r1] eqn:Es. injection E as <- _. exact (sm_map _ _ _ _ _ _ Es).
Qed.

(** The guarantee: whatever a request does to the tenant tables, alone and among
    requests that do the same, is a sequence of the store's moves. *)
Lemma served_moves r : keeps moves (serve_app r).
Proof.
  destruct r; simpl; [..|apply install_moves| | |apply map_moves|].
  - unfold InviteStatus, getInviteRow. keeps.
  - unfold StartEnrollment, newOpaqueVaultID, randomHex. keeps. apply orElse_moves, store_moves. intros ok now st st' r E.
    apply sm_else. exact (reserve_tenants _ _ _ _ _ E).
  - unfold ProposeEnrollment, getPending, previewEnrollment. keeps.
  - unfold FinishEnrollment, getPending. keeps.
  - unfold IssueSession. keeps. apply store_moves. intros ok now st st' r E. apply sm_else. exact (issue_tenants _ _ _ _ _ _ E).
  - unfold StatusFor. keeps.
  - unfold IssuePasskeyChallengeFor. keeps. apply access_else. intros n w. by destruct (issueChallenge _ _ _ _ _ _).
  - unfold BuildRecoveryBindingFor. keeps.
  - unfold RecoverCredentialEnvelope. keeps.
  - unfold GetMap. keeps.
  - unfold SignTransition. keeps.
Qed.
End served.

(** ** Envelopes *)

Lemma decodeFixedHex_Ok encoded size name raw : decodeFixedHex encoded size name = Ok raw -> hex_encode raw = encoded.
Proof.
  intros ([] & Hl%require_Ok & E)%bind_Ok. apply andb_true_iff in Hl as [_ Hl%seqb_true]. destruct (hex_decode encoded) as [r|] eqn:Ed; [|done].
  apply bind_Ok in E as ([] & _ & [= <-]). rewrite (hex_encode_decode _ _ Ed). done.
Qed.

Lemma credentialEnvelopes_same a b : credentialEnvelopesEqual a b = true -> a = b.
Proof.
  unfold credentialEnvelopesEqual. intros E. bool_prop. rewrite ?seqb_true, ?beqb_true in *. destruct a, b; simpl in *. congruence.
Qed.

Lemma policyEqual_true a b : envelopesEqual a b = true -> a = b.
Proof. exact (credentialEnvelopes_same a b). Qed.

Lemma store_envelope_row l t ok v e t' : StoreVaultEnvelopeIfAbsent l t ok v e = (t', Ok tt) -> tn_envelope t' !! v = Some e.
Proof.
  unfold StoreVaultEnvelopeIfAbsent, commitTenants. destruct (storeEnvelopeBody _ _ _ _) as [t1|] eqn:E; [|done]. destruct ok; [|done]. intros [= <-].
  unfold storeEnvelopeBody in E. apply bind_Ok in E as ([] & _ & ([] & _ & ([] & _ & E)%bind_Ok)%bind_Ok). destruct (primaryCredential t v) as [cred|]; [|done].
  apply bind_Ok in E as ([] & _ & (ex & Hex & E)%bind_Ok). unfold getVaultEnvelope in Hex. destruct ex as [ex|].
  - destruct (envelopesEqual ex e) eqn:Eq; [|done]. apply policyEqual_true in Eq as ->. injection E as <-.
    destruct (tn_envelope t !! v) as [e0|]; [|done]. by apply bind_Ok in Hex as ([] & _ & [= ->]).
  - apply wrap_Ok in E. unfold insertVaultEnvelopeTx in E. inv_ok. simpl. apply lookup_insert_eq.
Qed.

Lemma load_envelope_row key t v cid e : loadVerifiedEnvelopeFor key t v cid = Ok (Some e) -> tn_envelope t !! trim_space v = Some e.
Proof.
  intros (k & _ & (id & Hid & (env & He & E)%bind_Ok)%bind_Ok)%bind_Ok. unfold routeVaultID in Hid. apply bind_Ok in Hid as ([] & _ & [= <-]).
  destruct env as [env|]; [|done]. apply bind_Ok in E as ([] & _ & [= ->]). unfold GetVaultEnvelope, getVaultEnvelope in He.
  apply bind_Ok in He as ([] & _ & He). destruct (tn_envelope t !! trim_space v) as [e0|]; [|done]. by apply bind_Ok in He as ([] & _ & [= ->]).
Qed.

Lemma route_Ok v id : routeVaultID v = Ok id -> id = trim_space v /\ id <> "".
Proof. intros ([] & Hne%require_Ok & [= <-])%bind_Ok. apply negb_true_iff, seqb_false in Hne. done. Qed.

Lemma firstNonEmpty_head v l : v <> "" -> firstNonEmpty (v :: l) = v.
Proof. intros Hv. unfold firstNonEmpty. simpl. by rewrite (seqb_neq _ _ Hv). Qed.

(** An envelope in the table with the contents of the request. *)
Definition installed (req : InstallCredentialEnvelopeRequest) (w : AppWorld) : Prop := exists e,
  tn_envelope (st_tenants (aw_store w)) !! trim_space (trim_space (iq_VaultID req)) = Some e /\ e_Binding e = iq_Binding req /\
  hex_encode (e_Nonce e) = iq_EnvelopeNonce req /\ hex_encode (e_Ciphertext e) = iq_EnvelopeCiphertext req /\
  hex_encode (e_DirectSig e) = iq_BindingDirectSig req /\ hex_encode (e_PhoneSig e) = iq_BindingPhoneSig req.

Lemma seal_envelope_fields s e v cid e' : sealVaultEnvelope s e v cid = Ok e' ->
  e_Binding e' = e_Binding e /\ e_Nonce e' = e_Nonce e /\ e_Ciphertext e' = e_Ciphertext e /\ e_DirectSig e' = e_DirectSig e /\ e_PhoneSig e' = e_PhoneSig e.
Proof. intros (k & _ & (mac & _ & [= <-])%wrap_Ok%bind_Ok)%bind_Ok. done. Qed.

Lemma install_Ok s o req w w' : InstallCredentialEnvelope s o req w = Some (Ok tt, w') -> installed req w'.
Proof.
  intros (v & w0 & [[Hv Hne]%route_Ok ->]%lift_Ok & (cred & w1 & _ & E)%bindM_Ok)%bindM_Ok.
  apply bindM_Ok in E as (nonce & w2 & [Hn%decodeFixedHex_Ok ->]%lift_Ok & (ct & w3 & [Hc%decodeFixedHex_Ok ->]%lift_Ok & (b & w4 & _ & E)%bindM_Ok)%bindM_Ok).
  apply bindM_Ok in E as ([] & w5 & [Hb%seqb_true ->]%check_Ok & (ds & w6 & [Hd%decodeFixedHex_Ok ->]%lift_Ok & ([] & w7 & [_ ->]%lift_Ok & E)%bindM_Ok)%bindM_Ok).
  apply bindM_Ok in E as (ps & w8 & [Hp%decodeFixedHex_Ok ->]%lift_Ok & ([] & w9 & [_ ->]%lift_Ok & (v2 & w10 & [[Hv2 _]%route_Ok ->]%lift_Ok & E)%bindM_Ok)%bindM_Ok).
  rewrite firstNonEmpty_head in Hv2 by done. subst v v2.
  apply bindM_Ok in E as (e & w11 & [Hs ->]%lift_Ok & (ex & w12 & [Hl _]%app_read_Ok & E)%bindM_Ok).
  apply seal_envelope_fields in Hs as (E1 & E2 & E3 & E4 & E5). simpl in E1, E2, E3, E4, E5. unfold installed. exists e.
  split; [|rewrite E1, E2, E3, E4, E5; done]. destruct ex as [ex|].
  - apply check_Ok in E as [<-%credentialEnvelopes_same ->]. by apply load_envelope_row in Hl; rewrite !trim_space_idem in *.
  - apply app_access_run in E. destruct (StoreVaultEnvelopeIfAbsent _ _ _ _ _) as [t r] eqn:Es. injection E as -> <-.
    by apply store_envelope_row in Es.
Qed.


(** One request after another, each among others that move the store; in between
    time may pass and the process may restart on the same store. *)
Inductive app_step (s : Registrar) (w w' : AppWorld) : Prop :=
  | as_request o r res : moving o -> serve_app s o r w = Some (res, w') -> app_step s w w'
  | as_idle : aw_store w' = aw_store w -> app_step s w w'.

Lemma steps_move s w w' : rtc (app_step s) w w' -> moves w w'.
Proof using Type.
  induction 1 as [w|w w1 w' [o r res Ho E|E] _ IH]; [done| |]; (etrans; [|exact IH]); [exact (served_moves s o Ho r _ _ _ E)|by apply moves_same].
Qed.

(** [C6] A fresh device recovers exactly what the original device installed.  After
    an accepted install, and after any sequence of requests of the service, each
    among others, every answer of a recovery for the vault is the binding, its
    digest, the nonce, the ciphertext and the two signatures of that install.
    Nothing is assumed of the requests in between; of the goroutines beside them,
    that what they do to the tenant tables are the service's own transactions,
    which is what every request of the service is proved to do. *)
Theorem envelope_round_trip s o req w w' w2 o2 req2 resp w3 :
  moving o -> InstallCredentialEnvelope s o req w = Some (Ok tt, w') -> rtc (app_step s) w' w2 ->
  moving o2 -> trim_space (vq_VaultID req2) = trim_space (iq_VaultID req) -> RecoverCredentialEnvelope s o2 req2 w2 = Some (Ok resp, w3) ->
  resp = MkRecoverResponse (iq_Binding req) (hex_encode (recoveryBindingDigest (iq_Binding req))) (iq_EnvelopeNonce req) (iq_EnvelopeCiphertext req)
           (iq_BindingDirectSig req) (iq_BindingPhoneSig req).
Proof using Type.
  intros Ho (e & Hrow & Eb & En & Ec & Ed & Ep)%install_Ok Hst%steps_move Ho2 Hv E.
  apply bindM_Ok in E as (v & w4 & [[Hv4 Hne]%route_Ok ->]%lift_Ok & (cred & w5 & Ha & E)%bindM_Ok). apply (auth_moves s o2 Ho2) in Ha.
  apply bindM_Ok in E as (v2 & w6 & [[Hv6 _]%route_Ok ->]%lift_Ok & (env & w7 & Hl & E)%bindM_Ok).
  pose proof (read_moves s o2 Ho2 _ _ _ _ Hl) as H7. apply app_read_Ok in Hl as [Hl _].
  rewrite firstNonEmpty_head in Hv6 by done. destruct env as [env|]; [|done]. injection E as <- <-. apply load_envelope_row in Hl.
  assert (Hall : moves w' w7) by (etrans; [exact Hst|]; etrans; [exact Ha|exact H7]).
  apply moves_kept in Hall. eapply lookup_weaken in Hrow; [|exact Hall]. subst v2 v. rewrite Hv in Hl.
  rewrite !trim_space_idem in *. rewrite Hl in Hrow. injection Hrow as ->. unfold recoverResponse. by rewrite Eb, En, Ec, Ed, Ep.
Qed.
End runs.
