(* ===== verification/RecoveryDemo.v ===== *)
(** * Recovery: a concrete vault

    The library of [SpendDemo]'s kind for the Savings trees, one enrolled vault
    on it, and the runs the theorems of [RecoverySafety] and [AppRuns] are applied to: the
    hardware key starts a recovery, a passkey session, and an envelope that is
    installed, offered again and recovered. *)

From S2P Require Import Prelude Crypto Codec GoTime Program Vtxo VtxoLedger Allowance Ledger SignCount Recovery BoardRows VaultBoard Tenant Enrollment Apperr P256 Der Json WebAuthn Psbt SpendVerify Cosigner KeyProvider Trees Savings SavingsFamily Service Deployment Register Effects Session Transition RecoverySafety EnrollService AppRuns.
From Stdlib Require Import Strings.Byte Strings.Ascii Strings.String.
From stdpp Require Import base decidable list strings gmap option.
From Stdlib Require Import ZArith Lia.
Open Scope string_scope.
Open Scope list_scope.
Open Scope Z_scope.

(** ** The library *)

Definition rd_hash : bytes := replicate 32 x01.
Definition rd_script (c : list Z * Z) : bytes := be_bytes 4 c.2 ++ concat (map (be_bytes 32) c.1).
Definition rd_mix (b : bytes) : Z := fold_left (fun h x => Z.land (h * 257 + Z_of_byte x) 0xffffffffffffff) b 7.
Definition rd_item (x : ScriptItem) : bytes :=
  match x with AddOp _ => [x01] | AddInt64 z => x08 :: be_bytes 2 z | AddData b => be_bytes 1 (zlen b) ++ b end.

(** Packets are known by name, and encoded by the number of their signatures. *)
Definition rd_signatures (p : Packet) : Z := match pk_Inputs p with i :: _ => zlen (pi_TaprootScriptSpendSig i) | [] => 0 end.

(** Every number is a key; those of 32 bytes have the usual encoding. *)
Definition rd_short (k : Z) : bool := (0 <=? k) && (k <? 2 ^ 256).
Definition rd_point (k : Z) : bytes :=
  if rd_short k then x02 :: be_bytes 32 k else x04 :: (if k <? 0 then x01 else x00) :: be_bytes (Z.to_nat (Z.abs k)) (Z.abs k).
Definition rd_unpoint (raw : bytes) : Z :=
  match raw with x04 :: sign :: b => if beqb [sign] [x01] then - be_val b else be_val b | _ :: b => be_val b | [] => 0 end.

#[local] Instance rd_text : ErrorText := fun _ => "".
#[local] Instance rd_numbers : MapNumbers := {| sprint_member := fun _ => ""; numbers_fit := fun _ => true |}.

(** The vault: phone 5, owner 7, the public Emulator's base 10, boarding key 11
    and the derived cosigner; two P-256 keys with signatures of them below. *)

Definition rd_passkey : bytes := default [] (hex_decode "0245fad80a02a34e942bd7ee77715d42a6de633a916747f7f076e577a2109792e0").
Definition rd_direct : bytes := default [] (hex_decode "037a1db08c515cea316130b1f567e909fe66f5e705680a0626585812d86060faeb").
Definition rd_cosigner : Z := Eval vm_compute in match DeriveVaultCosignerScalar (Some 1) "vault-a" CosignerModeHKDFSHA256V1 with Ok k => k | Err _ => 0 end.
Definition rd_policy : SpendingPolicy := SpendingPolicyFromValues 50000 100000 AbsoluteFeeCeiling FeerateCeilingSatPerV.
Definition rd_operator : bytes := default [] (hex_decode (id_OperatorSignerPubHex MutinynetIdentity)).
Definition rd_resolver : Resolver := MkResolver NetworkMutinynet (default [] (hex_decode (id_CheckpointTapscriptHex MutinynetIdentity))) rd_operator.

Definition rd_none : Credential := MkCredential [] [] [] [] [] "" "" [] [] [] "" "" "" "" "" "" "" "" [] 0 0 0 0 0 [].

Section library.
Context (packets : list (string * Packet)) (h : bytes).

#[local] Instance rd_btc : Btc := {|
  PublicKey := Z;
  SchnorrSig := bytes;
  NewFromRawBytes := fun s => match List.find (fun x => seqb s x.1) packets with Some x => Ok x.2 | None => Err (Errorf "invalid psbt") end;
  B64Encode := fun p => match List.find (fun x => rd_signatures x.2 =? rd_signatures p) packets with Some x => Ok x.1 | None => Err (Errorf "encode") end;
  TxHash := fun tx => match tx_TxIn tx with [] => replicate 32 x09 | _ => replicate 32 x08 end;
  TapHash := fun leaf => leaf;
  CalcTapscriptSignaturehash := fun _ _ _ _ _ => Ok rd_hash;
  RawTxInTapscriptSignature := fun _ _ _ _ _ _ _ k => Ok (be_bytes 32 k ++ rd_hash);
  ParseSignature := fun b => Ok b;
  ParseXOnly := fun b => Ok (be_val b);
  VerifySig := fun sig digest key => beqb sig (be_bytes 32 key ++ digest);
  SerializeXOnly := be_bytes 32;
  PubKey := fun k => k;
  PrevoutTxFields := fun p _ => Ok (match pk_Inputs p with MkPInput (Some o) _ _ _ _ :: _ => [MkMsgTx 2 0 [] [o]] | _ => [] end)
|}.

(** The one arkade script of these packets has the hash [h]. *)
#[local] Instance rd_arkade : Arkade := {|
  SerializeCompressed := rd_point;
  ParsePubKey := fun raw => Ok (rd_unpoint raw);
  EmulatorEntry := unit;
  ArkadeScript := unit;
  FindEmulatorPacket := fun _ => Ok [tt];
  ReadArkadeScript := fun _ _ _ => Ok tt;
  script_Execute := fun _ _ _ _ _ => Ok tt;
  script_Hash := fun _ => h;
  ComputeArkadeScriptPrivateKey := fun k h => Some (rd_mix (be_bytes 32 k ++ h));
  VerifyTaprootLeafCommitment := fun _ _ => Ok tt
|}.

#[local] Instance rd_ark : Ark := {|
  Closure := list Z * Z;
  ControlBlock := bytes;
  TapKeyT := bytes;
  TapTreeT := bytes;
  DecodeClosure := fun b => Ok ([be_val (take 32 (drop 7 b))], 4096);
  MultisigKeys := fun c => Some (map Some c.1);
  ParseControlBlock := fun b => Ok b;
  OutputKey := fun control _ => control;
  P2TRScript := fun key => Ok (x51 :: x20 :: key);
  TapTree := fun leaves => let s := concat (map rd_script leaves) in Ok (sha256 s, sha256 s);
  MerkleProofControl := fun tree _ => Ok tree;
  ANCHOR_PKSCRIPT := [x51; x02; x4e; x73];
  intent_Verify := fun _ _ _ => Ok tt
|}.

#[local] Instance rd_arklib : ArkLib := {|
  MultisigClosure := fun keys => (keys, 0);
  CSVMultisigClosure := fun keys delay => (keys, delay);
  NewDefaultVtxoScript := fun user arkd delay => [([user], delay); ([user; arkd], 0)];
  ExitClosures := fun leaves => length (List.filter (fun c => 0 <? c.2) leaves);
  Script := fun c => Ok (rd_script c);
  Encode := fun leaves => Ok (map (fun c => hex_encode (rd_script c)) leaves);
  SerializeTapKey := fun k => k;
  AddrHRP := fun mainnet => if mainnet then "ark" else "tark";
  EncodeV0 := fun hrp _ key => Ok (hrp ++ "1" ++ hex_encode key)%string;
  DecodeAddressV0 := fun _ => Err (Errorf "address");
  NewAddressTaproot := fun key _ => Ok (hex_encode key)
|}.

#[local] Instance rd_savings : SavingsLib := {|
  CSVBlocksClosure := fun keys blocks => (keys, blocks);
  DecompressEven := be_val;
  ComputeTaprootOutputKey := fun k m => rd_mix (be_bytes 32 k ++ m);
  ScriptTreeRoot := fun scripts => be_bytes 32 (rd_mix (concat scripts));
  PayToTaprootScript := fun k => Ok (x51 :: x20 :: be_bytes 32 k);
  builder_Script := fun items => Ok (concat (map rd_item items));
  PacketType := 1;
  EmulatorPacket := bytes;
  NewPacket := fun script witness => Ok (script ++ concat witness);
  packet_Serialize := fun p => Ok p;
  extension_Serialize := fun p => Ok (x6a :: be_bytes 2 (zlen p) ++ p);
  ArkadeScriptHash := fun b => be_bytes 32 (rd_mix b);
  ComputeArkadeScriptPublicKey := fun base h => Some (rd_mix (be_bytes 32 base ++ h))
|}.

#[local] Instance rd_checkpoint : CheckpointLib := {| CSVMultisig := fun c => Some (true, c.1, true, c.2) |}.

Definition rd_registrar : Registrar :=
  MkRegistrar (MkConfig "https://vault.example" "vault.example" NetworkMutinynet) Vtxo.example_key (Some 10) "https://arkade.example" "v1"
    (MkKeyCapabilities true true true true true (Some (LocalSigner (Some 10))) true) (Some rd_resolver) true 0.
Definition rd_parsed : parsedRegisterRequest :=
  MkParsed [x01] rd_passkey rd_direct (Some 5) (Some 7) None (Some 11) VaultBoardV1 "vault-a" "standard" rd_policy.
Definition rd_input : result FamilyInput := savingsFamilyInput rd_registrar "vault-a" rd_parsed (Some rd_cosigner) (Some 10).
Definition rd_family : result Family := i ← rd_input; BuildFamily (applySavingsProgram i Template).
Definition rd_minted := mintSavingsCredential rd_registrar "vault-a" rd_parsed (Some rd_cosigner).
Definition rd_board := mintVaultBoardEnrollment rd_registrar (Some 1) "vault-a" rd_parsed.
Definition rd_initiate_leaf :=
  fam ← rd_family;
  match f_Initiate fam !! "hardware" with Some tw => Checksig [7; tp_Vault tw; tp_Arkade tw] | None => Err (Errorf "leaf") end.

(** The scripts of the Savings and the pending tree, the leaf and the hash of
    the owner's initiate script. *)
Definition rd_scripts_of :=
  let pick {A} (m : gmap string A) (f : A -> bytes) : bytes := match m !! FamilyKey "hardware" with Some x => f x | None => [] end in
  match rd_family, rd_initiate_leaf with
  | Ok fam, Ok leaf =>
      (t_PkScript (f_Savings fam), pick (f_Pending fam) t_PkScript, leaf, pick (f_InitiateAuth fam) (fun auth => be_bytes 32 (rd_mix auth)))
  | _, _ => ([], [], [], [])
  end.

(** What enrollment stores and publishes. *)
Definition rd_credential_of := match rd_minted with Ok (c, _) => c | Err _ => rd_none end.
Definition rd_published_of :=
  match rd_minted, rd_board with
  | Ok (_, sv), Ok (Some (_, board)) => publishEnrollmentAt None "vault-a" [x01] (Some 5) (Some sv) (Some board)
  | _, _ => None
  end.
End library.

Definition rd_scripts : bytes * bytes * bytes * bytes := Eval vm_compute in rd_scripts_of [] [].
Definition rd_tweak : bytes := rd_scripts.2.

(** The packet, signed by the keys of the list. *)
Definition rd_packet (signers : list Z) : Packet :=
  MkPacket (Some (MkMsgTx 2 0 [MkTxIn (replicate 32 x09, 0) TransitionSequence [] []] [MkTxOut 1000 rd_scripts.1.1.2; MkTxOut 0 [x51; x02; x4e; x73]]))
    [MkPInput (Some (MkTxOut 2000 rd_scripts.1.1.1)) SigHashDefault [Some (MkTapLeafScript (replicate 33 x01) rd_scripts.1.2 BaseLeafVersion)]
      (map (fun k => Some (MkSpendSig (be_bytes 32 k) rd_scripts.1.2 (be_bytes 32 k ++ rd_hash) SigHashDefault)) signers) []] [[]; []] [].
Definition rd_vault_key : Z := rd_mix (be_bytes 32 rd_cosigner ++ rd_tweak).
Definition rd_arkade_key : Z := rd_mix (be_bytes 32 10 ++ rd_tweak).
Definition rd_packets : list (string * Packet) := Eval vm_compute in
  [("TRAA", rd_packet [7]); ("TRAB", rd_packet [7; rd_vault_key]); ("TRAC", rd_packet [7; rd_vault_key; rd_arkade_key])].

#[local] Instance demo_btc : Btc := rd_btc rd_packets.
#[local] Instance demo_arkade : Arkade := rd_arkade rd_packets rd_tweak.
#[local] Instance demo_ark : Ark := rd_ark rd_packets.
#[local] Instance demo_arklib : ArkLib := rd_arklib rd_packets.
#[local] Instance demo_savings : SavingsLib := rd_savings rd_packets.
#[local] Instance demo_checkpoint : CheckpointLib := rd_checkpoint rd_packets.

Definition rd_credential : Credential := Eval vm_compute in rd_credential_of [] [].
Definition rd_record : VaultRecord := Eval vm_compute in
  match SealVaultRecord (VaultRecordFromCredential rd_credential) Vtxo.example_key with Ok v => v | Err _ => VaultRecordFromCredential rd_none end.
Definition rd_webauthn : VaultCredential := Eval vm_compute in
  match SealVaultCredential (MkVaultCredential [x01] "vault-a" rd_passkey [x02] true []) Vtxo.example_key with
  | Ok c => c | Err _ => MkVaultCredential [] "" [] [] false [] end.
Definition rd_tenants : Tenants := MkTenants {["vault-a" := rd_record]} {[ [x01] := rd_webauthn ]} ∅ ∅.
Definition rd_published : option publishedIndex := rd_published_of rd_packets rd_tweak.
Definition rd_vaults : Registrar := rd_registrar rd_packets rd_tweak.
Definition rd_outside : AppOutside :=
  MkAppOutside (fun _ w => w) (fun n len => Ok (replicate len (byte_of_Z (Z.of_nat n)))) (fun _ => true) (fun _ => None).
Definition rd_world : AppWorld :=
  MkAppWorld (MkStore example_l0 rd_tenants ∅ ∅ ∅) example_now rd_published (Some 1) 0 ∅ ∅ 0.

(** ** The owner starts a recovery *)

Definition rd_no_session : SessionAssertionRequest := MkSessionAssertion "" (MkAssertionRequest "" "" "" "") "".
Definition rd_transition : TransitionRequest := MkTransitionRequest "vault-a" "initiate" "TRAA" rd_no_session.

Lemma rd_signs : exists w', SignTransition rd_vaults rd_outside rd_transition rd_world = Some (Ok (MkTransitionResponse "TRAC" false), w').
Proof.
  assert (E : match SignTransition rd_vaults rd_outside rd_transition rd_world with
              | Some (Ok r, _) => seqb (ts_SignedPSBT r) "TRAC" && negb (ts_Replay r) | _ => false end = true) by (vm_compute; reflexivity).
  destruct (SignTransition _ _ _ _) as [[[[a b]|e] w']|]; [|discriminate..]. exists w'. simpl in E.
  apply andb_true_iff in E as [Ea%seqb_true Eb%negb_true_iff]. by rewrite Ea, Eb.
Qed.

Lemma rd_kept n w : tenants_kept w (app_others rd_outside n w).
Proof. by split. Qed.

Lemma released_transitions_are_pinned_witness : exists w' cred ptx sub bound fam,
  SignTransition rd_vaults rd_outside rd_transition rd_world = Some (Ok (MkTransitionResponse "TRAC" false), w') /\
  pinned rd_vaults cred "initiate" "TRAA" ptx sub bound fam /\ of_family cred fam bound /\ fenced rd_transition sub w'.
Proof.
  destruct rd_signs as [w' E]. exists w'.
  destruct (released_transitions_are_pinned rd_vaults rd_outside rd_kept rd_transition rd_world _ w' E)
    as (cred & ptx & sub & bound & fam & _ & Hp & Hf & _ & _ & Hd).
  exists cred, ptx, sub, bound, fam. exact (conj E (conj Hp (conj Hf Hd))).
Defined.

(** ** Passkey sessions *)

Definition rd_challenge_id : string := string_of_list_byte (b64_encode (replicate 16 x03)).
Definition rd_challenge (b : byte) : bytes := replicate 32 b.
Definition rd_table (purpose : string) (b : byte) : Challenges :=
  {[ passkeyChallengeKey "vault-a" rd_challenge_id := MkChallenge "vault-a" purpose (rd_challenge b) (example_now + minute) ]}.
Definition rd_assertion (b : byte) (count r s : Z) : WebAuthnAssertionRequest :=
  MkAssertionRequest (hex_encode [x01]) (hex_encode (synthClientData (rd_challenge b) "https://vault.example"))
    (hex_encode (synthAuthenticatorData "vault.example" true true count)) (hex_encode (marshalECDSA r s)).
Definition rd_proof (r s : Z) : string := hex_encode (be_bytes 32 r ++ be_bytes 32 s).

(** One session to install and one to recover; the signatures were made with the
    keys of [rd_passkey] and [rd_direct]. *)
Definition rd_install_session : SessionAssertionRequest := MkSessionAssertion rd_challenge_id
  (rd_assertion x04 1 0x206ae4529bb1354e367d46954e630aec2c7f6304c840e0cbdb0bb2e8886d8c71 0x3d9f42ced7f58909feb276cfcfcc6d4e6be70e495c20486e7e9a0bb21b81322b)
  (rd_proof 0xefa4bd9f8d21f3b8d75f04ac1d7e4261092b3168642f6878b95638aad83200a4 0x222ff779a7fe4bf663467eb139a958211aba5740ff04469a0c6349b6b38e0417).
Definition rd_recover_session : SessionAssertionRequest := MkSessionAssertion rd_challenge_id
  (rd_assertion x05 2 0x2e68b6dfd3f7427ef7ddae9869c3a4556019b77e5f4850ca44cff6531193d88c 0x528bebdf12c65747856e36b9065d4527986d0c11902bcb715fdf93562b8bcd1a)
  (rd_proof 0x8f9b1e13ca287ade2e3d85596f6d142bd98707244a3afefa13c6c67329c367d0 0x398f9e0d60a39b0838368974877469a4748006e34fb9232f33ecd6fc7d68760a).
Definition rd_challenged (purpose : string) (b : byte) : AppWorld := set_challenges (rd_table purpose b) rd_world.

Lemma rd_never_reissued k n w : absent k w (app_others rd_outside n w).
Proof. intros Hk. exact Hk. Qed.

Lemma rd_authenticates : exists cred w', authenticatePasskeySession rd_vaults rd_outside passkeyPurposeRecover "vault-a" rd_recover_session
    (rd_challenged passkeyPurposeRecover x05) = Some (Ok cred, w').
Proof.
  assert (E : match authenticatePasskeySession rd_vaults rd_outside passkeyPurposeRecover "vault-a" rd_recover_session
                (rd_challenged passkeyPurposeRecover x05) with Some (Ok _, _) => true | _ => false end = true) by (vm_compute; reflexivity).
  destruct (authenticatePasskeySession _ _ _ _ _ _) as [[[cred|e] w']|]; [|discriminate..]. by exists cred, w'.
Qed.

Lemma session_single_use_witness : exists cred w', authenticatePasskeySession rd_vaults rd_outside passkeyPurposeRecover "vault-a" rd_recover_session
    (rd_challenged passkeyPurposeRecover x05) = Some (Ok cred, w') /\
  aw_challenges w' !! passkeyChallengeKey "vault-a" rd_challenge_id = None.
Proof.
  destruct rd_authenticates as (cred & w' & E). exists cred, w'. split; [exact E|].
  exact (proj1 (proj2 (session_single_use rd_vaults rd_outside passkeyPurposeRecover "vault-a" rd_recover_session _ cred w' (rd_never_reissued _) E))).
Defined.

(** ** An envelope *)

Definition rd_binding : string := Eval vm_compute in
  match canonicalRecoveryBinding rd_vaults rd_outside rd_credential (replicate 12 x06) (replicate 48 x07) rd_world with
  | Some (Ok b, _) => b | _ => "" end.
Definition rd_install : InstallCredentialEnvelopeRequest :=
  MkInstallRequest "vault-a" rd_install_session (hex_encode (replicate 12 x06)) (hex_encode (replicate 48 x07)) rd_binding
    (rd_proof 0xf059faed259dc2083c2ceeda0b81ebdddc6476a8e29b0dee35d5187e17fcde7f 0x5c885fe14626e2a376ed402a03ba6761c2035aa5f4d257196cfbe7f2567470c4)
    (hex_encode (be_bytes 32 5 ++ recoveryBindingDigest rd_binding)).
Definition rd_recover : RecoverCredentialEnvelopeRequest := MkRecoverRequest "vault-a" rd_recover_session.
Definition rd_reissued (w : AppWorld) : AppWorld := set_challenges (rd_table passkeyPurposeRecover x05) w.

(** In between the device tries the same install again, and is refused. *)
Definition rd_again (w : AppWorld) : AppWorld :=
  match serve_app rd_vaults rd_outside (RqInstall rd_install) w with Some (_, w1) => w1 | None => w end.

Lemma rd_moving : moving rd_outside.
Proof. intros n w. by apply moves_same. Qed.

Lemma rd_later w : rtc (app_step rd_vaults) w (rd_reissued (rd_again w)).
Proof.
  apply (rtc_l _ _ (rd_again w)); [|apply rtc_once; by apply as_idle]. unfold rd_again.
  destruct (serve_app _ _ _ w) as [[r w1]|] eqn:E; [exact (as_request _ _ _ _ _ _ rd_moving E)|by apply as_idle].
Qed.

Lemma rd_round_trip : exists w' resp w3,
  InstallCredentialEnvelope rd_vaults rd_outside rd_install (rd_challenged passkeyPurposeInstall x04) = Some (Ok tt, w') /\
  RecoverCredentialEnvelope rd_vaults rd_outside rd_recover (rd_reissued (rd_again w')) = Some (Ok resp, w3).
Proof.
  assert (E : match InstallCredentialEnvelope rd_vaults rd_outside rd_install (rd_challenged passkeyPurposeInstall x04) with
    | Some (Ok tt, w') =>
        match RecoverCredentialEnvelope rd_vaults rd_outside rd_recover (rd_reissued (rd_again w')) with Some (Ok _, _) => true | _ => false end
    | _ => false end = true) by (vm_compute; reflexivity).
  destruct (InstallCredentialEnvelope _ _ _ _) as [[[[]|e] w']|]; [|discriminate..].
  destruct (RecoverCredentialEnvelope _ _ _ _) as [[[resp|e] w3]|] eqn:Er; [|discriminate..]. by exists w', resp, w3.
Qed.

Lemma envelope_round_trip_witness : exists w' resp w3,
  InstallCredentialEnvelope rd_vaults rd_outside rd_install (rd_challenged passkeyPurposeInstall x04) = Some (Ok tt, w') /\
  RecoverCredentialEnvelope rd_vaults rd_outside rd_recover (rd_reissued (rd_again w')) = Some (Ok resp, w3) /\
  resp = MkRecoverResponse rd_binding (hex_encode (recoveryBindingDigest rd_binding)) (iq_EnvelopeNonce rd_install)
           (iq_EnvelopeCiphertext rd_install) (iq_BindingDirectSig rd_install) (iq_BindingPhoneSig rd_install).
Proof.
  destruct rd_round_trip as (w' & resp & w3 & Ei & Er). exists w', resp, w3. split; [exact Ei|]. split; [exact Er|].
  exact (envelope_round_trip rd_vaults rd_outside rd_install _ w' (rd_reissued (rd_again w')) rd_outside rd_recover resp w3
           rd_moving Ei (rd_later w') rd_moving eq_refl Er).
Defined.
