(* ===== verification/EnrollSafety.v ===== *)
(** * Enrollment: what a finished ceremony and a restart guarantee

    A vault is created only for a verified ceremony and the descriptor its user
    approved; what creation published is what a restart rebuilds from the store. *)

From S2P Require Import Prelude Crypto Codec GoTime Program Ledger Recovery BoardRows VaultBoard Tenant Enrollment Apperr Json WebAuthn Psbt SpendVerify KeyProvider Trees Savings Service Deployment Register Effects Session RecoverySafety EnrollService.
From Stdlib Require Import Strings.Byte Strings.Ascii Strings.String.
From stdpp Require Import base decidable list strings gmap option sorting.
From Stdlib Require Import ZArith Lia.
Open Scope string_scope.
Open Scope list_scope.
Open Scope Z_scope.

(** The two ways a step ends. *)
Lemma bindM_inv {S A B} (m : M S A) (k : A -> M S B) w r w' : (m ≫= k) w = Some (r, w') ->
  (exists a w1, m w = Some (Ok a, w1) /\ k a w1 = Some (r, w')) \/ exists e, r = Err e /\ m w = Some (Err e, w').
Proof. unfold mbind, M_bind. destruct (m w) as [[[a|e] w1]|]; [eauto|intros [= <- <-]; eauto|done]. Qed.

Section enrollment.
#[local] Set Default Proof Using "Type*".
Context `{ErrorText, Btc, !Arkade, !Ark, !ArkLib, !SavingsLib, !CheckpointLib, MapNumbers}.
Context (s : Registrar).

(** The compressed encoding is read back and not empty. *)
Context (parse_serialized : forall k, ParsePubKey (SerializeCompressed k) = Ok k).
Context (serialized_nonempty : forall k, 0 < zlen (SerializeCompressed k)).

(** ** A minted credential rebuilds *)

(** What registration made sure of. *)
Record registered (parsed : parsedRegisterRequest) (phone owner : PublicKey) : Prop := {
  rp_phone : pr_phone parsed = Some phone;
  rp_owner : pr_externalOwner parsed = Some owner;
  rp_fixture : forall r, pr_recovery parsed = Some r -> knownFixtureXOnly (SerializeXOnly r) = false;
  rp_tier : ValidateProtectionTierRecovery (pr_protectionTier parsed) (bool_decide (is_Some (pr_recovery parsed))) = Ok tt;
  rp_policy : ValidateSpendingPolicyFor (cfg_Network (ap_Config s)) (pr_spendingPolicy parsed) = Ok tt
}.

Lemma onboarding_not_fixture name encoded pub : parseOnboardingKey name encoded = Ok pub -> knownFixtureXOnly (SerializeXOnly pub) = false.
Proof using Type.
  intros ([] & _ & ([] & _ & E)%bind_Ok)%bind_Ok. destruct (hex_decode encoded) as [raw|]; [|done]. apply bind_Ok in E as ([] & _ & E).
  destruct (ParseXOnly raw) as [p|]; [|done]. apply bind_Ok in E as ([] & Hs%require_Ok%beqb_true & ([] & Hf%require_Ok & [= <-])%bind_Ok).
  rewrite Hs. by apply negb_true_iff.
Qed.

Lemma parse_registered req parsed : parseRegisterRequestIndependent s req = Ok parsed -> exists phone owner, registered parsed phone owner.
Proof using Type.
  intros (id & _ & ([] & _ & (wp & _ & (? & _ & E)%bind_Ok)%bind_Ok)%bind_Ok)%bind_Ok.
  apply bind_Ok in E as (dp & _ & (? & _ & ([] & _ & (phone & _ & E)%bind_Ok)%bind_Ok)%bind_Ok).
  apply bind_Ok in E as (owner & _ & (rec & Hr & ([] & Ht & (dg & Hd & [= <-])%bind_Ok)%bind_Ok)%bind_Ok).
  exists phone, owner. constructor; simpl; try done.
  - intros r ->. destruct (seqb _ _); [done|]. apply bind_Ok in Hr as (p & Hp & [= ->]). by eapply onboarding_not_fixture.
  - apply bind_Ok in Hd as (d & Hd & _). apply bind_Ok in Hd as (raw & Hj & _). by apply bind_Ok in Hj as ([] & Hv & _).
Qed.

Lemma board_request_registered parsed req parsed' phone owner : applyVaultBoardEnrollmentRequest parsed req = Ok parsed' ->
  registered parsed phone owner -> registered parsed' phone owner /\ is_Some (pr_boardPub parsed').
Proof using Type. intros ([] & _ & (pub & _ & [= <-])%bind_Ok)%bind_Ok R. split; [by destruct R|by eexists]. Qed.

Lemma policy_of_values network p : ValidateSpendingPolicyFor network p = Ok tt ->
  SpendingPolicyFromValues (sp_TxRecipientCapSats p) (sp_PeriodAllowanceSats p) (sp_AbsoluteFeeCapSats p) (sp_FeerateCapSatPerV p) = p.
Proof using Type. intros (pins & _ & ? & ? & ? & _)%ValidateSpendingPolicyFor_Ok. destruct p; simpl in *. by subst. Qed.

(** The keys a credential of [parsed] holds. *)
Definition keys_of_parsed (parsed : parsedRegisterRequest) (phone owner vaultBase arkadeBase : PublicKey) : RebuiltKeys :=
  MkRebuiltKeys phone owner (pr_recovery parsed) vaultBase arkadeBase.

Lemma minted_keys v parsed base ark cred sv phone owner : registered parsed phone owner -> ap_ArkadeCosignerPub s = Some ark ->
  mintSavingsCredential s v parsed (Some base) = Ok (cred, sv) -> credentialKeys cred = Ok (keys_of_parsed parsed phone owner base ark).
Proof.
  intros R Ha (i & _ & E)%bind_Ok. destruct (arkadeIdentity s) as [origin version]. apply bind_Ok in E as ([d fam] & _ & [= <- _]).
  unfold credentialKeys. simpl. rewrite (rp_phone _ _ _ R), (rp_owner _ _ _ R), Ha. simpl. rewrite !parse_serialized. simpl.
  destruct (pr_recovery parsed) as [r|] eqn:Er; simpl; [|by rewrite ?parse_serialized; unfold keys_of_parsed; rewrite Er].
  pose proof (serialized_nonempty r). replace (0 <? zlen (SerializeCompressed r)) with true by lia. rewrite !parse_serialized. simpl.
  rewrite (rp_fixture _ _ _ R r Er). unfold keys_of_parsed. by rewrite Er.
Qed.

Lemma minted_compatible v parsed base ark cred sv phone owner : registered parsed phone owner -> ap_ArkadeCosignerPub s = Some ark -> v <> "" ->
  mintSavingsCredential s v parsed (Some base) = Ok (cred, sv) -> requireCompatible s cred = Ok tt.
Proof.
  intros R Ha Hv (i & _ & E)%bind_Ok. unfold requireCompatible. destruct (arkadeIdentity s) as [origin version] eqn:Eid.
  apply bind_Ok in E as ([d fam] & Hb & [= <- _]). unfold BuildPublicDescriptor in Hb. apply bind_Ok in Hb as ([] & Hov%require_Ok & _).
  assert (Hver : version = trim_space (ap_ArkadeCosignerVersion s)) by (unfold arkadeIdentity in Eid; by injection Eid).
  rewrite negb_orb, andb_true_iff, !negb_true_iff, !seqb_false in Hov. destruct Hov as [_ Hne].
  assert (Hne2 : version <> "") by (intros ->; by apply Hne).
  assert (Hne3 : ap_ArkadeCosignerVersion s <> "") by (intros E; apply Hne2; by rewrite Hver, E).
  unfold knownTemplate, spendingPolicyFromCredential. simpl. rewrite !seqb_refl, (policy_of_values _ _ (rp_policy _ _ _ R)), (rp_policy _ _ _ R). simpl.
  rewrite Ha. simpl. rewrite (proj2 (beqb_true _ _) eq_refl), (seqb_neq _ _ Hv), (seqb_neq _ _ Hne2), (seqb_neq _ _ Hne3). simpl.
  assert (Hrec : (0 <? zlen (compressed (pr_recovery parsed))) = bool_decide (is_Some (pr_recovery parsed))).
  { destruct (pr_recovery parsed) as [r|]; simpl; [|done]. pose proof (serialized_nonempty r). apply Z.ltb_lt. done. }
  by rewrite Hrec, (rp_tier _ _ _ R).
Qed.

(** The credential that registration mints rebuilds to the keys and the Savings
    vault it was minted with. *)
Lemma minted_rebuilds v parsed base ark cred sv phone owner : registered parsed phone owner -> ap_ArkadeCosignerPub s = Some ark -> v <> "" ->
  mintSavingsCredential s v parsed (Some base) = Ok (cred, sv) -> rebuildFromCredential s cred = Ok (keys_of_parsed parsed phone owner base ark, sv).
Proof.
  intros R Ha Hv Hm. unfold rebuildFromCredential. rewrite (minted_compatible v parsed base ark cred sv phone owner R Ha Hv Hm). simpl.
  unfold rebuildSavings. rewrite (minted_keys v parsed base ark cred sv phone owner R Ha Hm). simpl.
  unfold mintSavingsCredential in Hm. rewrite Ha in Hm. unfold savingsFamilyInput in *. rewrite (rp_phone _ _ _ R), (rp_owner _ _ _ R) in Hm. simpl in Hm.
  destruct (arkadeIdentity s) as [origin version]. unfold applySavingsProgram in Hm. simpl in Hm.
  apply bind_Ok in Hm as ([d fam] & Hb & [= <- <-]). simpl. unfold spendingPolicyFromCredential. simpl.
  rewrite (policy_of_values _ _ (rp_policy _ _ _ R)), seqb_refl. simpl. unfold applySavingsProgram. simpl. rewrite Hb. simpl.
  rewrite !seqb_refl, (proj2 (beqb_true (t_PkScript (f_Savings fam)) _) eq_refl). reflexivity.
Qed.

(** ** What a restart rebuilds *)

(** The snapshot of [v] as it follows from the store and the keys alone. *)
Definition restore (cell : fileBackedVaultKeys) (st : Store) (v : string) : result enrolledSnapshot :=
  key ← credentialIntegrityKey (ap_IntegrityKey s);
  '(rec, vcred) ← LoadVerifiedVault (st_tenants st) v key;
  match rec, vcred with
  | Some rec, Some vcred =>
      let cred := ToCredential rec vcred in
      require (seqb (VaultID cred) v) (Errorf "vault id");;
      '(k, sv) ← rebuildFromCredential s cred;
      be ← GetVaultBoardEnrollment (st_ledger st) v;
      board ← boardSnapshotFromRecord be;
      match board with
      | Some board =>
          tree ← buildVtxoBoardTree (board_env s cell) v (MkEnrolledKeys (Some (rk_phone k)) None None) (bn_BoardingPub board);
          require (sameBoardTree tree board) (Errorf "board");;
          Ok (snapshot (publishEnrollmentAt None v (ID cred) (Some (rk_phone k)) (Some sv) (Some board)) v)
      | None => Err (Errorf "board")
      end
  | _, _ => Err (Errorf "not enrolled")
  end.

(** The vault has one credential and is rebuilt as [snap]. *)
Definition restorable (cell : fileBackedVaultKeys) (st : Store) (v : string) (snap : enrolledSnapshot) : Prop :=
  restore cell st v = Ok snap /\ exists c, credentialsOf (st_tenants st) v = [c].

Lemma published_snapshot p v id phone sv board :
  snapshot (publishEnrollmentAt p v id phone sv board) v = snapshot (publishEnrollmentAt None v id phone sv board) v.
Proof using Type. unfold publishEnrollmentAt. destruct p; simpl; by rewrite !lookup_insert_eq. Qed.

Lemma published_other p v id phone sv board v' : v' <> v -> snapshot (publishEnrollmentAt p v id phone sv board) v' = snapshot p v'.
Proof using Type.
  intros Hne. unfold publishEnrollmentAt. destruct p as [p|]; simpl; rewrite lookup_insert_ne by done; [done|]. by rewrite lookup_empty.
Qed.

Lemma restore_same cell st st' v : (forall key, LoadVerifiedVault (st_tenants st') v key = LoadVerifiedVault (st_tenants st) v key) ->
  GetVaultBoardEnrollment (st_ledger st') v = GetVaultBoardEnrollment (st_ledger st) v -> restore cell st' v = restore cell st v.
Proof using Type.
  intros HL HB. unfold restore. destruct (credentialIntegrityKey _) as [key|]; [|done]. simpl. rewrite HL. destruct (LoadVerifiedVault _ _ _) as [[[rec|] [vc|]]|]; try done.
  simpl. destruct (require _ _); [|done]. simpl. destruct (rebuildFromCredential _ _) as [[k sv]|]; [|done]. simpl. by rewrite HB.
Qed.

(** *** Reloading one vault *)

(** Nobody else runs during start-up. *)
Definition quiet (o : AppOutside) : Prop := forall n w, app_others o n w = w.

Lemma quiet_read {A} o (f : AppWorld -> result A) w a : quiet o -> f (advance w) = Ok a -> app_read o f w = Some (Ok a, advance w).
Proof using Type. intros Hq E. unfold app_read, app_access. rewrite Hq. by rewrite E. Qed.

(** The worlds of a reload of [st]. *)
Definition reloading (cell : fileBackedVaultKeys) (st : Store) (w : AppWorld) : Prop := aw_store w = st /\ aw_cell w = cell.

Lemma orElse_step {A} e (m : M AppWorld A) w a w1 : m w = Some (Ok a, w1) -> orElse e m w = Some (Ok a, w1).
Proof using Type. intros E. unfold orElse, try. unfold mbind, M_bind. by rewrite E. Qed.

Lemma publish_one o cell st cred k sv be board tree w : quiet o -> reloading cell st w -> rebuildFromCredential s cred = Ok (k, sv) ->
  GetVaultBoardEnrollment (st_ledger st) (VaultID cred) = Ok (Some be) -> boardSnapshotFromRecord (Some be) = Ok (Some board) ->
  buildVtxoBoardTree (board_env s cell) (VaultID cred) (MkEnrolledKeys (Some (rk_phone k)) None None) (bn_BoardingPub board) = Ok tree ->
  sameBoardTree tree board = true -> exists w1, publishStoredEnrollment s o cred w = Some (Ok tt, w1) /\ reloading cell st w1 /\
    aw_published w1 = publishEnrollmentAt (aw_published w) (VaultID cred) (ID cred) (Some (rk_phone k)) (Some sv) (Some board).
Proof using Type.
  intros Hq [Hs Hc] Hr Hb Hbs Ht Hsame. unfold publishStoredEnrollment. eexists. split; [|shelve].
  erewrite bindM_step; [|by rewrite Hr]. simpl.
  erewrite bindM_step; [|apply orElse_step, quiet_read; [exact Hq|simpl; rewrite Hs; exact Hb]].
  erewrite bindM_step; [|reflexivity].
  erewrite bindM_step; [|apply orElse_step; unfold lift; rewrite Hbs; reflexivity]. cbn beta iota.
  erewrite bindM_step; [|apply quiet_read; [exact Hq|simpl; rewrite Hc; exact Ht]].
  rewrite Hsame. erewrite bindM_step; [|reflexivity]. unfold app_access. rewrite Hq. reflexivity.
  Unshelve. done.
Qed.

Lemma reload_one o cell st v snap w key ids : quiet o -> reloading cell st w -> restore cell st v = Ok snap ->
  credentialIntegrityKey (ap_IntegrityKey s) = Ok key -> exists w1, reloading cell st w1 /\ loadEach s o key (v :: ids) w = loadEach s o key ids w1 /\
  snapshot (aw_published w1) v = snap /\ forall v', v' <> v -> snapshot (aw_published w1) v' = snapshot (aw_published w) v'.
Proof using Type.
  intros Hq Hw E Hk. unfold restore in E. rewrite Hk in E. apply bind_Ok in E as (key1 & [= <-] & ([rec vc] & HL & E)%bind_Ok).
  destruct rec as [rec|]; [|done]. destruct vc as [vc|]; [|done]. simpl in E. apply bind_Ok in E as ([] & Hid%require_Ok%seqb_true & ([k sv] & Hr & E)%bind_Ok).
  apply bind_Ok in E as (be & Hb & (board & Hbs & E)%bind_Ok). destruct board as [board|]; [|done]. destruct be as [be|]; [|done].
  apply bind_Ok in E as (tree & Ht & ([] & Hsame%require_Ok & [= <-])%bind_Ok). simpl in Hid. subst v.
  destruct (publish_one o cell st (ToCredential rec vc) k sv be board tree (advance w)) as (w1 & Hp & Hw1 & Hpub); try done.
  exists w1. split; [done|]. split.
  - simpl loadEach. erewrite bindM_step; [|apply quiet_read; [done|]; simpl; rewrite (proj1 Hw); exact HL]. cbn beta iota. by erewrite bindM_step.
  - rewrite Hpub. split; [apply published_snapshot|]. intros v' Hne. by rewrite published_other.
Qed.

Lemma reload_each o cell st key ids : quiet o -> credentialIntegrityKey (ap_IntegrityKey s) = Ok key ->
  (forall v, v ∈ ids -> exists snap, restore cell st v = Ok snap) -> forall w, reloading cell st w ->
  exists w', loadEach s o key ids w = Some (Ok tt, w') /\ reloading cell st w' /\
    (forall v, v ∈ ids -> restore cell st v = Ok (snapshot (aw_published w') v)) /\
    (forall v, v ∉ ids -> snapshot (aw_published w') v = snapshot (aw_published w) v).
Proof using Type.
  intros Hq Hk. induction ids as [|v ids IH]; intros Hids w Hw.
  - exists w. split_and!; try done. by intros v Hv%not_elem_of_nil.
  - destruct (Hids v) as [snap Hs]; [constructor|]. destruct (reload_one o cell st v snap w key ids Hq Hw Hs Hk) as (w1 & Hw1 & E & Hv & Ho).
    destruct (IH (fun v' H' => Hids v' (list_elem_of_further _ _ _ H')) w1 Hw1) as (w' & E' & Hw' & Hin & Hout). exists w'.
    rewrite E. split; [done|]. split; [done|]. split.
    + intros v' Hv'. destruct (decide (v' ∈ ids)) as [Hi|Hi]; [by apply Hin|]. apply elem_of_cons in Hv' as [->|?]; [|done].
      by rewrite (Hout v Hi), Hv.
    + intros v' Hv'. apply not_elem_of_cons in Hv' as [Hne Hi]. by rewrite (Hout v' Hi), Ho.
Qed.

Lemma listed_vaults st v : v ∈ ListVaultIDs st <-> vault_exists st v.
Proof using Type.
  unfold ListVaultIDs, vault_exists. rewrite merge_sort_Permutation, list_elem_of_fmap. split.
  - intros ([k r] & -> & E%elem_of_map_to_list). by exists r.
  - intros [r E]. exists (v, r). split; [done|]. by apply elem_of_map_to_list.
Qed.

(** With a valid deployment and the ledger's key, [LoadVaults] succeeds on every
    store whose vaults are restorable, and publishes for each stored vault what
    follows from the store and the keys. *)
Lemma load_run o w : quiet o -> Config_Validate (ap_Config s) = Ok tt ->
  requireLedgerIntegrity (ap_IntegrityKey s) (st_ledger (aw_store w)) = Ok tt ->
  (forall v, vault_exists (aw_store w) v -> exists snap, restorable (aw_cell w) (aw_store w) v snap) ->
  exists w', LoadVaults s o w = Some (Ok tt, w') /\ aw_store w' = aw_store w /\
    (forall v, vault_exists (aw_store w) v -> restore (aw_cell w) (aw_store w) v = Ok (snapshot (aw_published w') v)) /\
    (forall v, ~ vault_exists (aw_store w) v -> snapshot (aw_published w') v = snapshot (aw_published w) v).
Proof using Type.
  intros Hq Hc Hl Hv. pose proof Hl as (key & Hk & _)%bind_Ok.
  destruct (reload_each o (aw_cell w) (aw_store w) key (ListVaultIDs (aw_store w)) Hq Hk) with (w := advance (advance w)) as (w' & E & [Hs _] & Hin & Hout); [|done|].
  { intros v [snap [Hr _]]%listed_vaults%Hv. by exists snap. }
  exists w'. split; [|split; [done|]].
  - unfold LoadVaults, ledgerIntegrity. erewrite bindM_step; [|apply quiet_read; [done|exact Hl]]. rewrite Hc. erewrite bindM_step; [|reflexivity].
    erewrite bindM_step; [|apply quiet_read; done]. erewrite bindM_step; [|by rewrite Hk]. exact E.
  - split; intros v Hx; [by apply Hin, listed_vaults|]. apply Hout. by rewrite listed_vaults.
Qed.

(** ** What a creation leaves *)

Lemma created_vault st i board st' row : created st i board st' row -> tn_vault (st_tenants st) !! v_VaultID (ci_Record i) = None /\
  tn_vault (st_tenants st') = <[v_VaultID (ci_Record i) := ci_Record i]> (tn_vault (st_tenants st)).
Proof using Type. intros C. destruct (insertVaultTx_Ok _ _ _ _ _ (cd_tenants _ _ _ _ _ C)) as (Hf & _ & _ & Hv & _). done. Qed.

Lemma created_credentials st i board st' row v : created st i board st' row ->
  credentialsOf (st_tenants st') v ≡ₚ (if decide (c_VaultID (ci_Credential i) = v) then [ci_Credential i] else []) ++ credentialsOf (st_tenants st) v.
Proof using Type.
  intros C. destruct (insertVaultTx_Ok _ _ _ _ _ (cd_tenants _ _ _ _ _ C)) as (_ & Hf & _ & _ & Hc & _).
  unfold credentialsOf. rewrite Hc, (map_to_list_insert _ _ _ Hf). simpl. rewrite filter_cons. by destruct (decide _).
Qed.

Lemma created_board st i b st' row : created st i (Some b) st' row -> l_integrityKey (st_ledger st') = l_integrityKey (st_ledger st) /\
  t_vault_board_enrollment (l_db (st_ledger st')) = <[be_VaultID b := b]> (t_vault_board_enrollment (l_db (st_ledger st))).
Proof using Type.
  intros C. destruct (cd_ledger _ _ _ _ _ C) as (d & -> & Hd). split; [done|]. unfold PutVaultBoardEnrollmentTx in Hd.
  by apply bind_Ok in Hd as ([] & _ & ([] & _ & ([] & _ & [= <-])%bind_Ok)%bind_Ok).
Qed.

Lemma primary_of_list t t' v : credentialsOf t' v = credentialsOf t v -> primaryCredential t' v = primaryCredential t v.
Proof using Type. unfold primaryCredential. fold (credentialsOf t v). fold (credentialsOf t' v). by intros ->. Qed.

Lemma restore_vault cell st v snap : restore cell st v = Ok snap -> vault_exists st v.
Proof using Type.
  intros (key & _ & ([rec vc] & HL & E)%bind_Ok)%bind_Ok. unfold LoadVerifiedVault, LoadVault in HL.
  apply bind_Ok in HL as ([r c] & ([] & _ & HL1)%bind_Ok & HL2). unfold vault_exists.
  destruct (tn_vault (st_tenants st) !! v); [by eexists|]. injection HL1 as <- <-. by injection HL2 as <- <-.
Qed.

(** Another vault is not affected. *)
Lemma created_kept cell st i b st' row v snap : created st i (Some b) st' row -> c_VaultID (ci_Credential i) = v_VaultID (ci_Record i) ->
  be_VaultID b = v_VaultID (ci_Record i) -> restorable cell st v snap -> restorable cell st' v snap.
Proof using Type.
  intros C Hid Hb [Hr [c Hc]]. destruct (created_vault _ _ _ _ _ C) as [Hf Hv]. destruct (created_board _ _ _ _ _ C) as [Hk Ht].
  assert (Hne : v_VaultID (ci_Record i) <> v) by (intros E; destruct (restore_vault _ _ _ _ Hr) as [? Hx]; rewrite E in Hf; by rewrite Hx in Hf).
  assert (Hc' : credentialsOf (st_tenants st') v = [c]).
  { pose proof (created_credentials _ _ _ _ _ v C) as P. rewrite decide_False in P by (by rewrite Hid). rewrite Hc in P. by apply Permutation_singleton_r in P. }
  split; [|by exists c]. rewrite <-Hr. apply restore_same.
  - intros key. unfold LoadVerifiedVault, LoadVault. rewrite Hv, lookup_insert_ne by done. by rewrite (primary_of_list (st_tenants st) (st_tenants st')) by (by rewrite Hc, Hc').
  - unfold GetVaultBoardEnrollment, integrityKeyCopy. rewrite Hk, Ht. rewrite lookup_insert_ne; [done|]. by rewrite Hb.
Qed.

(** What [admission] accepted. *)
Record admitted (cell : fileBackedVaultKeys) (v : string) (a : Admission) (key : bytes) (phone : PublicKey) (cred : Credential) (k : RebuiltKeys)
    (tree : vtxoBoardTree) : Prop := {
  am_key : credentialIntegrityKey (ap_IntegrityKey s) = Ok key;
  am_rebuilds : rebuildFromCredential s cred = Ok (k, ad_savings a);
  am_phone : rk_phone k = phone /\ pr_phone (ad_parsed a) = Some phone;
  am_credential : VaultID cred = v /\ IntegrityMAC cred = [] /\ ad_id a = ID cred;
  am_record : SealVaultRecord (VaultRecordFromCredential cred) key = Ok (ad_record a);
  am_passkey : SealVaultCredential (newVaultCredential v (ID cred) (Tenant.WebAuthnP256 cred)) key = Ok (ad_credential a);
  am_tree : buildVtxoBoardTree (board_env s cell) v (MkEnrolledKeys (Some phone) None None) (Some (bt_BoardingPub tree)) = Ok tree;
  am_board : SealVaultBoardEnrollment (MkBoardEnrollment v VaultBoardV1 (SerializeCompressed (bt_BoardingPub tree)) (SerializeCompressed (bt_CosignerPub tree))
    (SerializeCompressed (bt_OperatorPub tree)) (boardExitDelay s) VaultBoardV1ExitDelayUnit (bt_PkScript tree) (bt_OnchainAddress tree) []) key = Ok (ad_board a);
  am_snapshot : ad_snapshot a = boardSnapshot tree
}.

Lemma built_boarding e v snap boarding tree : buildVtxoBoardTree e v snap (Some boarding) = Ok tree -> bt_BoardingPub tree = boarding.
Proof using Type.
  intros (pins & _ & E)%bind_Ok. destruct (ek_PhoneBIP340 snap) as [phone|]; [|done]. apply bind_Ok in E as ([] & _ & E).
  destruct (ParsePubKey _) as [op|]; [|done]. apply bind_Ok in E as (kc & _ & (cos & _ & ([] & _ & E)%bind_Ok)%bind_Ok).
  apply bind_Ok in E as ([tk tt'] & _ & (pk & _ & (leaf & _ & (pf & _ & (rv & _ & (net & _ & (ad & _ & [= <-])%bind_Ok)%bind_Ok)%bind_Ok)%bind_Ok)%bind_Ok)%bind_Ok).
  done.
Qed.

Lemma minted_view v parsed base cred sv : mintSavingsCredential s v parsed base = Ok (cred, sv) -> VaultID cred = v /\ IntegrityMAC cred = [] /\
  exists ark, ap_ArkadeCosignerPub s = Some ark.
Proof using Type.
  intros (i & Hi & E)%bind_Ok. destruct (arkadeIdentity s). apply bind_Ok in E as ([d f] & _ & [= <- _]). split_and!; [done..|].
  apply bind_Ok in Hi as ([] & Hr%require_Ok & _). destruct (ap_ArkadeCosignerPub s) as [ark|]; [by exists ark|done].
Qed.

Lemma admit_admitted cell v req a : v <> "" -> admission s cell v req = Ok a -> exists key phone cred k tree, admitted cell v a key phone cred k tree.
Proof.
  intros Hv (base & _ & (p0 & (phone & owner & R0)%parse_registered & (p & Hp & E)%bind_Ok)%bind_Ok)%bind_Ok.
  destruct (board_request_registered _ _ _ _ _ Hp R0) as [R [bpub Hbp]].
  apply bind_Ok in E as (pr & _ & ([] & _ & ([cred sv] & Hm & (rec & Hrec & (vc & Hvc & (board & Hb & E)%bind_Ok)%bind_Ok)%bind_Ok)%bind_Ok)%bind_Ok).
  destruct board as [[be snap]|]; [|done]. injection E as <-.
  apply bind_Ok in Hrec as (key & Hk & Hrec). unfold sealVaultCredentialForService in Hvc. rewrite Hk in Hvc. simpl in Hvc.
  destruct (minted_view _ _ _ _ _ Hm) as (Hid & Hmac & ark & Hark).
  unfold mintVaultBoardEnrollment in Hb. destruct (negb _); [done|]. apply bind_Ok in Hb as ([bd tree] & Hbuild & Hb). rewrite Hk in Hb. simpl in Hb.
  apply bind_Ok in Hb as (be' & Hseal & [= -> <-]). unfold buildVaultBoardEnrollment in Hbuild. rewrite Hbp, (rp_phone _ _ _ R) in Hbuild.
  apply bind_Ok in Hbuild as ([] & _ & (tr & Ht & [= _ ->])%bind_Ok). pose proof (built_boarding _ _ _ _ _ Ht) as Hbo. rewrite <-Hbo in Ht.
  exists key, phone, cred, (keys_of_parsed p phone owner base ark), tree. constructor; try done; simpl.
  - by apply (minted_rebuilds v p base ark cred sv phone owner).
  - split; [done|]. apply (rp_phone _ _ _ R).
Qed.

Lemma sealed_view cred key v rec vc : VaultID cred = v -> IntegrityMAC cred = [] -> SealVaultRecord (VaultRecordFromCredential cred) key = Ok rec ->
  SealVaultCredential (newVaultCredential v (ID cred) (Tenant.WebAuthnP256 cred)) key = Ok vc -> ToCredential rec vc = cred.
Proof using Type.
  intros Hv Hm (_ & p & _ & ->)%Seal_Ok (_ & p' & _ & ->)%Seal_Ok. destruct cred. simpl in *. by subst.
Qed.

Lemma same_tree tree : sameBoardTree tree (boardSnapshot tree) = true.
Proof using Type. unfold sameBoardTree. simpl. by rewrite seqb_refl, !(proj2 (beqb_true _ _) eq_refl). Qed.

(** The new vault is rebuilt as it was published. *)
Lemma created_restores cell v a key phone cred k tree st i st' row p : admitted cell v a key phone cred k tree -> v <> "" -> enrolled st ->
  requireLedgerIntegrity (ap_IntegrityKey s) (st_ledger st) = Ok tt -> created st i (Some (ad_board a)) st' row ->
  ci_Record i = ad_record a -> ci_Credential i = ad_credential a ->
  restorable cell st' v (snapshot (publishEnrollmentAt p v (ad_id a) (pr_phone (ad_parsed a)) (Some (ad_savings a)) (Some (ad_snapshot a))) v).
Proof.
  intros A Hne En Hl C Hi Hci. destruct (am_credential _ _ _ _ _ _ _ _ A) as (Hid & Hmac & Had). destruct (am_phone _ _ _ _ _ _ _ _ A) as [Hph Hpp].
  pose proof (sealed_view _ _ _ _ _ Hid Hmac (am_record _ _ _ _ _ _ _ _ A) (am_passkey _ _ _ _ _ _ _ _ A)) as Hview.
  assert (Hrid : v_VaultID (ad_record a) = v) by (rewrite <-Hview in Hid; done).
  assert (Hcid : c_VaultID (ad_credential a) = v).
  { pose proof (am_passkey _ _ _ _ _ _ _ _ A) as (_ & q & _ & ->)%Seal_Ok. done. }
  assert (Hbid : be_VaultID (ad_board a) = v).
  { pose proof (am_board _ _ _ _ _ _ _ _ A) as (_ & q & _ & ->)%Seal_Ok. done. }
  destruct (created_vault _ _ _ _ _ C) as [Hf Hv]. destruct (created_board _ _ _ _ _ C) as [Hk Ht].
  pose proof (created_primary _ _ _ _ _ En C) as Hprim. rewrite Hi, Hci, Hrid, Hcid in *. specialize (Hprim eq_refl).
  split; [|exists (ad_credential a)].
  - unfold restore. rewrite (am_key _ _ _ _ _ _ _ _ A). simpl. unfold LoadVerifiedVault, LoadVault. rewrite (seqb_neq _ _ Hne), Hv, lookup_insert_eq, Hprim. simpl.
    rewrite (seal_verify _ _ _ (am_record _ _ _ _ _ _ _ _ A) : VerifyVaultRecord _ _ = _). simpl.
    rewrite (seal_verify _ _ _ (am_passkey _ _ _ _ _ _ _ _ A) : VerifyVaultCredential _ _ = _). simpl. rewrite Hview, Hrid, seqb_refl. simpl.
    rewrite (am_rebuilds _ _ _ _ _ _ _ _ A). simpl.
    apply bind_Ok in Hl as (key' & Hk' & ([] & _ & ([] & Hlen%require_Ok & Heq%require_Ok%beqb_true)%bind_Ok)%bind_Ok).
    rewrite (am_key _ _ _ _ _ _ _ _ A) in Hk'. injection Hk' as <-.
    assert (HB : GetVaultBoardEnrollment (st_ledger st') v = Ok (Some (ad_board a))).
    { unfold GetVaultBoardEnrollment, integrityKeyCopy. rewrite (seqb_neq _ _ Hne), Hk, Hlen, Ht, Hbid, lookup_insert_eq. simpl. rewrite Heq.
      by rewrite (seal_verify _ _ _ (am_board _ _ _ _ _ _ _ _ A) : VerifyVaultBoardEnrollment _ _ = _). }
    rewrite HB. simpl.
    assert (HS : boardSnapshotFromRecord (Some (ad_board a)) = Ok (Some (boardSnapshot tree))).
    { pose proof (am_board _ _ _ _ _ _ _ _ A) as (_ & q & _ & ->)%Seal_Ok. simpl. by rewrite !parse_serialized. }
    simpl in HS. rewrite HS. simpl. rewrite Hph, (am_tree _ _ _ _ _ _ _ _ A). simpl. rewrite same_tree. simpl.
    rewrite (published_snapshot p), Hpp, Had, (am_snapshot _ _ _ _ _ _ _ _ A). rewrite <-Hview. reflexivity.
  - assert (Hnone : credentialsOf (st_tenants st) v = []).
    { destruct (credentialsOf (st_tenants st) v) as [|c l] eqn:Ec; [done|]. exfalso.
      assert (Hin : c ∈ credentialsOf (st_tenants st) v) by (rewrite Ec; constructor). apply credentialsOf_spec in Hin as (Hcv & kk & Hkk).
      destruct (en_keys _ En) as (_ & (K & _) & _). apply K in Hkk as [r Hr]. rewrite Hcv in Hr. by rewrite Hr in Hf. }
    pose proof (created_credentials _ _ _ _ _ v C) as P. rewrite Hci, decide_True, Hnone in P by done. by apply Permutation_singleton_r in P.
Qed.

(** ** Runs *)

(** The store between two requests. *)
Record settled (w : AppWorld) : Prop := {
  wf_enrolled : enrolled (aw_store w);
  wf_key : requireLedgerIntegrity (ap_IntegrityKey s) (st_ledger (aw_store w)) = Ok tt;
  wf_vaults : forall v, vault_exists (aw_store w) v -> exists snap, restorable (aw_cell w) (aw_store w) v snap
}.

(** A step keeps the keys, and a settled store settled with its vaults and
    consumed invites. *)
Record extends (w w' : AppWorld) : Prop := {
  ex_cell : aw_cell w' = aw_cell w;
  ex_settled : settled w -> settled w';
  ex_kept : settled w -> forall v snap, restorable (aw_cell w) (aw_store w) v snap -> restorable (aw_cell w') (aw_store w') v snap;
  ex_consumed : settled w -> forall h v, consumed_by (aw_store w) h v -> consumed_by (aw_store w') h v
}.

#[local] Instance extends_refl : Reflexive extends.
Proof using Type. intros w. by split. Qed.
#[local] Instance extends_trans : Transitive extends.
Proof using Type.
  intros w1 w2 w3 [A1 B1 C1 D1] [A2 B2 C2 D2]. split; [by rewrite A2|auto|..]; intros Hs v snap Hr; [apply C2, C1|apply D2, D1]; auto.
Qed.

Lemma extends_same w w' : aw_store w' = aw_store w -> aw_cell w' = aw_cell w -> extends w w'.
Proof using Type. intros Es Ec. split; [done|..]; rewrite ?Es, ?Ec; [|done..]. intros [A B C]. split; by rewrite ?Es, ?Ec. Qed.

Lemma created_key key st i b st' row : created st i (Some b) st' row -> requireLedgerIntegrity key (st_ledger st') = requireLedgerIntegrity key (st_ledger st).
Proof using Type. intros [Hk _]%created_board. unfold requireLedgerIntegrity, RequireIntegrityKey. by rewrite Hk. Qed.

Definition input_of (a : Admission) (hash : bytes) (pending : option PendingEnrollment) : CreateVaultInput :=
  MkCreateVaultInput (ad_record a) (ad_credential a) None hash pending.

(** The transaction of a creation. *)
Lemma create_step v req a hash pending ok now w st' r : v <> "" -> admission s (aw_cell w) v req = Ok a ->
  CreateVaultWithBoard (aw_store w) ok now now (input_of a hash pending) (ad_board a) = (st', r) ->
  extends w (set_store st' w) /\ (settled w -> r = Ok tt -> consumed_by st' hash v /\ forall p,
    restorable (aw_cell w) st' v (snapshot (publishEnrollmentAt p v (ad_id a) (pr_phone (ad_parsed a)) (Some (ad_savings a)) (Some (ad_snapshot a))) v)).
Proof.
  intros Hne Ha Hc. destruct (admit_admitted _ _ _ _ Hne Ha) as (key & phone & cred & k & tree & A).
  destruct (am_credential _ _ _ _ _ _ _ _ A) as (Hid & Hmac & _).
  assert (Hrid : v_VaultID (ad_record a) = v) by (pose proof (am_record _ _ _ _ _ _ _ _ A) as (_ & q & _ & ->)%Seal_Ok; done).
  assert (Hcid : c_VaultID (ad_credential a) = v) by (pose proof (am_passkey _ _ _ _ _ _ _ _ A) as (_ & q & _ & ->)%Seal_Ok; done).
  assert (Hbid : be_VaultID (ad_board a) = v) by (pose proof (am_board _ _ _ _ _ _ _ _ A) as (_ & q & _ & ->)%Seal_Ok; done).
  assert (X : settled w -> (st' = aw_store w /\ exists e, r = Err e) \/ exists row, created (aw_store w) (input_of a hash pending) (Some (ad_board a)) st' row).
  { intros Hs. destruct (createVault_cases _ _ _ _ _ _ _ _ Hc (wf_enrolled _ Hs)) as [?|(_ & _ & row & C)]; [by left|right; by exists row]. }
  assert (New : forall row, settled w -> created (aw_store w) (input_of a hash pending) (Some (ad_board a)) st' row -> forall p,
    restorable (aw_cell w) st' v (snapshot (publishEnrollmentAt p v (ad_id a) (pr_phone (ad_parsed a)) (Some (ad_savings a)) (Some (ad_snapshot a))) v)).
  { intros row Hs C p. eapply created_restores; try done; apply Hs. }
  assert (Used : forall row, created (aw_store w) (input_of a hash pending) (Some (ad_board a)) st' row -> consumed_by st' hash v).
  { intros row C. eexists. rewrite (cd_invites _ _ _ _ _ C). simpl. rewrite lookup_insert_eq, Hrid. done. }
  assert (Old : forall row, created (aw_store w) (input_of a hash pending) (Some (ad_board a)) st' row -> forall v' snap,
    restorable (aw_cell w) (aw_store w) v' snap -> restorable (aw_cell w) st' v' snap).
  { intros row C v' snap. apply (created_kept _ _ _ _ _ _ _ _ C); simpl; congruence. }
  split; [split; [done|..]|].
  - intros Hs. destruct (X Hs) as [[-> _]|[row C]]; [by destruct Hs; split|]. split; simpl.
    + eapply created_enrolled; [exact C|apply Hs].
    + rewrite (created_key _ _ _ _ _ _ C). apply Hs.
    + intros v' Hv'. unfold vault_exists in Hv'. destruct (created_vault _ _ _ _ _ C) as [_ Hv]. rewrite Hv in Hv'. simpl in Hv'. rewrite Hrid in Hv'.
      destruct (decide (v' = v)) as [->|Hd]; [eexists; exact (New row Hs C None)|]. rewrite lookup_insert_ne in Hv' by done.
      destruct (wf_vaults _ Hs v' Hv') as [snap Hsnap]. exists snap. by eapply Old.
  - intros Hs v' snap Hr. destruct (X Hs) as [[-> _]|[row C]]; [done|]. by eapply Old.
  - intros Hs h v' (row' & Hr & Hv'). destruct (X Hs) as [[-> _]|[row C]]; [by exists row'|]. exists row'. simpl. rewrite (cd_invites _ _ _ _ _ C).
    rewrite lookup_insert_ne; [done|]. intros <-. pose proof (cd_invite _ _ _ _ _ C) as Hi. rewrite Hr in Hi. injection Hi as ->.
    pose proof (cd_unused _ _ _ _ _ C). congruence.
  - intros Hs ->. destruct (X Hs) as [[_ [e ?]]|[row C]]; [done|]. split; [by eapply Used|by apply (New row)].
Qed.

(** ** The handlers *)

Section handlers.
Context (o : AppOutside) (Hothers : forall n w, extends w (app_others o n w)).

Lemma others_extend n w : extends w (advance (app_others o n w)).
Proof using Hothers. etrans; [apply Hothers|]. by apply extends_same. Qed.

Lemma read_extends {A} (f : AppWorld -> result A) : keeps extends (app_read o f).
Proof using Hothers. intros w r w' E. unfold app_read, app_access in E. injection E as _ <-. apply others_extend. Qed.

Lemma read_run {A} (f : AppWorld -> result A) w r w' : app_read o f w = Some (r, w') -> extends w w' /\ f w' = r.
Proof using Hothers. intros E. split; [exact (read_extends _ _ _ _ E)|]. unfold app_read, app_access in E. by injection E as <- <-. Qed.

Lemma store_run {A} (f : bool -> Z -> Store -> Store * result A) w r w' : store_call o f w = Some (r, w') ->
  exists w2 st', extends w w2 /\ f (app_commit o (aw_step w)) (aw_now w2) (aw_store w2) = (st', r) /\ w' = set_store st' w2.
Proof using Hothers.
  unfold store_call, app_access. set (w2 := advance _). destruct (f _ _ _) as [st' r2] eqn:E. intros [= <- <-]. exists w2, st'. split; [apply others_extend|done].
Qed.

Lemma orElse_Ok {A} e (m : M AppWorld A) w a w' : orElse e m w = Some (Ok a, w') -> m w = Some (Ok a, w').
Proof using Type. intros (r & w1 & E%try_Ok & F)%bindM_Ok. destruct r; [|done]. by injection F as <- <-. Qed.

Lemma orElse_extends {A} e (m : M AppWorld A) : keeps extends m -> keeps extends (orElse e m).
Proof using Type. intros Hm. unfold orElse. keeps. Qed.

#[local] Hint Resolve read_extends orElse_extends : keeps.

(** A creation keeps every vault, and what it publishes is what a restart
    rebuilds. *)
Lemma create_run v hash req pending w r w' : createTenantVault s o v hash req pending w = Some (r, w') ->
  extends w w' /\ (settled w -> r = Ok tt -> consumed_by (aw_store w') hash v /\
    (exists w1 a, extends w w1 /\ admission s (aw_cell w1) v req = Ok a) /\ restorable (aw_cell w') (aw_store w') v (snapshot (aw_published w') v)).
Proof.
  intros E. unfold createTenantVault in E.
  apply bindM_inv in E as [([] & w0 & [_ ->]%lift_Ok & E)|(e & -> & [= _ ->])]; [|by split].
  apply bindM_inv in E as [([] & w0 & [Hv%negb_true_iff%seqb_false ->]%check_Ok & E)|(e & -> & [= _ ->])]; [|by split].
  apply bindM_inv in E as [([] & w0 & [_ ->]%check_Ok & E)|(e & -> & [= _ ->])]; [|by split].
  apply bindM_inv in E as [(a & w1 & [X1 Ha]%read_run & E)|(e & -> & [X1 _]%read_run)]; [|by split].
  assert (Y : forall r2 w3, store_call o (fun ok now st => CreateVaultWithBoard st ok now now (input_of a hash pending) (ad_board a)) w1 = Some (r2, w3) ->
    extends w w3 /\ (settled w -> r2 = Ok tt -> settled w3 /\ consumed_by (aw_store w3) hash v /\ forall p, restorable (aw_cell w3) (aw_store w3) v
      (snapshot (publishEnrollmentAt p v (ad_id a) (pr_phone (ad_parsed a)) (Some (ad_savings a)) (Some (ad_snapshot a))) v))).
  { intros r2 w3 (w2 & st' & X2 & Hc & ->)%store_run. rewrite <-(ex_cell _ _ X2) in Ha. destruct (create_step v req a hash pending _ _ _ _ _ Hv Ha Hc) as [X3 Hnew].
    split; [etrans; [exact X1|etrans; [exact X2|exact X3]]|]. intros Hs Hr. assert (Hs2 : settled w2) by (apply X2, X1; exact Hs).
    split; [apply X3; exact Hs2|exact (Hnew Hs2 Hr)]. }
  apply bindM_inv in E as [([] & w3 & [X Hnew]%Y & E)|(e & -> & [X _]%Y)]; [|by split]. clear Y.
  apply bindM_inv in E as [(stored & w4 & [X4 _]%orElse_Ok%read_run & E)|(e & -> & Er)];
    [|split; [etrans; [exact X|]; exact (orElse_extends _ _ (read_extends _) _ _ _ Er)|done]].
  apply bindM_inv in E as [([] & w5 & [_ ->]%check_Ok & E)|(e & -> & [= _ <-])]; [|split; [by etrans|done]].
  unfold app_access in E. injection E as <- <-. set (w6 := advance (app_others o (aw_step w4) w4)).
  assert (X6 : extends w4 w6) by apply others_extend. assert (X46 : extends w3 w6) by (etrans; [exact X4|exact X6]).
  split; [etrans; [exact X|]; etrans; [exact X46|by apply extends_same]|]. intros Hs _. destruct (Hnew Hs eq_refl) as (Hs3 & Hu & Hr). split; [exact (ex_consumed _ _ X46 Hs3 _ _ Hu)|]. split; [by exists w1, a|].
  apply (ex_kept _ _ X46 Hs3). exact (Hr (aw_published w6)).
Qed.

(** A world seen by a request that started in [w] and only read so far: the
    others moved, at the request's accesses. *)
Definition app_sees : AppWorld -> AppWorld -> Prop := rtc (fun w w' => w' = advance (app_others o (aw_step w) w)).

Lemma access_seen w : app_sees w (advance (app_others o (aw_step w) w)).
Proof using Type. by apply rtc_once. Qed.

Lemma read_seen {A} (f : AppWorld -> result A) : keeps app_sees (app_read o f).
Proof using Type. intros w r w' E. unfold app_read, app_access in E. injection E as _ <-. apply access_seen. Qed.

Lemma app_read_sees {A} (f : AppWorld -> result A) w r w' : app_read o f w = Some (r, w') -> app_sees w w' /\ f w' = r.
Proof using Type. intros E. split; [exact (read_seen _ _ _ _ E)|]. unfold app_read, app_access in E. by injection E as <- <-. Qed.

Lemma orElse_seen {A} e (m : M AppWorld A) : keeps app_sees m -> keeps app_sees (orElse e m).
Proof using Type. intros Hm. unfold orElse. keeps. Qed.

Lemma seen_extends w w' : app_sees w w' -> extends w w'.
Proof using Hothers. induction 1 as [w|w w1 w' -> _ IH]; [done|]. etrans; [apply others_extend|exact IH]. Qed.

(** The one transaction of a creation, on the store as it then is, for a request
    that [admission] accepts. *)
Definition creation (v : string) (hash : bytes) (req : RegisterRequest) (pending : option PendingEnrollment) (w : AppWorld) (r : result unit)
    (w1 : AppWorld) : Prop := exists w2 w3 a ok st', app_sees w w2 /\ admission s (aw_cell w2) v req = Ok a /\ app_sees w2 w3 /\
  CreateVaultWithBoard (aw_store w3) ok (aw_now w3) (aw_now w3) (input_of a hash pending) (ad_board a) = (st', r) /\ w1 = set_store st' w3.

Lemma create_stages v hash req pending w r w' : createTenantVault s o v hash req pending w = Some (r, w') ->
  match r with
  | Ok _ => exists w1, creation v hash req pending w (Ok tt) w1 /\ extends w1 w'
  | Err _ => app_sees w w' \/ exists r1 w1, creation v hash req pending w r1 w1 /\ app_sees w1 w'
  end.
Proof using Hothers.
  intros E. unfold createTenantVault in E.
  apply bindM_inv in E as [([] & w0 & [_ ->]%lift_Ok & E)|(e & -> & [= _ ->])]; [|by left].
  apply bindM_inv in E as [([] & w0 & [_ ->]%check_Ok & E)|(e & -> & [= _ ->])]; [|by left].
  apply bindM_inv in E as [([] & w0 & [_ ->]%check_Ok & E)|(e & -> & [= _ ->])]; [|by left].
  apply bindM_inv in E as [(a & w1 & [X1 Ha]%app_read_sees & E)|(e & -> & [X1 _]%app_read_sees)]; [|by left].
  assert (Y : forall r2 w3, store_call o (fun ok now st => CreateVaultWithBoard st ok now now (input_of a hash pending) (ad_board a)) w1 = Some (r2, w3) ->
    creation v hash req pending w r2 w3).
  { intros r2 w3 E2. unfold store_call, app_access in E2. destruct (CreateVaultWithBoard _ _ _ _ _ _) as [st' r3] eqn:Ec. injection E2 as <- <-.
    eexists w1, _, a, _, st'. split_and!; [done|done|apply access_seen|exact Ec|done]. }
  apply bindM_inv in E as [([] & w3 & X%Y & E)|(e & -> & X%Y)]; [|right; by exists (Err e), w']. clear Y.
  apply bindM_inv in E as [(stored & w4 & E4 & E)|(e & -> & Er)]; [|right; exists (Ok tt), w3; split; [done|exact (orElse_seen _ _ (read_seen _) _ _ _ Er)]].
  apply bindM_inv in E as [([] & w5 & [_ ->]%check_Ok & E)|(e & -> & [= _ <-])]; [|right; exists (Ok tt), w3; split; [done|exact (orElse_seen _ _ (read_seen _) _ _ _ E4)]].
  unfold app_access in E. injection E as <- <-. exists w3. split; [done|].
  etrans; [exact (orElse_extends _ _ (read_extends _) _ _ _ E4)|]. etrans; [apply others_extend|]. by apply extends_same.
Qed.

Lemma ctx_extends : keeps extends (ctxErr o).
Proof using Hothers. intros w r w' E. unfold ctxErr, app_access in E. injection E as _ <-. apply others_extend. Qed.

#[local] Hint Resolve ctx_extends : keeps.

Lemma statusFor_extends v : keeps extends (statusFor s o v).
Proof using Hothers. unfold statusFor, ledgerIntegrity, loadCredential, loadEnvelope. keeps. Qed.

#[local] Hint Resolve statusFor_extends : keeps.

Lemma statusFor_id v w st w' : statusFor s o v w = Some (Ok st, w') -> su_VaultID st = v.
Proof using Type.
  intros (? & ? & _ & (? & ? & _ & (? & ? & _ & (cred & ? & _ & E)%bindM_Ok)%bindM_Ok)%bindM_Ok)%bindM_Ok. destruct cred as [cred|]; [|done].
  apply bindM_Ok in E as (? & ? & _ & (? & ? & _ & E)%bindM_Ok). cbv zeta in E. apply bindM_Ok in E as (? & ? & _ & (? & ? & _ & E)%bindM_Ok).
  apply bindM_Ok in E as (snap & ? & _ & (? & ? & _ & (? & ? & _ & E)%bindM_Ok)%bindM_Ok). injection E as <- _. unfold statusOf. by destruct (en_Savings snap).
Qed.

Lemma dup_extends v req : keeps extends (acceptDuplicateFinish s o v req).
Proof using Hothers. unfold acceptDuplicateFinish. keeps. Qed.

(** A stored vault that is the one this request would create. *)
Definition already (cell : fileBackedVaultKeys) (v : string) (req : RegisterRequest) (st : Store) : Prop := exists key rec vc board,
  credentialIntegrityKey (ap_IntegrityKey s) = Ok key /\ LoadVerifiedVault (st_tenants st) v key = Ok (Some rec, Some vc) /\
  sameEnrollment s cell v req rec vc board = Ok tt.

Lemma dup_run v req w st w' : acceptDuplicateFinish s o v req w = Some (Ok (Some st), w') -> su_VaultID st = v /\
  exists w1, app_sees w w1 /\ extends w1 w' /\ already (aw_cell w1) v req (aw_store w1).
Proof using Hothers.
  intros (r & w0 & E%try_Ok & F)%bindM_Ok. destruct r as [st1|]; [|done]. injection F as -> ->.
  apply bindM_Ok in E as (key & w1 & [Hk ->]%lift_Ok & ([rec vc] & w2 & [X2 HL]%app_read_sees & E)%bindM_Ok). destruct rec as [rec|]; [|done]. destruct vc as [vc|]; [|done].
  apply bindM_Ok in E as (board & w3 & [X3 _]%read_run & ([] & w4 & [X4 Hsame]%read_run & E)%bindM_Ok). split; [by eapply statusFor_id|].
  exists w2. split; [done|]. split; [etrans; [exact X3|etrans; [exact X4|exact (statusFor_extends _ _ _ _ E)]]|].
  exists key, rec, vc, board. split; [done|]. split; [done|]. rewrite <-(ex_cell _ _ X3), <-(ex_cell _ _ X4). exact Hsame.
Qed.

Lemma dup_token_run hash req w st w' : acceptDuplicateFinishFromToken s o hash req w = Some (Ok (Some st), w') ->
  exists inv w0 w1, app_sees w w0 /\ GetInvite (aw_store w0) hash = Ok (Some inv) /\ iv_ConsumedVaultID inv = su_VaultID st /\
    decodeHex (fq_UserHandle req) = Ok (bytes_of (su_VaultID st)) /\ app_sees w0 w1 /\
    already (aw_cell w1) (su_VaultID st) (fq_Register req) (aw_store w1) /\ extends w1 w'.
Proof using Hothers.
  intros (inv & w0 & [X0 Hi]%try_Ok%app_read_sees & E)%bindM_Ok. destruct inv as [[inv|]|]; try done.
  destruct (seqb _ _); [done|]. destruct (decodeHex _) as [uh|] eqn:Eu; [|done]. destruct (beqb _ _) eqn:Eb; [|done]. apply beqb_true in Eb as <-.
  apply dup_run in E as (Hid & w1 & X1 & X1' & Ha). exists inv, w0, w1. by rewrite Hid.
Qed.

Lemma decodeHex_posted encoded want e : requirePosted encoded want e = Ok tt -> decodeHex encoded = Ok want.
Proof using Type. unfold requirePosted. destruct (decodeHex encoded); [|done]. by intros ->%require_Ok%beqb_true. Qed.

(** What the ceremony established: the passkey of the request is the one the
    authenticator created for the pending challenge, at the pinned origin, for
    the assigned vault, with the tier and policy of the invite. *)
Record ceremony (pending : PendingEnrollment) (now : Z) (req : EnrollFinishRequest) (created : CreateResult) : Prop := {
  ce_created : exists clientData authData, decodeHex (fq_ClientDataJSON req) = Ok clientData /\ decodeHex (fq_AuthenticatorData req) = Ok authData /\
    ValidateCreate clientData authData (pe_Challenge pending) (cfg_ClientOrigin (ap_Config s)) (cfg_RPID (ap_Config s)) = Ok created;
  ce_user : decodeHex (fq_UserHandle req) = Ok (bytes_of (pe_VaultID pending));
  ce_passkey : decodeHex (rg_CredentialID (fq_Register req)) = Ok (cr_CredentialID created) /\
    decodeHex (rg_WebAuthnP256 (fq_Register req)) = Ok (cr_WebAuthnP256 created);
  ce_tier : pe_ProtectionTier pending = rg_ProtectionTier (fq_Register req);
  ce_policy : requireSpendingPolicyDigest (cfg_Network (ap_Config s)) (rg_SpendingPolicy (fq_Register req)) (rg_SpendingPolicyDigest (fq_Register req)) =
    Ok (pe_PolicyDigest pending);
  ce_live : pendingExpired pending now = false
}.

Lemma checkCeremony_Ok pending now req : checkCeremony s pending now req = Ok tt -> exists created, ceremony pending now req created.
Proof using Type.
  intros ([] & ([] & _ & Ht%require_Ok%seqb_true)%bind_Ok & ([] & (dg & Hd & Hdg%require_Ok%beqb_true)%bind_Ok & ([] & Hx%require_Ok & E)%bind_Ok)%bind_Ok)%bind_Ok.
  apply bind_Ok in E as (cd & Hcd%wrap_Ok & (ad & Had%wrap_Ok & ([] & _ & (created & Hc%wrap_Ok & E)%bind_Ok)%bind_Ok)%bind_Ok).
  apply bind_Ok in E as (uh & Hu%wrap_Ok & ([] & Hv%require_Ok%beqb_true & ([] & Hp1%decodeHex_posted & ([] & Hp2%decodeHex_posted & _)%bind_Ok)%bind_Ok)%bind_Ok).
  exists created. apply negb_true_iff in Hx. constructor; try done; [by exists cd, ad|by rewrite Hv|by rewrite Hdg].
Qed.

(** The ceremony stored under the handle of the request is one of the token's
    invite, for [v], and was verified, at the time of the clock, in [w1]. *)
Definition verified_ceremony (token : string) (req : EnrollFinishRequest) (v : string) (w : AppWorld) (hash : bytes) (pending : PendingEnrollment)
    (w1 : AppWorld) : Prop := exists created w0,
  HashEnrollmentToken token = Ok hash /\ app_sees w w0 /\ GetPendingByHandle (aw_store w0) (fq_Handle req) = Ok (Some pending) /\
  pe_TokenHash pending = hash /\ pe_VaultID pending = v /\ app_sees w0 w1 /\ ceremony pending (aw_now w1) req created.

(** A fresh enrollment: after that ceremony the transaction that creates the
    vault, on the store as it is at that moment, and uses the invite up. *)
Definition by_invite (token : string) (req : EnrollFinishRequest) (v : string) (w w' : AppWorld) : Prop := exists hash pending w1 w2,
  verified_ceremony token req v w hash pending w1 /\ creation v hash (fq_Register req) (Some pending) w1 (Ok tt) w2 /\ extends w2 w' /\
  consumed_by (aw_store w') hash v.

(** A repeated one: the stored vault is the one it would create.  Either the
    token's invite was seen consumed by that vault, or its ceremony was verified
    and the creation refused. *)
Definition repeated (token : string) (req : EnrollFinishRequest) (v : string) (w w' : AppWorld) : Prop := exists hash w1,
  HashEnrollmentToken token = Ok hash /\
  ((exists inv w0, app_sees w w0 /\ GetInvite (aw_store w0) hash = Ok (Some inv) /\ iv_ConsumedVaultID inv = v /\
      decodeHex (fq_UserHandle req) = Ok (bytes_of v) /\ app_sees w0 w1) \/
   (exists pending w2, verified_ceremony token req v w hash pending w2 /\
      (app_sees w2 w1 \/ exists r w3, creation v hash (fq_Register req) (Some pending) w2 r w3 /\ app_sees w3 w1))) /\
  extends w w1 /\ already (aw_cell w1) v (fq_Register req) (aw_store w1) /\ extends w1 w'.

Lemma orDuplicate_Ok e dup w st w' : orDuplicate e dup w = Some (Ok st, w') -> dup w = Some (Ok (Some st), w').
Proof using Type. intros (d & w1 & E & F)%bindM_Ok. destruct d; [|done]. by injection F as -> ->. Qed.

Lemma finish_Ok token req w st w' : settled w -> FinishEnrollment s o token req w = Some (Ok st, w') -> extends w w' /\
  ((by_invite token req (su_VaultID st) w w' /\ exists snap, restorable (aw_cell w') (aw_store w') (su_VaultID st) snap) \/ repeated token req (su_VaultID st) w w').
Proof.
  intros Hs ([] & w1 & [X1 _]%app_read_sees & (hash & w2 & [Hh ->]%orElse_Ok%lift_Ok & (pending & w3 & [X3 Hp]%orElse_Ok%app_read_sees & E)%bindM_Ok)%bindM_Ok)%bindM_Ok.
  assert (X : app_sees w w3) by (etrans; [exact X1|exact X3]). pose proof (seen_extends _ _ X) as Y. destruct pending as [pending|].
  - apply bindM_Ok in E as ([] & w4 & [Ht%beqb_true ->]%check_Ok & (now & w5 & [X5 [= <-]]%app_read_sees & ([] & w6 & [Hc ->]%lift_Ok & E)%bindM_Ok)%bindM_Ok).
    apply checkCeremony_Ok in Hc as [created Hc]. apply bindM_Ok in E as (r & w7 & E7%try_Ok & E).
    pose proof (create_stages _ _ _ _ _ _ _ E7) as Hst. apply create_run in E7 as [X7 Hnew].
    assert (X05 : app_sees w w5) by (etrans; [exact X|exact X5]).
    assert (Hv : verified_ceremony token req (pe_VaultID pending) w hash pending w5) by (exists created, w3; done).
    pose proof (seen_extends _ _ X05) as Y5. destruct r as [[]|e].
    + pose proof (statusFor_extends _ _ _ _ E) as X8. apply statusFor_id in E as ->. assert (Hs5 : settled w5) by (by apply Y5).
      destruct (Hnew Hs5 eq_refl) as (Hu & _ & Hr). assert (Hs7 : settled w7) by (by apply X7). split; [etrans; [exact Y5|etrans; [exact X7|exact X8]]|].
      left. split; [|eexists; exact (ex_kept _ _ X8 Hs7 _ _ Hr)]. destruct Hst as (w8 & Hcr & X87). rewrite Ht in Hcr.
      exists hash, pending, w5, w8. split; [exact Hv|]. split_and!; [done|etrans; [exact X87|exact X8]|].
      rewrite <-Ht. exact (ex_consumed _ _ X8 Hs7 _ _ Hu).
    + apply orDuplicate_Ok in E. pose proof (dup_extends _ _ _ _ _ E) as X8. apply dup_run in E as (-> & w8 & X78 & X8' & Ha).
      assert (X07 : extends w w7) by (etrans; [exact Y5|exact X7]). split; [by etrans|]. right. exists hash, w8.
      split; [done|]. split; [|split; [etrans; [exact X07|by apply seen_extends]|done]]. right. exists pending, w5. split; [exact Hv|].
      destruct Hst as [X57|(r1 & w9 & Hcr & X97)]; [left; etrans; [exact X57|exact X78]|]. rewrite Ht in Hcr.
      right. exists r1, w9. split; [done|]. etrans; [exact X97|exact X78].
  - apply orDuplicate_Ok, dup_token_run in E as (inv & w4 & w5 & X4 & Hi & Hc & Hu & X5 & Ha & X6).
    assert (X04 : app_sees w w4) by (etrans; [exact X|exact X4]). assert (X05 : app_sees w w5) by (etrans; [exact X04|exact X5]).
    split; [etrans; [by apply seen_extends|exact X6]|]. right. exists hash, w5. split; [done|]. split; [left; by exists inv, w4|]. split; [by apply seen_extends|done].
Qed.

Lemma admit_preview cell v req a : admission s cell v req = Ok a -> exists preview,
  previewVaultBoardEnrollmentDescriptor s cell v req = Ok preview /\ pe_DescriptorHash preview = rg_DescriptorHash req.
Proof using Type.
  intros (base & _ & (p0 & _ & (p & _ & (preview & Hp & ([] & Hd%require_Ok & _)%bind_Ok)%bind_Ok)%bind_Ok)%bind_Ok)%bind_Ok.
  exists preview. split; [done|]. by apply andb_true_iff in Hd as [_ ->%seqb_true].
Qed.

Lemma same_preview cell v req rec vc board : sameEnrollment s cell v req rec vc board = Ok tt -> exists preview,
  previewVaultBoardEnrollmentDescriptor s cell v req = Ok preview /\ pe_DescriptorHash preview = rg_DescriptorHash req.
Proof using Type.
  intros (p0 & _ & (p & _ & (preview & Hp & ([] & Hd%require_Ok & _)%bind_Ok)%bind_Ok)%bind_Ok)%bind_Ok.
  exists preview. split; [done|]. by apply andb_true_iff in Hd as [_ ->%seqb_true].
Qed.

Lemma already_vault cell v req st : already cell v req st -> vault_exists st v.
Proof using Type.
  intros (key & rec & vc & board & _ & HL & _). unfold LoadVerifiedVault, LoadVault in HL. unfold vault_exists.
  destruct (tn_vault (st_tenants st) !! v) as [r|]; [by eexists|]. apply bind_Ok in HL as ([r c] & ([] & _ & [= <- <-])%bind_Ok & HL2). done.
Qed.


(** [C8] A created vault survives a restart: after a successful creation, a
    service started on that store and those keys publishes, for the new vault,
    exactly the keys, scripts and addresses that the creation published, and
    restores every other stored vault. *)
Theorem creation_survives_restart v hash req pending w w' o2 w2 : settled w -> createTenantVault s o v hash req pending w = Some (Ok tt, w') ->
  quiet o2 -> aw_store w2 = aw_store w' -> aw_cell w2 = aw_cell w' ->
  exists w3, LoadVaults s o2 w2 = Some (Ok tt, w3) /\ snapshot (aw_published w3) v = snapshot (aw_published w') v /\
    forall v' snap, restorable (aw_cell w) (aw_store w) v' snap -> snapshot (aw_published w3) v' = snap.
Proof.
  intros Hs E Hq Est Ece. assert (Hc : Config_Validate (ap_Config s) = Ok tt).
  { pose proof E as ([] & ? & [Hc%wrap_Ok _]%lift_Ok & _)%bindM_Ok. done. }
  destruct (create_run _ _ _ _ _ _ _ E) as [X Hnew]. destruct (Hnew Hs eq_refl) as (_ & _ & Hr). assert (Hs' : settled w') by (by apply X).
  destruct (load_run o2 w2 Hq Hc) as (w3 & El & _ & Hv & _); rewrite ?Est, ?Ece; [by apply Hs'|by apply Hs'|].
  rewrite Est, Ece in Hv. exists w3. split; [done|].
  assert (Hall : forall v' snap, restorable (aw_cell w') (aw_store w') v' snap -> snapshot (aw_published w3) v' = snap).
  { intros v' snap [Hr' _]. pose proof (Hv _ (restore_vault _ _ _ _ Hr')) as Hp. rewrite Hr' in Hp. by injection Hp. }
  split; [by apply Hall|]. intros v' snap Hr'. apply Hall. by apply (ex_kept _ _ X Hs).
Qed.
End handlers.
End enrollment.
