(* ===== verification/EnrollDemo.v ===== *)
(** * Enrollment: a concrete ceremony

    The vault of [RecoveryDemo] from the start: an issued invite, its pending
    ceremony, the passkey's attestation, and the store that the theorems of
    [EnrollSafety] are applied to. *)

From S2P Require Import Prelude Crypto Codec GoTime Program Vtxo Ledger Recovery BoardRows VaultBoard Tenant Enrollment Apperr Json WebAuthn Psbt SpendVerify KeyProvider Trees Savings Service Deployment Register Effects Session RecoverySafety RecoveryDemo EnrollService EnrollSafety.
From Stdlib Require Import Strings.Byte Strings.Ascii Strings.String.
From stdpp Require Import base decidable list strings gmap option.
From Stdlib Require Import ZArith Lia.
Open Scope string_scope.
Open Scope list_scope.
Open Scope Z_scope.

#[local] Existing Instances rd_text rd_numbers demo_btc demo_arkade demo_ark demo_arklib demo_savings demo_checkpoint.

(** ** The key encodings *)

Lemma ed_parse k : ParsePubKey (SerializeCompressed k) = Ok k.
Proof.
  change (Ok (rd_unpoint (rd_point k)) = Ok k). f_equal. unfold rd_point, rd_short. destruct (_ && _) eqn:E; simpl rd_unpoint.
  - apply andb_true_iff in E as [E1%Z.leb_le E2%Z.ltb_lt]. apply be_val_be_bytes_small. change (256 ^ Z.of_nat 32) with (2 ^ 256). lia.
  - assert (Hs : be_val (be_bytes (Z.to_nat (Z.abs k)) (Z.abs k)) = Z.abs k).
    { apply be_val_be_bytes_small. rewrite Z2Nat.id by lia. split; [lia|]. apply Z.pow_gt_lin_r; lia. }
    destruct (Z.ltb_spec k 0); simpl; rewrite Hs; lia.
Qed.

Lemma ed_nonempty k : 0 < zlen (SerializeCompressed k).
Proof. change (0 < zlen (rd_point k)). unfold rd_point, zlen. destruct (rd_short k); simpl length; lia. Qed.

(** ** The ceremony *)

Definition ed_raw : bytes := replicate 32 x07.
Definition ed_token : string := string_of_list_byte (b64_encode ed_raw).
Definition ed_hash : bytes := Eval vm_compute in sha256 ed_raw.
Definition ed_digest : bytes := Eval vm_compute in
  match SpendingPolicyDigestFor NetworkMutinynet rd_policy with Ok d => d | Err _ => [] end.
Definition ed_pending : PendingEnrollment :=
  MkPending "handle" "vault-a" ed_hash (rd_challenge x06) "standard" ed_digest (formatRFC3339 (10 * minute)) (formatRFC3339 0).
Definition ed_empty : Store :=
  MkStore (MkLedger (MkDatabase ∅ ∅ ∅ ∅ ∅ ∅ ∅ ∅ ∅) NetworkMutinynet Vtxo.example_key None None) (MkTenants ∅ ∅ ∅ ∅) ∅ ∅ ∅.
Definition ed_issued := Enrollment.IssueEnrollmentSession ed_empty true ed_hash 0.
Definition ed_reserved := ReservePendingEnrollment ed_issued.1 true ed_pending.
Definition ed_world : AppWorld := MkAppWorld ed_reserved.1 0 None (Some 1) 0 ∅ ∅ 0.

Definition ed_auth_data : bytes := Eval vm_compute in
  match AttestedAuthenticatorDataPRF "vault.example" [x01] WebAuthn.example_key with Ok a => a | Err _ => [] end.
Definition ed_client_data : bytes :=
  [x7b] ++ quoted (bytes_of "type") ++ [x3a] ++ quoted (bytes_of "webauthn.create") ++
  [x2c] ++ quoted (bytes_of "challenge") ++ [x3a] ++ quoted (bytes_of (EncodeChallenge (rd_challenge x06))) ++
  [x2c] ++ quoted (bytes_of "origin") ++ [x3a] ++ quoted (bytes_of "https://vault.example") ++
  [x2c] ++ quoted (bytes_of "crossOrigin") ++ [x3a] ++ bytes_of "false" ++ [x7d].

Definition ed_request (descriptor : string) : RegisterRequest :=
  MkRegisterRequest (hex_encode [x01]) (hex_encode WebAuthn.example_key) (hex_encode rd_direct) (hex_encode (rd_point 5)) VaultBoardV1
    (hex_encode (be_bytes 32 11)) (hex_encode (be_bytes 32 7)) "" "" "vault-a" descriptor "standard" rd_policy (hex_encode ed_digest).
(** The hash that [ProposeEnrollment] shows to the user. *)
Definition ed_descriptor : string := Eval vm_compute in
  match previewVaultBoardEnrollmentDescriptor rd_vaults (Some 1) "vault-a" (ed_request "") with Ok p => pe_DescriptorHash p | Err _ => "" end.
Definition ed_finish : EnrollFinishRequest :=
  MkFinishRequest "handle" (hex_encode (bytes_of "vault-a")) (hex_encode ed_client_data) (hex_encode ed_auth_data) "" (ed_request ed_descriptor).

(** ** The store before the ceremony *)

Lemma ed_fresh : store_fresh ed_empty.
Proof. split_and!; reflexivity. Qed.

Lemma ed_run : rtc estep ed_empty ed_reserved.1.
Proof.
  eapply rtc_l; [exact (es_issue _ _ _ _ _ _ (surjective_pairing ed_issued))|].
  apply rtc_once. exact (es_reserve _ _ _ _ _ (surjective_pairing ed_reserved)).
Qed.

Lemma ed_settled : settled rd_vaults ed_world.
Proof.
  constructor.
  - destruct (esteps_kept _ _ ed_run (store_fresh_enrolled _ ed_fresh)) as [E _]. exact E.
  - vm_compute. reflexivity.
  - intros v [r Hr]. exfalso. assert (Hnone : tn_vault (st_tenants ed_reserved.1) = ∅) by (vm_compute; reflexivity).
    change (tn_vault (st_tenants ed_reserved.1) !! v = Some r) in Hr. rewrite Hnone, lookup_empty in Hr. discriminate Hr.
Qed.

Lemma ed_others n w : extends rd_vaults w (app_others rd_outside n w).
Proof. by split. Qed.

(** ** The finished ceremony *)

Lemma ed_finishes : exists st w', FinishEnrollment rd_vaults rd_outside ed_token ed_finish ed_world = Some (Ok st, w') /\ su_VaultID st = "vault-a".
Proof.
  assert (E : match FinishEnrollment rd_vaults rd_outside ed_token ed_finish ed_world with
              | Some (Ok st, _) => seqb (su_VaultID st) "vault-a" | _ => false end = true) by (vm_compute; reflexivity).
  destruct (FinishEnrollment _ _ _ _ _) as [[[st|e] w']|]; [|discriminate..]. exists st, w'. split; [reflexivity|]. by apply seqb_true in E.
Qed.


Lemma ed_creates : exists w', createTenantVault rd_vaults rd_outside "vault-a" ed_hash (ed_request ed_descriptor) (Some ed_pending) ed_world = Some (Ok tt, w').
Proof.
  assert (E : match createTenantVault rd_vaults rd_outside "vault-a" ed_hash (ed_request ed_descriptor) (Some ed_pending) ed_world with
              | Some (Ok _, _) => true | _ => false end = true) by (vm_compute; reflexivity).
  destruct (createTenantVault _ _ _ _ _ _ _) as [[[[]|e] w']|]; [|discriminate..]. by exists w'.
Qed.

Lemma ed_quiet : quiet rd_outside.
Proof. by intros n w. Qed.

Lemma creation_survives_restart_witness : exists w' w3,
  createTenantVault rd_vaults rd_outside "vault-a" ed_hash (ed_request ed_descriptor) (Some ed_pending) ed_world = Some (Ok tt, w') /\
  LoadVaults rd_vaults rd_outside (set_published None w') = Some (Ok tt, w3) /\ snapshot (aw_published w3) "vault-a" = snapshot (aw_published w') "vault-a".
Proof.
  destruct ed_creates as [w' E].
  destruct (creation_survives_restart rd_vaults ed_parse ed_nonempty rd_outside ed_others "vault-a" ed_hash (ed_request ed_descriptor)
              (Some ed_pending) ed_world w' rd_outside (set_published None w') ed_settled E ed_quiet eq_refl eq_refl) as (w3 & El & Es & _).
  exists w', w3. exact (conj E (conj El Es)).
Defined.
